(** * CoinRun (MUGEN) simulation core: a shallow embedding of [coinrun.cpp]

    The development follows the C++ source function by function:
    the tile alphabet and its predicates, the seeded generator [RandGen]
    (a [std::mt19937]), the [Maze] grid, the procedural level generator
    [RandomMazeGenerator], the [Agent] pick-up and sub-step code, the
    monster/agent collision of the stepping thread and the vectorised
    submit/wait interface.

    Numeric conventions.
    - C [int] values are [Z].  Tile coordinates, loop counters and lengths
      stay far below 2^31 (the grid is 64 x 13), so they are written
      without reduction; the coin counter and everything produced by the
      random generator is reduced explicitly ([wrap32], [u32]).
    - C [float] is IEEE binary32 and C [double] is IEEE binary64, both
      taken from the standard library's executable specification
      [SpecFloat] (round to nearest even).
    - A tile is stored as the [int] code of its character. *)

From Stdlib Require Import ZArith Bool Lia Ascii String.
From Stdlib Require Import Floats.SpecFloat.
From stdpp Require Import base list gmap.

Open Scope Z_scope.

(** ** Machine integers *)

Definition u32 (x : Z) : Z := x mod 2^32.

Definition wrap32 (x : Z) : Z := (x + 2^31) mod 2^32 - 2^31.

Definition INT_MIN : Z := - 2^31.

(** ** Floating point: [float] and [double] *)

Module Fl.

Definition float := spec_float.
Definition double := spec_float.

(** double operations *)
Definition dadd : double -> double -> double := SFadd 53 1024.
Definition dsub : double -> double -> double := SFsub 53 1024.
Definition dmul : double -> double -> double := SFmul 53 1024.
Definition ddiv : double -> double -> double := SFdiv 53 1024.

(** float operations *)
Definition fadd : float -> float -> float := SFadd 24 128.
Definition fsub : float -> float -> float := SFsub 24 128.
Definition fmul : float -> float -> float := SFmul 24 128.
Definition fdiv : float -> float -> float := SFdiv 24 128.

(** conversions; [int] to floating point rounds, [float] to [double]
    is exact (the same value is brought into the canonical form of the
    wider format, on which the comparisons rely), [double] to [float]
    rounds *)
Definition d_of_int (n : Z) : double := binary_normalize 53 1024 n 0 false.
Definition f_of_int (n : Z) : float := binary_normalize 24 128 n 0 false.
Definition d_of_f (x : float) : double :=
  match x with
  | S754_finite s m e => binary_round 53 1024 s m e
  | _ => x
  end.
Definition f_of_d (x : double) : float :=
  match x with
  | S754_finite s m e => binary_round 24 128 s m e
  | _ => x
  end.

(** [int(x)]: truncation toward zero; a value that does not fit (or a
    NaN) gives the "integer indefinite" value of the x86-64 conversion
    instruction. *)
Definition to_int (x : spec_float) : Z :=
  match x with
  | S754_zero _ => 0
  | S754_finite s m e =>
      let a := if 0 <=? e then Z.shiftl (Zpos m) e
               else Z.shiftr (Zpos m) (- e) in
      let v := if s then - a else a in
      if (INT_MIN <=? v) && (v <? 2^31) then v else INT_MIN
  | _ => INT_MIN
  end.

(** comparisons (false on NaN, as in C) *)
Definition lt (x y : spec_float) : bool := SFltb x y.
Definition gt (x y : spec_float) : bool := SFltb y x.
Definition eq (x y : spec_float) : bool := SFeqb x y.
Definition ne (x y : spec_float) : bool := negb (SFeqb x y).
Definition fabs (x : spec_float) : spec_float := SFabs x.
Definition fneg (x : spec_float) : spec_float := SFopp x.

(** decimal literals: [dlit n d] is the double nearest to n/d, which is
    what the compiler produces for a literal such as [0.08]; [flit] is
    that double stored into a [float]. *)
Definition dlit (n d : Z) : double := ddiv (d_of_int n) (d_of_int d).
Definition flit (n d : Z) : float := f_of_d (dlit n d).

Definition fzero : float := S754_zero false.

(** [clip_abs] *)
Definition clip_abs (x y : float) : float :=
  if gt x y then y else if lt x (fneg y) then fneg y else x.

(** [sign], on doubles *)
Definition sign (x : double) : double :=
  if gt x fzero then d_of_int 1
  else if eq x fzero then d_of_int 0 else d_of_int (-1).

End Fl.

Arguments Fl.dadd : simpl never.
Arguments Fl.dsub : simpl never.
Arguments Fl.dmul : simpl never.
Arguments Fl.ddiv : simpl never.
Arguments Fl.fadd : simpl never.
Arguments Fl.fsub : simpl never.
Arguments Fl.fmul : simpl never.
Arguments Fl.fdiv : simpl never.
Arguments Fl.d_of_int : simpl never.
Arguments Fl.f_of_int : simpl never.
Arguments Fl.f_of_d : simpl never.
Arguments Fl.d_of_f : simpl never.
Arguments Fl.to_int : simpl never.
Arguments Fl.lt : simpl never.
Arguments Fl.gt : simpl never.
Arguments Fl.eq : simpl never.
Arguments Fl.ne : simpl never.
Arguments Fl.dlit : simpl never.
Arguments Fl.flit : simpl never.
Arguments Fl.clip_abs : simpl never.
Arguments Fl.sign : simpl never.
Arguments wrap32 : simpl never.
Arguments u32 : simpl never.

(** ** Tile alphabet *)

Definition chr (c : ascii) : Z := Z.of_N (N_of_ascii c).

Definition SPACE : Z := Eval cbv in chr ".".
Definition LADDER : Z := Eval cbv in chr "=".
Definition LAVA_SURFACE : Z := Eval cbv in chr "^".
Definition LAVA_MIDDLE : Z := Eval cbv in chr "|".
Definition WALL_SURFACE : Z := Eval cbv in chr "S".
Definition WALL_MIDDLE : Z := Eval cbv in chr "A".
Definition COIN_OBJ1 : Z := Eval cbv in chr "1".
Definition COIN_OBJ2 : Z := Eval cbv in chr "2".
Definition SPIKE_OBJ : Z := Eval cbv in chr "P".
Definition FLYING_MONSTER : Z := Eval cbv in chr "F".
Definition WALKING_MONSTER : Z := Eval cbv in chr "M".
Definition GROUND_MONSTER : Z := Eval cbv in chr "G".
(** the characters the generator uses without a named constant *)
Definition TRACE : Z := Eval cbv in chr " ".
Definition CLIFF_a : Z := Eval cbv in chr "a".
Definition CLIFF_b : Z := Eval cbv in chr "b".
Definition CRATE : Z := Eval cbv in chr "#".

Definition is_crat (c : Z) : bool :=
  (c =? chr "#") || (c =? chr "$") || (c =? chr "&") || (c =? chr "%").

Definition is_wall (c : Z) (crate_counts : bool) : bool :=
  let wall := (c =? chr "S") || (c =? chr "A") || (c =? chr "a")
              || (c =? chr "b") || (c =? chr "a") in
  if crate_counts then wall || is_crat c else wall.

Definition is_lethal (c : Z) : bool :=
  (c =? LAVA_SURFACE) || (c =? LAVA_MIDDLE) || (c =? SPIKE_OBJ).

Definition is_coin (c : Z) : bool := c =? COIN_OBJ1.

Definition is_gem (c : Z) : bool := c =? COIN_OBJ2.

(** ** Constants of the source *)

Definition NUM_ACTIONS : Z := 7.

Definition DISCRETE_ACTIONS : list Z :=
  [ 0; 0;  1; 0;  -1; 0;  0; 1;  1; 1;  -1; 1;  0; -1 ].

Definition DEATH_ANIM_LENGTH : Z := 30.
Definition FINISHED_LEVEL_ANIM_LENGTH : Z := 20.
Definition MONSTER_DEATH_ANIM_LENGTH : Z := 2.
Definition MONSTER_TRAIL : nat := 14.

Definition GRAVITY : Fl.float := Fl.flit 8 100.
Definition MAX_JUMP : Fl.float := Fl.flit 9 10.
Definition MAX_SPEED : Fl.float := Fl.flit 2 10.
Definition MIX_RATE : Fl.float := Fl.flit 1 10.
Definition MONSTER_SPEED : Fl.float := Fl.flit 5 100.
Definition MONSTER_MIXRATE : Fl.float := Fl.flit 5 100.
Definition LADDER_MIXRATE_Y : Fl.float := Fl.flit 4 10.
Definition LADDER_MIXRATE_X : Fl.float := Fl.flit 1 10.
Definition LADDER_V : Fl.float := Fl.flit 4 10.

(** The globals of the program that the model reads: the tunables that
    [initialize_args] writes, and the tables of ground and player themes
    (each theme stands by its name), which are empty until [images_load]
    fills them. *)
Record Config := {
  AIR_CONTROL : Fl.float;
  BUMP_HEAD_PENALTY : Fl.float;
  DIE_PENALTY : Fl.float;
  KILL_MONSTER_REWARD : Fl.float;
  JUMP_PENALTY : Fl.float;
  SQUAT_PENALTY : Fl.float;
  JITTER_SQUAT_PENALTY : Fl.float;
  LEVEL_TIMEOUT : Z;
  NUM_LEVELS : Z;
  USE_LEVEL_SET : bool;
  LEVEL_SEEDS : list Z;
  PAINT_VEL_INFO : bool;
  USE_DATA_AUGMENTATION : bool;
  ground_themes : list string;
  player_themesl : list string
}.

(** the initial values of those globals in the source *)
Definition default_config : Config := {|
  AIR_CONTROL := Fl.flit 15 100;
  BUMP_HEAD_PENALTY := Fl.fzero;
  DIE_PENALTY := Fl.fzero;
  KILL_MONSTER_REWARD := Fl.f_of_int 5;
  JUMP_PENALTY := Fl.fzero;
  SQUAT_PENALTY := Fl.fzero;
  JITTER_SQUAT_PENALTY := Fl.fzero;
  LEVEL_TIMEOUT := 1000;
  NUM_LEVELS := 0;
  USE_LEVEL_SET := false;
  LEVEL_SEEDS := [];
  PAINT_VEL_INFO := false;
  USE_DATA_AUGMENTATION := false;
  ground_themes := [];
  player_themesl := []
|}.

(** the names of the ground and player themes *)
Definition gthemes : list string := ["Snow"%string; "Planet"%string].
Definition pthemes : list string := ["Yellow"%string].

(** [images_load], as far as the two theme tables go: one theme is pushed
    for each name of [gthemes] and of [pthemes].  [init] calls it once,
    when no image has been loaded yet. *)
Definition images_load (cfg : Config) : Config :=
  {| AIR_CONTROL := AIR_CONTROL cfg;
     BUMP_HEAD_PENALTY := BUMP_HEAD_PENALTY cfg;
     DIE_PENALTY := DIE_PENALTY cfg;
     KILL_MONSTER_REWARD := KILL_MONSTER_REWARD cfg;
     JUMP_PENALTY := JUMP_PENALTY cfg;
     SQUAT_PENALTY := SQUAT_PENALTY cfg;
     JITTER_SQUAT_PENALTY := JITTER_SQUAT_PENALTY cfg;
     LEVEL_TIMEOUT := LEVEL_TIMEOUT cfg;
     NUM_LEVELS := NUM_LEVELS cfg;
     USE_LEVEL_SET := USE_LEVEL_SET cfg;
     LEVEL_SEEDS := LEVEL_SEEDS cfg;
     PAINT_VEL_INFO := PAINT_VEL_INFO cfg;
     USE_DATA_AUGMENTATION := USE_DATA_AUGMENTATION cfg;
     ground_themes := ground_themes cfg ++ gthemes;
     player_themesl := player_themesl cfg ++ pthemes |}.

(** the globals of a process in which [init] has loaded the images *)
Definition loaded_config : Config := images_load default_config.

(** ** Results and the state-and-error monad

    The C++ code can stop in three ways that are not a normal return: a
    failed [assert], an access outside an array or vector, and an integer
    division by zero.  A loop of the source that has no syntactic bound is
    given fuel here; running out of it is a fourth outcome. *)

Inductive error := AssertionFailed | OutOfRange | DivisionByZero | OutOfFuel.

Inductive res (A : Type) : Type :=
| Ok (a : A)
| Err (e : error).
Arguments Ok {A} a.
Arguments Err {A} e.

Definition M (St A : Type) : Type := St -> res (A * St).

Definition ret {St A} (a : A) : M St A := fun s => Ok (a, s).

Definition bind {St A B} (c : M St A) (k : A -> M St B) : M St B :=
  fun s => match c s with
           | Ok (a, s') => k a s'
           | Err e => Err e
           end.

Definition fail {St A} (e : error) : M St A := fun _ => Err e.

Definition get {St} : M St St := fun s => Ok (s, s).

Definition modify {St} (f : St -> St) : M St unit := fun s => Ok (tt, f s).

Definition assert {St} (b : bool) : M St unit :=
  if b then ret tt else fail AssertionFailed.

Notation "x <- c ;; k" := (bind c (fun x => k))
  (at level 100, c at next level, right associativity).
Notation "c ;;; k" := (bind c (fun _ => k))
  (at level 100, right associativity).

(** ** [RandGen]: a seeded [std::mt19937] *)

Module MT.

Definition n : nat := 624.
Definition m : nat := 397.

Definition word (st : list Z) (i : nat) : Z := default 0 (st !! i).

Fixpoint init_from (k : nat) (i prev : Z) : list Z :=
  match k with
  | O => []
  | S k' =>
      let x := u32 (1812433253 * Z.lxor prev (Z.shiftr prev 30) + i) in
      x :: init_from k' (i + 1) x
  end.

(** [seed(value)] *)
Definition seed (s : Z) : list Z :=
  let x0 := u32 s in x0 :: init_from (n - 1) 1 x0.

Definition twist_at (st : list Z) (i : nat) : list Z :=
  let y := Z.lor (Z.land (word st i) 0x80000000)
                 (Z.land (word st ((i + 1) mod n)) 0x7fffffff) in
  let v := Z.lxor (Z.lxor (word st ((i + m) mod n)) (Z.shiftr y 1))
                  (if Z.odd y then 0x9908b0df else 0) in
  <[ i := v ]> st.

(** the regeneration of the whole state, in place, index by index *)
Definition twist (st : list Z) : list Z := fold_left twist_at (seq 0 n) st.

Definition temper (z : Z) : Z :=
  let z := Z.lxor z (Z.land (Z.shiftr z 11) 0xffffffff) in
  let z := Z.lxor z (Z.land (Z.shiftl z 7) 0x9d2c5680) in
  let z := Z.lxor z (Z.land (Z.shiftl z 15) 0xefc60000) in
  Z.lxor z (Z.shiftr z 18).

Record engine := { words : list Z; pos : nat }.

Definition seeded (s : Z) : engine := {| words := seed s; pos := n |}.

(** [operator()] *)
Definition next (e : engine) : Z * engine :=
  let e1 := if (n <=? pos e)%nat
            then {| words := twist (words e); pos := 0 |} else e in
  (temper (word (words e1) (pos e1)),
   {| words := words e1; pos := S (pos e1) |}).

End MT.

Record RandGen := {
  is_seeded : bool;
  stdgen : MT.engine
}.

(** a default-constructed [RandGen]: the engine has the standard default
    seed and [is_seeded] is false *)
Definition RandGen_new : RandGen :=
  {| is_seeded := false; stdgen := MT.seeded 5489 |}.

Definition RandGen_seed (s : Z) : RandGen :=
  {| is_seeded := true; stdgen := MT.seeded s |}.

(** [uint32_t x = stdgen();] *)
Definition draw : M RandGen Z :=
  fun g => let '(x, e) := MT.next (stdgen g) in
           Ok (u32 x, {| is_seeded := is_seeded g; stdgen := e |}).

(** [randint(low, high)]: the remainder is taken on [uint32_t] *)
Definition randint (low high : Z) : M RandGen Z :=
  g <- get ;;
  assert (is_seeded g) ;;;
  x <- draw ;;
  let range := u32 (high - low) in
  if range =? 0 then fail DivisionByZero
  else ret (wrap32 (u32 (low + x mod range))).

(** [(double)(x) / ((double)(stdgen.max()) + 1)], returned as [float] *)
Definition rand01_of (x : Z) : Fl.float :=
  Fl.f_of_d (Fl.ddiv (Fl.d_of_int x)
                     (Fl.dadd (Fl.d_of_int (2^32 - 1)) (Fl.d_of_int 1))).

Definition rand01 : M RandGen Fl.float :=
  g <- get ;;
  assert (is_seeded g) ;;;
  x <- draw ;;
  ret (rand01_of x).

(** [randint()] *)
Definition randint0 : M RandGen Z :=
  g <- get ;;
  assert (is_seeded g) ;;;
  x <- draw ;;
  ret (wrap32 x).

(** ** [Monster] and [Maze] *)

Module Monster.
Record t := {
  x : Fl.float;
  y : Fl.float;
  prev_x : list Fl.float;
  prev_y : list Fl.float;
  vx : Fl.float;
  vy : Fl.float;
  is_flying : bool;
  is_walking : bool;
  is_dead : bool;
  monster_dying_frame_cnt : Z;
  theme_n : Z;
  pause : Z
}.

Definition with_x (a : t) (v : Fl.float) : t :=
  Build_t v (y a) (prev_x a) (prev_y a) (vx a) (vy a) (is_flying a)
    (is_walking a) (is_dead a) (monster_dying_frame_cnt a) (theme_n a)
    (pause a).
Definition with_y (a : t) (v : Fl.float) : t :=
  Build_t (x a) v (prev_x a) (prev_y a) (vx a) (vy a) (is_flying a)
    (is_walking a) (is_dead a) (monster_dying_frame_cnt a) (theme_n a)
    (pause a).
Definition with_prev_x (a : t) (v : list Fl.float) : t :=
  Build_t (x a) (y a) v (prev_y a) (vx a) (vy a) (is_flying a)
    (is_walking a) (is_dead a) (monster_dying_frame_cnt a) (theme_n a)
    (pause a).
Definition with_prev_y (a : t) (v : list Fl.float) : t :=
  Build_t (x a) (y a) (prev_x a) v (vx a) (vy a) (is_flying a)
    (is_walking a) (is_dead a) (monster_dying_frame_cnt a) (theme_n a)
    (pause a).
Definition with_vx (a : t) (v : Fl.float) : t :=
  Build_t (x a) (y a) (prev_x a) (prev_y a) v (vy a) (is_flying a)
    (is_walking a) (is_dead a) (monster_dying_frame_cnt a) (theme_n a)
    (pause a).
Definition with_vy (a : t) (v : Fl.float) : t :=
  Build_t (x a) (y a) (prev_x a) (prev_y a) (vx a) v (is_flying a)
    (is_walking a) (is_dead a) (monster_dying_frame_cnt a) (theme_n a)
    (pause a).
Definition with_is_dead (a : t) (v : bool) : t :=
  Build_t (x a) (y a) (prev_x a) (prev_y a) (vx a) (vy a) (is_flying a)
    (is_walking a) v (monster_dying_frame_cnt a) (theme_n a) (pause a).
Definition with_monster_dying_frame_cnt (a : t) (v : Z) : t :=
  Build_t (x a) (y a) (prev_x a) (prev_y a) (vx a) (vy a) (is_flying a)
    (is_walking a) (is_dead a) v (theme_n a) (pause a).
Definition with_pause (a : t) (v : Z) : t :=
  Build_t (x a) (y a) (prev_x a) (prev_y a) (vx a) (vy a) (is_flying a)
    (is_walking a) (is_dead a) (monster_dying_frame_cnt a) (theme_n a) v.
End Monster.

Module Maze.

Record t := {
  spawnpos : Z * Z;
  w : Z;
  h : Z;
  walls : list Z;
  coins : Z;
  is_terminated : bool;
  is_new_level : bool;
  gravity : Fl.float;
  max_jump : Fl.float;
  air_control : Fl.float;
  max_dy : Fl.float;
  max_dx : Fl.float;
  default_zoom : Fl.float;
  max_speed : Fl.float;
  mix_rate : Fl.float;
  monsters : list Monster.t
}.

Definition with_walls (m : t) (ws : list Z) : t :=
  {| spawnpos := spawnpos m; w := w m; h := h m; walls := ws;
     coins := coins m; is_terminated := is_terminated m;
     is_new_level := is_new_level m; gravity := gravity m;
     max_jump := max_jump m; air_control := air_control m;
     max_dy := max_dy m; max_dx := max_dx m;
     default_zoom := default_zoom m; max_speed := max_speed m;
     mix_rate := mix_rate m; monsters := monsters m |}.

Definition with_coins (m : t) (c : Z) : t :=
  {| spawnpos := spawnpos m; w := w m; h := h m; walls := walls m;
     coins := c; is_terminated := is_terminated m;
     is_new_level := is_new_level m; gravity := gravity m;
     max_jump := max_jump m; air_control := air_control m;
     max_dy := max_dy m; max_dx := max_dx m;
     default_zoom := default_zoom m; max_speed := max_speed m;
     mix_rate := mix_rate m; monsters := monsters m |}.

Definition with_is_terminated (m : t) (b : bool) : t :=
  {| spawnpos := spawnpos m; w := w m; h := h m; walls := walls m;
     coins := coins m; is_terminated := b;
     is_new_level := is_new_level m; gravity := gravity m;
     max_jump := max_jump m; air_control := air_control m;
     max_dy := max_dy m; max_dx := max_dx m;
     default_zoom := default_zoom m; max_speed := max_speed m;
     mix_rate := mix_rate m; monsters := monsters m |}.

Definition with_is_new_level (m : t) (b : bool) : t :=
  {| spawnpos := spawnpos m; w := w m; h := h m; walls := walls m;
     coins := coins m; is_terminated := is_terminated m;
     is_new_level := b; gravity := gravity m;
     max_jump := max_jump m; air_control := air_control m;
     max_dy := max_dy m; max_dx := max_dx m;
     default_zoom := default_zoom m; max_speed := max_speed m;
     mix_rate := mix_rate m; monsters := monsters m |}.

Definition with_spawnpos (m : t) (p : Z * Z) : t :=
  {| spawnpos := p; w := w m; h := h m; walls := walls m;
     coins := coins m; is_terminated := is_terminated m;
     is_new_level := is_new_level m; gravity := gravity m;
     max_jump := max_jump m; air_control := air_control m;
     max_dy := max_dy m; max_dx := max_dx m;
     default_zoom := default_zoom m; max_speed := max_speed m;
     mix_rate := mix_rate m; monsters := monsters m |}.

Definition with_monsters (m : t) (ms : list Monster.t) : t :=
  {| spawnpos := spawnpos m; w := w m; h := h m; walls := walls m;
     coins := coins m; is_terminated := is_terminated m;
     is_new_level := is_new_level m; gravity := gravity m;
     max_jump := max_jump m; air_control := air_control m;
     max_dy := max_dy m; max_dx := max_dx m;
     default_zoom := default_zoom m; max_speed := max_speed m;
     mix_rate := mix_rate m; monsters := ms |}.

(** What a freshly allocated maze holds before anything is written:
    the constructor initialises [w], [h], [is_terminated], [coins] (and
    [is_new_level], by its default member initialiser); the [new int[]]
    array and the other members start with whatever was in memory. *)
Record uninit := {
  u_cell : nat -> Z;
  u_spawnpos : Z * Z;
  u_float : nat -> Fl.float
}.

Definition new (u : uninit) (_w _h : Z) : t :=
  {| spawnpos := u_spawnpos u; w := _w; h := _h;
     walls := map (u_cell u) (seq 0 (Z.to_nat (_w * _h)));
     coins := 0; is_terminated := false; is_new_level := true;
     gravity := u_float u 0; max_jump := u_float u 1;
     air_control := u_float u 2; max_dy := u_float u 3;
     max_dx := u_float u 4; default_zoom := u_float u 5;
     max_speed := u_float u 6; mix_rate := u_float u 7;
     monsters := [] |}.

(** the offset [w*y + x] into [walls] *)
Definition offset (m : t) (x y : Z) : Z := w m * y + x.

(** [get_elem]: [None] when the offset falls outside the array *)
Definition get_elem (m : t) (x y : Z) : option Z :=
  let i := offset m x y in
  if 0 <=? i then walls m !! Z.to_nat i else None.

(** [set_elem] *)
Definition set_elem (m : t) (x y val : Z) : option t :=
  let i := offset m x y in
  if (0 <=? i) && (i <? Z.of_nat (length (walls m)))
  then Some (with_walls m (<[ Z.to_nat i := val ]> (walls m)))
  else None.

(** the coordinates name a cell of the grid *)
Definition in_grid (m : t) (x y : Z) : bool :=
  (0 <=? x) && (x <? w m) && (0 <=? y) && (y <? h m).

(** [has_vertical_space]: the probes [x + .1] and [x + .9] are computed
    in [double]; the four reads are short-circuited left to right *)
Definition has_vertical_space (m : t) (x y : Fl.float)
           (crate_counts : bool) : option bool :=
  let x1 := Fl.to_int (Fl.dadd (Fl.d_of_f x) (Fl.dlit 1 10)) in
  let x9 := Fl.to_int (Fl.dadd (Fl.d_of_f x) (Fl.dlit 9 10)) in
  let iy := Fl.to_int y in
  c1 ← get_elem m x1 iy;
  if is_wall c1 false then Some false else
  c2 ← get_elem m x9 iy;
  if is_wall c2 false then Some false else
  if negb crate_counts then Some true else
  c3 ← get_elem m x1 iy;
  if is_crat c3 then Some false else
  c4 ← get_elem m x9 iy;
  Some (negb (is_crat c4)).

(** [init_physics]; [air] is the global [AIR_CONTROL] *)
Definition init_physics (air : Fl.float) (m : t) : t :=
  {| spawnpos := spawnpos m; w := w m; h := h m; walls := walls m;
     coins := coins m; is_terminated := is_terminated m;
     is_new_level := is_new_level m;
     gravity := GRAVITY;
     max_jump := MAX_JUMP;
     air_control := air;
     max_dy := Fl.fdiv (Fl.fmul MAX_JUMP MAX_JUMP)
                       (Fl.fmul (Fl.f_of_int 2) GRAVITY);
     max_dx := Fl.fdiv (Fl.fmul (Fl.fmul MAX_SPEED (Fl.f_of_int 2)) MAX_JUMP)
                       GRAVITY;
     default_zoom := Fl.flit 55 10;
     max_speed := MAX_SPEED;
     mix_rate := MIX_RATE;
     monsters := monsters m |}.

End Maze.

(** ** Monster themes, as [images_load] fills the global tables

    [load_enemy_themes] is run for the ground, the walking and then the
    flying monsters, appending to [enemy_themel] and recording the indices
    of each kind. *)

Record EnemyTheme := {
  can_be_killed : bool;
  monster_max_speed : Fl.float;
  is_jumping_monster : bool;
  max_pause_time : Z;
  max_jump_height : Fl.float
}.

Definition plain_theme (killable : bool) (speed : Fl.float) : EnemyTheme :=
  {| can_be_killed := killable; monster_max_speed := speed;
     is_jumping_monster := false; max_pause_time := 0;
     max_jump_height := Fl.fzero |}.

Definition speed_times (n d : Z) : Fl.float :=
  Fl.f_of_d (Fl.dmul (Fl.d_of_f MONSTER_SPEED) (Fl.dlit n d)).

Definition enemy_themel : list EnemyTheme :=
  [ plain_theme false MONSTER_SPEED                    (* sawHalf *)
  ; plain_theme false MONSTER_SPEED                    (* barnacle *)
  ; plain_theme true (Fl.fmul MONSTER_SPEED (Fl.f_of_int 1)) (* slimeBlock *)
  ; plain_theme false (Fl.fmul MONSTER_SPEED (Fl.f_of_int 1)) (* slimeBlue *)
  ; plain_theme false (speed_times 2 1)                (* mouse *)
  ; plain_theme true (speed_times 4 10)                (* snail *)
  ; {| can_be_killed := false; monster_max_speed := speed_times 18 10;
       is_jumping_monster := true; max_pause_time := 15;
       max_jump_height := Fl.flit 8 100 |}             (* ladybug *)
  ; plain_theme true (speed_times 6 10)                (* wormPink *)
  ; {| can_be_killed := false; monster_max_speed := speed_times 2 1;
       is_jumping_monster := true; max_pause_time := 60;
       max_jump_height := Fl.flit 2 10 |}              (* frog *)
  ; plain_theme false MONSTER_SPEED                    (* bee *)
  ].

Definition ground_theme_idxs : list Z := [0; 1].
Definition walking_theme_idxs : list Z := [2; 3; 4; 5; 6; 7; 8].
Definition flying_theme_idxs : list Z := [9].

(** ** [RandomMazeGenerator] *)

Record Rec := { rx : Z; ry : Z }.

(** The generator object.  [stray] is not a member of the C++ class: it
    records that some [get_elem]/[set_elem] was called with coordinates
    that do not name a cell of the grid although the offset [w*y + x]
    still fell inside the array. *)
Record Gen := {
  rec_stack : list Rec;
  maze : Maze.t;
  rand_gen : RandGen;
  stray : bool
}.

Definition with_maze (g : Gen) (m : Maze.t) : Gen :=
  {| rec_stack := rec_stack g; maze := m; rand_gen := rand_gen g;
     stray := stray g |}.

Definition with_rec_stack (g : Gen) (st : list Rec) : Gen :=
  {| rec_stack := st; maze := maze g; rand_gen := rand_gen g;
     stray := stray g |}.

Definition with_rand_gen (g : Gen) (r : RandGen) : Gen :=
  {| rec_stack := rec_stack g; maze := maze g; rand_gen := r;
     stray := stray g |}.

Definition note_access (g : Gen) (x y : Z) : Gen :=
  {| rec_stack := rec_stack g; maze := maze g; rand_gen := rand_gen g;
     stray := stray g || negb (Maze.in_grid (maze g) x y) |}.

(** [maze->get_elem(x, y)] *)
Definition rd (x y : Z) : M Gen Z :=
  fun g => match Maze.get_elem (maze g) x y with
           | Some v => Ok (v, note_access g x y)
           | None => Err OutOfRange
           end.

(** [maze->set_elem(x, y, val)] *)
Definition wr (x y val : Z) : M Gen unit :=
  fun g => match Maze.set_elem (maze g) x y val with
           | Some m' => Ok (tt, with_maze (note_access g x y) m')
           | None => Err OutOfRange
           end.

(** running a [RandGen] computation on the generator's [rand_gen] *)
Definition on_rand {A} (c : M RandGen A) : M Gen A :=
  fun g => match c (rand_gen g) with
           | Ok (a, r') => Ok (a, with_rand_gen g r')
           | Err e => Err e
           end.

Definition randn (n : Z) : M Gen Z := on_rand (randint 0 n).

Definition gen_rand01 : M Gen Fl.float := on_rand rand01.

Definition push_rec (r : Rec) : M Gen unit :=
  modify (fun g => with_rec_stack g (rec_stack g ++ [r])).

(** a counted loop [for (i = 0; i < n; i++) body(i)] *)
Fixpoint for_loop {St} (k : nat) (i : Z) (body : Z -> M St unit)
  : M St unit :=
  match k with
  | O => ret tt
  | S k' => body i ;;; for_loop k' (i + 1) body
  end.

Definition for_upto {St} (n : Z) (body : Z -> M St unit) : M St unit :=
  for_loop (Z.to_nat n) 0 body.

(** [maze->fill_elem(x, y, dx, dy, elem)] *)
Definition fill_elem (x y dx dy elem : Z) : M Gen unit :=
  for_upto dx (fun j => for_upto dy (fun k => wr (x + j) (y + k) elem)).

(** [initial_floor_and_walls] *)
Definition initial_floor_and_walls (cfg : Config) : M Gen unit :=
  g <- get ;;
  let w := Maze.w (maze g) in
  let h := Maze.h (maze g) in
  fill_elem 0 0 w h SPACE ;;;
  fill_elem 0 0 w 1 WALL_SURFACE ;;;
  fill_elem 0 0 1 h WALL_MIDDLE ;;;
  fill_elem (w - 1) 0 1 h WALL_MIDDLE ;;;
  fill_elem 0 (h - 1) w 1 WALL_MIDDLE ;;;
  modify (fun g => with_maze g (Maze.init_physics (AIR_CONTROL cfg) (maze g))).

Definition choose_crate : Z := CRATE.

(** [rec_stack[n]] *)
Definition stack_at (n : Z) : M Gen Rec :=
  g <- get ;;
  if n <? 0 then fail OutOfRange
  else match rec_stack g !! Z.to_nat n with
       | Some r => ret r
       | None => fail OutOfRange
       end.

(** [rec_stack.erase(rec_stack.begin() + n)] *)
Definition erase_at (n : Z) : M Gen unit :=
  modify (fun g => with_rec_stack g (delete (Z.to_nat n) (rec_stack g))).

(** [int(sqrt(v))] for an [int] [v]: the square root is taken in
    [double], where it is correctly rounded, so that for [0 <= v < 2^31]
    its integer part is the integer square root; a negative [v] gives a
    NaN, whose conversion is [INT_MIN]. *)
Definition int_sqrt (v : Z) : Z := if v <? 0 then INT_MIN else Z.sqrt v.

(** The ballistic arc of [jump_and_build_platform_somewhere]: the local
    variables of its [for] loop. *)
Record arc := {
  a_vy : Fl.float;
  a_x : Fl.float;
  a_y : Fl.float;
  a_ix : Z;
  a_iy : Z
}.

(** the [for (s = 0; s < steps; s++)] loop; [None] is [return false] *)
Fixpoint arc_loop (k : nat) (vx : Fl.float) (a : arc) : M Gen (option arc) :=
  match k with
  | O => ret (Some a)
  | S k' =>
      let vy := Fl.fsub (a_vy a) GRAVITY in
      let x := Fl.fadd (a_x a) vx in
      let y := Fl.fadd (a_y a) vy in
      if negb (a_ix a =? Fl.to_int x) || negb (a_iy a =? Fl.to_int y) then
        let ix := Fl.to_int x in
        let iy := Fl.to_int y in
        g <- get ;;
        let ouch := (ix <? 1) || (ix >=? Maze.w (maze g) - 1)
                    || (iy <? 1) || (iy >=? Maze.h (maze g) - 2) in
        if ouch then ret None else
        c <- rd ix iy ;;
        if negb (c =? SPACE) && negb (c =? TRACE) then ret None else
        wr ix iy TRACE ;;;
        arc_loop k' vx {| a_vy := vy; a_x := x; a_y := y;
                          a_ix := ix; a_iy := iy |}
      else
        arc_loop k' vx {| a_vy := vy; a_x := x; a_y := y;
                          a_ix := a_ix a; a_iy := a_iy a |}
  end.

(** the [for (s = 0; s < ladder_len; s++)] loop; it returns the final
    [iy] and [future_ladder], or [None] for [return false] *)
Fixpoint ladder_loop (k : nat) (ix iy : Z) (future_ladder : list Rec)
  : M Gen (option (Z * list Rec)) :=
  match k with
  | O => ret (Some (iy, future_ladder))
  | S k' =>
      let future_ladder := future_ladder ++ [ {| rx := ix; ry := iy |} ] in
      let iy := iy + 1 in
      g <- get ;;
      let o1 := iy >=? Maze.h (maze g) - 3 in
      c <- rd ix iy ;;
      l <- rd (ix - 1) iy ;;
      r <- rd (ix + 1) iy ;;
      let ouch := o1 || negb (c =? SPACE) || (l =? LADDER) || (r =? LADDER) in
      if ouch then ret None else ladder_loop k' ix iy future_ladder
  end.

Fixpoint write_all (cells : list Rec) (val : Z) : M Gen unit :=
  match cells with
  | [] => ret tt
  | f :: rest => wr (rx f) (ry f) val ;;; write_all rest val
  end.

(** [int(ix*0.2 + iy + crates_shift) % 4 == 0] *)
Definition crate_here (ix iy crates_shift : Z) : bool :=
  Z.rem (Fl.to_int (Fl.dadd (Fl.dadd (Fl.dmul (Fl.d_of_int ix) (Fl.dlit 2 10))
                                     (Fl.d_of_int iy))
                            (Fl.d_of_int crates_shift))) 4 =? 0.

(** the [for (platform = 0; platform < len; platform++)] loop, which
    returns [crates] and [monster_candidates] *)
Fixpoint platform_loop (k : nat) (platform len : Z) (right : bool)
         (crates_shift ix iy : Z) (crates monster_candidates : list Rec)
  : M Gen (list Rec * list Rec) :=
  match k with
  | O => ret (crates, monster_candidates)
  | S k' =>
      let ix := ix + (if right then 1 else -1) in
      c <- rd ix iy ;;
      if (c =? TRACE) || (c =? SPACE) then
        wr ix iy (if platform <? len - 1 then WALL_SURFACE
                  else if right then CLIFF_b else CLIFF_a) ;;;
        push_rec {| rx := ix; ry := iy + 1 |} ;;;
        if crate_here ix iy crates_shift then
          platform_loop k' (platform + 1) len right crates_shift ix iy
                        (crates ++ [ {| rx := ix; ry := iy + 1 |} ])
                        monster_candidates
        else if (0 <? platform) && (platform <? len - 1) then
          platform_loop k' (platform + 1) len right crates_shift ix iy
                        crates
                        (monster_candidates ++ [ {| rx := ix; ry := iy + 1 |} ])
        else
          platform_loop k' (platform + 1) len right crates_shift ix iy
                        crates monster_candidates
      else
        (if (c =? CLIFF_a) || (c =? CLIFF_b)
         then wr ix iy WALL_SURFACE else ret tt) ;;;
        ret (crates, monster_candidates)
  end.

Definition b2z (b : bool) : Z := if b then 1 else 0.

(** one run of the inner [for (c = 0; c < crates.size(); )] loop: every
    crate is either grown by one cell and kept, or erased *)
Fixpoint crates_pass (crates : list Rec) : M Gen (list Rec) :=
  match crates with
  | [] => ret []
  | c :: rest =>
      w <- rd (rx c) (ry c) ;;
      wl <- rd (rx c - 1) (ry c) ;;
      wr_ <- rd (rx c + 1) (ry c) ;;
      wu <- rd (rx c) (ry c + 1) ;;
      let want := 2 + b2z (is_crat wl) + b2z (is_crat wr_)
                  - b2z (wr_ =? LADDER) - b2z (wl =? LADDER)
                  - b2z (is_wall wu false) in
      v <- randn 4 ;;
      g <- get ;;
      if (v <? want) && (ry c <? Maze.h (maze g) - 2) then
        (if (w =? TRACE) || (w =? SPACE)
         then wr (rx c) (ry c) choose_crate else ret tt) ;;;
        push_rec {| rx := rx c; ry := ry c + 1 |} ;;;
        rest' <- crates_pass rest ;;
        ret ({| rx := rx c; ry := ry c + 1 |} :: rest')
      else crates_pass rest
  end.

(** the [while (1)] loop around it, which has no bound in the source *)
Fixpoint crates_loop (fuel : nat) (crates : list Rec) : M Gen unit :=
  match crates with
  | [] => ret tt
  | _ :: _ =>
      match fuel with
      | O => fail OutOfFuel
      | S fuel' => crates' <- crates_pass crates ;; crates_loop fuel' crates'
      end
  end.

(** the part of [jump_and_build_platform_somewhere] after the arc or the
    ladder has reached [(ix, iy)] *)
Definition build_platform (vx : Fl.float) (ix iy : Z) : M Gen bool :=
  let right := Fl.gt vx Fl.fzero in
  c <- rd ix iy ;;
  g <- get ;;
  if iy >=? Maze.h (maze g) - 3 then ret false else
  (if (c =? SPACE) || (c =? TRACE)
   then wr ix iy (if right then CLIFF_a else CLIFF_b) else ret tt) ;;;
  l <- randn 10 ;;
  let len := 2 + l in
  crates_shift <- randn 20 ;;
  cm <- platform_loop (Z.to_nat len) 0 len right crates_shift ix iy [] [] ;;
  let crates := fst cm in
  let monster_candidates := snd cm in
  (if 1 <? Z.of_nat (length monster_candidates) then
     i <- randn (Z.of_nat (length monster_candidates)) ;;
     match (if i <? 0 then None else monster_candidates !! Z.to_nat i) with
     | None => fail OutOfRange
     | Some r =>
         v <- randn 10 ;;
         let should_be_ground_monster := v >=? 8 in
         if should_be_ground_monster
         then wr (rx r) (ry r) GROUND_MONSTER
         else wr (rx r) (ry r) WALKING_MONSTER
     end
   else ret tt) ;;;
  g <- get ;;
  crates_loop (Z.to_nat (Maze.h (maze g))) crates ;;;
  ret true.

(** the launch velocity of a jump, from the two values of [rand01()]:
    [(rand01()*2-1)*0.5*max_speed] and [(0.8 + 0.2*rand01())*max_jump],
    and the number of steps to the top of the arc, [1 + int(vy/gravity)] *)
Definition jump_vx (a : Fl.float) : Fl.float :=
  Fl.f_of_d
    (Fl.dmul (Fl.dmul (Fl.d_of_f (Fl.fsub (Fl.fmul a (Fl.f_of_int 2))
                                          (Fl.f_of_int 1)))
                      (Fl.dlit 5 10))
             (Fl.d_of_f MAX_SPEED)).

Definition jump_vy (b : Fl.float) : Fl.float :=
  Fl.f_of_d
    (Fl.dmul (Fl.dadd (Fl.dlit 8 10) (Fl.dmul (Fl.dlit 2 10) (Fl.d_of_f b)))
             (Fl.d_of_f MAX_JUMP)).

Definition jump_top (vy : Fl.float) : Z :=
  1 + Fl.to_int (Fl.fdiv vy GRAVITY).

Definition jump_and_build_platform_somewhere : M Gen bool :=
  g <- get ;;
  match rec_stack g with
  | [] => ret false
  | _ :: _ =>
      let size := Z.of_nat (length (rec_stack g)) in
      v <- randn (size * size) ;;
      let n := int_sqrt v in
      assert (n <? size) ;;;
      r <- stack_at n ;;
      a <- gen_rand01 ;;
      let vx := jump_vx a in
      b <- gen_rand01 ;;
      let vy := jump_vy b in
      let top := jump_top vy in
      coin <- randn 2 ;;
      if coin =? 1 then
        extra <- randn (Z.quot top 2) ;;
        let steps := top + extra in
        o <- arc_loop (Z.to_nat steps) vx
               {| a_vy := vy; a_x := Fl.f_of_int (rx r);
                  a_y := Fl.f_of_int (ry r + 1); a_ix := -1; a_iy := -1 |} ;;
        match o with
        | None => ret false
        | Some a => build_platform vx (a_ix a) (a_iy a)
        end
      else
        let ix := rx r in
        let iy := ry r in
        g <- get ;;
        if iy >=? Maze.h (maze g) - 3 then ret false else
        c0 <- rd ix iy ;;
        stop <- (if is_crat c0 then ret true
                 else c1 <- rd ix (iy - 1) ;; ret (is_crat c1)) ;;
        if stop then ret false else
        erase_at n ;;;
        l <- randn 10 ;;
        let ladder_len := 5 + l in
        o <- ladder_loop (Z.to_nat ladder_len) ix iy [] ;;
        match o with
        | None => ret false
        | Some (iy', future_ladder) =>
            write_all future_ladder LADDER ;;;
            wr ix iy' LADDER ;;;
            build_platform vx ix iy'
        end
  end.

(** *** [place_coins] *)

(** [rec_stack[size-1]] followed by [pop_back]; [None] on an empty stack *)
Definition pop_rec : M Gen (option Rec) :=
  fun g => match reverse (rec_stack g) with
           | [] => Ok (None, g)
           | r :: rest => Ok (Some r, with_rec_stack g (reverse rest))
           end.

(** [get_elem(x, y) == SPACE || get_elem(x, y) == WALKING_MONSTER] *)
Definition open_at (x y : Z) : M Gen bool :=
  c <- rd x y ;;
  if c =? SPACE then ret true
  else c' <- rd x y ;; ret (c' =? WALKING_MONSTER).

Definition solid_at (x y : Z) : M Gen bool :=
  c <- rd x y ;; ret (is_wall c true).

(** the conjunction [good_place], evaluated left to right and stopping
    at the first false conjunct *)
Definition good_place (r : Rec) : M Gen bool :=
  let x := rx r in
  let y := ry r in
  b0 <- open_at x y ;;
  if negb b0 then ret false else
  if negb (2 <? ry r) then ret false else
  b1 <- open_at (x - 1) y ;;
  if negb b1 then ret false else
  b2 <- open_at (x + 1) y ;;
  if negb b2 then ret false else
  b3 <- open_at x (y + 1) ;;
  if negb b3 then ret false else
  b4 <- solid_at (x - 1) (y - 1) ;;
  if negb b4 then ret false else
  b5 <- solid_at x (y - 1) ;;
  if negb b5 then ret false else
  solid_at (x + 1) (y - 1).

(** what is done with one popped anchor; the result is the new value of
    the local counter [coins] *)
Definition place_coin_at (r : Rec) (coins : Z) : M Gen Z :=
  good <- good_place r ;;
  if good then
    v <- randn 10 ;;
    (if v >=? 9 then wr (rx r) (ry r) COIN_OBJ2
     else wr (rx r) (ry r) COIN_OBJ1) ;;;
    ret (wrap32 (coins + 1))
  else ret coins.

(** the [while (!rec_stack.empty())] loop: it pops once per iteration and
    pushes nothing, so it runs once per element of the stack *)
Fixpoint place_coins_loop (k : nat) (coins : Z) : M Gen Z :=
  match k with
  | O => ret coins
  | S k' =>
      o <- pop_rec ;;
      match o with
      | None => ret coins
      | Some r => coins' <- place_coin_at r coins ;; place_coins_loop k' coins'
      end
  end.

Definition place_coins : M Gen unit :=
  g <- get ;;
  coins <- place_coins_loop (length (rec_stack g)) 0 ;;
  modify (fun g => with_maze g (Maze.with_coins (maze g) coins)).

(** *** [remove_traces_add_monsters] *)

Definition new_monster (x y : Z) (flying walking : bool) (theme : Z)
  : Monster.t :=
  {| Monster.x := Fl.f_of_int x;
     Monster.y := Fl.f_of_int y;
     Monster.prev_x := replicate MONSTER_TRAIL (Fl.f_of_int x);
     Monster.prev_y := replicate MONSTER_TRAIL (Fl.f_of_int y);
     Monster.vx := Fl.flit 1 100;
     Monster.vy := Fl.fzero;
     Monster.is_flying := flying;
     Monster.is_walking := walking;
     Monster.is_dead := false;
     Monster.monster_dying_frame_cnt := 0;
     Monster.theme_n := theme;
     Monster.pause := 0 |}.

Definition add_monster (m : Monster.t) : M Gen unit :=
  modify (fun g => with_maze g
            (Maze.with_monsters (maze g) (Maze.monsters (maze g) ++ [m]))).

(** the body of the two nested loops at the cell [(x, y)]; [c] and [b]
    are references to the cells [(x, y)] and [(x, y-1)], so every use of
    them reads the grid again *)
Definition remove_traces_cell (x y : Z) : M Gen unit :=
  let c := rd x y in
  let b := rd x (y - 1) in
  let wall_below := (v <- b ;; ret (is_wall v false)) in
  cl <- rd (x - 1) y ;;
  cr <- rd (x + 1) y ;;
  c1 <- c ;;
  (if c1 =? TRACE then
     v <- randn 20 ;;
     fly <- (if v =? 0 then
               wb <- wall_below ;;
               ret (negb wb && (2 <? y))
             else ret false) ;;
     if fly then wr x y FLYING_MONSTER else wr x y SPACE
   else ret tt) ;;;
  c2 <- c ;;
  (if (c2 =? CLIFF_a) || (c2 =? CLIFF_b) then
     wb <- wall_below ;;
     if wb then wr x y WALL_SURFACE else ret tt
   else ret tt) ;;;
  c3 <- c ;;
  (if is_wall c3 false then
     wb <- wall_below ;;
     if wb then wr x (y - 1) WALL_MIDDLE else ret tt
   else ret tt) ;;;
  c4 <- c ;;
  if (c4 =? FLYING_MONSTER) || (c4 =? WALKING_MONSTER)
     || (c4 =? GROUND_MONSTER) then
    let flying := c4 =? FLYING_MONSTER in
    let walking := c4 =? WALKING_MONSTER in
    let type_theme_idxs :=
      if flying then flying_theme_idxs
      else if walking then walking_theme_idxs else ground_theme_idxs in
    chosen_idx <- randn (Z.of_nat (length type_theme_idxs)) ;;
    match (if chosen_idx <? 0 then None
           else type_theme_idxs !! Z.to_nat chosen_idx) with
    | None => fail OutOfRange
    | Some theme =>
        wr x y SPACE ;;;
        room <- (if negb walking then ret true
                 else ret (negb (is_wall cl false) && negb (is_wall cr false))) ;;
        keep <- (if negb room then ret false
                 else if flying then ret true
                 else wall_below) ;;
        if keep then add_monster (new_monster x y flying walking theme)
        else ret tt
    end
  else ret tt.

Definition remove_traces_add_monsters : M Gen unit :=
  modify (fun g => with_maze g (Maze.with_monsters (maze g) [])) ;;;
  g <- get ;;
  let w := Maze.w (maze g) in
  let h := Maze.h (maze g) in
  for_loop (Z.to_nat (h - 1)) 1 (fun y =>
    for_loop (Z.to_nat (w - 2)) 1 (fun x => remove_traces_cell x y)).

(** *** [generate_coins_on_platforms] *)

(** The loop [for (p = 0; p < want_platforms*10; p++)], whose bound is
    evaluated again on every iteration; it returns the values of [p] and
    [want_platforms] with which it is left. *)
Fixpoint platforms_loop (fuel : nat) (p want_platforms : Z)
  : M Gen (Z * Z) :=
  if p <? want_platforms * 10 then
    match fuel with
    | O => fail OutOfFuel
    | S fuel' =>
        success <- jump_and_build_platform_somewhere ;;
        let want_platforms :=
          if success then want_platforms - 1 else want_platforms in
        if want_platforms =? 0 then ret (p, want_platforms)
        else platforms_loop fuel' (p + 1) want_platforms
    end
  else ret (p, want_platforms).

Definition generate_coins_on_platforms : M Gen (Z * Z) :=
  g <- get ;;
  let w := Maze.w (maze g) in
  s <- randn (w - 2) ;;
  modify (fun g => with_maze g (Maze.with_spawnpos (maze g) (1 + s, 1))) ;;;
  for_upto w (fun x => push_rec {| rx := x; ry := 1 |}) ;;;
  let want_platforms := 11 in
  pw <- platforms_loop (Z.to_nat (want_platforms * 10)) 0 want_platforms ;;
  place_coins ;;;
  remove_traces_add_monsters ;;;
  ret pw.

(** The generation part of [state_reset]: a fresh generator seeded with
    [level_seed], a fresh 64 x 13 maze, [initial_floor_and_walls] and
    [generate_coins_on_platforms]. *)
Definition fresh_generator (u : Maze.uninit) (level_seed : Z) : Gen :=
  {| rec_stack := [];
     maze := Maze.new u 64 13;
     rand_gen := RandGen_seed level_seed;
     stray := false |}.

Definition generate_level (cfg : Config) : M Gen (Z * Z) :=
  initial_floor_and_walls cfg ;;; generate_coins_on_platforms.

Definition generate (cfg : Config) (u : Maze.uninit) (level_seed : Z)
  : res ((Z * Z) * Gen) :=
  generate_level cfg (fresh_generator u level_seed).

(** ** [Agent]

    The members used for rendering and logging (the render buffers and
    the monitor file) are left out; [maze] is the pointer the agent shares
    with its [State], so the agent's methods run on the pair of the two. *)

Module Agent.

Record t := {
  theme_n : Z;
  x : Fl.float;
  y : Fl.float;
  vx : Fl.float;
  vy : Fl.float;
  spring : Fl.float;
  zoom : Fl.float;
  target_zoom : Fl.float;
  game_over : bool;
  reward : Fl.float;
  reward_sum : Fl.float;
  is_facing_right : bool;
  ladder_mode : bool;
  action_dx : Z;
  action_dy : Z;
  time_alive : Z;
  is_killed : bool;
  is_preparing_to_jump : bool;
  killed_monster : bool;
  bumped_head : bool;
  killed_animation_frame_cnt : Z;
  finished_level_frame_cnt : Z;
  power_up_mode : bool;
  collected_coin : bool;
  collected_gem : bool;
  collect_data : bool;
  support : bool
}.

Definition with_theme_n (a : t) (v : Z) : t :=
  Build_t v (x a) (y a) (vx a) (vy a) (spring a) (zoom a) (target_zoom
    a) (game_over a) (reward a) (reward_sum a) (is_facing_right a)
    (ladder_mode a) (action_dx a) (action_dy a) (time_alive a)
    (is_killed a) (is_preparing_to_jump a) (killed_monster a)
    (bumped_head a) (killed_animation_frame_cnt a)
    (finished_level_frame_cnt a) (power_up_mode a) (collected_coin a)
    (collected_gem a) (collect_data a) (support a).
Definition with_x (a : t) (v : Fl.float) : t :=
  Build_t (theme_n a) v (y a) (vx a) (vy a) (spring a) (zoom a)
    (target_zoom a) (game_over a) (reward a) (reward_sum a)
    (is_facing_right a) (ladder_mode a) (action_dx a) (action_dy a)
    (time_alive a) (is_killed a) (is_preparing_to_jump a)
    (killed_monster a) (bumped_head a) (killed_animation_frame_cnt a)
    (finished_level_frame_cnt a) (power_up_mode a) (collected_coin a)
    (collected_gem a) (collect_data a) (support a).
Definition with_y (a : t) (v : Fl.float) : t :=
  Build_t (theme_n a) (x a) v (vx a) (vy a) (spring a) (zoom a)
    (target_zoom a) (game_over a) (reward a) (reward_sum a)
    (is_facing_right a) (ladder_mode a) (action_dx a) (action_dy a)
    (time_alive a) (is_killed a) (is_preparing_to_jump a)
    (killed_monster a) (bumped_head a) (killed_animation_frame_cnt a)
    (finished_level_frame_cnt a) (power_up_mode a) (collected_coin a)
    (collected_gem a) (collect_data a) (support a).
Definition with_vx (a : t) (v : Fl.float) : t :=
  Build_t (theme_n a) (x a) (y a) v (vy a) (spring a) (zoom a)
    (target_zoom a) (game_over a) (reward a) (reward_sum a)
    (is_facing_right a) (ladder_mode a) (action_dx a) (action_dy a)
    (time_alive a) (is_killed a) (is_preparing_to_jump a)
    (killed_monster a) (bumped_head a) (killed_animation_frame_cnt a)
    (finished_level_frame_cnt a) (power_up_mode a) (collected_coin a)
    (collected_gem a) (collect_data a) (support a).
Definition with_vy (a : t) (v : Fl.float) : t :=
  Build_t (theme_n a) (x a) (y a) (vx a) v (spring a) (zoom a)
    (target_zoom a) (game_over a) (reward a) (reward_sum a)
    (is_facing_right a) (ladder_mode a) (action_dx a) (action_dy a)
    (time_alive a) (is_killed a) (is_preparing_to_jump a)
    (killed_monster a) (bumped_head a) (killed_animation_frame_cnt a)
    (finished_level_frame_cnt a) (power_up_mode a) (collected_coin a)
    (collected_gem a) (collect_data a) (support a).
Definition with_spring (a : t) (v : Fl.float) : t :=
  Build_t (theme_n a) (x a) (y a) (vx a) (vy a) v (zoom a) (target_zoom
    a) (game_over a) (reward a) (reward_sum a) (is_facing_right a)
    (ladder_mode a) (action_dx a) (action_dy a) (time_alive a)
    (is_killed a) (is_preparing_to_jump a) (killed_monster a)
    (bumped_head a) (killed_animation_frame_cnt a)
    (finished_level_frame_cnt a) (power_up_mode a) (collected_coin a)
    (collected_gem a) (collect_data a) (support a).
Definition with_zoom (a : t) (v : Fl.float) : t :=
  Build_t (theme_n a) (x a) (y a) (vx a) (vy a) (spring a) v
    (target_zoom a) (game_over a) (reward a) (reward_sum a)
    (is_facing_right a) (ladder_mode a) (action_dx a) (action_dy a)
    (time_alive a) (is_killed a) (is_preparing_to_jump a)
    (killed_monster a) (bumped_head a) (killed_animation_frame_cnt a)
    (finished_level_frame_cnt a) (power_up_mode a) (collected_coin a)
    (collected_gem a) (collect_data a) (support a).
Definition with_target_zoom (a : t) (v : Fl.float) : t :=
  Build_t (theme_n a) (x a) (y a) (vx a) (vy a) (spring a) (zoom a) v
    (game_over a) (reward a) (reward_sum a) (is_facing_right a)
    (ladder_mode a) (action_dx a) (action_dy a) (time_alive a)
    (is_killed a) (is_preparing_to_jump a) (killed_monster a)
    (bumped_head a) (killed_animation_frame_cnt a)
    (finished_level_frame_cnt a) (power_up_mode a) (collected_coin a)
    (collected_gem a) (collect_data a) (support a).
Definition with_game_over (a : t) (v : bool) : t :=
  Build_t (theme_n a) (x a) (y a) (vx a) (vy a) (spring a) (zoom a)
    (target_zoom a) v (reward a) (reward_sum a) (is_facing_right a)
    (ladder_mode a) (action_dx a) (action_dy a) (time_alive a)
    (is_killed a) (is_preparing_to_jump a) (killed_monster a)
    (bumped_head a) (killed_animation_frame_cnt a)
    (finished_level_frame_cnt a) (power_up_mode a) (collected_coin a)
    (collected_gem a) (collect_data a) (support a).
Definition with_reward (a : t) (v : Fl.float) : t :=
  Build_t (theme_n a) (x a) (y a) (vx a) (vy a) (spring a) (zoom a)
    (target_zoom a) (game_over a) v (reward_sum a) (is_facing_right a)
    (ladder_mode a) (action_dx a) (action_dy a) (time_alive a)
    (is_killed a) (is_preparing_to_jump a) (killed_monster a)
    (bumped_head a) (killed_animation_frame_cnt a)
    (finished_level_frame_cnt a) (power_up_mode a) (collected_coin a)
    (collected_gem a) (collect_data a) (support a).
Definition with_reward_sum (a : t) (v : Fl.float) : t :=
  Build_t (theme_n a) (x a) (y a) (vx a) (vy a) (spring a) (zoom a)
    (target_zoom a) (game_over a) (reward a) v (is_facing_right a)
    (ladder_mode a) (action_dx a) (action_dy a) (time_alive a)
    (is_killed a) (is_preparing_to_jump a) (killed_monster a)
    (bumped_head a) (killed_animation_frame_cnt a)
    (finished_level_frame_cnt a) (power_up_mode a) (collected_coin a)
    (collected_gem a) (collect_data a) (support a).
Definition with_is_facing_right (a : t) (v : bool) : t :=
  Build_t (theme_n a) (x a) (y a) (vx a) (vy a) (spring a) (zoom a)
    (target_zoom a) (game_over a) (reward a) (reward_sum a) v
    (ladder_mode a) (action_dx a) (action_dy a) (time_alive a)
    (is_killed a) (is_preparing_to_jump a) (killed_monster a)
    (bumped_head a) (killed_animation_frame_cnt a)
    (finished_level_frame_cnt a) (power_up_mode a) (collected_coin a)
    (collected_gem a) (collect_data a) (support a).
Definition with_ladder_mode (a : t) (v : bool) : t :=
  Build_t (theme_n a) (x a) (y a) (vx a) (vy a) (spring a) (zoom a)
    (target_zoom a) (game_over a) (reward a) (reward_sum a)
    (is_facing_right a) v (action_dx a) (action_dy a) (time_alive a)
    (is_killed a) (is_preparing_to_jump a) (killed_monster a)
    (bumped_head a) (killed_animation_frame_cnt a)
    (finished_level_frame_cnt a) (power_up_mode a) (collected_coin a)
    (collected_gem a) (collect_data a) (support a).
Definition with_action_dx (a : t) (v : Z) : t :=
  Build_t (theme_n a) (x a) (y a) (vx a) (vy a) (spring a) (zoom a)
    (target_zoom a) (game_over a) (reward a) (reward_sum a)
    (is_facing_right a) (ladder_mode a) v (action_dy a) (time_alive a)
    (is_killed a) (is_preparing_to_jump a) (killed_monster a)
    (bumped_head a) (killed_animation_frame_cnt a)
    (finished_level_frame_cnt a) (power_up_mode a) (collected_coin a)
    (collected_gem a) (collect_data a) (support a).
Definition with_action_dy (a : t) (v : Z) : t :=
  Build_t (theme_n a) (x a) (y a) (vx a) (vy a) (spring a) (zoom a)
    (target_zoom a) (game_over a) (reward a) (reward_sum a)
    (is_facing_right a) (ladder_mode a) (action_dx a) v (time_alive a)
    (is_killed a) (is_preparing_to_jump a) (killed_monster a)
    (bumped_head a) (killed_animation_frame_cnt a)
    (finished_level_frame_cnt a) (power_up_mode a) (collected_coin a)
    (collected_gem a) (collect_data a) (support a).
Definition with_time_alive (a : t) (v : Z) : t :=
  Build_t (theme_n a) (x a) (y a) (vx a) (vy a) (spring a) (zoom a)
    (target_zoom a) (game_over a) (reward a) (reward_sum a)
    (is_facing_right a) (ladder_mode a) (action_dx a) (action_dy a) v
    (is_killed a) (is_preparing_to_jump a) (killed_monster a)
    (bumped_head a) (killed_animation_frame_cnt a)
    (finished_level_frame_cnt a) (power_up_mode a) (collected_coin a)
    (collected_gem a) (collect_data a) (support a).
Definition with_is_killed (a : t) (v : bool) : t :=
  Build_t (theme_n a) (x a) (y a) (vx a) (vy a) (spring a) (zoom a)
    (target_zoom a) (game_over a) (reward a) (reward_sum a)
    (is_facing_right a) (ladder_mode a) (action_dx a) (action_dy a)
    (time_alive a) v (is_preparing_to_jump a) (killed_monster a)
    (bumped_head a) (killed_animation_frame_cnt a)
    (finished_level_frame_cnt a) (power_up_mode a) (collected_coin a)
    (collected_gem a) (collect_data a) (support a).
Definition with_is_preparing_to_jump (a : t) (v : bool) : t :=
  Build_t (theme_n a) (x a) (y a) (vx a) (vy a) (spring a) (zoom a)
    (target_zoom a) (game_over a) (reward a) (reward_sum a)
    (is_facing_right a) (ladder_mode a) (action_dx a) (action_dy a)
    (time_alive a) (is_killed a) v (killed_monster a) (bumped_head a)
    (killed_animation_frame_cnt a) (finished_level_frame_cnt a)
    (power_up_mode a) (collected_coin a) (collected_gem a) (collect_data
    a) (support a).
Definition with_killed_monster (a : t) (v : bool) : t :=
  Build_t (theme_n a) (x a) (y a) (vx a) (vy a) (spring a) (zoom a)
    (target_zoom a) (game_over a) (reward a) (reward_sum a)
    (is_facing_right a) (ladder_mode a) (action_dx a) (action_dy a)
    (time_alive a) (is_killed a) (is_preparing_to_jump a) v (bumped_head
    a) (killed_animation_frame_cnt a) (finished_level_frame_cnt a)
    (power_up_mode a) (collected_coin a) (collected_gem a) (collect_data
    a) (support a).
Definition with_bumped_head (a : t) (v : bool) : t :=
  Build_t (theme_n a) (x a) (y a) (vx a) (vy a) (spring a) (zoom a)
    (target_zoom a) (game_over a) (reward a) (reward_sum a)
    (is_facing_right a) (ladder_mode a) (action_dx a) (action_dy a)
    (time_alive a) (is_killed a) (is_preparing_to_jump a)
    (killed_monster a) v (killed_animation_frame_cnt a)
    (finished_level_frame_cnt a) (power_up_mode a) (collected_coin a)
    (collected_gem a) (collect_data a) (support a).
Definition with_killed_animation_frame_cnt (a : t) (v : Z) : t :=
  Build_t (theme_n a) (x a) (y a) (vx a) (vy a) (spring a) (zoom a)
    (target_zoom a) (game_over a) (reward a) (reward_sum a)
    (is_facing_right a) (ladder_mode a) (action_dx a) (action_dy a)
    (time_alive a) (is_killed a) (is_preparing_to_jump a)
    (killed_monster a) (bumped_head a) v (finished_level_frame_cnt a)
    (power_up_mode a) (collected_coin a) (collected_gem a) (collect_data
    a) (support a).
Definition with_finished_level_frame_cnt (a : t) (v : Z) : t :=
  Build_t (theme_n a) (x a) (y a) (vx a) (vy a) (spring a) (zoom a)
    (target_zoom a) (game_over a) (reward a) (reward_sum a)
    (is_facing_right a) (ladder_mode a) (action_dx a) (action_dy a)
    (time_alive a) (is_killed a) (is_preparing_to_jump a)
    (killed_monster a) (bumped_head a) (killed_animation_frame_cnt a) v
    (power_up_mode a) (collected_coin a) (collected_gem a) (collect_data
    a) (support a).
Definition with_power_up_mode (a : t) (v : bool) : t :=
  Build_t (theme_n a) (x a) (y a) (vx a) (vy a) (spring a) (zoom a)
    (target_zoom a) (game_over a) (reward a) (reward_sum a)
    (is_facing_right a) (ladder_mode a) (action_dx a) (action_dy a)
    (time_alive a) (is_killed a) (is_preparing_to_jump a)
    (killed_monster a) (bumped_head a) (killed_animation_frame_cnt a)
    (finished_level_frame_cnt a) v (collected_coin a) (collected_gem a)
    (collect_data a) (support a).
Definition with_collected_coin (a : t) (v : bool) : t :=
  Build_t (theme_n a) (x a) (y a) (vx a) (vy a) (spring a) (zoom a)
    (target_zoom a) (game_over a) (reward a) (reward_sum a)
    (is_facing_right a) (ladder_mode a) (action_dx a) (action_dy a)
    (time_alive a) (is_killed a) (is_preparing_to_jump a)
    (killed_monster a) (bumped_head a) (killed_animation_frame_cnt a)
    (finished_level_frame_cnt a) (power_up_mode a) v (collected_gem a)
    (collect_data a) (support a).
Definition with_collected_gem (a : t) (v : bool) : t :=
  Build_t (theme_n a) (x a) (y a) (vx a) (vy a) (spring a) (zoom a)
    (target_zoom a) (game_over a) (reward a) (reward_sum a)
    (is_facing_right a) (ladder_mode a) (action_dx a) (action_dy a)
    (time_alive a) (is_killed a) (is_preparing_to_jump a)
    (killed_monster a) (bumped_head a) (killed_animation_frame_cnt a)
    (finished_level_frame_cnt a) (power_up_mode a) (collected_coin a) v
    (collect_data a) (support a).
Definition with_collect_data (a : t) (v : bool) : t :=
  Build_t (theme_n a) (x a) (y a) (vx a) (vy a) (spring a) (zoom a)
    (target_zoom a) (game_over a) (reward a) (reward_sum a)
    (is_facing_right a) (ladder_mode a) (action_dx a) (action_dy a)
    (time_alive a) (is_killed a) (is_preparing_to_jump a)
    (killed_monster a) (bumped_head a) (killed_animation_frame_cnt a)
    (finished_level_frame_cnt a) (power_up_mode a) (collected_coin a)
    (collected_gem a) v (support a).
Definition with_support (a : t) (v : bool) : t :=
  Build_t (theme_n a) (x a) (y a) (vx a) (vy a) (spring a) (zoom a)
    (target_zoom a) (game_over a) (reward a) (reward_sum a)
    (is_facing_right a) (ladder_mode a) (action_dx a) (action_dy a)
    (time_alive a) (is_killed a) (is_preparing_to_jump a)
    (killed_monster a) (bumped_head a) (killed_animation_frame_cnt a)
    (finished_level_frame_cnt a) (power_up_mode a) (collected_coin a)
    (collected_gem a) (collect_data a) v.

End Agent.

Record Sim := {
  sim_agent : Agent.t;
  sim_maze : Maze.t
}.

Definition on_agent (f : Agent.t -> Agent.t) : M Sim unit :=
  modify (fun s => {| sim_agent := f (sim_agent s); sim_maze := sim_maze s |}).

Definition on_maze (f : Maze.t -> Maze.t) : M Sim unit :=
  modify (fun s => {| sim_agent := sim_agent s; sim_maze := f (sim_maze s) |}).

Definition sim_get (x y : Z) : M Sim Z :=
  fun s => match Maze.get_elem (sim_maze s) x y with
           | Some v => Ok (v, s)
           | None => Err OutOfRange
           end.

Definition sim_set (x y val : Z) : M Sim unit :=
  fun s => match Maze.set_elem (sim_maze s) x y val with
           | Some m' => Ok (tt, {| sim_agent := sim_agent s; sim_maze := m' |})
           | None => Err OutOfRange
           end.

Definition when {St} (b : bool) (c : M St unit) : M St unit :=
  if b then c else ret tt.

Definition add_reward (r : Fl.float) : M Sim unit :=
  on_agent (fun a => Agent.with_reward a (Fl.fadd (Agent.reward a) r)) ;;;
  on_agent (fun a => Agent.with_reward_sum a (Fl.fadd (Agent.reward_sum a) r)).

Definition sub_reward (r : Fl.float) : M Sim unit :=
  on_agent (fun a => Agent.with_reward a (Fl.fsub (Agent.reward a) r)) ;;;
  on_agent (fun a => Agent.with_reward_sum a (Fl.fsub (Agent.reward_sum a) r)).

(** [Agent::eat_coin]; the line written to the monitor file is left out *)
Definition eat_coin (x y : Z) : M Sim unit :=
  obj <- sim_get x y ;;
  when (is_lethal obj)
    (on_maze (fun m => Maze.with_is_terminated m true) ;;;
     on_agent (fun a => Agent.with_is_killed a true) ;;;
     on_agent (fun a =>
       Agent.with_killed_animation_frame_cnt a DEATH_ANIM_LENGTH)) ;;;
  when (is_coin obj)
    (sim_set x y SPACE ;;;
     on_maze (fun m => Maze.with_coins m (wrap32 (Maze.coins m - 1))) ;;;
     on_agent (fun a => Agent.with_collected_coin a true) ;;;
     s <- get ;;
     when (Agent.power_up_mode (sim_agent s))
       (on_agent (fun a => Agent.with_power_up_mode a false)) ;;;
     s <- get ;;
     if Maze.coins (sim_maze s) =? 0 then
       add_reward (Fl.f_of_int 10) ;;;
       on_maze (fun m => Maze.with_is_terminated m true) ;;;
       on_agent (fun a =>
         Agent.with_finished_level_frame_cnt a FINISHED_LEVEL_ANIM_LENGTH)
     else
       add_reward (Fl.f_of_int 1)) ;;;
  when (is_gem obj)
    (sim_set x y SPACE ;;;
     add_reward (Fl.f_of_int 1) ;;;
     on_agent (fun a => Agent.with_power_up_mode a true) ;;;
     on_agent (fun a => Agent.with_collected_gem a true)).

Definition the_agent : M Sim Agent.t := s <- get ;; ret (sim_agent s).

Definition the_maze : M Sim Maze.t := s <- get ;; ret (sim_maze s).

(** [maze->has_vertical_space(x, y, crate_counts)] *)
Definition vertical_space (x y : Fl.float) (crate_counts : bool)
  : M Sim bool :=
  fun s => match Maze.has_vertical_space (sim_maze s) x y crate_counts with
           | Some b => Ok (b, s)
           | None => Err OutOfRange
           end.

(** [while (!maze->has_vertical_space(x, y, false)) y -= 1;] *)
Fixpoint bump_loop (fuel : nat) : M Sim unit :=
  a <- the_agent ;;
  free <- vertical_space (Agent.x a) (Agent.y a) false ;;
  if free then ret tt
  else match fuel with
       | O => fail OutOfFuel
       | S fuel' =>
           on_agent (fun a =>
             Agent.with_y a (Fl.fsub (Agent.y a) (Fl.f_of_int 1))) ;;;
           bump_loop fuel'
       end.

(** the vertical half of [Agent::sub_step] *)
Definition sub_step_vertical (cfg : Config) (_vy ny : Fl.float) : M Sim unit :=
  a <- the_agent ;;
  let down := Fl.lt _vy Fl.fzero in
  let up := Fl.gt _vy Fl.fzero in
  hit_floor <- (if down then
                  v <- vertical_space (Agent.x a) ny false ;; ret (negb v)
                else ret false) ;;
  if hit_floor then
    on_agent (fun a => Agent.with_y a (Fl.f_of_int (Fl.to_int ny + 1))) ;;;
    on_agent (fun a => Agent.with_support a true) ;;;
    on_agent (fun a => Agent.with_vy a Fl.fzero)
  else
  hit_crate <- (if down then
                  v <- vertical_space (Agent.x a) ny true ;; ret (negb v)
                else ret false) ;;
  if hit_crate then
    if (0 <=? Agent.action_dy a)
       && negb (Fl.to_int ny =? Fl.to_int (Agent.y a)) then
      on_agent (fun a => Agent.with_y a (Fl.f_of_int (Fl.to_int ny + 1))) ;;;
      on_agent (fun a => Agent.with_vy a Fl.fzero) ;;;
      on_agent (fun a => Agent.with_support a true)
    else
      on_agent (fun a => Agent.with_support a false) ;;;
      on_agent (fun a => Agent.with_y a ny)
  else
  hit_ceiling <- (if up then
                    v <- vertical_space (Agent.x a)
                           (Fl.fadd ny (Fl.f_of_int 1)) false ;;
                    ret (negb v)
                  else ret false) ;;
  if hit_ceiling then
    on_agent (fun a => Agent.with_y a (Fl.f_of_int (Fl.to_int ny))) ;;;
    m <- the_maze ;;
    bump_loop (S (length (Maze.walls m))) ;;;
    on_agent (fun a => Agent.with_bumped_head a true) ;;;
    on_agent (fun a => Agent.with_vy a Fl.fzero) ;;;
    sub_reward (BUMP_HEAD_PENALTY cfg)
  else
    on_agent (fun a => Agent.with_y a ny).

(** the horizontal half of [Agent::sub_step]: one probe, in the row [iy]
    of the agent, in the direction of motion *)
Definition sub_step_horizontal (_vx nx : Fl.float) (iy inx : Z) : M Sim unit :=
  hit_left <- (if Fl.lt _vx Fl.fzero then
                 c <- sim_get inx iy ;; ret (is_wall c false)
               else ret false) ;;
  if hit_left then
    on_agent (fun a => Agent.with_vx a Fl.fzero) ;;;
    on_agent (fun a => Agent.with_x a (Fl.f_of_int (inx + 1)))
  else
  hit_right <- (if Fl.gt _vx Fl.fzero then
                  c <- sim_get (inx + 1) iy ;; ret (is_wall c false)
                else ret false) ;;
  if hit_right then
    on_agent (fun a => Agent.with_vx a Fl.fzero) ;;;
    on_agent (fun a => Agent.with_x a (Fl.f_of_int inx))
  else
    on_agent (fun a => Agent.with_x a nx).

(** [Agent::sub_step] *)
Definition sub_step (cfg : Config) (_vx _vy : Fl.float) : M Sim unit :=
  a <- the_agent ;;
  let ny := Fl.fadd (Agent.y a) _vy in
  let nx := Fl.fadd (Agent.x a) _vx in
  sub_step_vertical cfg _vy ny ;;;
  a <- the_agent ;;
  let ix := Fl.to_int (Agent.x a) in
  let iy := Fl.to_int (Agent.y a) in
  let inx := Fl.to_int nx in
  sub_step_horizontal _vx nx iy inx ;;;
  eat_coin ix iy ;;;
  eat_coin ix (iy + 1) ;;;
  eat_coin (ix + 1) iy ;;;
  eat_coin (ix + 1) (iy + 1).

(** the loop [for (s = 0; s < num_sub_steps; s++)] of [step_coinrun],
    left early when both velocities are zero *)
Fixpoint sub_steps (cfg : Config) (k : nat) (pct : Fl.float) : M Sim unit :=
  match k with
  | O => ret tt
  | S k' =>
      a <- the_agent ;;
      sub_step cfg (Fl.fmul (Agent.vx a) pct) (Fl.fmul (Agent.vy a) pct) ;;;
      a <- the_agent ;;
      if Fl.eq (Agent.vx a) Fl.fzero && Fl.eq (Agent.vy a) Fl.fzero
      then ret tt
      else sub_steps cfg k' pct
  end.

(** [Agent::step_coinrun] *)
Definition step_coinrun (cfg : Config) : M Sim unit :=
  on_agent (fun a => Agent.with_support a false) ;;;
  a <- the_agent ;;
  when (0 <? Agent.finished_level_frame_cnt a)
    (on_agent (fun a => Agent.with_action_dy a 0) ;;;
     on_agent (fun a => Agent.with_action_dx a 0)) ;;;
  a <- the_agent ;;
  let near_x := Fl.to_int (Fl.dadd (Fl.d_of_f (Agent.x a)) (Fl.dlit 5 10)) in
  test_is_ladder1 <-
    sim_get near_x
      (Fl.to_int (Fl.dadd (Fl.d_of_f (Agent.y a)) (Fl.dlit 2 10))) ;;
  test_is_ladder2 <-
    sim_get near_x
      (Fl.to_int (Fl.dsub (Fl.d_of_f (Agent.y a)) (Fl.dlit 2 10))) ;;
  (if (test_is_ladder1 =? LADDER) || (test_is_ladder2 =? LADDER) then
     when (negb (Agent.action_dy a =? 0))
       (on_agent (fun a => Agent.with_ladder_mode a true))
   else on_agent (fun a => Agent.with_ladder_mode a false)) ;;;
  m <- the_maze ;;
  let max_jump := Maze.max_jump m in
  let max_speed := Maze.max_speed m in
  let mix_rate := Maze.mix_rate m in
  a <- the_agent ;;
  (if Agent.ladder_mode a then
     let vx1 :=
       Fl.f_of_d
         (Fl.dadd
            (Fl.d_of_f (Fl.fmul (Fl.fsub (Fl.f_of_int 1) LADDER_MIXRATE_X)
                                (Agent.vx a)))
            (Fl.dmul (Fl.d_of_f (Fl.fmul LADDER_MIXRATE_X max_speed))
                     (Fl.dadd (Fl.d_of_int (Agent.action_dx a))
                              (Fl.dmul (Fl.dlit 2 10)
                                       (Fl.d_of_f
                                          (Fl.fsub (Fl.f_of_int near_x)
                                                   (Agent.x a))))))) in
     let vy1 :=
       Fl.fadd (Fl.fmul (Fl.fsub (Fl.f_of_int 1) LADDER_MIXRATE_Y) (Agent.vy a))
               (Fl.fmul (Fl.fmul LADDER_MIXRATE_Y max_speed)
                        (Fl.f_of_int (Agent.action_dy a))) in
     on_agent (fun a => Agent.with_vx a (Fl.clip_abs vx1 LADDER_V)) ;;;
     on_agent (fun a => Agent.with_vy a (Fl.clip_abs vy1 LADDER_V))
   else if Fl.gt (Agent.spring a) Fl.fzero && Fl.eq (Agent.vy a) Fl.fzero
           && (Agent.action_dy a =? 0) then
     on_agent (fun a => Agent.with_vy a max_jump) ;;;
     sub_reward (JUMP_PENALTY cfg) ;;;
     on_agent (fun a => Agent.with_spring a Fl.fzero) ;;;
     on_agent (fun a => Agent.with_support a true)
   else
     on_agent (fun a =>
       Agent.with_vy a (Fl.fsub (Agent.vy a) (Maze.gravity m)))) ;;;
  on_agent (fun a => Agent.with_vy a (Fl.clip_abs (Agent.vy a) max_jump)) ;;;
  on_agent (fun a => Agent.with_vx a (Fl.clip_abs (Agent.vx a) max_speed)) ;;;
  let num_sub_steps := 2 in
  let pct := Fl.f_of_d (Fl.ddiv (Fl.dlit 1 1) (Fl.d_of_int num_sub_steps)) in
  sub_steps cfg (Z.to_nat num_sub_steps) pct ;;;
  a <- the_agent ;;
  (if Agent.support a then
     when (0 <? Agent.action_dy a)
       (on_agent (fun a =>
          Agent.with_spring a
            (Fl.f_of_d
               (Fl.dadd (Fl.d_of_f (Agent.spring a))
                        (Fl.ddiv (Fl.dmul (Fl.sign
                                             (Fl.d_of_int (Agent.action_dy a)))
                                          (Fl.d_of_f max_jump))
                                 (Fl.d_of_int 4)))))) ;;;
     when (Agent.action_dy a <? 0)
       (on_agent (fun a => Agent.with_spring a (Fl.fneg (Fl.flit 1 100)))) ;;;
     a <- the_agent ;;
     when ((Agent.action_dy a =? 0) && Fl.lt (Agent.spring a) Fl.fzero)
       (on_agent (fun a => Agent.with_spring a Fl.fzero)) ;;;
     on_agent (fun a =>
       Agent.with_spring a (Fl.clip_abs (Agent.spring a) max_jump)) ;;;
     on_agent (fun a =>
       Agent.with_vx a
         (Fl.fmul (Fl.fsub (Fl.f_of_int 1) mix_rate) (Agent.vx a))) ;;;
     a <- the_agent ;;
     when (Fl.eq (Agent.spring a) Fl.fzero)
       (on_agent (fun a =>
          Agent.with_vx a
            (Fl.fadd (Agent.vx a)
                     (Fl.fmul (Fl.fmul mix_rate max_speed)
                              (Fl.f_of_int (Agent.action_dx a)))))) ;;;
     a <- the_agent ;;
     when (Fl.lt (Fl.fabs (Agent.vx a)) (Fl.fmul mix_rate max_speed))
       (on_agent (fun a => Agent.with_vx a Fl.fzero))
   else
     on_agent (fun a => Agent.with_spring a Fl.fzero) ;;;
     let ac := Maze.air_control m in
     on_agent (fun a =>
       Agent.with_vx a
         (Fl.fadd (Fl.fmul (Fl.fsub (Fl.f_of_int 1) (Fl.fmul ac mix_rate))
                           (Agent.vx a))
                  (Fl.fmul (Fl.fmul ac mix_rate)
                           (Fl.f_of_int (Agent.action_dx a)))))) ;;;
  a <- the_agent ;;
  (if Fl.lt (Agent.vx a) Fl.fzero then
     on_agent (fun a => Agent.with_is_facing_right a false)
   else when (Fl.gt (Agent.vx a) Fl.fzero)
          (on_agent (fun a => Agent.with_is_facing_right a true))) ;;;
  a <- the_agent ;;
  if Fl.ne (Agent.spring a) Fl.fzero
     && negb (Agent.is_killed a || Agent.ladder_mode a
              || Fl.ne (Agent.vy a) Fl.fzero) then
    sub_reward (SQUAT_PENALTY cfg) ;;;
    on_agent (fun a => Agent.with_is_preparing_to_jump a true)
  else
    when (Agent.is_preparing_to_jump a && Fl.ne (Agent.vy a) max_jump)
      (sub_reward (JITTER_SQUAT_PENALTY cfg)) ;;;
    on_agent (fun a => Agent.with_is_preparing_to_jump a false).

(** [Agent::step] *)
Definition agent_step (cfg : Config) : M Sim unit :=
  on_agent (fun a => Agent.with_time_alive a (wrap32 (Agent.time_alive a + 1))) ;;;
  let timeout := LEVEL_TIMEOUT cfg in
  step_coinrun cfg ;;;
  a <- the_agent ;;
  when (timeout <? Agent.time_alive a)
    (on_maze (fun m => Maze.with_is_terminated m true)).

(** [Agent::reset] *)
Definition agent_reset (m : Maze.t) (a : Agent.t) : Agent.t :=
  let a := Agent.with_x a (Fl.f_of_int (fst (Maze.spawnpos m))) in
  let a := Agent.with_y a (Fl.f_of_int (snd (Maze.spawnpos m))) in
  let a := Agent.with_action_dx a 0 in
  let a := Agent.with_action_dy a 0 in
  let a := Agent.with_time_alive a 0 in
  let a := Agent.with_reward_sum a Fl.fzero in
  let a := Agent.with_spring a Fl.fzero in
  let a := Agent.with_vy a Fl.fzero in
  let a := Agent.with_vx a Fl.fzero in
  Agent.with_is_facing_right a true.

(** ** [Monster::step] *)

Definition theme_of (theme_n : Z) : option EnemyTheme :=
  if theme_n <? 0 then None else enemy_themel !! Z.to_nat theme_n.

Definition lift_opt {St A} (o : option A) : M St A :=
  match o with
  | Some a => ret a
  | None => fail OutOfRange
  end.

(** the trail: every entry moves one place down and the new position is
    stored last *)
Definition shift_trail (l : list Fl.float) (v : Fl.float) : list Fl.float :=
  drop 1 l ++ [v].

(** [Monster::step]; the state is the global generator, from which a
    landing jumper draws its pause *)
Definition monster_step (maze : Maze.t) (m : Monster.t)
  : M RandGen Monster.t :=
  if negb (Monster.is_flying m) && negb (Monster.is_walking m) then ret m else
  let control0 := Fl.f_of_d (Fl.sign (Fl.d_of_f (Monster.vx m))) in
  let ix := Fl.to_int (Monster.x m) in
  let iy := Fl.to_int (Monster.y m) in
  look_left <- lift_opt (Maze.get_elem maze ix iy) ;;
  look_right <- lift_opt (Maze.get_elem maze (ix + 1) iy) ;;
  let control1 := if is_wall look_left false then Fl.f_of_int 1 else control0 in
  let control2 :=
    if is_wall look_right false then Fl.f_of_int (-1) else control1 in
  control <-
    (if Monster.is_walking m then
       feel_left <- lift_opt (Maze.get_elem maze ix (iy - 1)) ;;
       feel_right <- lift_opt (Maze.get_elem maze (ix + 1) (iy - 1)) ;;
       let c3 := if negb (is_wall feel_left false)
                 then Fl.f_of_int 1 else control2 in
       ret (if negb (is_wall feel_right false) then Fl.f_of_int (-1) else c3)
     else ret control2) ;;
  th <- lift_opt (theme_of (Monster.theme_n m)) ;;
  let m := Monster.with_vx m
             (Fl.clip_abs
                (Fl.fadd (Fl.fmul MONSTER_MIXRATE control)
                         (Fl.fmul (Fl.fsub (Fl.f_of_int 1) MONSTER_MIXRATE)
                                  (Monster.vx m)))
                (monster_max_speed th)) in
  m <-
    (if is_jumping_monster th then
       let m :=
         if Fl.eq (Monster.vy m) Fl.fzero && (Monster.pause m =? 0) then
           Monster.with_vy m (max_jump_height th)
         else if Monster.pause m =? 0 then
           Monster.with_vy m
             (Fl.f_of_d (Fl.dsub (Fl.d_of_f (Monster.vy m))
                                 (Fl.dmul (Fl.dlit 8 10)
                                          (Fl.d_of_f (Maze.gravity maze)))))
         else m in
       let ny := Fl.fadd (Monster.y m) (Monster.vy m) in
       landed <- (if Fl.lt (Monster.vy m) Fl.fzero then
                    v <- lift_opt (Maze.has_vertical_space maze
                                     (Monster.x m) ny false) ;;
                    ret (negb v)
                  else ret false) ;;
       if landed then
         p <- randint 0 (max_pause_time th) ;;
         ret (Monster.with_pause
                (Monster.with_vy
                   (Monster.with_y m (Fl.f_of_int (Fl.to_int ny + 1)))
                   Fl.fzero)
                p)
       else ret m
     else ret m) ;;
  let m :=
    if 0 <? Monster.pause m then
      Monster.with_pause m (Monster.pause m - 1)
    else
      Monster.with_y
        (Monster.with_x m (Fl.fadd (Monster.x m) (Monster.vx m)))
        (Fl.fadd (Monster.y m) (Monster.vy m)) in
  ret (Monster.with_prev_y
         (Monster.with_prev_x m (shift_trail (Monster.prev_x m) (Monster.x m)))
         (shift_trail (Monster.prev_y m) (Monster.y m))).

(** ** The monster/agent collision of [stepping_thread]

    The two tests of the loop body, on the monster after its step.  The
    theme table is consulted only when the three geometric tests of the
    first condition hold. *)

Definition stomp_geometry (m : Monster.t) (a : Agent.t) : bool :=
  Fl.lt (Fl.d_of_f (Fl.fabs (Fl.fsub (Monster.x m) (Agent.x a)))) (Fl.dlit 6 10)
  && Fl.lt (Fl.d_of_f (Fl.fsub (Agent.y a) (Monster.y m))) (Fl.dlit 1 1)
  && Fl.gt (Fl.d_of_f (Fl.fsub (Agent.y a) (Monster.y m))) (Fl.dlit 0 1).

Definition touching (m : Monster.t) (a : Agent.t) : bool :=
  Fl.lt (Fl.d_of_f (Fl.fadd (Fl.fabs (Fl.fsub (Monster.x m) (Agent.x a)))
                            (Fl.fabs (Fl.fsub (Monster.y m) (Agent.y a)))))
        (Fl.dlit 1 1).

(** the [if ... else if ...] that follows [m->step(...)] *)
Definition collide (cfg : Config) (m : Monster.t) : M Sim Monster.t :=
  a <- the_agent ;;
  stomp <- (if stomp_geometry m a then
              th <- lift_opt (theme_of (Monster.theme_n m)) ;;
              ret (can_be_killed th)
            else ret false) ;;
  if stomp then
    let m := Monster.with_is_dead m true in
    let m := Monster.with_monster_dying_frame_cnt m
               (MONSTER_DEATH_ANIM_LENGTH - 1) in
    add_reward (KILL_MONSTER_REWARD cfg) ;;;
    on_agent (fun a => Agent.with_killed_monster a true) ;;;
    ret m
  else if touching m a && negb (Agent.power_up_mode a) then
    on_maze (fun mz => Maze.with_is_terminated mz true) ;;;
    on_agent (fun a => Agent.with_is_killed a true) ;;;
    on_agent (fun a =>
      Agent.with_killed_animation_frame_cnt a DEATH_ANIM_LENGTH) ;;;
    sub_reward (DIE_PENALTY cfg) ;;;
    ret m
  else ret m.

(** ** [State] and one tick of the stepping thread

    [belongs_to] is the handle of the owning [VectorOfStates] (in the
    source a weak pointer to it); the two mutexes are not data. *)

Module State.

Record t := {
  state_n : Z;
  maze : Maze.t;
  world_theme_n : Z;
  belongs_to : Z;
  time : Z;
  game_id : Z;
  agent : Agent.t;
  step_in_progress : bool;
  agent_ready : bool
}.

Definition with_state_n (a : t) (v : Z) : t :=
  Build_t v (maze a) (world_theme_n a) (belongs_to a) (time a) (game_id
    a) (agent a) (step_in_progress a) (agent_ready a).
Definition with_maze (a : t) (v : Maze.t) : t :=
  Build_t (state_n a) v (world_theme_n a) (belongs_to a) (time a)
    (game_id a) (agent a) (step_in_progress a) (agent_ready a).
Definition with_world_theme_n (a : t) (v : Z) : t :=
  Build_t (state_n a) (maze a) v (belongs_to a) (time a) (game_id a)
    (agent a) (step_in_progress a) (agent_ready a).
Definition with_belongs_to (a : t) (v : Z) : t :=
  Build_t (state_n a) (maze a) (world_theme_n a) v (time a) (game_id a)
    (agent a) (step_in_progress a) (agent_ready a).
Definition with_time (a : t) (v : Z) : t :=
  Build_t (state_n a) (maze a) (world_theme_n a) (belongs_to a) v
    (game_id a) (agent a) (step_in_progress a) (agent_ready a).
Definition with_game_id (a : t) (v : Z) : t :=
  Build_t (state_n a) (maze a) (world_theme_n a) (belongs_to a) (time a)
    v (agent a) (step_in_progress a) (agent_ready a).
Definition with_agent (a : t) (v : Agent.t) : t :=
  Build_t (state_n a) (maze a) (world_theme_n a) (belongs_to a) (time a)
    (game_id a) v (step_in_progress a) (agent_ready a).
Definition with_step_in_progress (a : t) (v : bool) : t :=
  Build_t (state_n a) (maze a) (world_theme_n a) (belongs_to a) (time a)
    (game_id a) (agent a) v (agent_ready a).
Definition with_agent_ready (a : t) (v : bool) : t :=
  Build_t (state_n a) (maze a) (world_theme_n a) (belongs_to a) (time a)
    (game_id a) (agent a) (step_in_progress a) v.

Definition sim (s : t) : Sim :=
  {| sim_agent := agent s; sim_maze := maze s |}.

Definition with_sim (s : t) (x : Sim) : t :=
  with_maze (with_agent s (sim_agent x)) (sim_maze x).

End State.

(** running agent code on a state *)
Definition on_sim {A} (c : M Sim A) (s : State.t) : res (A * State.t) :=
  match c (State.sim s) with
  | Ok (a, x) => Ok (a, State.with_sim s x)
  | Err e => Err e
  end.

(** [state_reset]: its first statement asserts that the table of player
    themes is not empty ("Please call init(threads) first"); then the level
    seed comes from the global generator and the level from a generator of
    its own, which also draws the two themes, with the sizes of the tables
    as bounds; [u] is what the memory of the new maze holds when it is
    allocated. *)
Definition pick_level_seed (cfg : Config) : M RandGen Z :=
  if USE_LEVEL_SET cfg then
    level_index <- randint 0 (NUM_LEVELS cfg) ;;
    lift_opt (if level_index <? 0 then None
              else LEVEL_SEEDS cfg !! Z.to_nat level_index)
  else if 0 <? NUM_LEVELS cfg then randint 0 (NUM_LEVELS cfg)
  else randint0.

Definition state_reset (cfg : Config) (u : Maze.uninit) (s : State.t)
  : M RandGen State.t :=
  assert (0 <? Z.of_nat (length (player_themesl cfg))) ;;;
  level_seed <- pick_level_seed cfg ;;
  fun grand =>
    match (generate_level cfg ;;;
           agent_theme <- randn (Z.of_nat (length (player_themesl cfg))) ;;
           world_theme <- randn (Z.of_nat (length (ground_themes cfg))) ;;
           ret (agent_theme, world_theme)) (fresh_generator u level_seed) with
    | Err e => Err e
    | Ok ((agent_theme, world_theme), g) =>
        let m := maze g in
        let zoom := Maze.default_zoom m in
        let a := State.agent s in
        let a := Agent.with_zoom a zoom in
        let a := Agent.with_target_zoom a zoom in
        let a := Agent.with_theme_n a agent_theme in
        let a := agent_reset m a in
        let m := Maze.with_is_terminated m false in
        let a := Agent.with_is_killed a false in
        let a := Agent.with_is_preparing_to_jump a false in
        let a := Agent.with_killed_monster a false in
        let a := Agent.with_bumped_head a false in
        let a := Agent.with_killed_animation_frame_cnt a 0 in
        let a := Agent.with_finished_level_frame_cnt a 0 in
        let a := Agent.with_power_up_mode a false in
        let s := State.with_maze s m in
        let s := State.with_world_theme_n s world_theme in
        let s := State.with_agent s a in
        let s := State.with_time s 0 in
        let s := State.with_game_id s (wrap32 (State.game_id s + 1)) in
        Ok (s, grand)
    end.

(** the loop over [maze->monsters]: a live monster steps and is then
    tested against the agent *)
Fixpoint step_monsters (cfg : Config) (ms : list Monster.t) (x : Sim)
         (grand : RandGen) : res (list Monster.t * Sim * RandGen) :=
  match ms with
  | [] => Ok ([], x, grand)
  | m :: rest =>
      if Monster.is_dead m then
        match step_monsters cfg rest x grand with
        | Ok (rest', x', g') => Ok (m :: rest', x', g')
        | Err e => Err e
        end
      else
        match monster_step (sim_maze x) m grand with
        | Err e => Err e
        | Ok (m1, g1) =>
            match collide cfg m1 x with
            | Err e => Err e
            | Ok (m2, x1) =>
                match step_monsters cfg rest x1 g1 with
                | Ok (rest', x', g') => Ok (m2 :: rest', x', g')
                | Err e => Err e
                end
            end
        end
  end.

(** The body a worker runs on the state it has taken from the queue (the
    painting of the render buffers is left out). *)
Definition state_tick (cfg : Config) (u : Maze.uninit) (s : State.t)
  : M RandGen State.t :=
  let a := State.agent s in
  if Agent.collect_data a
     && ((1 <? Agent.killed_animation_frame_cnt a)
         || (1 <? Agent.finished_level_frame_cnt a)) then
    let a := Agent.with_killed_animation_frame_cnt a
               (wrap32 (Agent.killed_animation_frame_cnt a - 1)) in
    let a := Agent.with_finished_level_frame_cnt a
               (wrap32 (Agent.finished_level_frame_cnt a - 1)) in
    let s := State.with_agent s a in
    if 1 <? Agent.finished_level_frame_cnt a then
      fun grand => match on_sim (agent_step cfg) s with
                   | Ok (_, s') => Ok (s', grand)
                   | Err e => Err e
                   end
    else ret s
  else
    let s := State.with_time s (wrap32 (State.time s + 1)) in
    let game_over := Maze.is_terminated (State.maze s) in
    fun grand =>
      match step_monsters cfg (Maze.monsters (State.maze s))
                          (State.sim s) grand with
      | Err e => Err e
      | Ok (ms, x, grand1) =>
          let s := State.with_sim s x in
          let s := State.with_maze s (Maze.with_monsters (State.maze s) ms) in
          let s := State.with_agent s
                     (Agent.with_game_over (State.agent s) game_over) in
          match (if Agent.is_killed (State.agent s) then Ok (tt, s)
                 else on_sim (agent_step cfg) s) with
          | Err e => Err e
          | Ok (_, s) =>
              match (if game_over then state_reset cfg u s grand1
                     else Ok (s, grand1)) with
              | Err e => Err e
              | Ok (s, grand2) =>
                  let a := State.agent s in
                  let a := Agent.with_collected_coin a false in
                  let a := Agent.with_collected_gem a false in
                  let a := Agent.with_killed_monster a false in
                  let a := Agent.with_bumped_head a false in
                  Ok (State.with_agent s a, grand2)
              end
          end
      end.

(** ** The vectorised interface

    [State] objects are shared between the [VectorOfStates] that owns
    them and the work queue, so they live in a store ([heap]) and both
    refer to them by address.  A worker thread is modelled by the
    critical sections of [stepping_thread], each of which is one atomic
    step; the calls of the C interface are steps of the calling thread. *)

Record VectorOfStates := {
  nenvs : Z;
  handle : Z;
  states : list nat
}.

(** where a worker is in its loop *)
Inductive worker :=
| Waiting                (* at the top of the loop, nothing taken *)
| Taken (addr : nat)     (* a state was spliced out of [workers_todo] *)
| Marked (addr : nat)    (* [step_in_progress] has been set *)
| Stepped (addr : nat)   (* the tick has run *)
| Exited.                (* returned because of [shutdown_flag] *)

Record Engine := {
  h2s : gmap Z VectorOfStates;
  heap : gmap nat State.t;
  next_addr : nat;
  workers_todo : list nat;
  handle_seq : Z;
  global_rand_gen : RandGen;
  shutdown_flag : bool;
  all_threads : list worker
}.

Definition with_h2s (e : Engine) (v : gmap Z VectorOfStates) : Engine :=
  {| h2s := v; heap := heap e; next_addr := next_addr e;
     workers_todo := workers_todo e; handle_seq := handle_seq e;
     global_rand_gen := global_rand_gen e; shutdown_flag := shutdown_flag e;
     all_threads := all_threads e |}.

Definition with_heap (e : Engine) (v : gmap nat State.t) : Engine :=
  {| h2s := h2s e; heap := v; next_addr := next_addr e;
     workers_todo := workers_todo e; handle_seq := handle_seq e;
     global_rand_gen := global_rand_gen e; shutdown_flag := shutdown_flag e;
     all_threads := all_threads e |}.

Definition with_next_addr (e : Engine) (v : nat) : Engine :=
  {| h2s := h2s e; heap := heap e; next_addr := v;
     workers_todo := workers_todo e; handle_seq := handle_seq e;
     global_rand_gen := global_rand_gen e; shutdown_flag := shutdown_flag e;
     all_threads := all_threads e |}.

Definition with_workers_todo (e : Engine) (v : list nat) : Engine :=
  {| h2s := h2s e; heap := heap e; next_addr := next_addr e;
     workers_todo := v; handle_seq := handle_seq e;
     global_rand_gen := global_rand_gen e; shutdown_flag := shutdown_flag e;
     all_threads := all_threads e |}.

Definition with_handle_seq (e : Engine) (v : Z) : Engine :=
  {| h2s := h2s e; heap := heap e; next_addr := next_addr e;
     workers_todo := workers_todo e; handle_seq := v;
     global_rand_gen := global_rand_gen e; shutdown_flag := shutdown_flag e;
     all_threads := all_threads e |}.

Definition with_global_rand_gen (e : Engine) (v : RandGen) : Engine :=
  {| h2s := h2s e; heap := heap e; next_addr := next_addr e;
     workers_todo := workers_todo e; handle_seq := handle_seq e;
     global_rand_gen := v; shutdown_flag := shutdown_flag e;
     all_threads := all_threads e |}.

Definition with_shutdown_flag (e : Engine) (v : bool) : Engine :=
  {| h2s := h2s e; heap := heap e; next_addr := next_addr e;
     workers_todo := workers_todo e; handle_seq := handle_seq e;
     global_rand_gen := global_rand_gen e; shutdown_flag := v;
     all_threads := all_threads e |}.

Definition with_all_threads (e : Engine) (v : list worker) : Engine :=
  {| h2s := h2s e; heap := heap e; next_addr := next_addr e;
     workers_todo := workers_todo e; handle_seq := handle_seq e;
     global_rand_gen := global_rand_gen e; shutdown_flag := shutdown_flag e;
     all_threads := v |}.

(** [vstate_find]: an unknown handle ends in [assert(0)] *)
Definition vstate_find (handle : Z) : M Engine VectorOfStates :=
  e <- get ;;
  match h2s e !! handle with
  | Some v => ret v
  | None => fail AssertionFailed
  end.

(** dereferencing the address of a [State] *)
Definition load (addr : nat) : M Engine State.t :=
  e <- get ;; lift_opt (heap e !! addr).

Definition store (addr : nat) (s : State.t) : M Engine unit :=
  modify (fun e => with_heap e (<[ addr := s ]> (heap e))).

Definition update (addr : nat) (f : State.t -> State.t) : M Engine unit :=
  s <- load addr ;; store addr (f s).

(** running a computation on the global generator *)
Definition on_global {A} (c : M RandGen A) : M Engine A :=
  fun e => match c (global_rand_gen e) with
           | Ok (a, g) => Ok (a, with_global_rand_gen e g)
           | Err x => Err x
           end.

(** the entry [i] of a caller's buffer or of a table *)
Definition at_index {St A} (l : list A) (i : Z) : M St A :=
  lift_opt (if i <? 0 then None else l !! Z.to_nat i).

(** [vec_step_async_discrete] *)
Definition submit_one (addr : nat) (action : Z) : M Engine unit :=
  assert ((0 <=? action) && (action <? NUM_ACTIONS)) ;;;
  dx <- at_index DISCRETE_ACTIONS (2 * action + 0) ;;
  dy <- at_index DISCRETE_ACTIONS (2 * action + 1) ;;
  update addr (fun s =>
    State.with_agent s
      (Agent.with_action_dy (Agent.with_action_dx (State.agent s) dx) dy)) ;;;
  update addr (fun s => State.with_agent_ready s true) ;;;
  modify (fun e => with_workers_todo e (workers_todo e ++ [addr])).

Definition vec_step_async_discrete (handle : Z) (actions : list Z)
  : M Engine unit :=
  vstate <- vstate_find handle ;;
  for_upto (nenvs vstate) (fun e =>
    addr <- at_index (states vstate) e ;;
    action <- at_index actions e ;;
    submit_one addr action).

(** the caller's output buffers of [vec_wait] *)
Record buffers := {
  rew : list Fl.float;
  done : list bool;
  new_level : list bool
}.

(** storing into a caller's buffer *)
Definition poke {A} (l : list A) (i : Z) (v : A) : option (list A) :=
  if (0 <=? i) && (i <? Z.of_nat (length l))
  then Some (<[ Z.to_nat i := v ]> l) else None.

(** the test of the waiting loop: [all_steps_completed] stays true when
    no instance of the group is ready *)
Fixpoint all_steps_completed (k : nat) (e : Z) (vstate : VectorOfStates)
  : M Engine bool :=
  match k with
  | O => ret true
  | S k' =>
      addr <- at_index (states vstate) e ;;
      s <- load addr ;;
      r <- all_steps_completed k' (e + 1) vstate ;;
      ret (negb (State.agent_ready s) && r)
  end.

(** the copy-out loop of [vec_wait] *)
Fixpoint copy_out (k : nat) (e : Z) (vstate : VectorOfStates) (b : buffers)
  : M Engine buffers :=
  match k with
  | O => ret b
  | S k' =>
      addr <- at_index (states vstate) e ;;
      state_e <- load addr ;;
      let a := State.agent state_e in
      r <- lift_opt (poke (rew b) e (Agent.reward a)) ;;
      d <- lift_opt (poke (done b) e (Agent.game_over a)) ;;
      n <- lift_opt (poke (new_level b) e
                          (Maze.is_new_level (State.maze state_e))) ;;
      store addr
        (State.with_maze
           (State.with_agent state_e
              (Agent.with_game_over (Agent.with_reward a Fl.fzero) false))
           (Maze.with_is_new_level (State.maze state_e) false)) ;;;
      copy_out k' (e + 1) vstate {| rew := r; done := d; new_level := n |}
  end.

(** [vec_wait], as far as one pass of its waiting loop goes: [None]
    when some instance is still ready, so that the caller goes on
    waiting, and otherwise the filled buffers with which it returns. *)
Definition vec_wait (handle : Z) (b : buffers) : M Engine (option buffers) :=
  vstate <- vstate_find handle ;;
  completed <- all_steps_completed (Z.to_nat (nenvs vstate)) 0 vstate ;;
  if negb completed then ret None
  else
    b' <- copy_out (Z.to_nat (nenvs vstate)) 0 vstate b ;;
    ret (Some b').

(** [vec_close] *)
Definition vec_close (handle : Z) : M Engine unit :=
  if handle =? 0 then ret tt
  else
    _ <- vstate_find handle ;;
    modify (fun e => with_h2s e (delete handle (h2s e))).

(** [coinrun_shutdown], up to the joins *)
Definition coinrun_shutdown : M Engine unit :=
  modify (fun e => with_shutdown_flag e true).

(** [vec_create]: [junk n] is what the memory of the [n]-th new [State]
    holds before its constructor runs, [u n] the same for its first maze;
    the members with an initialiser in the class get their initial value. *)
Definition new_State (junk : State.t) (belongs_to : Z) : State.t :=
  let a := State.agent junk in
  let a := Agent.with_spring a Fl.fzero in
  let a := Agent.with_zoom a (Fl.flit 1 1) in
  let a := Agent.with_target_zoom a (Fl.flit 1 1) in
  let a := Agent.with_game_over a false in
  let a := Agent.with_reward a Fl.fzero in
  let a := Agent.with_reward_sum a Fl.fzero in
  let a := Agent.with_action_dx a 0 in
  let a := Agent.with_action_dy a 0 in
  let a := Agent.with_is_killed a false in
  let a := Agent.with_is_preparing_to_jump a false in
  let a := Agent.with_killed_monster a false in
  let a := Agent.with_bumped_head a false in
  let a := Agent.with_killed_animation_frame_cnt a 0 in
  let a := Agent.with_finished_level_frame_cnt a 0 in
  let a := Agent.with_power_up_mode a false in
  let a := Agent.with_collected_coin a false in
  let a := Agent.with_collected_gem a false in
  let s := State.with_agent junk a in
  let s := State.with_belongs_to s belongs_to in
  let s := State.with_game_id s (-1) in
  let s := State.with_step_in_progress s false in
  State.with_agent_ready s false.

Definition create_one (cfg : Config) (junk : State.t) (u : Maze.uninit)
           (h n : Z) (collect_data : bool) (default_zoom : Fl.float)
  : M Engine nat :=
  e <- get ;;
  let addr := next_addr e in
  modify (fun e => with_next_addr e (S addr)) ;;;
  let s := State.with_state_n (new_State junk h) n in
  s <- on_global (state_reset cfg u s) ;;
  let s := State.with_agent_ready s false in
  let a := State.agent s in
  let a := Agent.with_zoom a default_zoom in
  let a := Agent.with_target_zoom a default_zoom in
  let a := Agent.with_collect_data a collect_data in
  store addr (State.with_agent s a) ;;;
  ret addr.

Fixpoint create_all (cfg : Config) (junk : Z -> State.t)
         (u : Z -> Maze.uninit) (h : Z) (k : nat) (n : Z)
         (collect_data : bool) (default_zoom : Fl.float)
  : M Engine (list nat) :=
  match k with
  | O => ret []
  | S k' =>
      a <- create_one cfg (junk n) (u n) h n collect_data default_zoom ;;
      rest <- create_all cfg junk u h k' (n + 1) collect_data default_zoom ;;
      ret (a :: rest)
  end.

Definition vec_create (cfg : Config) (junk : Z -> State.t)
           (u : Z -> Maze.uninit) (_nenvs : Z) (collect_data : bool)
           (default_zoom : Fl.float) : M Engine Z :=
  e <- get ;;
  let h := handle_seq e in
  addrs <- create_all cfg junk u h (Z.to_nat _nenvs) 0
             collect_data default_zoom ;;
  modify (fun e => with_handle_seq e (wrap32 (h + 1))) ;;;
  modify (fun e => with_h2s e
            (<[ h := {| nenvs := _nenvs; handle := h; states := addrs |} ]>
               (h2s e))) ;;;
  ret h.

(** *** The worker threads *)

Definition set_worker (i : nat) (w : worker) : M Engine unit :=
  modify (fun e => with_all_threads e (<[ i := w ]> (all_threads e))).

(** One atomic step of worker [i] of [stepping_thread]; [u] is the
    memory a reset would find for its new maze.  A worker that finds the
    queue empty, or that has exited, does nothing. *)
Definition worker_step (cfg : Config) (u : Maze.uninit) (i : nat)
  : M Engine unit :=
  e <- get ;;
  match all_threads e !! i with
  | None | Some Exited => ret tt
  | Some Waiting =>
      if shutdown_flag e then set_worker i Exited
      else match workers_todo e with
           | [] => ret tt
           | addr :: rest =>
               modify (fun e => with_workers_todo e rest) ;;;
               set_worker i (Taken addr)
           end
  | Some (Taken addr) =>
      s <- load addr ;;
      assert (State.agent_ready s) ;;;
      store addr (State.with_step_in_progress s true) ;;;
      set_worker i (Marked addr)
  | Some (Marked addr) =>
      s <- load addr ;;
      match h2s e !! State.belongs_to s with
      | None => set_worker i Waiting
      | Some _ =>
          s' <- on_global (state_tick cfg u s) ;;
          store addr s' ;;;
          set_worker i (Stepped addr)
      end
  | Some (Stepped addr) =>
      s <- load addr ;;
      assert (State.agent_ready s) ;;;
      assert (State.step_in_progress s) ;;;
      store addr (State.with_step_in_progress
                    (State.with_agent_ready s false) false) ;;;
      set_worker i Waiting
  end.

(** the events of a run and their interleaving *)
Inductive event :=
| Submit (handle : Z) (actions : list Z)
| Work (i : nat) (u : Maze.uninit)
| Close (handle : Z)
| Shutdown.

Definition do_event (cfg : Config) (ev : event) : M Engine unit :=
  match ev with
  | Submit h actions => vec_step_async_discrete h actions
  | Work i u => worker_step cfg u i
  | Close h => vec_close h
  | Shutdown => coinrun_shutdown
  end.

Fixpoint run (cfg : Config) (evs : list event) : M Engine unit :=
  match evs with
  | [] => ret tt
  | ev :: rest => do_event cfg ev ;;; run cfg rest
  end.

(** * Definitions used by the properties *)

(** ** Reasoning about computations

    [sat E c s Q]: run from [s], the computation [c] either returns a
    value and a state that satisfy [Q], or stops with an error allowed by
    [E].  With [E] nowhere true this is total correctness, with [E]
    everywhere true partial correctness. *)

Definition sat {St A} (E : error -> Prop) (c : M St A) (s : St)
           (Q : A -> St -> Prop) : Prop :=
  match c s with
  | Ok (a, s') => Q a s'
  | Err e => E e
  end.

Definition any_error : error -> Prop := fun _ => True.
Definition no_error : error -> Prop := fun _ => False.

(** ** Concrete mazes and agents for examples *)

Definition tiles_of_string (s : string) : list Z :=
  map chr (list_ascii_of_string s).

(** a maze drawn top row first, as the [test] level of the source *)
Definition maze_of_rows (rows : list string) (coins : Z) : Maze.t :=
  {| Maze.spawnpos := (1, 1);
     Maze.w := Z.of_nat (length (tiles_of_string (List.hd ""%string rows)));
     Maze.h := Z.of_nat (length rows);
     Maze.walls := concat (map tiles_of_string (reverse rows));
     Maze.coins := coins;
     Maze.is_terminated := false;
     Maze.is_new_level := false;
     Maze.gravity := GRAVITY;
     Maze.max_jump := MAX_JUMP;
     Maze.air_control := AIR_CONTROL default_config;
     Maze.max_dy := Fl.fzero;
     Maze.max_dx := Fl.fzero;
     Maze.default_zoom := Fl.flit 55 10;
     Maze.max_speed := MAX_SPEED;
     Maze.mix_rate := MIX_RATE;
     Maze.monsters := [] |}.

(** an agent at rest at [(x, y)] *)
Definition agent_at (x y : Fl.float) : Agent.t :=
  {| Agent.theme_n := 0; Agent.x := x; Agent.y := y;
     Agent.vx := Fl.fzero; Agent.vy := Fl.fzero; Agent.spring := Fl.fzero;
     Agent.zoom := Fl.flit 1 1; Agent.target_zoom := Fl.flit 1 1;
     Agent.game_over := false; Agent.reward := Fl.fzero;
     Agent.reward_sum := Fl.fzero; Agent.is_facing_right := true;
     Agent.ladder_mode := false; Agent.action_dx := 0; Agent.action_dy := 0;
     Agent.time_alive := 0; Agent.is_killed := false;
     Agent.is_preparing_to_jump := false; Agent.killed_monster := false;
     Agent.bumped_head := false; Agent.killed_animation_frame_cnt := 0;
     Agent.finished_level_frame_cnt := 0; Agent.power_up_mode := false;
     Agent.collected_coin := false; Agent.collected_gem := false;
     Agent.collect_data := false; Agent.support := false |}.

Definition last_coin_sim : Sim :=
  {| sim_agent := agent_at (Fl.f_of_int 1) (Fl.f_of_int 1);
     sim_maze := maze_of_rows [ "AAAA"; "A.1A"; "A..A"; "ASSA" ]%string 1 |}.


(** what the monster loop does once the monster at its head has become
    [m'], the agent and maze [x1] and the global generator [g1] *)
Definition then_rest (cfg : Config) (m' : Monster.t) (rest : list Monster.t)
           (x1 : Sim) (g1 : RandGen) : res (list Monster.t * Sim * RandGen) :=
  match step_monsters cfg rest x1 g1 with
  | Ok (rest', x', g') => Ok (m' :: rest', x', g')
  | Err e => Err e
  end.

(** the monster after a successful stomp *)
Definition stomped (m : Monster.t) : Monster.t :=
  Monster.with_monster_dying_frame_cnt (Monster.with_is_dead m true)
    (MONSTER_DEATH_ANIM_LENGTH - 1).

(** a flat corridor with a snail (theme 5, a walking monster that can be
    stomped) and with a mouse (theme 4, which cannot) *)
Definition corridor : Maze.t :=
  maze_of_rows [ "AAAAAAAA"; "A......A"; "A......A"; "ASSSSSSA" ]%string 0.

Definition snail : Monster.t := new_monster 3 1 false true 5.
Definition mouse : Monster.t := new_monster 3 1 false true 4.

(** the agent half a tile above the monster, and beside it *)
Definition above_sim : Sim :=
  {| sim_agent := agent_at (Fl.f_of_int 3) (Fl.flit 15 10);
     sim_maze := corridor |}.
Definition beside_sim : Sim :=
  {| sim_agent := agent_at (Fl.flit 35 10) (Fl.f_of_int 1);
     sim_maze := corridor |}.

Definition snail_stepped : Monster.t :=
  Eval vm_compute in
    match monster_step corridor snail RandGen_new with
    | Ok (m, _) => m
    | Err _ => snail
    end.
Definition mouse_stepped : Monster.t :=
  Eval vm_compute in
    match monster_step corridor mouse RandGen_new with
    | Ok (m, _) => m
    | Err _ => mouse
    end.

(** ** Coin placement *)

(** "open" as [place_coins] tests it: an empty tile or the marker of a
    walking monster *)
Definition is_open (c : Z) : bool := (c =? SPACE) || (c =? WALKING_MONSTER).

Definition open_cell (m : Maze.t) (x y : Z) : Prop :=
  exists c, Maze.get_elem m x y = Some c /\ is_open c = true.

Definition solid_cell (m : Maze.t) (x y : Z) : Prop :=
  exists c, Maze.get_elem m x y = Some c /\ is_wall c true = true.

(** the placement predicate at the anchor [r] *)
Definition placement_ok (m : Maze.t) (r : Rec) : Prop :=
  open_cell m (rx r) (ry r)
  /\ open_cell m (rx r - 1) (ry r)
  /\ open_cell m (rx r + 1) (ry r)
  /\ open_cell m (rx r) (ry r + 1)
  /\ solid_cell m (rx r - 1) (ry r - 1)
  /\ solid_cell m (rx r) (ry r - 1)
  /\ solid_cell m (rx r + 1) (ry r - 1).











(** ** The vectorised interface *)

(** a registered group: as many addresses as [nenvs], all different, all
    of live [State] objects *)
Definition group_ok (e : Engine) (v : VectorOfStates) : Prop :=
  nenvs v = Z.of_nat (length (states v))
  /\ NoDup (states v)
  /\ forall a, a ∈ states v -> is_Some (heap e !! a).

(** the state [vec_wait] leaves behind for an instance *)
Definition collected (s : State.t) : State.t :=
  State.with_maze
    (State.with_agent s
       (Agent.with_game_over
          (Agent.with_reward (State.agent s) Fl.fzero) false))
    (Maze.with_is_new_level (State.maze s) false).

(** caller buffers with room for [n] instances *)
Definition room_for (n : nat) (b : buffers) : Prop :=
  (n <= length (rew b))%nat /\ (n <= length (done b))%nat
  /\ (n <= length (new_level b))%nat.

(** the engine differs from [e] in its [heap] only *)
Definition same_but_heap (e e' : Engine) : Prop :=
  h2s e' = h2s e /\ next_addr e' = next_addr e
  /\ workers_todo e' = workers_todo e /\ handle_seq e' = handle_seq e
  /\ global_rand_gen e' = global_rand_gen e
  /\ shutdown_flag e' = shutdown_flag e /\ all_threads e' = all_threads e.

(** the control input of a discrete action *)
Definition action_dx_of (action : Z) : Z :=
  default 0 (DISCRETE_ACTIONS !! Z.to_nat (2 * action)).
Definition action_dy_of (action : Z) : Z :=
  default 0 (DISCRETE_ACTIONS !! Z.to_nat (2 * action + 1)).

(** the state [vec_step_async_discrete] leaves behind for an instance *)
Definition submitted (action : Z) (s : State.t) : State.t :=
  State.with_agent_ready
    (State.with_agent s
       (Agent.with_action_dy
          (Agent.with_action_dx (State.agent s) (action_dx_of action))
          (action_dy_of action)))
    true.

(** the engine differs from [e] in its [heap] and its queue only *)
Definition same_but_heap_and_queue (e e' : Engine) : Prop :=
  h2s e' = h2s e /\ next_addr e' = next_addr e
  /\ handle_seq e' = handle_seq e
  /\ global_rand_gen e' = global_rand_gen e
  /\ shutdown_flag e' = shutdown_flag e /\ all_threads e' = all_threads e.

(** an engine with one group of two instances, registered under the
    handle 100; the first instance has earned 1, the second 10 and has
    finished an episode *)
Definition example_state (n : Z) (r : Z) (over : bool) : State.t :=
  {| State.state_n := n;
     State.maze := corridor;
     State.world_theme_n := 0;
     State.belongs_to := 100;
     State.time := 7;
     State.game_id := 0;
     State.agent :=
       Agent.with_game_over
         (Agent.with_reward (agent_at (Fl.f_of_int 2) (Fl.f_of_int 1))
                            (Fl.f_of_int r))
         over;
     State.step_in_progress := false;
     State.agent_ready := false |}.

Definition example_group : VectorOfStates :=
  {| nenvs := 2; handle := 100; states := [0%nat; 1%nat] |}.

Definition example_engine : Engine :=
  {| h2s := {[ 100 := example_group ]};
     heap := {[ 0%nat := example_state 0 1 false;
                1%nat := example_state 1 10 true ]};
     next_addr := 2;
     workers_todo := [];
     handle_seq := 101;
     global_rand_gen := RandGen_seed 0;
     shutdown_flag := false;
     all_threads := [Waiting] |}.

Definition example_buffers : buffers :=
  {| rew := [Fl.fzero; Fl.fzero];
     done := [false; false];
     new_level := [true; true] |}.

Definition no_junk : Maze.uninit :=
  {| Maze.u_cell := fun _ => 0; Maze.u_spawnpos := (0, 0);
     Maze.u_float := fun _ => Fl.fzero |}.

(** [k] steps of worker 0 *)
Definition work (k : nat) : list event := replicate k (Work 0 no_junk).

(** ** Invariants of the generator *)

(** the 64 x 13 grid that [state_reset] allocates *)
Definition dims_ok (m : Maze.t) : Prop :=
  Maze.w m = 64 /\ Maze.h m = 13 /\ length (Maze.walls m) = 832%nat.

Definition border_cell (x y : Z) : Prop :=
  x = 0 \/ x = 63 \/ y = 0 \/ y = 12.

(** every cell of the outer border holds a wall tile *)
Definition border_solid (m : Maze.t) : Prop :=
  forall x y c,
    0 <= x <= 63 -> 0 <= y <= 12 -> border_cell x y ->
    Maze.get_elem m x y = Some c -> is_wall c false = true.

(** the tiles that exist before coins are placed *)
Definition platform_tile (c : Z) : bool :=
  (c =? SPACE) || (c =? TRACE) || (c =? WALL_SURFACE) || (c =? WALL_MIDDLE)
  || (c =? CLIFF_a) || (c =? CLIFF_b) || (c =? LADDER)
  || (c =? GROUND_MONSTER) || (c =? WALKING_MONSTER) || (c =? CRATE).

(** an anchor names a cell of the grid above the floor row *)
Definition rec_ok (r : Rec) : Prop := 0 <= rx r <= 63 /\ 1 <= ry r <= 11.

(** the invariant of the generator; [A] tells which tiles the grid may
    hold in the current phase *)
Record gen_inv (A : Z -> bool) (g : Gen) : Prop := {
  inv_dims : dims_ok (maze g);
  inv_border : border_solid (maze g);
  inv_stack : Forall rec_ok (rec_stack g);
  inv_seeded : is_seeded (rand_gen g) = true;
  inv_tiles : Forall (fun c => A c = true) (Maze.walls (maze g))
}.

Definition any_tile (c : Z) : bool := true.

(** the values [rand01()] can return *)
Definition is_rand01 (b : Fl.float) : Prop :=
  exists x, 0 <= x < 2^32 /\ b = rand01_of x.

(** what the arc of a jump needs from its vertical launch velocity: the
    step count is positive and small, and the first position of the arc,
    above an anchor row [k - 1], is not in row -1 *)
Definition vy_ok (vy : Fl.float) : Prop :=
  2 <= jump_top vy <= 2^20
  /\ forall k, 2 <= k <= 12 ->
       Fl.to_int (Fl.fadd (Fl.f_of_int k) (Fl.fsub vy GRAVITY)) <> -1.

(** the errors that float rounding could cause are allowed by [E], or
    they cannot occur *)
Definition arc_safe (E : error -> Prop) : Prop :=
  (E OutOfRange /\ E DivisionByZero)
  \/ forall b, is_rand01 b -> vy_ok (jump_vy b).

(** where an arc stands: not yet on the grid, or on a cell away from the
    border and below the two top rows *)
Definition arc_pos (a : arc) : Prop :=
  (a_ix a = -1 /\ a_iy a = -1)
  \/ (1 <= a_ix a <= 62 /\ 1 <= a_iy a <= 10).

(** a cell on top of a platform: away from the border *)
Definition top_ok (f : Rec) : Prop := 1 <= rx f <= 62 /\ 2 <= ry f <= 10.

(** a growing crate *)
Definition crate_ok (f : Rec) : Prop := 1 <= rx f <= 62 /\ 2 <= ry f <= 11.

(** the tile of the cell with offset [i] once [initial_floor_and_walls]
    has run on a 64 x 13 grid: a floor row, two side walls and a ceiling
    around empty space *)
Definition initial_tile (i : nat) : Z :=
  let x := Z.of_nat i mod 64 in
  let y := Z.of_nat i / 64 in
  if (y =? 12) || (x =? 0) || (x =? 63) then WALL_MIDDLE
  else if y =? 0 then WALL_SURFACE else SPACE.

Definition initial_walls : list Z := map initial_tile (seq 0 832).

(** the generator after [initial_floor_and_walls] *)
Definition initial_gen (cfg : Config) (u : Maze.uninit) (r : RandGen) : Gen :=
  {| rec_stack := [];
     maze := Maze.init_physics (AIR_CONTROL cfg)
               (Maze.with_walls (Maze.new u 64 13) initial_walls);
     rand_gen := r;
     stray := false |}.

(** how many cells hold a tile of the kind [f] *)
Definition count_tiles (f : Z -> bool) (m : Maze.t) : Z :=
  Z.of_nat (length (List.filter f (Maze.walls m))).

(** the coin tiles and the gem tiles of the grid are as many as the
    coin counter says *)
Definition coins_tally (m : Maze.t) : Prop :=
  count_tiles is_coin m + count_tiles is_gem m = Maze.coins m.

(** what holds of the generator from [place_coins] on *)
Definition placed (g : Gen) : Prop :=
  gen_inv any_tile g /\ coins_tally (maze g).

(** how [generate_coins_on_platforms] leaves its loop: [pw] holds the
    final values of [p] and [want_platforms] *)
Definition loop_exit (pw : Z * Z) : Prop :=
  0 <= snd pw <= 11 /\ 0 <= fst pw <= 110
  /\ (snd pw = 0 \/ snd pw * 10 <= fst pw)
  /\ (snd pw = 0 -> fst pw < 110).

(** ** Magnitudes of floating-point numbers *)

(** the magnitude of [m * 2^e]: the value lies in [2^(mag-1), 2^mag) *)
Definition mag (m : positive) (e : Z) : Z := Z.log2 (Zpos m) + 1 + e.

(** a positive finite number whose magnitude lies between [lo] and [hi],
    with an exponent that is not positive *)
Definition pos_mag (lo hi : Z) (x : spec_float) : Prop :=
  exists m e, x = S754_finite false m e /\ lo <= mag m e <= hi /\ e <= 0.

(** ** The end of the loop over the platform attempts *)

(** a freshly allocated maze whose memory held zeros *)
Definition zero_memory : Maze.uninit :=
  {| Maze.u_cell := fun _ => 0;
     Maze.u_spawnpos := (0, 0);
     Maze.u_float := fun _ => Fl.fzero |}.


(** ** A level with a gem *)

(** the counter is above the number of coin tiles: it cannot come down
    to zero by collecting them *)
Definition gem_debt (m : Maze.t) : Prop :=
  count_tiles is_coin m < Maze.coins m < 2^31.

(** the level has not been completed: the counter is above the number
    of coin tiles and the countdown of the level-finished animation has
    the value [n] *)
Definition unfinished (n : Z) (s : Sim) : Prop :=
  gem_debt (sim_maze s)
  /\ Agent.finished_level_frame_cnt (sim_agent s) = n.

(** a computation that keeps [P] whenever it returns *)
Definition keeps {A} (P : Sim -> Prop) (c : M Sim A) : Prop :=
  forall s, P s -> sat any_error c s (fun _ s' => P s').

(** a tick of the agent with the action [(dx, dy)] of the caller *)
Definition tick_with (cfg : Config) (act : Z * Z) : M Sim unit :=
  on_agent (fun a => Agent.with_action_dx a (fst act)) ;;;
  on_agent (fun a => Agent.with_action_dy a (snd act)) ;;;
  agent_step cfg.

(** the ticks of an episode, one per action *)
Fixpoint play (cfg : Config) (acts : list (Z * Z)) : M Sim unit :=
  match acts with
  | [] => ret tt
  | act :: rest => tick_with cfg act ;;; play cfg rest
  end.

(** what a tick leaves of the grid [m0]: the size, and every tile that
    is neither a coin nor a gem *)
Definition kept (m0 : Maze.t) (s : Sim) : Prop :=
  Maze.w (sim_maze s) = Maze.w m0 /\ Maze.h (sim_maze s) = Maze.h m0
  /\ length (Maze.walls (sim_maze s)) = length (Maze.walls m0)
  /\ forall i c, Maze.walls m0 !! i = Some c ->
                 is_coin c = false -> is_gem c = false ->
                 Maze.walls (sim_maze s) !! i = Some c.

(** a room with a coin and a gem, counted as [place_coins] counts them,
    and an agent that stands beside the coin *)
Definition gem_room : Maze.t :=
  maze_of_rows [ "AAAAAA"; "A....A"; "A.12.A"; "ASSSSA" ]%string 2.

Definition walker : Sim :=
  {| sim_agent := agent_at (Fl.f_of_int 1) (Fl.f_of_int 1);
     sim_maze := gem_room |}.

(** thirty ticks with the action "right" *)
Definition walk_right : list (Z * Z) := repeat (1, 0) 30.

(** ** The markers of the generator *)

(** the tiles that stand for something still to be done: the trace of a
    jump and the three kinds of monster *)
Definition is_marker (c : Z) : bool :=
  (c =? TRACE) || (c =? FLYING_MONSTER) || (c =? WALKING_MONSTER)
  || (c =? GROUND_MONSTER).

(** the offset of the cell [(x, y)] in a grid 64 cells wide *)
Definition cell (x y : Z) : nat := Z.to_nat (64 * y + x).

(** no marker in the first [k] cells *)
Definition tidy (k : nat) (ws : list Z) : Prop :=
  forall i c, (i < k)%nat -> ws !! i = Some c -> is_marker c = false.

(** the cell [k] holds something else than a trace *)
Definition settled (k : nat) (ws : list Z) : Prop :=
  exists c, ws !! k = Some c /\ c <> TRACE.

(** ** Filling the grid *)

(** the state of a fill of [g0] with [v] in which the cells of [S] are
    done *)
Definition filled (g0 : Gen) (v : Z) (S : Z -> Z -> Prop) (g : Gen) : Prop :=
  Maze.w (maze g) = Maze.w (maze g0)
  /\ Maze.h (maze g) = Maze.h (maze g0)
  /\ length (Maze.walls (maze g)) = length (Maze.walls (maze g0))
  /\ rec_stack g = rec_stack g0 /\ rand_gen g = rand_gen g0
  /\ forall x' y',
       0 <= x' < Maze.w (maze g0) -> 0 <= y' ->
       (S x' y' -> Maze.get_elem (maze g) x' y' = Some v)
       /\ (~ S x' y' ->
           Maze.get_elem (maze g) x' y' = Maze.get_elem (maze g0) x' y').

(** a [W] by [H] grid whose cell [(x, y)] holds the tile [t x y] *)
Definition grid_is (W H : Z) (t : Z -> Z -> Z) (g : Gen) : Prop :=
  Maze.w (maze g) = W /\ Maze.h (maze g) = H
  /\ Z.of_nat (length (Maze.walls (maze g))) = W * H
  /\ forall x y, 0 <= x < W -> 0 <= y < H ->
                 Maze.get_elem (maze g) x y = Some (t x y).

(** ** What generation leaves alone *)

(** a generator computation that keeps the property [Q] of the maze
    whenever it returns *)
Definition gkeeps {A} (Q : Maze.t -> Prop) (c : M Gen A) : Prop :=
  forall g, Q (maze g) -> sat any_error c g (fun _ g' => Q (maze g')).

(** the members of a maze other than its tiles, its coin counter and its
    monsters are those of [m0] *)
Definition members_of (m0 m : Maze.t) : Prop :=
  Maze.spawnpos m = Maze.spawnpos m0
  /\ Maze.w m = Maze.w m0 /\ Maze.h m = Maze.h m0
  /\ Maze.is_terminated m = Maze.is_terminated m0
  /\ Maze.is_new_level m = Maze.is_new_level m0
  /\ Maze.gravity m = Maze.gravity m0
  /\ Maze.max_jump m = Maze.max_jump m0
  /\ Maze.air_control m = Maze.air_control m0
  /\ Maze.max_dy m = Maze.max_dy m0
  /\ Maze.max_dx m = Maze.max_dx m0
  /\ Maze.default_zoom m = Maze.default_zoom m0
  /\ Maze.max_speed m = Maze.max_speed m0
  /\ Maze.mix_rate m = Maze.mix_rate m0.

(** ** Resetting an instance *)

(** [init] has loaded the images: the tables of player and of ground
    themes are not empty (and their sizes are ints) *)
Definition themes_loaded (cfg : Config) : Prop :=
  0 < Z.of_nat (length (player_themesl cfg)) < 2^31
  /\ 0 < Z.of_nat (length (ground_themes cfg)) < 2^31.

(** the state [s'] that a reset makes of [s]: the next game, on a new
    64 x 13 level with a solid border whose coin counter matches its
    tiles; the agent stands still at the spawn position, in row 1, with
    its death and end-of-level countdowns cleared; the reward and the
    game-over flag are those of [s] *)
Definition reset_from (s s' : State.t) : Prop :=
  State.game_id s' = wrap32 (State.game_id s + 1)
  /\ State.time s' = 0
  /\ State.agent_ready s' = State.agent_ready s
  /\ State.step_in_progress s' = State.step_in_progress s
  /\ State.state_n s' = State.state_n s
  /\ State.belongs_to s' = State.belongs_to s
  /\ dims_ok (State.maze s') /\ border_solid (State.maze s')
  /\ coins_tally (State.maze s')
  /\ Maze.is_new_level (State.maze s') = true
  /\ Maze.is_terminated (State.maze s') = false
  /\ 1 <= fst (Maze.spawnpos (State.maze s')) <= 62
  /\ Agent.x (State.agent s')
     = Fl.f_of_int (fst (Maze.spawnpos (State.maze s')))
  /\ Agent.y (State.agent s') = Fl.f_of_int 1
  /\ Agent.vx (State.agent s') = Fl.fzero
  /\ Agent.vy (State.agent s') = Fl.fzero
  /\ Agent.is_killed (State.agent s') = false
  /\ Agent.killed_animation_frame_cnt (State.agent s') = 0
  /\ Agent.finished_level_frame_cnt (State.agent s') = 0
  /\ Agent.zoom (State.agent s') = Fl.flit 55 10
  /\ Agent.reward (State.agent s') = Agent.reward (State.agent s)
  /\ Agent.game_over (State.agent s') = Agent.game_over (State.agent s).

(** ** Creating a group *)

(** the instance [n] of the group [h] as [vec_create] leaves it *)
Definition created (h n : Z) (collect_data : bool) (zoom : Fl.float)
           (s : State.t) : Prop :=
  State.state_n s = n /\ State.belongs_to s = h
  /\ State.agent_ready s = false /\ State.step_in_progress s = false
  /\ State.game_id s = 0 /\ State.time s = 0
  /\ dims_ok (State.maze s) /\ coins_tally (State.maze s)
  /\ Maze.is_new_level (State.maze s) = true
  /\ Maze.is_terminated (State.maze s) = false
  /\ Agent.zoom (State.agent s) = zoom
  /\ Agent.collect_data (State.agent s) = collect_data
  /\ Agent.reward (State.agent s) = Fl.fzero
  /\ Agent.game_over (State.agent s) = false
  /\ Agent.is_killed (State.agent s) = false.

(** ** Engines for the worker *)

(** [example_engine] after both instances were submitted with the
    action 1 *)
Definition queued_engine : Engine :=
  match vec_step_async_discrete 100 [1; 1] example_engine with
  | Ok (_, e) => e
  | Err _ => example_engine
  end.

(** the same after the group was closed *)
Definition closed_engine : Engine :=
  match vec_close 100 queued_engine with
  | Ok (_, e) => e
  | Err _ => queued_engine
  end.

(** ** The monsters of a level *)




(** ** The audio labels of a frame: [paint_audio_seg_map_buf] *)

Definition AUDIO_MAP_SIZE : Z := 9.

Definition AUDIO_LABEL_MAP : gmap string Z :=
  list_to_map
    [ ("ladder_climbing"%string, 0); ("jump"%string, 1); ("walk"%string, 2);
      ("bumped_head"%string, 3); ("killed"%string, 4); ("coin"%string, 5);
      ("killed_monster"%string, 6); ("gem"%string, 7);
      ("power_up_mode"%string, 8) ].

(** [buf[AUDIO_LABEL_MAP.at(key)] = 1]: [at] throws for a key that the
    map does not hold, and the store needs the index inside the buffer *)
Definition set_label (key : string) (buf : list Z) : option (list Z) :=
  i ← AUDIO_LABEL_MAP !! key; poke buf i 1.

(** the loop [for (i = 0; i < AUDIO_MAP_SIZE; ++i) buf[i] = 0] *)
Fixpoint clear_labels (k : nat) (i : Z) (buf : list Z) : option (list Z) :=
  match k with
  | O => Some buf
  | S k' => buf' ← poke buf i 0; clear_labels k' (i + 1) buf'
  end.

(** [paint_audio_seg_map_buf(buf, state, agent)], where [agent] is the
    agent of [state] and [agent->maze] its maze *)
Definition paint_audio_seg_map_buf (buf : list Z) (state : State.t)
  : option (list Z) :=
  let agent := State.agent state in
  let maze := State.maze state in
  buf ← clear_labels (Z.to_nat AUDIO_MAP_SIZE) 0 buf;
  buf ← (if Agent.power_up_mode agent
         then set_label "power_up_mode" buf else Some buf);
  buf ← (if Agent.collected_gem agent then set_label "gem" buf else Some buf);
  buf ← (if Agent.is_killed agent
            && (Agent.killed_animation_frame_cnt agent =? DEATH_ANIM_LENGTH)
         then set_label "killed" buf else Some buf);
  buf ← (if Agent.killed_monster agent
         then set_label "killed_monster" buf else Some buf);
  buf ← (if Agent.bumped_head agent
         then set_label "bumped_head" buf else Some buf);
  buf ← (if Agent.collected_coin agent
         then set_label "coin" buf else Some buf);
  if Agent.ladder_mode agent && (Z.rem (Agent.time_alive agent) 5 =? 0)
  then set_label "ladder_climbing" buf
  else if Fl.eq (Agent.vy agent) (Maze.max_jump maze)
  then set_label "jump" buf
  else if Fl.ne (Agent.vx agent) Fl.fzero
          && Fl.eq (Agent.vy agent) Fl.fzero
          && Fl.eq (Agent.spring agent) Fl.fzero
          && (Z.rem (Agent.time_alive agent) 5 =? 0)
  then set_label "walk" buf
  else Some buf.

(** ** [initialize_args]

    The globals it assigns are fields of [Config] and the global
    generator; the theme tables are not touched. *)

(** [global_rand_gen.seed(seed)] *)
Definition reseed (seed : Z) : M RandGen unit :=
  fun _ => Ok (tt, RandGen_seed seed).

(** the loop [for (i = 0; i < NUM_LEVELS; i++)
    LEVEL_SEEDS[i] = global_rand_gen.randint()] *)
Fixpoint draw_level_seeds (k : nat) : M RandGen (list Z) :=
  match k with
  | O => ret []
  | S k' =>
      x <- randint0 ;;
      rest <- draw_level_seeds k' ;;
      ret (x :: rest)
  end.

Definition initialize_args (int_args : list Z) (float_args : list Fl.float)
           (cfg : Config) : M RandGen Config :=
  num_levels <- at_index int_args 0 ;;
  paint_vel_info <- at_index int_args 1 ;;
  use_data_augmentation <- at_index int_args 2 ;;
  level_timeout <- at_index int_args 5 ;;
  air_control <- at_index float_args 0 ;;
  bump_head_penalty <- at_index float_args 1 ;;
  die_penalty <- at_index float_args 2 ;;
  kill_monster_reward <- at_index float_args 3 ;;
  jump_penalty <- at_index float_args 4 ;;
  squat_penalty <- at_index float_args 5 ;;
  jitter_squat_penalty <- at_index float_args 6 ;;
  training_sets_seed <- at_index int_args 3 ;;
  rand_seed <- at_index int_args 4 ;;
  level_set <-
    (if (0 <? num_levels) && negb (training_sets_seed =? -1) then
       reseed training_sets_seed ;;;
       seeds <- draw_level_seeds (Z.to_nat num_levels) ;;
       ret (true, seeds)
     else ret (USE_LEVEL_SET cfg, LEVEL_SEEDS cfg)) ;;
  (if negb (training_sets_seed =? -1) then reseed training_sets_seed
   else reseed rand_seed) ;;;
  ret {| AIR_CONTROL := air_control;
         BUMP_HEAD_PENALTY := bump_head_penalty;
         DIE_PENALTY := die_penalty;
         KILL_MONSTER_REWARD := kill_monster_reward;
         JUMP_PENALTY := jump_penalty;
         SQUAT_PENALTY := squat_penalty;
         JITTER_SQUAT_PENALTY := jitter_squat_penalty;
         LEVEL_TIMEOUT := level_timeout;
         NUM_LEVELS := num_levels;
         USE_LEVEL_SET := fst level_set;
         LEVEL_SEEDS := snd level_set;
         PAINT_VEL_INFO := paint_vel_info =? 1;
         USE_DATA_AUGMENTATION := use_data_augmentation =? 1;
         ground_themes := ground_themes cfg;
         player_themesl := player_themesl cfg |}.
(** * Properties *)

(** ** Rules for [sat] *)

Section SatRules.
Context {St : Type} (E : error -> Prop).

Lemma sat_ret {A} (a : A) (s : St) (Q : A -> St -> Prop) :
  Q a s -> sat E (ret a) s Q.
Proof. intro H. exact H. Qed.

Lemma sat_bind {A B} (c : M St A) (k : A -> M St B) (s : St)
      (Q : B -> St -> Prop) :
  sat E c s (fun a s' => sat E (k a) s' Q) -> sat E (bind c k) s Q.
Proof.
  unfold sat, bind. destruct (c s) as [[a s']|e]; auto.
Qed.

Lemma sat_weaken {A} (c : M St A) (s : St) (Q Q' : A -> St -> Prop) :
  sat E c s Q -> (forall a s', Q a s' -> Q' a s') -> sat E c s Q'.
Proof.
  unfold sat. destruct (c s) as [[a s']|e]; auto.
Qed.

Lemma sat_get (s : St) (Q : St -> St -> Prop) :
  Q s s -> sat E get s Q.
Proof. intro H. exact H. Qed.

Lemma sat_modify (f : St -> St) (s : St) (Q : unit -> St -> Prop) :
  Q tt (f s) -> sat E (modify f) s Q.
Proof. intro H. exact H. Qed.

Lemma sat_fail {A} (e : error) (s : St) (Q : A -> St -> Prop) :
  E e -> sat E (fail e) s Q.
Proof. intro H. exact H. Qed.

Lemma sat_assert (b : bool) (s : St) (Q : unit -> St -> Prop) :
  (b = true -> Q tt s) -> (b = false -> E AssertionFailed) ->
  sat E (assert b) s Q.
Proof. destruct b; intros H1 H2; [apply H1 | apply H2]; reflexivity. Qed.

Lemma sat_when (b : bool) (c : M St unit) (s : St)
      (Q : unit -> St -> Prop) :
  (b = true -> sat E c s Q) -> (b = false -> Q tt s) ->
  sat E (when b c) s Q.
Proof. destruct b; intros H1 H2; [apply H1 | apply H2]; reflexivity. Qed.

Lemma sat_lift_opt {A} (o : option A) (s : St) (Q : A -> St -> Prop) :
  (forall a, o = Some a -> Q a s) -> (o = None -> E OutOfRange) ->
  sat E (lift_opt o) s Q.
Proof.
  destruct o; intros H1 H2; [apply H1 | apply H2]; reflexivity.
Qed.

Lemma sat_elim {A} (c : M St A) (s : St) (Q : A -> St -> Prop) a s' :
  sat E c s Q -> c s = Ok (a, s') -> Q a s'.
Proof. unfold sat. intros H Heq. rewrite Heq in H. exact H. Qed.

End SatRules.

Lemma sat_total {St A} (c : M St A) (s : St) (Q : A -> St -> Prop) :
  sat no_error c s Q <-> exists a s', c s = Ok (a, s') /\ Q a s'.
Proof.
  unfold sat, no_error. destruct (c s) as [[a s']|e]; split.
  - intro H. exists a, s'. auto.
  - intros (a0 & s0 & Heq & H). inversion Heq. subst. exact H.
  - intros [].
  - intros (a0 & s0 & Heq & _). discriminate.
Qed.

Lemma sat_mono {St A} (E E' : error -> Prop) (c : M St A) (s : St)
      (Q : A -> St -> Prop) :
  (forall e, E e -> E' e) -> sat E c s Q -> sat E' c s Q.
Proof.
  unfold sat. intros HE. destruct (c s) as [[a s']|e]; auto.
Qed.

(** ** The grid accessors *)

Lemma get_elem_range (m : Maze.t) (x y v : Z) :
  Maze.get_elem m x y = Some v ->
  0 <= Maze.offset m x y < Z.of_nat (length (Maze.walls m)).
Proof.
  unfold Maze.get_elem. destruct (0 <=? Maze.offset m x y) eqn:H0; [|discriminate].
  intro H. apply lookup_lt_Some in H. lia.
Qed.

Lemma set_elem_in_range (m : Maze.t) (x y val : Z) :
  0 <= Maze.offset m x y < Z.of_nat (length (Maze.walls m)) ->
  Maze.set_elem m x y val
  = Some (Maze.with_walls m (<[ Z.to_nat (Maze.offset m x y) := val ]> (Maze.walls m))).
Proof.
  intro H. unfold Maze.set_elem.
  replace (0 <=? Maze.offset m x y) with true by (symmetry; apply Z.leb_le; lia).
  replace (Maze.offset m x y <? Z.of_nat (length (Maze.walls m))) with true
    by (symmetry; apply Z.ltb_lt; lia).
  reflexivity.
Qed.

Lemma get_elem_set_same (m : Maze.t) (x y val : Z) :
  0 <= Maze.offset m x y < Z.of_nat (length (Maze.walls m)) ->
  Maze.get_elem
    (Maze.with_walls m (<[ Z.to_nat (Maze.offset m x y) := val ]> (Maze.walls m)))
    x y = Some val.
Proof.
  intro H. unfold Maze.get_elem, Maze.offset in *. simpl.
  replace (0 <=? Maze.w m * y + x) with true by (symmetry; apply Z.leb_le; lia).
  apply list_lookup_insert_eq. lia.
Qed.

(** ** Eating the last coin *)

(** C1 (as amended).  When [eat_coin] is called on a coin tile and the
    decrement brings the maze's coin counter to zero, the call adds exactly
    10 to the agent's reward (and to its reward sum) -- the per-coin +1 is
    the other branch of the same test and is not added --, sets the maze's
    terminated flag, sets the finished-level countdown to
    [FINISHED_LEVEL_ANIM_LENGTH], and leaves an empty tile behind. *)
Theorem eat_last_coin (s : Sim) (x y : Z) :
  Maze.get_elem (sim_maze s) x y = Some COIN_OBJ1 ->
  wrap32 (Maze.coins (sim_maze s) - 1) = 0 ->
  exists s',
    eat_coin x y s = Ok (tt, s')
    /\ Agent.reward (sim_agent s')
       = Fl.fadd (Agent.reward (sim_agent s)) (Fl.f_of_int 10)
    /\ Agent.reward_sum (sim_agent s')
       = Fl.fadd (Agent.reward_sum (sim_agent s)) (Fl.f_of_int 10)
    /\ Maze.is_terminated (sim_maze s') = true
    /\ Agent.finished_level_frame_cnt (sim_agent s') = FINISHED_LEVEL_ANIM_LENGTH
    /\ Maze.coins (sim_maze s') = 0
    /\ Maze.get_elem (sim_maze s') x y = Some SPACE.
Proof.
  intros Hget Hlast.
  pose proof (get_elem_range _ _ _ _ Hget) as Hrange.
  unfold eat_coin, bind, sim_get, sim_set, when, on_maze, on_agent,
    add_reward, modify, get, ret.
  rewrite Hget.
  change (is_lethal COIN_OBJ1) with false.
  change (is_coin COIN_OBJ1) with true.
  change (is_gem COIN_OBJ1) with false.
  cbv beta iota. rewrite (set_elem_in_range _ _ _ _ Hrange).
  simpl. rewrite Hlast.
  destruct (Agent.power_up_mode (sim_agent s)); simpl;
    (eexists; split; [reflexivity|]); simpl;
    repeat split; try reflexivity;
    apply (get_elem_set_same (sim_maze s) x y SPACE Hrange).
Qed.

(** C1, a concrete run: the last coin of [last_coin_sim] is eaten and the
    reward goes from 0 to 10. *)
Lemma eat_last_coin_witness :
  Maze.get_elem (sim_maze last_coin_sim) 2 2 = Some COIN_OBJ1
  /\ exists s', eat_coin 2 2 last_coin_sim = Ok (tt, s')
     /\ Agent.reward (sim_agent s') = Fl.fadd Fl.fzero (Fl.f_of_int 10).
Proof.
  split; [reflexivity|].
  destruct (eat_last_coin last_coin_sim 2 2) as (s' & H1 & H2 & _);
    [reflexivity | reflexivity |].
  exists s'. split; [exact H1 | exact H2].
Defined.

(** C1 as stated fails: in [last_coin_sim] the agent's reward is 0 and
    the maze holds its last coin; eating it brings the counter to zero and
    leaves the reward at 10, which is not 1 + 10. *)
Lemma eat_last_coin_not_eleven :
  Maze.get_elem (sim_maze last_coin_sim) 2 2 = Some COIN_OBJ1
  /\ Maze.coins (sim_maze last_coin_sim) = 1
  /\ Agent.reward (sim_agent last_coin_sim) = Fl.fzero
  /\ exists s',
       eat_coin 2 2 last_coin_sim = Ok (tt, s')
       /\ Maze.coins (sim_maze s') = 0
       /\ Agent.reward (sim_agent s') = Fl.f_of_int 10
       /\ Agent.reward (sim_agent s')
          <> Fl.fadd (Fl.f_of_int 1) (Fl.f_of_int 10).
Proof.
  repeat split.
  eexists. split; [vm_compute; reflexivity|].
  repeat split; vm_compute; discriminate.
Qed.

(** ** The monster/agent collision *)

(** C5.  Take a live monster at the head of the monster loop and let [m]
    be the monster after its own step.  If |m.x - a.x| < 0.6, a.y - m.y
    lies strictly between 0 and 1 and the monster's theme can be killed,
    the monster becomes dead with its death countdown started
    ([MONSTER_DEATH_ANIM_LENGTH - 1]), the agent's reward grows by the
    kill-monster reward, and the agent is not killed.  Otherwise, if
    |m.x - a.x| + |m.y - a.y| < 1 and the agent is not in power-up mode,
    the agent is killed, the maze is terminated and the death countdown of
    the agent starts, while the monster is left as its step made it.  In
    both cases the loop goes on with the remaining monsters. *)
Theorem monster_collision (cfg : Config) (m0 : Monster.t)
        (rest : list Monster.t) (x : Sim) (g : RandGen)
        (m : Monster.t) (g1 : RandGen) :
  Monster.is_dead m0 = false ->
  monster_step (sim_maze x) m0 g = Ok (m, g1) ->
  let a := sim_agent x in
  (stomp_geometry m a = true ->
   (exists th, theme_of (Monster.theme_n m) = Some th
               /\ can_be_killed th = true) ->
   exists x1,
     step_monsters cfg (m0 :: rest) x g = then_rest cfg (stomped m) rest x1 g1
     /\ Monster.is_dead (stomped m) = true
     /\ Monster.monster_dying_frame_cnt (stomped m)
        = MONSTER_DEATH_ANIM_LENGTH - 1
     /\ Agent.reward (sim_agent x1)
        = Fl.fadd (Agent.reward a) (KILL_MONSTER_REWARD cfg)
     /\ Agent.is_killed (sim_agent x1) = Agent.is_killed a
     /\ sim_maze x1 = sim_maze x)
  /\
  ((stomp_geometry m a = false
    \/ exists th, theme_of (Monster.theme_n m) = Some th
                  /\ can_be_killed th = false) ->
   touching m a = true ->
   Agent.power_up_mode a = false ->
   exists x1,
     step_monsters cfg (m0 :: rest) x g = then_rest cfg m rest x1 g1
     /\ Agent.is_killed (sim_agent x1) = true
     /\ Maze.is_terminated (sim_maze x1) = true
     /\ Agent.killed_animation_frame_cnt (sim_agent x1) = DEATH_ANIM_LENGTH).
Proof.
  intros Hlive Hstep a. subst a. split.
  - intros Hgeo (th & Hth & Hkill).
    cbn [step_monsters]. rewrite Hlive, Hstep.
    unfold collide, the_agent, bind, get, ret.
    cbv beta iota. rewrite Hgeo. unfold lift_opt. rewrite Hth. unfold ret. simpl.
    rewrite Hkill. simpl. eexists. split; [reflexivity|].
    simpl. repeat split; reflexivity.
  - intros Hno Htouch Hpow.
    cbn [step_monsters]. rewrite Hlive, Hstep.
    unfold collide, the_agent, bind, get, ret. cbv beta iota.
    destruct (stomp_geometry m (sim_agent x)) eqn:Hg.
    + destruct Hno as [Hf | (th & Hth & Hkill)]; [discriminate|].
      unfold lift_opt. rewrite Hth. unfold ret. cbv beta iota.
      rewrite Hkill. cbv beta iota. rewrite Htouch, Hpow. simpl.
      eexists. split; [reflexivity|]. simpl. repeat split; reflexivity.
    + cbv beta iota. rewrite Htouch, Hpow. simpl.
      eexists. split; [reflexivity|]. simpl. repeat split; reflexivity.
Qed.

(** C5, two concrete runs: the agent above a snail stomps it; the agent
    beside a mouse is killed by it. *)
Lemma monster_collision_witness :
  (exists x1,
     step_monsters default_config [snail] above_sim RandGen_new
     = Ok ([stomped snail_stepped], x1, RandGen_new)
     /\ Agent.reward (sim_agent x1)
        = Fl.fadd Fl.fzero (KILL_MONSTER_REWARD default_config))
  /\
  (exists x1,
     step_monsters default_config [mouse] beside_sim RandGen_new
     = Ok ([mouse_stepped], x1, RandGen_new)
     /\ Agent.is_killed (sim_agent x1) = true).
Proof.
  split.
  - destruct (proj1 (monster_collision default_config snail [] above_sim
                       RandGen_new snail_stepped RandGen_new
                       eq_refl ltac:(vm_compute; reflexivity)))
      as (x1 & H1 & _ & _ & H2 & _).
    + vm_compute; reflexivity.
    + eexists. split; vm_compute; reflexivity.
    + exists x1. split; [exact H1 | exact H2].
  - destruct (proj2 (monster_collision default_config mouse [] beside_sim
                       RandGen_new mouse_stepped RandGen_new
                       eq_refl ltac:(vm_compute; reflexivity)))
      as (x1 & H1 & H2 & _).
    + right. eexists. split; vm_compute; reflexivity.
    + vm_compute; reflexivity.
    + reflexivity.
    + exists x1. split; [exact H1 | exact H2].
Defined.

(** ** Reads and writes of the generator *)

Lemma rd_inv (x y : Z) (g : Gen) (v : Z) (g' : Gen) :
  rd x y g = Ok (v, g') ->
  Maze.get_elem (maze g) x y = Some v /\ g' = note_access g x y.
Proof.
  unfold rd. destruct (Maze.get_elem (maze g) x y); [|discriminate].
  intro H. inversion H. auto.
Qed.

Lemma sat_rd (E : error -> Prop) (x y : Z) (g : Gen) (Q : Z -> Gen -> Prop) :
  (forall v, Maze.get_elem (maze g) x y = Some v -> Q v (note_access g x y)) ->
  (Maze.get_elem (maze g) x y = None -> E OutOfRange) ->
  sat E (rd x y) g Q.
Proof.
  unfold sat, rd. destruct (Maze.get_elem (maze g) x y); auto.
Qed.

Lemma sat_wr (E : error -> Prop) (x y val : Z) (g : Gen)
      (Q : unit -> Gen -> Prop) :
  (forall m', Maze.set_elem (maze g) x y val = Some m' ->
              Q tt (with_maze (note_access g x y) m')) ->
  (Maze.set_elem (maze g) x y val = None -> E OutOfRange) ->
  sat E (wr x y val) g Q.
Proof.
  unfold sat, wr. destruct (Maze.set_elem (maze g) x y val); auto.
Qed.

Lemma sat_on_rand (E : error -> Prop) {A} (c : M RandGen A) (g : Gen)
      (Q : A -> Gen -> Prop) :
  sat E c (rand_gen g) (fun a r' => Q a (with_rand_gen g r')) ->
  sat E (on_rand c) g Q.
Proof.
  unfold sat, on_rand. destruct (c (rand_gen g)) as [[a r']|e]; auto.
Qed.

(** ** Coin placement *)

Lemma open_at_spec (x y : Z) (g : Gen) :
  sat any_error (open_at x y) g
      (fun b g' => maze g' = maze g /\ rand_gen g' = rand_gen g
                   /\ rec_stack g' = rec_stack g
                   /\ (b = true -> open_cell (maze g) x y)).
Proof.
  unfold open_at. apply sat_bind, sat_rd; [|exact (fun _ => I)].
  intros c Hc. destruct (c =? SPACE) eqn:Hs.
  - apply sat_ret. repeat split. intros _. exists c. split; [exact Hc|].
    unfold is_open. rewrite Hs. reflexivity.
  - apply sat_bind, sat_rd; [|exact (fun _ => I)].
    intros c' Hc'. apply sat_ret. repeat split. simpl in Hc'.
    intros Hw. exists c'. split; [exact Hc'|].
    unfold is_open. rewrite Hw. apply orb_true_r.
Qed.

Lemma solid_at_spec (x y : Z) (g : Gen) :
  sat any_error (solid_at x y) g
      (fun b g' => maze g' = maze g /\ rand_gen g' = rand_gen g
                   /\ rec_stack g' = rec_stack g
                   /\ (b = true -> solid_cell (maze g) x y)).
Proof.
  unfold solid_at. apply sat_bind, sat_rd; [|exact (fun _ => I)].
  intros c Hc. apply sat_ret. repeat split.
  intros Hw. exists c. auto.
Qed.



Lemma wrap32_small (x : Z) : - 2^31 <= x < 2^31 -> wrap32 x = x.
Proof.
  intro H. unfold wrap32.
  rewrite Z.mod_small by lia. lia.
Qed.

Lemma u32_small (x : Z) : 0 <= x < 2^32 -> u32 x = x.
Proof. intro H. unfold u32. apply Z.mod_small. exact H. Qed.

(** [randint(0, n)] returns a value below [n] *)
Lemma randint_range (n : Z) (r : RandGen) (v : Z) (r' : RandGen) :
  0 < n < 2^31 ->
  randint 0 n r = Ok (v, r') -> 0 <= v < n.
Proof.
  intros Hn. unfold randint, bind, get, assert, draw, ret, fail.
  destruct (is_seeded r); [|discriminate].
  destruct (MT.next (stdgen r)) as [x e].
  rewrite Z.sub_0_r, (u32_small n) by lia.
  destruct (n =? 0) eqn:Hz; [discriminate|].
  intro H. inversion H. subst. clear H.
  pose proof (Z.mod_pos_bound (u32 x) n ltac:(lia)) as Hx.
  rewrite Z.add_0_l, u32_small, wrap32_small by lia. exact Hx.
Qed.


















(** ** [vec_wait] *)

Lemma at_index_nat {St A} (l : list A) (n : nat) (a : A) (s : St) :
  l !! n = Some a -> at_index l (Z.of_nat n) s = Ok (a, s).
Proof.
  intro H. unfold at_index, lift_opt.
  replace (Z.of_nat n <? 0) with false by (symmetry; apply Z.ltb_ge; lia).
  rewrite Nat2Z.id, H. reflexivity.
Qed.

Lemma load_some (a : nat) (s : State.t) (e : Engine) :
  heap e !! a = Some s -> load a e = Ok (s, e).
Proof.
  intro H. unfold load, bind, get, lift_opt. rewrite H. reflexivity.
Qed.

Lemma poke_nat {A} (l : list A) (n : nat) (v : A) :
  (n < length l)%nat -> poke l (Z.of_nat n) v = Some (<[ n := v ]> l).
Proof.
  intro H. unfold poke.
  replace (0 <=? Z.of_nat n) with true by (symmetry; apply Z.leb_le; lia).
  replace (Z.of_nat n <? Z.of_nat (length l)) with true
    by (symmetry; apply Z.ltb_lt; lia).
  rewrite Nat2Z.id. reflexivity.
Qed.

Lemma all_steps_completed_spec (k n : nat) (v : VectorOfStates) (e : Engine) :
  (n + k <= length (states v))%nat ->
  (forall a, a ∈ states v -> is_Some (heap e !! a)) ->
  exists b,
    all_steps_completed k (Z.of_nat n) v e = Ok (b, e)
    /\ (b = true <->
        forall j a s, (n <= j < n + k)%nat -> states v !! j = Some a ->
                      heap e !! a = Some s -> State.agent_ready s = false).
Proof.
  revert n. induction k as [|k IH]; intros n Hlen Hlive.
  - exists true. split; [reflexivity|]. split; [intros _ j a s Hj; lia | auto].
  - destruct (lookup_lt_is_Some_2 (states v) n ltac:(lia)) as [a Ha].
    destruct (Hlive a (list_elem_of_lookup_2 _ _ _ Ha)) as [s Hs].
    destruct (IH (S n) ltac:(lia) Hlive) as (b & Hb & Hiff).
    exists (negb (State.agent_ready s) && b). split.
    + cbn [all_steps_completed]. unfold bind.
      rewrite (at_index_nat _ _ _ _ Ha), (load_some _ _ _ Hs).
      replace (Z.of_nat n + 1) with (Z.of_nat (S n)) by lia.
      rewrite Hb. reflexivity.
    + rewrite andb_true_iff, negb_true_iff, Hiff. split.
      * intros [Hr Hall] j a' s' Hj Ha' Hs'.
        destruct (decide (j = n)) as [->|Hne].
        -- rewrite Ha in Ha'. inversion Ha'. subst a'.
           rewrite Hs in Hs'. inversion Hs'. subst s'. exact Hr.
        -- apply (Hall j a' s'); [lia | assumption | assumption].
      * intros Hall. split.
        -- apply (Hall n a s); [lia | assumption | assumption].
        -- intros j a' s' Hj. apply Hall. lia.
Qed.

Lemma copy_out_spec (k n : nat) (v : VectorOfStates) (b : buffers)
      (e : Engine) :
  (n + k <= length (states v))%nat ->
  NoDup (states v) ->
  (forall a, a ∈ states v -> is_Some (heap e !! a)) ->
  room_for (n + k) b ->
  exists b' e',
    copy_out k (Z.of_nat n) v b e = Ok (b', e')
    /\ same_but_heap e e'
    /\ length (rew b') = length (rew b)
    /\ length (done b') = length (done b)
    /\ length (new_level b') = length (new_level b)
    /\ (forall j a s,
          (n <= j < n + k)%nat -> states v !! j = Some a ->
          heap e !! a = Some s ->
          rew b' !! j = Some (Agent.reward (State.agent s))
          /\ done b' !! j = Some (Agent.game_over (State.agent s))
          /\ new_level b' !! j = Some (Maze.is_new_level (State.maze s))
          /\ heap e' !! a = Some (collected s))
    /\ (forall j, ~ (n <= j < n + k)%nat ->
          rew b' !! j = rew b !! j /\ done b' !! j = done b !! j
          /\ new_level b' !! j = new_level b !! j)
    /\ (forall a, (forall j, (n <= j < n + k)%nat -> states v !! j <> Some a) ->
          heap e' !! a = heap e !! a).
Proof.
  revert n b e. induction k as [|k IH]; intros n b e Hlen Hnd Hlive Hroom.
  - exists b, e. split; [reflexivity|].
    split; [repeat split|]. repeat split; auto; intros; lia.
  - destruct Hroom as (Hr1 & Hr2 & Hr3).
    destruct (lookup_lt_is_Some_2 (states v) n ltac:(lia)) as [a Ha].
    destruct (Hlive a (list_elem_of_lookup_2 _ _ _ Ha)) as [s Hs].
    set (b1 := {| rew := <[ n := Agent.reward (State.agent s) ]> (rew b);
                  done := <[ n := Agent.game_over (State.agent s) ]> (done b);
                  new_level := <[ n := Maze.is_new_level (State.maze s) ]>
                                 (new_level b) |}).
    set (e1 := with_heap e (<[ a := collected s ]> (heap e))).
    assert (Hlive1 : forall a', a' ∈ states v -> is_Some (heap e1 !! a')).
    { intros a' Hin. unfold e1. cbn [heap with_heap].
      destruct (decide (a' = a)) as [->|Hne].
      - rewrite lookup_insert_eq. eauto.
      - rewrite lookup_insert_ne by congruence. auto. }
    assert (Hroom1 : room_for (S n + k) b1).
    { unfold room_for, b1. cbn [rew done new_level].
      rewrite !length_insert. repeat split; lia. }
    destruct (IH (S n) b1 e1 ltac:(lia) Hnd Hlive1 Hroom1)
      as (b' & e' & Hrun & Hsame & Hl1 & Hl2 & Hl3 & Hin & Hout & Hheap).
    exists b', e'. split.
    { cbn [copy_out]. unfold bind.
      rewrite (at_index_nat _ _ _ _ Ha), (load_some _ _ _ Hs).
      unfold lift_opt. rewrite !poke_nat by lia. unfold ret, store, modify.
      replace (Z.of_nat n + 1) with (Z.of_nat (S n)) by lia.
      exact Hrun. }
    split.
    { unfold same_but_heap in *. unfold e1 in Hsame.
      cbn [h2s next_addr workers_todo handle_seq global_rand_gen shutdown_flag
           all_threads with_heap] in Hsame. exact Hsame. }
    unfold b1 in Hl1, Hl2, Hl3. cbn [rew done new_level] in Hl1, Hl2, Hl3.
    rewrite length_insert in Hl1. rewrite length_insert in Hl2.
    rewrite length_insert in Hl3.
    split; [exact Hl1|]. split; [exact Hl2|]. split; [exact Hl3|].
    assert (Hfresh : forall j, (S n <= j < S n + k)%nat ->
                               states v !! j <> Some a).
    { intros j Hj Hja.
      pose proof (NoDup_lookup _ _ _ _ Hnd Ha Hja). lia. }
    split; [|split].
    + intros j a' s' Hj Ha' Hs'.
      destruct (decide (j = n)) as [->|Hne].
      * rewrite Ha in Ha'. inversion Ha'. subst a'.
        rewrite Hs in Hs'. inversion Hs'. subst s'.
        destruct (Hout n ltac:(lia)) as (H1 & H2 & H3).
        rewrite H1, H2, H3. unfold b1. cbn [rew done new_level].
        rewrite !list_lookup_insert_eq by lia.
        repeat split. rewrite (Hheap a Hfresh). unfold e1.
        cbn [heap with_heap]. apply lookup_insert_eq.
      * apply (Hin j a' s'); [lia | exact Ha' |].
        unfold e1. cbn [heap with_heap].
        rewrite lookup_insert_ne; [exact Hs'|].
        intro Heq. subst a'.
        pose proof (NoDup_lookup _ _ _ _ Hnd Ha Ha'). lia.
    + intros j Hj. destruct (Hout j ltac:(lia)) as (H1 & H2 & H3).
      rewrite H1, H2, H3. unfold b1. cbn [rew done new_level].
      rewrite !list_lookup_insert_ne by lia. auto.
    + intros a' Hnot. rewrite Hheap.
      * unfold e1. cbn [heap with_heap].
        apply lookup_insert_ne. intro Heq. subst a'.
        apply (Hnot n); [lia | exact Ha].
      * intros j Hj. apply Hnot. lia.
Qed.

(** C8.  For a registered group, [vec_wait] keeps the caller waiting as
    long as some instance of the group is ready.  Once none is, it returns
    with, at every index [j] of the group's instance list, the reward, the
    done flag and the new-level flag of the instance stored at that index
    -- whatever the order in which the workers finished --, and it leaves
    that instance with reward 0 and both flags false; nothing but the
    instances is changed. *)
Theorem vec_wait_aligned (e : Engine) (h : Z) (v : VectorOfStates)
        (b : buffers) :
  h2s e !! h = Some v ->
  group_ok e v ->
  room_for (length (states v)) b ->
  ((exists j a s, states v !! j = Some a /\ heap e !! a = Some s
                  /\ State.agent_ready s = true) ->
   vec_wait h b e = Ok (None, e))
  /\
  ((forall j a s, states v !! j = Some a -> heap e !! a = Some s ->
                  State.agent_ready s = false) ->
   exists b' e',
     vec_wait h b e = Ok (Some b', e')
     /\ same_but_heap e e'
     /\ forall j a s,
         states v !! j = Some a -> heap e !! a = Some s ->
         rew b' !! j = Some (Agent.reward (State.agent s))
         /\ done b' !! j = Some (Agent.game_over (State.agent s))
         /\ new_level b' !! j = Some (Maze.is_new_level (State.maze s))
         /\ exists s',
             heap e' !! a = Some s'
             /\ s' = collected s
             /\ Agent.reward (State.agent s') = Fl.fzero
             /\ Agent.game_over (State.agent s') = false
             /\ Maze.is_new_level (State.maze s') = false).
Proof.
  intros Hh (Hn & Hnd & Hlive) Hroom.
  assert (Hk : Z.to_nat (nenvs v) = length (states v)) by lia.
  destruct (all_steps_completed_spec (length (states v)) 0 v e
              ltac:(lia) Hlive) as (c & Hc & Hiff).
  split.
  - intros (j & a & s & Ha & Hs & Hready).
    unfold vec_wait, vstate_find, bind, get. rewrite Hh. unfold ret.
    rewrite Hk. change 0 with (Z.of_nat 0). rewrite Hc.
    destruct c; [|reflexivity].
    pose proof (proj1 Hiff eq_refl j a s) as Hno.
    rewrite Hno in Hready; [discriminate | | exact Ha | exact Hs].
    pose proof (lookup_lt_Some _ _ _ Ha). lia.
  - intros Hidle.
    destruct (copy_out_spec (length (states v)) 0 v b e
                ltac:(lia) Hnd Hlive Hroom)
      as (b' & e' & Hrun & Hsame & _ & _ & _ & Hin & _ & _).
    exists b', e'. split.
    + unfold vec_wait, vstate_find, bind, get. rewrite Hh. unfold ret.
      rewrite Hk. change 0 with (Z.of_nat 0). rewrite Hc.
      replace c with true.
      * cbn [negb]. rewrite Hrun. reflexivity.
      * symmetry. apply Hiff. intros j a s _. apply Hidle.
    + split; [exact Hsame|].
      intros j a s Ha Hs.
      pose proof (lookup_lt_Some _ _ _ Ha) as Hlt.
      destruct (Hin j a s ltac:(lia) Ha Hs) as (H1 & H2 & H3 & H4).
      repeat split; try assumption.
      exists (collected s). repeat split. exact H4.
Qed.

Lemma example_group_ok : group_ok example_engine example_group.
Proof.
  split; [reflexivity|]. split.
  - apply NoDup_cons. split; [|apply NoDup_singleton].
    intro H. apply list_elem_of_singleton in H. discriminate.
  - intros a Ha. unfold example_group in Ha. cbn [states] in Ha.
    apply elem_of_cons in Ha as [->|Ha];
      [|apply list_elem_of_singleton in Ha as ->];
      vm_compute; eauto.
Qed.

(** C8, a concrete run on [example_engine], where both instances are
    idle: the rewards 1 and 10 and the done flags come back at the indices
    0 and 1 of their instances. *)
Lemma vec_wait_aligned_witness :
  exists b' e',
    vec_wait 100 example_buffers example_engine = Ok (Some b', e')
    /\ rew b' !! 0%nat = Some (Fl.f_of_int 1)
    /\ rew b' !! 1%nat = Some (Fl.f_of_int 10)
    /\ done b' !! 0%nat = Some false
    /\ done b' !! 1%nat = Some true.
Proof.
  assert (Hroom : room_for (length (states example_group)) example_buffers)
    by (repeat split; simpl; lia).
  destruct (proj2 (vec_wait_aligned example_engine 100 example_group
                     example_buffers eq_refl example_group_ok Hroom))
    as (b' & e' & Hrun & _ & Hin).
  { intros j a s Ha Hs.
    destruct j as [|[|j]]; simpl in Ha; try discriminate;
      injection Ha as <-; vm_compute in Hs; injection Hs as <-;
      reflexivity. }
  exists b', e'. split; [exact Hrun|].
  destruct (Hin 0%nat 0%nat (example_state 0 1 false) eq_refl eq_refl)
    as (H1 & H2 & _).
  destruct (Hin 1%nat 1%nat (example_state 1 10 true) eq_refl eq_refl)
    as (H3 & H4 & _).
  repeat split; assumption.
Defined.

(** ** [vec_step_async_discrete] and the worker's assertion *)

Lemma submit_one_spec (a : nat) (s : State.t) (action : Z) (e : Engine) :
  heap e !! a = Some s ->
  0 <= action < NUM_ACTIONS ->
  submit_one a action e
  = Ok (tt, with_workers_todo
              (with_heap e (<[ a := submitted action s ]> (heap e)))
              (workers_todo e ++ [a])).
Proof.
  intros Hs Hact. unfold submit_one, bind, assert.
  replace ((0 <=? action) && (action <? NUM_ACTIONS)) with true
    by (symmetry; apply andb_true_iff; split;
        [apply Z.leb_le | apply Z.ltb_lt]; lia).
  unfold ret.
  assert (Hdx : forall St (st : St),
             at_index DISCRETE_ACTIONS (2 * action + 0) st
             = Ok (action_dx_of action, st)).
  { intros St st. unfold NUM_ACTIONS in Hact.
    assert (Hc : action = 0 \/ action = 1 \/ action = 2 \/ action = 3
                 \/ action = 4 \/ action = 5 \/ action = 6) by lia.
    destruct Hc as [->|[->|[->|[->|[->|[->| ->]]]]]]; reflexivity. }
  assert (Hdy : forall St (st : St),
             at_index DISCRETE_ACTIONS (2 * action + 1) st
             = Ok (action_dy_of action, st)).
  { intros St st. unfold NUM_ACTIONS in Hact.
    assert (Hc : action = 0 \/ action = 1 \/ action = 2 \/ action = 3
                 \/ action = 4 \/ action = 5 \/ action = 6) by lia.
    destruct Hc as [->|[->|[->|[->|[->|[->| ->]]]]]]; reflexivity. }
  rewrite Hdx, Hdy. unfold update, bind.
  rewrite (load_some _ _ _ Hs). unfold store, modify.
  rewrite (load_some a _ _ (lookup_insert_eq (heap e) a _)).
  cbn [heap with_heap]. rewrite insert_insert_eq. reflexivity.
Qed.

Lemma submit_loop_spec (k n : nat) (v : VectorOfStates) (actions : list Z)
      (e : Engine) :
  (n + k <= length (states v))%nat ->
  NoDup (states v) ->
  (forall a, a ∈ states v -> is_Some (heap e !! a)) ->
  (forall j, (n <= j < n + k)%nat ->
             exists act, actions !! j = Some act /\ 0 <= act < NUM_ACTIONS) ->
  exists e',
    for_loop k (Z.of_nat n)
      (fun i => addr <- at_index (states v) i ;;
                action <- at_index actions i ;;
                submit_one addr action) e = Ok (tt, e')
    /\ same_but_heap_and_queue e e'
    /\ workers_todo e' = workers_todo e ++ take k (drop n (states v))
    /\ (forall j a s act,
          (n <= j < n + k)%nat -> states v !! j = Some a ->
          heap e !! a = Some s -> actions !! j = Some act ->
          heap e' !! a = Some (submitted act s))
    /\ (forall a, (forall j, (n <= j < n + k)%nat -> states v !! j <> Some a) ->
          heap e' !! a = heap e !! a).
Proof.
  revert n e. induction k as [|k IH]; intros n e Hlen Hnd Hlive Hacts.
  - exists e. split; [reflexivity|]. split; [repeat split|].
    split; [cbn [take]; rewrite app_nil_r; reflexivity|].
    split; [intros; lia | auto].
  - destruct (lookup_lt_is_Some_2 (states v) n ltac:(lia)) as [a Ha].
    destruct (Hlive a (list_elem_of_lookup_2 _ _ _ Ha)) as [s Hs].
    destruct (Hacts n ltac:(lia)) as (act & Hact & Hrange).
    set (e1 := with_workers_todo
                 (with_heap e (<[ a := submitted act s ]> (heap e)))
                 (workers_todo e ++ [a])).
    assert (Hlive1 : forall a', a' ∈ states v -> is_Some (heap e1 !! a')).
    { intros a' Hin. unfold e1. cbn [heap with_heap with_workers_todo].
      destruct (decide (a' = a)) as [->|Hne].
      - rewrite lookup_insert_eq. eauto.
      - rewrite lookup_insert_ne by congruence. auto. }
    destruct (IH (S n) e1 ltac:(lia) Hnd Hlive1
                 ltac:(intros j Hj; apply Hacts; lia))
      as (e' & Hrun & Hsame & Hq & Hin & Hout).
    assert (Hfresh : forall j, (S n <= j < S n + k)%nat ->
                               states v !! j <> Some a).
    { intros j Hj Hja.
      pose proof (NoDup_lookup _ _ _ _ Hnd Ha Hja). lia. }
    exists e'. split.
    { cbn [for_loop]. unfold bind.
      rewrite (at_index_nat _ _ _ _ Ha), (at_index_nat _ _ _ _ Hact).
      rewrite (submit_one_spec a s act e Hs Hrange).
      replace (Z.of_nat n + 1) with (Z.of_nat (S n)) by lia.
      exact Hrun. }
    split.
    { unfold same_but_heap_and_queue in *. unfold e1 in Hsame.
      cbn [h2s next_addr handle_seq global_rand_gen shutdown_flag
           all_threads with_heap with_workers_todo] in Hsame. exact Hsame. }
    split.
    { rewrite Hq. unfold e1. cbn [workers_todo with_workers_todo].
      rewrite <- app_assoc. f_equal.
      rewrite (drop_S _ _ _ Ha). reflexivity. }
    split.
    + intros j a' s' act' Hj Ha' Hs' Hact'.
      destruct (decide (j = n)) as [->|Hne].
      * rewrite Ha in Ha'. injection Ha' as <-.
        rewrite Hs in Hs'. injection Hs' as <-.
        rewrite Hact in Hact'. injection Hact' as <-.
        rewrite (Hout a Hfresh). unfold e1.
        cbn [heap with_heap with_workers_todo]. apply lookup_insert_eq.
      * apply (Hin j a' s' act'); [lia | exact Ha' | | exact Hact'].
        unfold e1. cbn [heap with_heap with_workers_todo].
        rewrite lookup_insert_ne; [exact Hs'|].
        intro Heq. subst a'.
        pose proof (NoDup_lookup _ _ _ _ Hnd Ha Ha'). lia.
    + intros a' Hnot. rewrite Hout.
      * unfold e1. cbn [heap with_heap with_workers_todo].
        apply lookup_insert_ne. intro Heq. subst a'.
        apply (Hnot n); [lia | exact Ha].
      * intros j Hj. apply Hnot. lia.
Qed.

(** C4 (as amended).  [vec_step_async_discrete] makes no admission check:
    on a registered group and with actions in range it returns normally
    whatever the ready and in-progress flags of the instances are, stores
    the new control input, sets every instance ready and appends every
    instance to the work queue (so an instance that was still queued is
    queued twice).  The abort comes later and from a worker thread: a
    worker that has taken an instance from the queue and finds its ready
    flag cleared, or that finishes a tick and finds the ready or the
    in-progress flag cleared, fails its assertion. *)
Theorem submit_makes_no_admission_check (cfg : Config) :
  (forall (e : Engine) (h : Z) (v : VectorOfStates) (actions : list Z),
      h2s e !! h = Some v ->
      group_ok e v ->
      (forall j, (j < length (states v))%nat ->
                 exists act, actions !! j = Some act
                             /\ 0 <= act < NUM_ACTIONS) ->
      exists e',
        vec_step_async_discrete h actions e = Ok (tt, e')
        /\ workers_todo e' = workers_todo e ++ states v
        /\ forall j a s act,
            states v !! j = Some a -> heap e !! a = Some s ->
            actions !! j = Some act ->
            heap e' !! a = Some (submitted act s)
            /\ State.agent_ready (submitted act s) = true)
  /\
  (forall (e : Engine) (u : Maze.uninit) (i addr : nat) (s : State.t),
      heap e !! addr = Some s ->
      (all_threads e !! i = Some (Taken addr)
       /\ State.agent_ready s = false
       \/ all_threads e !! i = Some (Stepped addr)
          /\ (State.agent_ready s = false
              \/ State.step_in_progress s = false)) ->
      worker_step cfg u i e = Err AssertionFailed).
Proof.
  split.
  - intros e h v actions Hh (Hn & Hnd & Hlive) Hacts.
    destruct (submit_loop_spec (length (states v)) 0 v actions e
                ltac:(lia) Hnd Hlive ltac:(intros j Hj; apply Hacts; lia))
      as (e' & Hrun & _ & Hq & Hin & _).
    exists e'. split.
    + unfold vec_step_async_discrete, vstate_find, bind, get.
      rewrite Hh. unfold ret, for_upto.
      replace (Z.to_nat (nenvs v)) with (length (states v)) by lia.
      exact Hrun.
    + split.
      * rewrite Hq. rewrite drop_0, firstn_all. reflexivity.
      * intros j a s act Ha Hs Hact. split; [|reflexivity].
        pose proof (lookup_lt_Some _ _ _ Ha).
        apply (Hin j a s act); [lia | assumption | assumption | assumption].
  - intros e u i addr s Hs [[Hw Hr] | [Hw Hr]];
      unfold worker_step, bind, get; rewrite Hw;
      rewrite (load_some _ _ _ Hs); unfold assert.
    + rewrite Hr. reflexivity.
    + destruct Hr as [Hr | Hr]; rewrite Hr;
        [|destruct (State.agent_ready s)]; reflexivity.
Qed.

(** C4, concrete runs on [example_engine]: a second submit while both
    instances are still queued returns normally, and the worker then
    aborts when it takes the first instance for the second time. *)
Lemma submit_makes_no_admission_check_witness :
  (exists e',
     vec_step_async_discrete 100 [1; 1] example_engine = Ok (tt, e')
     /\ workers_todo e' = [0%nat; 1%nat])
  /\ run default_config
         (Submit 100 [1; 1] :: Submit 100 [2; 2] :: work 9) example_engine
     <> Err AssertionFailed
  /\ run default_config
         (Submit 100 [1; 1] :: Submit 100 [2; 2] :: work 10) example_engine
     = Err AssertionFailed.
Proof.
  split; [|split].
  - destruct (proj1 (submit_makes_no_admission_check default_config)
                example_engine 100 example_group [1; 1] eq_refl
                example_group_ok) as (e' & Hrun & Hq & _).
    + intros [|[|j]] Hj; simpl in Hj; try lia;
        eexists; (split; [reflexivity | unfold NUM_ACTIONS; lia]).
    + exists e'. split; [exact Hrun | exact Hq].
  - vm_compute. discriminate.
  - vm_compute. reflexivity.
Defined.

(** C4 as stated fails: with both instances of [example_engine] ready and
    queued, and also with the first of them in progress in a worker, a
    further call of [vec_step_async_discrete] returns normally and queues
    the instances once more. *)
Lemma resubmit_is_accepted :
  exists e1 e2 e3 e4 s1 s3,
    vec_step_async_discrete 100 [1; 1] example_engine = Ok (tt, e1)
    /\ heap e1 !! 0%nat = Some s1 /\ State.agent_ready s1 = true
    /\ vec_step_async_discrete 100 [2; 2] e1 = Ok (tt, e2)
    /\ workers_todo e2 = [0%nat; 1%nat; 0%nat; 1%nat]
    /\ run default_config (work 2) e1 = Ok (tt, e3)
    /\ heap e3 !! 0%nat = Some s3 /\ State.step_in_progress s3 = true
    /\ vec_step_async_discrete 100 [2; 2] e3 = Ok (tt, e4)
    /\ workers_todo e4 = [1%nat; 0%nat; 1%nat].
Proof.
  do 6 eexists.
  split; [vm_compute; reflexivity|].
  split; [vm_compute; reflexivity|].
  split; [reflexivity|].
  split; [vm_compute; reflexivity|].
  split; [reflexivity|].
  split; [vm_compute; reflexivity|].
  split; [vm_compute; reflexivity|].
  split; [reflexivity|].
  split; [vm_compute; reflexivity|].
  reflexivity.
Qed.

(** ** The grid under reads and writes *)

Lemma get_elem_in (m : Maze.t) (x y : Z) :
  dims_ok m -> 0 <= 64 * y + x < 832 ->
  exists c, Maze.get_elem m x y = Some c.
Proof.
  intros (Hw & Hh & Hl) Hr. unfold Maze.get_elem, Maze.offset. rewrite Hw.
  replace (0 <=? 64 * y + x) with true by (symmetry; apply Z.leb_le; lia).
  apply lookup_lt_is_Some_2. lia.
Qed.

Lemma set_elem_in (m : Maze.t) (x y v : Z) :
  dims_ok m -> 0 <= 64 * y + x < 832 ->
  Maze.set_elem m x y v
  = Some (Maze.with_walls m (<[ Z.to_nat (64 * y + x) := v ]> (Maze.walls m))).
Proof.
  intros (Hw & Hh & Hl) Hr. rewrite set_elem_in_range.
  - unfold Maze.offset. rewrite Hw. reflexivity.
  - unfold Maze.offset. rewrite Hw. lia.
Qed.

Lemma set_elem_range (m : Maze.t) (x y v : Z) (m' : Maze.t) :
  dims_ok m -> Maze.set_elem m x y v = Some m' -> 0 <= 64 * y + x < 832.
Proof.
  intros (Hw & Hh & Hl). unfold Maze.set_elem, Maze.offset. rewrite Hw.
  destruct (0 <=? 64 * y + x) eqn:H0; [|discriminate].
  destruct (64 * y + x <? Z.of_nat (length (Maze.walls m))) eqn:H1;
    [|discriminate].
  intros _. apply Z.leb_le in H0. apply Z.ltb_lt in H1. lia.
Qed.

Lemma get_elem_dims_range (m : Maze.t) (x y c : Z) :
  dims_ok m -> Maze.get_elem m x y = Some c -> 0 <= 64 * y + x < 832.
Proof.
  intros (Hw & Hh & Hl) H. apply get_elem_range in H.
  unfold Maze.offset in H. rewrite Hw in H. lia.
Qed.

Lemma dims_ok_set (m : Maze.t) (i : nat) (v : Z) :
  dims_ok m -> dims_ok (Maze.with_walls m (<[ i := v ]> (Maze.walls m))).
Proof.
  intros (Hw & Hh & Hl). unfold dims_ok. cbn.
  rewrite length_insert. auto.
Qed.

Lemma get_elem_set (m : Maze.t) (x y v x' y' : Z) :
  dims_ok m -> 0 <= 64 * y + x < 832 ->
  Maze.get_elem
    (Maze.with_walls m (<[ Z.to_nat (64 * y + x) := v ]> (Maze.walls m))) x' y'
  = if 64 * y' + x' =? 64 * y + x then Some v else Maze.get_elem m x' y'.
Proof.
  intros (Hw & Hh & Hl) Hr. unfold Maze.get_elem, Maze.offset. cbn. rewrite Hw.
  destruct (0 <=? 64 * y' + x') eqn:H0.
  - apply Z.leb_le in H0. destruct (64 * y' + x' =? 64 * y + x) eqn:Heq.
    + apply Z.eqb_eq in Heq. rewrite Heq.
      apply list_lookup_insert_eq. lia.
    + apply Z.eqb_neq in Heq. apply list_lookup_insert_ne. lia.
  - destruct (64 * y' + x' =? 64 * y + x) eqn:Heq; [|reflexivity].
    apply Z.eqb_eq in Heq. apply Z.leb_gt in H0. lia.
Qed.

(** a write of a wall tile, or a write away from the border, keeps the
    border solid *)
Lemma border_solid_set (m : Maze.t) (x y v : Z) :
  dims_ok m -> border_solid m -> 0 <= 64 * y + x < 832 ->
  (is_wall v false = true \/ (1 <= x <= 62 /\ 1 <= y <= 11)) ->
  border_solid
    (Maze.with_walls m (<[ Z.to_nat (64 * y + x) := v ]> (Maze.walls m))).
Proof.
  intros Hd Hb Hr Hv x' y' c Hx Hy Hbc Hget.
  rewrite (get_elem_set m x y v x' y' Hd Hr) in Hget.
  destruct (64 * y' + x' =? 64 * y + x) eqn:Heq.
  - injection Hget as <-. destruct Hv as [Hv | Hint]; [exact Hv|].
    apply Z.eqb_eq in Heq. exfalso. unfold border_cell in Hbc. lia.
  - apply (Hb x' y' c Hx Hy Hbc Hget).
Qed.

(** a cell that is not a wall is not on the border *)
Lemma not_wall_interior (m : Maze.t) (x y c : Z) :
  border_solid m -> 0 <= x <= 63 -> 0 <= y <= 12 ->
  Maze.get_elem m x y = Some c -> is_wall c false = false ->
  1 <= x <= 62 /\ 1 <= y <= 11.
Proof.
  intros Hb Hx Hy Hget Hw.
  assert (Hnb : ~ border_cell x y).
  { intro Hbc. rewrite (Hb x y c Hx Hy Hbc Hget) in Hw. discriminate. }
  unfold border_cell in Hnb. lia.
Qed.

(** ** The invariant under the primitive steps *)

Section Primitives.
Context (E : error -> Prop) (A : Z -> bool).

Lemma gen_inv_note (g : Gen) (x y : Z) :
  gen_inv A g -> gen_inv A (note_access g x y).
Proof. intros [H1 H2 H3 H4 H5]. constructor; assumption. Qed.

Lemma gen_inv_rand (g : Gen) (r : RandGen) :
  gen_inv A g -> is_seeded r = true -> gen_inv A (with_rand_gen g r).
Proof. intros [H1 H2 H3 H4 H5] Hr. constructor; assumption. Qed.

Lemma gen_inv_stack (g : Gen) (st : list Rec) :
  gen_inv A g -> Forall rec_ok st -> gen_inv A (with_rec_stack g st).
Proof. intros [H1 H2 H3 H4 H5] Hr. constructor; assumption. Qed.

Lemma gen_inv_write (g : Gen) (x y v : Z) :
  gen_inv A g -> 0 <= 64 * y + x < 832 ->
  is_wall v false = true \/ (1 <= x <= 62 /\ 1 <= y <= 11) ->
  A v = true ->
  gen_inv A
    (with_maze (note_access g x y)
       (Maze.with_walls (maze g)
          (<[ Z.to_nat (64 * y + x) := v ]> (Maze.walls (maze g))))).
Proof.
  intros [H1 H2 H3 H4 H5] Hr Hv Ha. constructor; cbn [maze rec_stack rand_gen
    with_maze note_access]; try assumption.
  - apply dims_ok_set. exact H1.
  - apply border_solid_set; assumption.
  - cbn [Maze.walls Maze.with_walls]. apply Forall_insert; assumption.
Qed.

Lemma sat_rd_ok (x y : Z) (g : Gen) (Q : Z -> Gen -> Prop) :
  dims_ok (maze g) -> 0 <= 64 * y + x < 832 ->
  (forall c, Maze.get_elem (maze g) x y = Some c -> Q c (note_access g x y)) ->
  sat E (rd x y) g Q.
Proof.
  intros Hd Hr HQ. apply sat_rd; [exact HQ|].
  intro Hn. destruct (get_elem_in _ x y Hd Hr) as [c Hc]. congruence.
Qed.

Lemma sat_wr_ok (x y v : Z) (g : Gen) (Q : unit -> Gen -> Prop) :
  dims_ok (maze g) -> 0 <= 64 * y + x < 832 ->
  Q tt (with_maze (note_access g x y)
          (Maze.with_walls (maze g)
             (<[ Z.to_nat (64 * y + x) := v ]> (Maze.walls (maze g))))) ->
  sat E (wr x y v) g Q.
Proof.
  intros Hd Hr HQ. unfold sat, wr.
  rewrite (set_elem_in _ x y v Hd Hr). exact HQ.
Qed.

Lemma draw_seeded (r : RandGen) :
  exists x r', draw r = Ok (x, r') /\ 0 <= x < 2^32
               /\ is_seeded r' = is_seeded r.
Proof.
  unfold draw. destruct (MT.next (stdgen r)) as [x e].
  exists (u32 x). eexists. split; [reflexivity|]. split; [|reflexivity].
  unfold u32. apply Z.mod_pos_bound. lia.
Qed.

Lemma sat_randn_any (n : Z) (g : Gen) (Q : Z -> Gen -> Prop) :
  is_seeded (rand_gen g) = true ->
  (u32 n = 0 -> E DivisionByZero) ->
  (forall v r', is_seeded r' = true -> (0 < n < 2^31 -> 0 <= v < n) ->
                Q v (with_rand_gen g r')) ->
  sat E (randn n) g Q.
Proof.
  intros Hs Hz HQ. unfold randn. apply sat_on_rand.
  destruct (draw_seeded (rand_gen g)) as (x & r' & Hd & Hx & Hs').
  unfold sat.
  destruct (randint 0 n (rand_gen g)) as [[v r2]|e] eqn:Hr.
  - apply HQ.
    + revert Hr. unfold randint, bind, get, assert. rewrite Hs.
      unfold ret. cbv beta iota. rewrite Hd. cbv beta iota.
      destruct (u32 (n - 0) =? 0); [discriminate|].
      intro H. injection H as _ <-. congruence.
    + intro Hn. apply (randint_range n _ _ _ Hn Hr).
  - revert Hr. unfold randint, bind, get, assert. rewrite Hs.
    unfold ret, fail. cbv beta iota. rewrite Hd. cbv beta iota.
    rewrite Z.sub_0_r.
    destruct (u32 n =? 0) eqn:Hu; [|discriminate].
    intro H. injection H as <-. apply Hz. apply Z.eqb_eq. exact Hu.
Qed.

Lemma sat_randn_ok (n : Z) (g : Gen) (Q : Z -> Gen -> Prop) :
  is_seeded (rand_gen g) = true -> 0 < n < 2^31 ->
  (forall v r', is_seeded r' = true -> 0 <= v < n ->
                Q v (with_rand_gen g r')) ->
  sat E (randn n) g Q.
Proof.
  intros Hs Hn HQ. apply sat_randn_any; [exact Hs | |].
  - intro Hu. rewrite u32_small in Hu by lia. lia.
  - intros v r' Hr Hv. apply HQ; auto.
Qed.

Lemma sat_rand01_ok (g : Gen) (Q : Fl.float -> Gen -> Prop) :
  is_seeded (rand_gen g) = true ->
  (forall b r', is_seeded r' = true -> is_rand01 b ->
                Q b (with_rand_gen g r')) ->
  sat E gen_rand01 g Q.
Proof.
  intros Hs HQ. unfold gen_rand01. apply sat_on_rand.
  destruct (draw_seeded (rand_gen g)) as (x & r' & Hd & Hx & Hs').
  unfold sat, rand01, bind, get, assert. rewrite Hs. unfold ret.
  cbv beta iota. rewrite Hd. cbv beta iota.
  apply HQ; [congruence|]. exists x. auto.
Qed.

Lemma sat_push_rec (r : Rec) (g : Gen) (Q : unit -> Gen -> Prop) :
  Q tt (with_rec_stack g (rec_stack g ++ [r])) -> sat E (push_rec r) g Q.
Proof. intro H. exact H. Qed.

End Primitives.

Create HintDb gen.
#[export] Hint Resolve gen_inv_note gen_inv_rand gen_inv_stack inv_dims
  inv_seeded inv_border inv_stack : gen.

(** ** The platform builder *)

Section Builder.
Context (E : error -> Prop).

Lemma platform_tile_wall (v : Z) :
  is_wall v false = true -> platform_tile v = true.
Proof.
  unfold is_wall, platform_tile.
  change (chr "S") with WALL_SURFACE. change (chr "A") with WALL_MIDDLE.
  change (chr "a") with CLIFF_a. change (chr "b") with CLIFF_b.
  destruct (v =? SPACE), (v =? TRACE), (v =? WALL_SURFACE),
    (v =? WALL_MIDDLE), (v =? CLIFF_a), (v =? CLIFF_b); cbn;
    intro H; first [reflexivity | discriminate H].
Qed.

Lemma arc_loop_spec (k : nat) (vx : Fl.float) (a : arc) (g : Gen) :
  gen_inv platform_tile g -> arc_pos a ->
  sat E (arc_loop k vx a) g
      (fun o g' =>
         gen_inv platform_tile g' /\ rec_stack g' = rec_stack g
         /\ forall a', o = Some a' ->
                       arc_pos a' /\ (1 <= a_ix a -> 1 <= a_ix a')).
Proof.
  revert a g. induction k as [|k IH]; intros a g Hinv Hpos.
  - apply sat_ret. split; [exact Hinv|]. split; [reflexivity|].
    intros a' Ha. injection Ha as <-. auto.
  - cbn [arc_loop].
    set (vy := Fl.fsub (a_vy a) GRAVITY).
    set (x := Fl.fadd (a_x a) vx).
    set (y := Fl.fadd (a_y a) vy).
    destruct (negb (a_ix a =? Fl.to_int x) || negb (a_iy a =? Fl.to_int y))
      eqn:Hmoved.
    + apply sat_bind, sat_get.
      pose proof (inv_dims _ _ Hinv) as Hd. destruct Hd as (Hw & Hh & Hl).
      rewrite Hw, Hh.
      destruct ((Fl.to_int x <? 1) || (Fl.to_int x >=? 64 - 1)
                || (Fl.to_int y <? 1) || (Fl.to_int y >=? 13 - 2)) eqn:Houch.
      * apply sat_ret. split; [exact Hinv|]. split; [reflexivity|].
        intros a' Ha. discriminate.
      * apply orb_false_iff in Houch as [Houch Hy2].
        apply orb_false_iff in Houch as [Houch Hy1].
        apply orb_false_iff in Houch as [Hx1 Hx2].
        apply Z.ltb_ge in Hx1, Hy1. rewrite Z.geb_leb in Hx2, Hy2.
        apply Z.leb_gt in Hx2, Hy2.
        apply sat_bind, sat_rd_ok; [eauto with gen | lia |].
        intros c Hc.
        destruct (negb (c =? SPACE) && negb (c =? TRACE)).
        -- apply sat_ret. split; [apply gen_inv_note; exact Hinv|].
           split; [reflexivity|]. intros a' Ha. discriminate.
        -- apply sat_bind, sat_wr_ok; [eauto with gen | lia |].
           eapply sat_weaken.
           ++ apply IH.
              ** apply gen_inv_write; [eauto with gen | lia | right; lia
                                       | reflexivity].
              ** right. cbn [a_ix a_iy]. lia.
           ++ cbv beta. intros o g' (Hi & Hst & Ha).
              split; [exact Hi|]. split; [exact Hst|].
              intros a' Ho. destruct (Ha a' Ho) as [Hp Hix].
              split; [exact Hp|]. intros _. apply Hix. cbn [a_ix]. lia.
    + apply orb_false_iff in Hmoved as [Hx Hy].
      apply negb_false_iff, Z.eqb_eq in Hx.
      eapply sat_weaken.
      * apply IH; [exact Hinv | exact Hpos].
      * cbv beta. intros o g' (Hi & Hst & Ha).
        split; [exact Hi|]. split; [exact Hst|]. exact Ha.
Qed.


Lemma space_not_wall : is_wall SPACE false = false.
Proof. reflexivity. Qed.

Lemma ladder_loop_spec (k : nat) (ix iy : Z) (fl : list Rec) (g : Gen) :
  gen_inv platform_tile g -> 0 <= ix <= 63 -> 1 <= iy <= 9 ->
  Forall (fun f => rx f = ix /\ 1 <= ry f <= 9) fl ->
  sat E (ladder_loop k ix iy fl) g
      (fun o g' =>
         gen_inv platform_tile g' /\ rec_stack g' = rec_stack g
         /\ maze g' = maze g
         /\ forall iy' fl', o = Some (iy', fl') ->
               Forall (fun f => rx f = ix /\ 1 <= ry f <= 9) fl'
               /\ 1 <= iy' <= 9
               /\ ((0 < k)%nat -> 1 <= ix <= 62)).
Proof.
  revert iy fl g. induction k as [|k IH]; intros iy fl g Hinv Hix Hiy Hfl.
  - apply sat_ret. split; [exact Hinv|]. split; [reflexivity|].
    split; [reflexivity|]. intros iy' fl' H. injection H as <- <-.
    split; [exact Hfl|]. split; [lia|]. intro Hk. inversion Hk.
  - cbn [ladder_loop]. apply sat_bind, sat_get.
    pose proof (inv_dims _ _ Hinv) as (Hw & Hh & Hl). rewrite Hh.
    apply sat_bind, sat_rd_ok; [eauto with gen | lia |]. intros c Hc.
    apply sat_bind, sat_rd_ok; [eauto with gen | lia |]. intros l Hlc.
    apply sat_bind, sat_rd_ok; [eauto with gen | lia |]. intros r Hrc.
    destruct ((iy + 1 >=? 13 - 3) || negb (c =? SPACE) || (l =? LADDER)
              || (r =? LADDER)) eqn:Houch.
    + apply sat_ret. split; [eauto 6 with gen|].
      split; [reflexivity|]. split; [reflexivity|]. intros; discriminate.
    + apply orb_false_iff in Houch as [Houch _].
      apply orb_false_iff in Houch as [Houch _].
      apply orb_false_iff in Houch as [Hy Hsp].
      rewrite Z.geb_leb in Hy. apply Z.leb_gt in Hy.
      apply negb_false_iff, Z.eqb_eq in Hsp. subst c.
      assert (Hint : 1 <= ix <= 62).
      { cbn [maze note_access] in Hc.
        destruct (not_wall_interior (maze g) ix (iy + 1) SPACE
                    (inv_border _ _ Hinv) Hix ltac:(lia) Hc space_not_wall).
        assumption. }
      eapply sat_weaken.
      * apply IH; [eauto 6 with gen | exact Hix | lia |].
        apply Forall_app. split; [exact Hfl|].
        apply Forall_singleton. cbn. lia.
      * cbv beta. intros o g' (Hi & Hst & Hm & Hpost).
        split; [exact Hi|]. split; [exact Hst|]. split; [exact Hm|].
        intros iy' fl' Ho. destruct (Hpost iy' fl' Ho) as (H1 & H2 & _).
        split; [exact H1|]. split; [exact H2|]. intros _. exact Hint.
Qed.

Lemma write_all_spec (cells : list Rec) (v : Z) (g : Gen) :
  gen_inv platform_tile g -> platform_tile v = true ->
  Forall (fun f => 1 <= rx f <= 62 /\ 1 <= ry f <= 11) cells ->
  sat E (write_all cells v) g
      (fun _ g' => gen_inv platform_tile g' /\ rec_stack g' = rec_stack g).
Proof.
  revert g. induction cells as [|f rest IH]; intros g Hinv Hv Hc.
  - apply sat_ret. auto.
  - apply Forall_cons in Hc as [Hf Hrest]. cbn [write_all].
    apply sat_bind, sat_wr_ok; [eauto with gen | lia |].
    eapply sat_weaken.
    + apply IH; [|exact Hv | exact Hrest].
      apply gen_inv_write; [exact Hinv | lia | right; lia | exact Hv].
    + cbv beta. intros _ g' (Hi & Hst). split; [exact Hi | exact Hst].
Qed.


Lemma trace_or_space_not_wall (c : Z) :
  (c =? TRACE) || (c =? SPACE) = true -> is_wall c false = false.
Proof.
  intro H. apply orb_true_iff in H as [H | H]; apply Z.eqb_eq in H;
    subst c; reflexivity.
Qed.

Lemma platform_loop_spec (k : nat) (platform len : Z) (right : bool)
      (shift ix iy : Z) (crates cands : list Rec) (g : Gen) :
  gen_inv platform_tile g -> 1 <= ix <= 62 -> 1 <= iy <= 9 ->
  Forall top_ok crates -> Forall top_ok cands ->
  sat E (platform_loop k platform len right shift ix iy crates cands) g
      (fun cm g' =>
         gen_inv platform_tile g'
         /\ (length (rec_stack g') <= length (rec_stack g) + k)%nat
         /\ Forall top_ok (fst cm) /\ Forall top_ok (snd cm)
         /\ (length (fst cm) <= length crates + k)%nat
         /\ (length (snd cm) <= length cands + k)%nat).
Proof.
  revert platform ix crates cands g.
  induction k as [|k IH]; intros platform ix crates cands g Hinv Hix Hiy Hcr Hca.
  - apply sat_ret. cbn [fst snd].
    split; [exact Hinv|]. split; [lia|]. split; [exact Hcr|].
    split; [exact Hca|]. split; lia.
  - cbn [platform_loop]. cbv zeta.
    set (ix' := ix + (if right then 1 else -1)).
    assert (Hix' : 0 <= ix' <= 63) by (unfold ix'; destruct right; lia).
    apply sat_bind, sat_rd_ok; [eauto with gen | lia |]. intros c Hc.
    cbn [maze note_access] in Hc.
    destruct ((c =? TRACE) || (c =? SPACE)) eqn:Hfree.
    + destruct (not_wall_interior (maze g) ix' iy c (inv_border _ _ Hinv)
                  Hix' ltac:(lia) Hc (trace_or_space_not_wall c Hfree))
        as [Hint _].
      set (v := if platform <? len - 1 then WALL_SURFACE
                else if right then CLIFF_b else CLIFF_a).
      assert (Hv : is_wall v false = true)
        by (unfold v; destruct (platform <? len - 1), right; reflexivity).
      apply sat_bind, sat_wr_ok; [eauto with gen | lia |].
      apply sat_bind, sat_push_rec.
      match goal with
      | |- sat _ _ ?s _ => set (g1 := s)
      end.
      assert (Hinv' : gen_inv platform_tile g1).
      { apply gen_inv_stack.
        - apply gen_inv_write; [eauto with gen | lia | left; exact Hv
                                | apply platform_tile_wall; exact Hv].
        - cbn [rec_stack with_maze note_access].
          apply Forall_app. split; [eauto with gen|].
          apply Forall_singleton. unfold rec_ok. cbn. lia. }
      assert (Hlen1 : length (rec_stack g1) = S (length (rec_stack g))).
      { unfold g1. cbn [rec_stack with_rec_stack with_maze note_access].
        rewrite length_app. cbn. lia. }
      clearbody g1.
      assert (Hnew : top_ok {| rx := ix'; ry := iy + 1 |})
        by (unfold top_ok; cbn; lia).
      assert (Hpost : forall cr ca,
                 Forall top_ok cr -> Forall top_ok ca ->
                 (length cr <= length crates + 1)%nat ->
                 (length ca <= length cands + 1)%nat ->
                 sat E (platform_loop k (platform + 1) len right shift ix' iy
                          cr ca) g1
                     (fun cm g' =>
                        gen_inv platform_tile g'
                        /\ (length (rec_stack g') <= length (rec_stack g) + S k)%nat
                        /\ Forall top_ok (fst cm) /\ Forall top_ok (snd cm)
                        /\ (length (fst cm) <= length crates + S k)%nat
                        /\ (length (snd cm) <= length cands + S k)%nat)).
      { intros cr ca Hcr' Hca' Hlen Hlen2. eapply sat_weaken.
        - apply IH; [exact Hinv' | exact Hint | exact Hiy | exact Hcr'
                     | exact Hca'].
        - cbv beta. intros cm g' (Hi & Hl & H1 & H2 & H3 & H4).
          split; [exact Hi|]. split; [lia|]. split; [exact H1|].
          split; [exact H2|]. split; lia. }
      destruct (crate_here ix' iy shift).
      * apply Hpost; [|exact Hca| |lia].
        -- apply Forall_app. split; [exact Hcr|].
           apply Forall_singleton. exact Hnew.
        -- rewrite length_app. cbn. lia.
      * destruct ((0 <? platform) && (platform <? len - 1)).
        -- apply Hpost; [exact Hcr | | lia |].
           ++ apply Forall_app. split; [exact Hca|].
              apply Forall_singleton. exact Hnew.
           ++ rewrite length_app. cbn. lia.
        -- apply Hpost; [exact Hcr | exact Hca | lia | lia].
    + apply sat_bind.
      destruct ((c =? CLIFF_a) || (c =? CLIFF_b)).
      * apply sat_wr_ok; [eauto with gen | lia |].
        apply sat_ret. cbn [fst snd].
        split; [apply gen_inv_write; [eauto with gen | lia | left; reflexivity
                                      | reflexivity]|].
        cbn [rec_stack with_maze note_access].
        split; [lia|]. split; [exact Hcr|]. split; [exact Hca|]. split; lia.
      * apply sat_ret. apply sat_ret. cbn [fst snd].
        split; [eauto with gen|].
        cbn [rec_stack note_access].
        split; [lia|]. split; [exact Hcr|]. split; [exact Hca|]. split; lia.
Qed.


Lemma crates_pass_spec (lo : Z) (crates : list Rec) (g : Gen) :
  gen_inv platform_tile g -> Forall crate_ok crates ->
  Forall (fun c => lo <= ry c) crates ->
  sat E (crates_pass crates) g
      (fun crates' g' =>
         gen_inv platform_tile g'
         /\ (length (rec_stack g') <= length (rec_stack g) + length crates)%nat
         /\ Forall crate_ok crates'
         /\ Forall (fun c => lo + 1 <= ry c) crates'
         /\ (length crates' <= length crates)%nat).
Proof.
  revert g. induction crates as [|c rest IH]; intros g Hinv Hok Hlo.
  - apply sat_ret. split; [exact Hinv|]. split; [cbn; lia|].
    split; [constructor|]. split; [constructor | cbn; lia].
  - apply Forall_cons in Hok as [[Hx Hy] Hok].
    apply Forall_cons in Hlo as [Hl Hlo].
    cbn [crates_pass].
    apply sat_bind, sat_rd_ok; [eauto with gen | lia |]. intros w _.
    apply sat_bind, sat_rd_ok; [eauto with gen | lia |]. intros wl _.
    apply sat_bind, sat_rd_ok; [eauto with gen | lia |]. intros wr_ _.
    apply sat_bind, sat_rd_ok; [eauto with gen | lia |]. intros wu _.
    cbv zeta.
    apply sat_bind, sat_randn_ok; [eauto 8 with gen | lia |].
    intros v r' Hr' _. apply sat_bind, sat_get.
    match goal with
    | |- sat _ _ ?s _ => set (g0 := s);
                         assert (Hinv0 : gen_inv platform_tile g0)
                           by (unfold g0; eauto 10 with gen);
                         assert (Hst0 : rec_stack g0 = rec_stack g)
                           by reflexivity;
                         clearbody g0
    end.
    rewrite (proj1 (proj2 (inv_dims _ _ Hinv0))).
    match goal with
    | |- sat _ (if ?b then _ else _) _ _ => destruct b eqn:Hgrow
    end.
    + apply andb_true_iff in Hgrow as [_ Hy11]. apply Z.ltb_lt in Hy11.
      apply sat_bind.
      assert (Hw : sat E (if (w =? TRACE) || (w =? SPACE)
                          then wr (rx c) (ry c) choose_crate else ret tt) g0
                       (fun _ g1 => gen_inv platform_tile g1
                                    /\ rec_stack g1 = rec_stack g0)).
      { destruct ((w =? TRACE) || (w =? SPACE)).
        - apply sat_wr_ok; [eauto with gen | lia |].
          split; [|reflexivity].
          apply gen_inv_write; [exact Hinv0 | lia | right; lia | reflexivity].
        - apply sat_ret. auto. }
      eapply sat_weaken; [exact Hw|]. cbv beta. intros _ g1 (Hinv1 & Hst1).
      apply sat_bind, sat_push_rec. apply sat_bind.
      eapply sat_weaken.
      * apply IH; [|exact Hok | exact Hlo].
        apply gen_inv_stack; [exact Hinv1|].
        apply Forall_app. split; [eauto with gen|].
        apply Forall_singleton. unfold rec_ok. cbn. lia.
      * cbv beta. intros rest' g2 (Hi & Hl2 & H1 & H2 & H3).
        apply sat_ret. split; [exact Hi|].
        cbn [rec_stack with_rec_stack] in Hl2. rewrite length_app in Hl2.
        cbn [length] in Hl2 |- *. rewrite Hst1, Hst0 in Hl2.
        split; [lia|].
        split; [apply Forall_cons; split; [unfold crate_ok; cbn; lia | exact H1]|].
        split; [apply Forall_cons; split; [cbn; lia | exact H2]|]. lia.
    + eapply sat_weaken.
      * apply IH; [exact Hinv0 | exact Hok | exact Hlo].
      * cbv beta. intros rest' g2 (Hi & Hl2 & H1 & H2 & H3).
        split; [exact Hi|]. rewrite Hst0 in Hl2. cbn [length].
        split; [lia|]. split; [exact H1|]. split; [exact H2 | lia].
Qed.

Lemma crates_loop_spec (fuel : nat) (n : nat) (crates : list Rec) (g : Gen) :
  gen_inv platform_tile g -> Forall crate_ok crates ->
  Forall (fun c => 13 - Z.of_nat fuel <= ry c) crates ->
  (length crates <= n)%nat ->
  sat E (crates_loop fuel crates) g
      (fun _ g' =>
         gen_inv platform_tile g'
         /\ (length (rec_stack g') <= length (rec_stack g) + fuel * n)%nat).
Proof.
  revert crates g. induction fuel as [|fuel IH]; intros crates g Hinv Hok Hlo Hn.
  - destruct crates as [|c rest].
    + apply sat_ret. split; [exact Hinv | lia].
    + exfalso. apply Forall_cons in Hok as [[_ Hy] _].
      apply Forall_cons in Hlo as [Hl _]. cbn in Hl. lia.
  - destruct crates as [|c rest].
    + apply sat_ret. split; [exact Hinv | lia].
    + cbn [crates_loop]. apply sat_bind. eapply sat_weaken.
      * apply (crates_pass_spec (13 - Z.of_nat (S fuel))); assumption.
      * cbv beta. intros crates' g1 (Hi & Hl1 & H1 & H2 & H3).
        eapply sat_weaken.
        -- apply IH; [exact Hi | exact H1 | | lia].
           eapply Forall_impl; [exact H2|]. cbv beta. intros; lia.
        -- cbv beta. intros _ g2 (Hi2 & Hl2). split; [exact Hi2|]. nia.
Qed.


Lemma top_ok_crate (f : Rec) : top_ok f -> crate_ok f.
Proof. unfold top_ok, crate_ok. lia. Qed.

Lemma build_platform_spec (vx : Fl.float) (ix iy : Z) (g : Gen) :
  gen_inv platform_tile g ->
  (ix = -1 /\ iy = -1 /\ E OutOfRange)
  \/ (1 <= ix <= 62 /\ 1 <= iy <= 10) ->
  sat E (build_platform vx ix iy) g
      (fun _ g' =>
         gen_inv platform_tile g'
         /\ (length (rec_stack g') <= length (rec_stack g) + 154)%nat).
Proof.
  intros Hinv Hpos. unfold build_platform. cbv zeta.
  apply sat_bind, sat_rd.
  2: { intro Hnone. destruct Hpos as [(_ & _ & HE) | [Hx Hy]]; [exact HE|].
       destruct (get_elem_in (maze g) ix iy (inv_dims _ _ Hinv) ltac:(lia))
         as [c Hc]. congruence. }
  intros c Hc.
  pose proof (get_elem_dims_range _ _ _ _ (inv_dims _ _ Hinv) Hc) as Hrange.
  assert (Hint : 1 <= ix <= 62 /\ 1 <= iy <= 10)
    by (destruct Hpos as [(-> & -> & _) | H]; [lia | exact H]).
  clear Hpos. destruct Hint as [Hx Hy].
  apply sat_bind, sat_get. cbn [maze note_access].
  rewrite (proj1 (proj2 (inv_dims _ _ Hinv))).
  destruct (iy >=? 13 - 3) eqn:Hhigh.
  { apply sat_ret. split; [eauto with gen | cbn; lia]. }
  rewrite Z.geb_leb in Hhigh. apply Z.leb_gt in Hhigh.
  apply sat_bind.
  assert (Hw : sat E (if (c =? SPACE) || (c =? TRACE)
                      then wr ix iy (if Fl.gt vx Fl.fzero then CLIFF_a
                                     else CLIFF_b)
                      else ret tt) (note_access g ix iy)
                   (fun _ g1 => gen_inv platform_tile g1
                                /\ rec_stack g1 = rec_stack g)).
  { destruct ((c =? SPACE) || (c =? TRACE)).
    - apply sat_wr_ok; [eauto with gen | lia |]. split; [|reflexivity].
      apply gen_inv_write; [eauto with gen | lia | right; lia |].
      destruct (Fl.gt vx Fl.fzero); reflexivity.
    - apply sat_ret. split; [eauto with gen | reflexivity]. }
  eapply sat_weaken; [exact Hw|]. cbv beta. clear Hw.
  intros _ g1 (Hinv1 & Hst1).
  apply sat_bind, sat_randn_ok; [eauto with gen | lia |].
  intros l r1 Hr1 Hl.
  apply sat_bind, sat_randn_ok; [eauto with gen | lia |].
  intros shift r2 Hr2 _.
  apply sat_bind. eapply sat_weaken.
  { apply platform_loop_spec;
      [eauto 6 with gen | exact Hx | lia | constructor | constructor]. }
  cbv beta. intros [crates cands] g2 (Hinv2 & Hl2 & Hcr & Hca & Hlc & Hla).
  cbn [fst snd length rec_stack with_rand_gen] in *.
  rewrite Hst1 in Hl2.
  assert (Hk : (Z.to_nat (2 + l) <= 11)%nat) by lia.
  apply sat_bind.
  assert (Hm : sat E
      (if 1 <? Z.of_nat (length cands)
       then
        i <- randn (Z.of_nat (length cands));;
        match (if i <? 0 then None else cands !! Z.to_nat i) with
        | Some r =>
            v <- randn 10;;
            (let should_be_ground_monster := v >=? 8 in
             if should_be_ground_monster
             then wr (rx r) (ry r) GROUND_MONSTER
             else wr (rx r) (ry r) WALKING_MONSTER)
        | None => fail OutOfRange
        end
       else ret tt) g2
      (fun _ g3 => gen_inv platform_tile g3 /\ rec_stack g3 = rec_stack g2)).
  { destruct (1 <? Z.of_nat (length cands)) eqn:Hmany.
    - apply Z.ltb_lt in Hmany.
      apply sat_bind, sat_randn_ok; [eauto with gen | lia |].
      intros i r3 Hr3 Hi.
      replace (i <? 0) with false by (symmetry; apply Z.ltb_ge; lia).
      destruct (lookup_lt_is_Some_2 cands (Z.to_nat i) ltac:(lia)) as [r Hr].
      rewrite Hr.
      pose proof (proj1 (Forall_lookup _ _) Hca _ _ Hr) as [Hrx Hry].
      apply sat_bind, sat_randn_ok; [eauto with gen | lia |].
      intros v r4 Hr4 _. cbv zeta.
      destruct (v >=? 8);
        (apply sat_wr_ok; [eauto 6 with gen | lia |]; split; [|reflexivity];
         apply gen_inv_write; [eauto 6 with gen | lia | right; lia
                               | reflexivity]).
    - apply sat_ret. auto. }
  eapply sat_weaken; [exact Hm|]. cbv beta. clear Hm.
  intros _ g3 (Hinv3 & Hst3).
  apply sat_bind, sat_get.
  rewrite (proj1 (proj2 (inv_dims _ _ Hinv3))).
  apply sat_bind. eapply sat_weaken.
  { apply (crates_loop_spec (Z.to_nat 13) 11);
      [exact Hinv3 | | | lia].
    - eapply Forall_impl; [exact Hcr|]. apply top_ok_crate.
    - eapply Forall_impl; [exact Hcr|]. cbv beta. unfold top_ok. intros; lia. }
  cbv beta. intros _ g4 (Hinv4 & Hl4). apply sat_ret.
  split; [exact Hinv4|]. rewrite Hst3 in Hl4. lia.
Qed.


(** the first step of an arc that starts off the grid puts it on the
    grid, or ends the attempt *)
Lemma arc_loop_first (k : nat) (vx vy : Fl.float) (x0 : Fl.float) (y0 : Z)
      (g : Gen) :
  gen_inv platform_tile g ->
  Fl.to_int (Fl.fadd (Fl.f_of_int y0) (Fl.fsub vy GRAVITY)) <> -1 ->
  sat E (arc_loop (S k) vx
           {| a_vy := vy; a_x := x0; a_y := Fl.f_of_int y0;
              a_ix := -1; a_iy := -1 |}) g
      (fun o g' =>
         gen_inv platform_tile g' /\ rec_stack g' = rec_stack g
         /\ forall a', o = Some a' ->
                       1 <= a_ix a' <= 62 /\ 1 <= a_iy a' <= 10).
Proof.
  intros Hinv Hy. cbn [arc_loop a_vy a_x a_y a_ix a_iy].
  set (y := Fl.fadd (Fl.f_of_int y0) (Fl.fsub vy GRAVITY)) in *.
  set (x := Fl.fadd x0 vx).
  replace (-1 =? Fl.to_int y) with false by (symmetry; apply Z.eqb_neq; lia).
  rewrite orb_true_r.
  apply sat_bind, sat_get.
  pose proof (inv_dims _ _ Hinv) as (Hw & Hh & Hl). rewrite Hw, Hh.
  destruct ((Fl.to_int x <? 1) || (Fl.to_int x >=? 64 - 1)
            || (Fl.to_int y <? 1) || (Fl.to_int y >=? 13 - 2)) eqn:Houch.
  - apply sat_ret. split; [exact Hinv|]. split; [reflexivity|].
    intros a' Ha. discriminate.
  - apply orb_false_iff in Houch as [Houch Hy2].
    apply orb_false_iff in Houch as [Houch Hy1].
    apply orb_false_iff in Houch as [Hx1 Hx2].
    apply Z.ltb_ge in Hx1, Hy1. rewrite Z.geb_leb in Hx2, Hy2.
    apply Z.leb_gt in Hx2, Hy2.
    apply sat_bind, sat_rd_ok; [eauto with gen | lia |]. intros c Hc.
    destruct (negb (c =? SPACE) && negb (c =? TRACE)).
    + apply sat_ret. split; [eauto with gen|]. split; [reflexivity|].
      intros a' Ha. discriminate.
    + apply sat_bind, sat_wr_ok; [eauto with gen | lia |].
      eapply sat_weaken.
      * apply arc_loop_spec.
        -- apply gen_inv_write; [eauto with gen | lia | right; lia
                                 | reflexivity].
        -- right. cbn [a_ix a_iy]. lia.
      * cbv beta. intros o g' (Hi & Hst & Ha).
        split; [exact Hi|]. split; [exact Hst|].
        intros a' Ho. destruct (Ha a' Ho) as [Hp Hix].
        cbn [a_ix] in Hix. specialize (Hix ltac:(lia)).
        destruct Hp as [[Hm1 _] | Hp]; [lia | exact Hp].
Qed.


Lemma jump_spec (g : Gen) :
  arc_safe E ->
  gen_inv platform_tile g -> Z.of_nat (length (rec_stack g)) <= 40000 ->
  sat E jump_and_build_platform_somewhere g
      (fun _ g' =>
         gen_inv platform_tile g'
         /\ (length (rec_stack g') <= length (rec_stack g) + 154)%nat).
Proof.
  intros Hsafe Hinv Hlen. unfold jump_and_build_platform_somewhere.
  apply sat_bind, sat_get.
  destruct (rec_stack g) as [|r0 st0] eqn:Hstack.
  { apply sat_ret. split; [exact Hinv | rewrite Hstack; cbn; lia]. }
  assert (Hne : (1 <= length (rec_stack g))%nat)
    by (rewrite Hstack; cbn; lia).
  rewrite <- Hstack. try rewrite <- Hstack in Hlen. cbv zeta.
  set (size := Z.of_nat (length (rec_stack g))).
  assert (Hsize : 1 <= size <= 40000) by (unfold size; lia).
  assert (Hsq : 0 < size * size <= 1600000000).
  { split; [nia|]. change 1600000000 with (40000 * 40000).
    apply Z.mul_le_mono_nonneg; lia. }
  apply sat_bind, sat_randn_ok; [eauto with gen | lia |].
  intros v r1 Hr1 Hv.
  assert (Hn : 0 <= int_sqrt v < size).
  { unfold int_sqrt.
    replace (v <? 0) with false by (symmetry; apply Z.ltb_ge; lia).
    split; [apply Z.sqrt_nonneg|].
    apply Z.sqrt_lt_square; lia. }
  apply sat_bind, sat_assert;
    [intros _ | intro Hf; apply Z.ltb_ge in Hf; lia].
  apply sat_bind. unfold stack_at. apply sat_bind, sat_get.
  replace (int_sqrt v <? 0) with false by (symmetry; apply Z.ltb_ge; lia).
  cbn [rec_stack with_rand_gen].
  destruct (lookup_lt_is_Some_2 (rec_stack g) (Z.to_nat (int_sqrt v))
              ltac:(unfold size in Hn; lia)) as [r Hr].
  rewrite Hr. apply sat_ret.
  pose proof (proj1 (Forall_lookup _ _) (inv_stack _ _ Hinv) _ _ Hr)
    as [Hrx Hry].
  apply sat_bind, sat_rand01_ok; [eauto with gen|]. intros a r2 Hr2 _.
  apply sat_bind, sat_rand01_ok; [eauto with gen|]. intros b r3 Hr3 Hb.
  apply sat_bind, sat_randn_ok; [eauto with gen | lia |].
  intros coin r4 Hr4 _.
  match goal with
  | |- sat _ _ ?s _ => set (g0 := s);
                       assert (Hinv0 : gen_inv platform_tile g0)
                         by (unfold g0; eauto 10 with gen);
                       assert (Hst0 : rec_stack g0 = rec_stack g)
                         by reflexivity;
                       clearbody g0
  end.
  destruct (coin =? 1).
  - (* the arc *)
    apply sat_bind, sat_randn_any; [eauto with gen | |].
    { intro Hz. destruct Hsafe as [[_ HE] | Hok]; [exact HE|].
      exfalso. destruct (Hok b Hb) as [Htop _].
      assert (1 <= Z.quot (jump_top (jump_vy b)) 2 <= 2^20).
      { split.
        - apply Z.quot_le_lower_bound; lia.
        - apply Z.quot_le_upper_bound; lia. }
      rewrite u32_small in Hz by lia. lia. }
    intros extra r5 Hr5 Hextra.
    apply sat_bind.
    destruct Hsafe as [[HEo _] | Hok].
    + eapply sat_weaken.
      * apply arc_loop_spec; [eauto with gen|]. left. split; reflexivity.
      * cbv beta. intros o g1 (Hinv1 & Hst1 & Ha).
        cbn [rec_stack with_rand_gen] in Hst1.
        destruct o as [a'|].
        -- eapply sat_weaken.
           ++ apply build_platform_spec; [exact Hinv1|].
              destruct (Ha a' eq_refl) as [[[H1 H2] | Hp] _];
                [left; auto | right; exact Hp].
           ++ cbv beta. intros _ g2 (Hinv2 & Hl2).
              split; [exact Hinv2|]. rewrite Hst1, Hst0 in Hl2. exact Hl2.
        -- apply sat_ret. split; [exact Hinv1|]. rewrite Hst1, Hst0. lia.
    + destruct (Hok b Hb) as [Htop Hfirst].
      assert (Hq : 1 <= Z.quot (jump_top (jump_vy b)) 2 <= 2^20).
      { split.
        - apply Z.quot_le_lower_bound; lia.
        - apply Z.quot_le_upper_bound; lia. }
      specialize (Hextra ltac:(lia)).
      destruct (Z.to_nat (jump_top (jump_vy b) + extra)) as [|k] eqn:Hk;
        [lia|].
      eapply sat_weaken.
      * apply arc_loop_first; [eauto with gen|]. apply Hfirst. lia.
      * cbv beta. intros o g1 (Hinv1 & Hst1 & Ha).
        cbn [rec_stack with_rand_gen] in Hst1.
        destruct o as [a'|].
        -- eapply sat_weaken.
           ++ apply build_platform_spec; [exact Hinv1|].
              right. apply (Ha a' eq_refl).
           ++ cbv beta. intros _ g2 (Hinv2 & Hl2).
              split; [exact Hinv2|]. rewrite Hst1, Hst0 in Hl2. exact Hl2.
        -- apply sat_ret. split; [exact Hinv1|]. rewrite Hst1, Hst0. lia.
  - (* the ladder *)
    apply sat_bind, sat_get.
    rewrite (proj1 (proj2 (inv_dims _ _ Hinv0))).
    destruct (ry r >=? 13 - 3) eqn:Hhigh.
    { apply sat_ret. split; [exact Hinv0 | rewrite Hst0; lia]. }
    rewrite Z.geb_leb in Hhigh. apply Z.leb_gt in Hhigh.
    apply sat_bind, sat_rd_ok; [eauto with gen | lia |]. intros c0 _.
    apply sat_bind.
    assert (Hstop : sat E (if is_crat c0 then ret true
                           else c1 <- rd (rx r) (ry r - 1);; ret (is_crat c1))
                        (note_access g0 (rx r) (ry r))
                        (fun _ g1 => gen_inv platform_tile g1
                                     /\ rec_stack g1 = rec_stack g0)).
    { destruct (is_crat c0).
      - apply sat_ret. split; [eauto with gen | reflexivity].
      - apply sat_bind, sat_rd_ok; [eauto with gen | lia |]. intros c1 _.
        apply sat_ret. split; [eauto with gen | reflexivity]. }
    eapply sat_weaken; [exact Hstop|]. cbv beta. clear Hstop.
    intros stop g1 (Hinv1 & Hst1).
    destruct stop.
    { apply sat_ret. split; [exact Hinv1 | rewrite Hst1, Hst0; lia]. }
    apply sat_bind. unfold erase_at. apply sat_modify.
    set (st1 := delete (Z.to_nat (int_sqrt v)) (rec_stack g1)).
    assert (Hst1ok : Forall rec_ok st1)
      by (apply Forall_delete; eauto with gen).
    assert (Hst1len : (length st1 <= length (rec_stack g))%nat).
    { unfold st1. rewrite Hst1, Hst0.
      pose proof (length_delete (rec_stack g) _ (mk_is_Some _ _ Hr)). lia. }
    assert (Hinv1' : gen_inv platform_tile (with_rec_stack g1 st1))
      by (apply gen_inv_stack; assumption).
    apply sat_bind, sat_randn_ok; [eauto with gen | lia |].
    intros l r5 Hr5 Hl.
    match goal with
    | |- sat _ _ ?s _ => set (g2 := s);
                         assert (Hinv2 : gen_inv platform_tile g2)
                           by (unfold g2; eauto 10 with gen);
                         assert (Hst2 : rec_stack g2 = st1) by reflexivity;
                         clearbody g2
    end.
    apply sat_bind. eapply sat_weaken.
    { apply ladder_loop_spec; [exact Hinv2 | lia | lia | constructor]. }
    cbv beta. intros o g3 (Hinv3 & Hst3 & Hm3 & Hpost).
    destruct o as [[iy' fl]|].
    2: { apply sat_ret. split; [exact Hinv3|]. rewrite Hst3, Hst2. lia. }
    destruct (Hpost iy' fl eq_refl) as (Hfl & Hiy' & Hix).
    specialize (Hix ltac:(lia)).
    apply sat_bind. eapply sat_weaken.
    { apply write_all_spec; [exact Hinv3 | reflexivity |].
      eapply Forall_impl; [exact Hfl|]. cbv beta. intros f [Hf1 Hf2]. lia. }
    cbv beta. intros _ g4 (Hinv4 & Hst4).
    apply sat_bind, sat_wr_ok; [eauto with gen | lia |].
    eapply sat_weaken.
    { apply build_platform_spec.
      - apply gen_inv_write; [exact Hinv4 | lia | right; lia | reflexivity].
      - right. lia. }
    cbv beta. intros _ g5 (Hinv5 & Hl5).
    split; [exact Hinv5|].
    cbn [rec_stack with_maze note_access] in Hl5.
    rewrite Hst4, Hst3, Hst2 in Hl5. lia.
Qed.

End Builder.

Lemma initial_floor_and_walls_fresh (cfg : Config) (u : Maze.uninit)
      (r : RandGen) :
  initial_floor_and_walls cfg
    {| rec_stack := []; maze := Maze.new u 64 13; rand_gen := r;
       stray := false |}
  = Ok (tt, initial_gen cfg u r).
Proof. vm_compute. reflexivity. Qed.

Lemma initial_tile_at (x y : Z) :
  0 <= x <= 63 -> 0 <= y <= 12 ->
  initial_walls !! Z.to_nat (64 * y + x)
  = Some (if (y =? 12) || (x =? 0) || (x =? 63) then WALL_MIDDLE
          else if y =? 0 then WALL_SURFACE else SPACE).
Proof.
  intros Hx Hy. unfold initial_walls.
  rewrite list_lookup_fmap, lookup_seq_lt by lia.
  cbn [fmap option_fmap option_map Nat.add]. unfold initial_tile.
  rewrite Z2Nat.id by lia.
  replace ((64 * y + x) mod 64) with x
    by (apply (Z.mod_unique_pos _ _ y); lia).
  replace ((64 * y + x) / 64) with y
    by (apply (Z.div_unique_pos _ _ _ x); lia).
  reflexivity.
Qed.

Lemma initial_tile_platform (i : nat) : platform_tile (initial_tile i) = true.
Proof.
  unfold initial_tile.
  destruct ((_ =? 12) || _ || _); [reflexivity|].
  destruct (_ =? 0); reflexivity.
Qed.

(** [initial_floor_and_walls] establishes the invariant *)
Lemma initial_gen_inv (cfg : Config) (u : Maze.uninit) (seed : Z) :
  gen_inv platform_tile (initial_gen cfg u (RandGen_seed seed)).
Proof.
  constructor.
  - repeat split.
  - intros x y c Hx Hy Hb Hget.
    unfold Maze.get_elem, Maze.offset in Hget.
    cbn [initial_gen maze Maze.init_physics Maze.w Maze.walls Maze.with_walls
         Maze.new] in Hget.
    replace (0 <=? 64 * y + x) with true in Hget
      by (symmetry; apply Z.leb_le; lia).
    rewrite (initial_tile_at x y Hx Hy) in Hget. injection Hget as <-.
    destruct Hb as [-> | [-> | [-> | ->]]].
    + rewrite orb_true_r. reflexivity.
    + rewrite orb_true_r. reflexivity.
    + destruct ((0 =? 12) || (x =? 0) || (x =? 63)); reflexivity.
    + reflexivity.
  - constructor.
  - reflexivity.
  - cbn [initial_gen maze Maze.init_physics Maze.walls Maze.with_walls].
    unfold initial_walls. apply Forall_fmap, Forall_forall.
    intros i _. apply initial_tile_platform.
Qed.

(** ** The loop over the platform attempts *)

Section Platforms.
Context (E : error -> Prop).

(** with fuel for every attempt the loop does not run out of it; it is
    left with no platform wanted any more, or with [p] at the bound, ten
    times the number of platforms still wanted *)
Lemma platforms_loop_spec (fuel : nat) (p want : Z) (g : Gen) :
  arc_safe E -> gen_inv platform_tile g ->
  0 <= p -> 0 <= want ->
  want * 10 - p <= Z.of_nat fuel ->
  Z.of_nat (length (rec_stack g)) + 154 * Z.of_nat fuel <= 40000 ->
  sat E (platforms_loop fuel p want) g
      (fun pw g' =>
         gen_inv platform_tile g'
         /\ p <= fst pw /\ 0 <= snd pw <= want
         /\ fst pw - p <= Z.of_nat fuel
         /\ (snd pw = 0 \/ snd pw * 10 <= fst pw)
         /\ (snd pw = 0 -> want = 0 \/ fst pw < want * 10)
         /\ Z.of_nat (length (rec_stack g'))
            <= Z.of_nat (length (rec_stack g)) + 154 * Z.of_nat fuel).
Proof.
  intros Hsafe. revert p want g.
  induction fuel as [|fuel IH]; intros p want g Hinv Hp Hw Hfuel Hlen.
  - cbn [platforms_loop].
    replace (p <? want * 10) with false by (symmetry; apply Z.ltb_ge; lia).
    apply sat_ret. cbn [fst snd]. split; [assumption|]; lia.
  - cbn [platforms_loop].
    destruct (p <? want * 10) eqn:Hlt.
    2:{ apply Z.ltb_ge in Hlt. apply sat_ret. cbn [fst snd].
        split; [assumption|]; lia. }
    apply Z.ltb_lt in Hlt.
    apply sat_bind.
    eapply sat_weaken; [apply jump_spec; [exact Hsafe | exact Hinv | lia]|].
    intros success g1 [Hinv1 Hlen1]. cbv beta zeta.
    set (want' := if success then want - 1 else want).
    assert (Hw' : 0 <= want' <= want)
      by (unfold want'; destruct success; lia).
    destruct (want' =? 0) eqn:Hz.
    + apply Z.eqb_eq in Hz. apply sat_ret. cbn [fst snd].
      split; [assumption|]; lia.
    + apply Z.eqb_neq in Hz.
      eapply sat_weaken; [apply IH; try assumption; lia|].
      intros pw g2 (Hinv2 & H1 & H2 & H3 & H4 & H5 & H6).
      split; [assumption|]; lia.
Qed.

End Platforms.

(** ** Coin placement never leaves the grid *)

Lemma sat_conj {St A} (E : error -> Prop) (c : M St A) (s : St) (Q1 Q2 : A -> St -> Prop) :
  sat E c s Q1 -> sat any_error c s Q2 ->
  sat E c s (fun a s' => Q1 a s' /\ Q2 a s').
Proof.
  unfold sat. destruct (c s) as [[a s']|e]; auto.
Qed.

Ltac good_total tot spec :=
  apply sat_bind; eapply sat_weaken;
  [ apply sat_conj; [apply tot; [assumption | lia] | apply spec] |];
  cbv beta;
  let b := fresh "b" in let g' := fresh "g" in
  let Hm := fresh "Hm" in let Hr := fresh "Hr" in
  let Hs := fresh "Hs" in let Hb := fresh "Hb" in
  intros b g' (_ & Hm & Hr & Hs & Hb);
  assert (dims_ok (maze g')) by (rewrite Hm; assumption);
  destruct b;
  [ specialize (Hb eq_refl)
  | apply sat_ret; repeat split; congruence ];
  cbn [negb].

Section Coins.
Context (E : error -> Prop).

(** a read inside the array returns without an error *)
Lemma rd_total (x y : Z) (g : Gen) :
  dims_ok (maze g) -> 0 <= 64 * y + x < 832 ->
  sat E (rd x y) g (fun _ g' => maze g' = maze g).
Proof.
  intros Hd Hr. apply sat_rd_ok; [exact Hd | exact Hr |].
  intros c _. reflexivity.
Qed.

Lemma open_at_total (x y : Z) (g : Gen) :
  dims_ok (maze g) -> 0 <= 64 * y + x < 832 ->
  sat E (open_at x y) g (fun _ _ => True).
Proof.
  intros Hd Hr. unfold open_at.
  apply sat_bind, sat_rd_ok; [exact Hd | exact Hr |].
  intros c Hc. destruct (c =? SPACE); [exact I|].
  apply sat_bind, sat_rd_ok; [exact Hd | exact Hr |].
  intros c' _. exact I.
Qed.

Lemma solid_at_total (x y : Z) (g : Gen) :
  dims_ok (maze g) -> 0 <= 64 * y + x < 832 ->
  sat E (solid_at x y) g (fun _ _ => True).
Proof.
  intros Hd Hr. unfold solid_at.
  apply sat_bind, sat_rd_ok; [exact Hd | exact Hr |].
  intros c Hc. exact I.
Qed.

Lemma is_open_not_wall (c : Z) : is_open c = true -> is_wall c false = false.
Proof.
  unfold is_open. intro H. apply orb_true_iff in H.
  destruct H as [H | H]; apply Z.eqb_eq in H; subst c; reflexivity.
Qed.

Lemma open_cell_interior (A : Z -> bool) (g : Gen) (x y : Z) :
  gen_inv A g -> 0 <= x <= 63 -> 0 <= y <= 12 ->
  open_cell (maze g) x y -> 1 <= x <= 62 /\ 1 <= y <= 11.
Proof.
  intros Hinv Hx Hy (c & Hc & Ho).
  apply (not_wall_interior (maze g) x y c); eauto with gen.
  apply is_open_not_wall, Ho.
Qed.

Lemma good_place_ok (A : Z -> bool) (r : Rec) (g : Gen) :
  gen_inv A g -> rec_ok r ->
  sat E (good_place r) g
      (fun b g' => maze g' = maze g /\ rand_gen g' = rand_gen g
                   /\ rec_stack g' = rec_stack g
                   /\ (b = true -> placement_ok (maze g) r
                                   /\ 1 <= rx r <= 62 /\ 3 <= ry r <= 11)).
Proof.
  intros Hinv [Hrx Hry].
  assert (Hd : dims_ok (maze g)) by eauto with gen.
  unfold good_place, placement_ok. cbv zeta.
  good_total open_at_total open_at_spec.
  destruct (open_cell_interior A g (rx r) (ry r) Hinv) as [Hix Hiy];
    [lia | lia | exact Hb |].
  destruct (2 <? ry r) eqn:Hy; cbn [negb];
    [ apply Z.ltb_lt in Hy | apply sat_ret; repeat split; congruence ].
  good_total open_at_total open_at_spec.
  good_total open_at_total open_at_spec.
  good_total open_at_total open_at_spec.
  good_total solid_at_total solid_at_spec.
  good_total solid_at_total solid_at_spec.
  eapply sat_weaken;
    [ apply sat_conj; [apply solid_at_total; [assumption | lia]
                      | apply solid_at_spec] |].
  cbv beta. intros b g' (_ & Hm' & Hr' & Hs' & Hb').
  split; [congruence|]. split; [congruence|]. split; [congruence|].
  intro Hbt. specialize (Hb' Hbt).
  repeat split; try congruence; try lia.
Qed.

Lemma count_insert (f : Z -> bool) (l : list Z) (i : nat) (c v : Z) :
  l !! i = Some c ->
  Z.of_nat (length (List.filter f (<[ i := v ]> l)))
  = Z.of_nat (length (List.filter f l)) - b2z (f c) + b2z (f v).
Proof.
  revert i. induction l as [|a l IH]; intros i Hi; [discriminate|].
  destruct i as [|i].
  - injection Hi as ->. simpl.
    destruct (f c), (f v); simpl length; unfold b2z; lia.
  - simpl. specialize (IH i Hi). simpl in Hi.
    destruct (f a); simpl length; lia.
Qed.

Lemma get_elem_lookup (m : Maze.t) (x y c : Z) :
  dims_ok m -> Maze.get_elem m x y = Some c ->
  Maze.walls m !! Z.to_nat (64 * y + x) = Some c.
Proof.
  intros (Hw & _ & _). unfold Maze.get_elem, Maze.offset. rewrite Hw.
  destruct (0 <=? 64 * y + x); [auto | discriminate].
Qed.

Lemma gen_inv_eq (A : Z -> bool) (g g' : Gen) :
  maze g' = maze g -> rand_gen g' = rand_gen g ->
  rec_stack g' = rec_stack g -> gen_inv A g -> gen_inv A g'.
Proof.
  intros Hm Hr Hs [H1 H2 H3 H4 H5].
  constructor; rewrite ?Hm, ?Hr, ?Hs; assumption.
Qed.

Lemma is_open_no_treasure (c : Z) :
  is_open c = true -> is_coin c = false /\ is_gem c = false.
Proof.
  unfold is_open. intro H. apply orb_true_iff in H.
  destruct H as [H | H]; apply Z.eqb_eq in H; subst c; split; reflexivity.
Qed.

(** one anchor: the counter and the number of coin and gem tiles grow
    together *)
Lemma place_coin_at_ok (r : Rec) (coins : Z) (g : Gen) :
  gen_inv any_tile g -> rec_ok r ->
  count_tiles is_coin (maze g) + count_tiles is_gem (maze g) = coins ->
  0 <= coins < 2^31 - 1 ->
  sat E (place_coin_at r coins) g
      (fun coins' g' =>
         gen_inv any_tile g' /\ rec_stack g' = rec_stack g
         /\ count_tiles is_coin (maze g') + count_tiles is_gem (maze g')
            = coins'
         /\ coins <= coins' <= coins + 1).
Proof.
  intros Hinv Hrec Hcount Hc. unfold place_coin_at.
  apply sat_bind.
  eapply sat_weaken; [apply (good_place_ok any_tile); assumption|].
  intros good g1 (Hm & Hr & Hs & Hgood).
  assert (Hinv1 : gen_inv any_tile g1) by (eapply gen_inv_eq; eauto).
  destruct good.
  2:{ apply sat_ret. split; [exact Hinv1|]. split; [exact Hs|].
      rewrite Hm. split; [exact Hcount | lia]. }
  destruct (Hgood eq_refl) as (((c & Hget & Ho) & _) & Hx & Hy).
  destruct (is_open_no_treasure c Ho) as [Hnc Hng].
  apply sat_bind, sat_randn_ok; [eauto with gen | lia |].
  intros v r' Hr' Hv.
  set (g2 := with_rand_gen g1 r').
  assert (Hinv2 : gen_inv any_tile g2) by (apply gen_inv_rand; assumption).
  assert (Hlook : Maze.walls (maze g2) !! Z.to_nat (64 * ry r + rx r)
                  = Some c).
  { apply get_elem_lookup; [eauto with gen|].
    unfold g2. cbn [maze with_rand_gen]. rewrite Hm. exact Hget. }
  assert (Hwr : forall t, (t = COIN_OBJ1 \/ t = COIN_OBJ2) ->
    sat E (wr (rx r) (ry r) t) g2
      (fun _ g' =>
         sat E (ret (wrap32 (coins + 1))) g'
           (fun coins' g' =>
              gen_inv any_tile g' /\ rec_stack g' = rec_stack g
              /\ count_tiles is_coin (maze g')
                 + count_tiles is_gem (maze g') = coins'
              /\ coins <= coins' <= coins + 1))).
  { intros t Ht. apply sat_wr_ok; [eauto with gen | lia |].
    apply sat_ret. rewrite wrap32_small by lia.
    split; [apply gen_inv_write; [exact Hinv2 | lia | right; lia
                                 | reflexivity]|].
    split; [exact Hs|]. split; [|lia].
    unfold count_tiles.
    cbn [maze with_maze note_access Maze.walls Maze.with_walls].
    rewrite (count_insert is_coin _ _ c t Hlook).
    rewrite (count_insert is_gem _ _ c t Hlook).
    rewrite Hnc, Hng.
    assert (Hsame : Maze.walls (maze g2) = Maze.walls (maze g))
      by (unfold g2; cbn [maze with_rand_gen]; rewrite Hm; reflexivity).
    rewrite Hsame. unfold count_tiles in Hcount.
    destruct Ht as [-> | ->];
      change (b2z (is_coin COIN_OBJ1)) with 1;
      change (b2z (is_gem COIN_OBJ1)) with 0;
      change (b2z (is_coin COIN_OBJ2)) with 0;
      change (b2z (is_gem COIN_OBJ2)) with 1;
      change (b2z false) with 0; lia. }
  apply sat_bind.
  destruct (v >=? 9); apply Hwr; auto.
Qed.

Lemma sat_pop_rec (g : Gen) (Q : option Rec -> Gen -> Prop) :
  (reverse (rec_stack g) = [] -> Q None g) ->
  (forall r rest, reverse (rec_stack g) = r :: rest ->
                  Q (Some r) (with_rec_stack g (reverse rest))) ->
  sat E pop_rec g Q.
Proof.
  unfold sat, pop_rec. destruct (reverse (rec_stack g)); auto.
Qed.

Lemma place_coins_loop_ok (k : nat) (coins : Z) (g : Gen) :
  gen_inv any_tile g ->
  count_tiles is_coin (maze g) + count_tiles is_gem (maze g) = coins ->
  0 <= coins -> coins + Z.of_nat k < 2^31 - 1 ->
  sat E (place_coins_loop k coins) g
      (fun coins' g' =>
         gen_inv any_tile g'
         /\ count_tiles is_coin (maze g') + count_tiles is_gem (maze g')
            = coins'
         /\ coins <= coins' <= coins + Z.of_nat k).
Proof.
  revert coins g. induction k as [|k IH]; intros coins g Hinv Hcount H0 Hk.
  - apply sat_ret. split; [exact Hinv|]. split; [exact Hcount | lia].
  - cbn [place_coins_loop]. apply sat_bind, sat_pop_rec.
    + intros _. apply sat_ret.
      split; [exact Hinv|]. split; [exact Hcount | lia].
    + intros r rest Hrev.
      assert (Hall : Forall rec_ok (r :: rest)).
      { rewrite <- Hrev. apply Forall_reverse. eauto with gen. }
      apply Forall_cons in Hall as [Hr Hrest].
      apply sat_bind.
      eapply sat_weaken;
        [apply place_coin_at_ok;
         [apply gen_inv_stack; [exact Hinv | apply Forall_reverse; exact Hrest]
         | exact Hr | exact Hcount | lia]|].
      intros coins1 g1 (Hinv1 & _ & Hcount1 & Hc1). cbv beta.
      eapply sat_weaken; [apply IH; [exact Hinv1 | exact Hcount1 | lia | lia]|].
      intros coins2 g2 (Hinv2 & Hcount2 & Hc2).
      split; [exact Hinv2|]. split; [exact Hcount2 | lia].
Qed.

Lemma count_none (f : Z -> bool) (l : list Z) :
  Forall (fun c => f c = false) l -> length (List.filter f l) = 0%nat.
Proof.
  induction 1 as [|c l Hc _ IH]; [reflexivity|].
  cbn [List.filter]. rewrite Hc. exact IH.
Qed.

Lemma platform_tile_no_treasure (c : Z) :
  platform_tile c = true -> is_coin c = false /\ is_gem c = false.
Proof.
  intro H. unfold is_coin, is_gem. split.
  - destruct (c =? COIN_OBJ1) eqn:Hc; [|reflexivity].
    apply Z.eqb_eq in Hc. subst c. discriminate.
  - destruct (c =? COIN_OBJ2) eqn:Hc; [|reflexivity].
    apply Z.eqb_eq in Hc. subst c. discriminate.
Qed.

(** [place_coins]: the counter of the maze is the number of coin and gem
    tiles *)
Lemma place_coins_ok (g : Gen) :
  gen_inv platform_tile g ->
  Z.of_nat (length (rec_stack g)) <= 40000 ->
  sat E place_coins g
      (fun _ g' => gen_inv any_tile g' /\ coins_tally (maze g')).
Proof.
  intros Hinv Hlen. unfold place_coins.
  apply sat_bind, sat_get. apply sat_bind.
  assert (Hzero : count_tiles is_coin (maze g) + count_tiles is_gem (maze g)
                  = 0).
  { unfold count_tiles.
    rewrite !count_none; [reflexivity | |];
      (eapply Forall_impl; [apply (inv_tiles _ _ Hinv)|]);
      intros c Hc; apply platform_tile_no_treasure in Hc; tauto. }
  eapply sat_weaken; [apply place_coins_loop_ok|].
  - destruct Hinv as [H1 H2 H3 H4 H5]. constructor; try assumption.
    apply Forall_forall. reflexivity.
  - exact Hzero.
  - lia.
  - lia.
  - intros coins g1 (Hinv1 & Hcount1 & Hc1). apply sat_modify.
    split.
    + destruct Hinv1 as [H1 H2 H3 H4 H5]. constructor; assumption.
    + exact Hcount1.
Qed.

End Coins.

(** ** Counted loops *)

Lemma sat_for_loop {St} (E : error -> Prop) (I : Z -> St -> Prop)
      (k : nat) (i : Z) (body : Z -> M St unit) (s : St) :
  I i s ->
  (forall j s', i <= j < i + Z.of_nat k -> I j s' ->
                sat E (body j) s' (fun _ s'' => I (j + 1) s'')) ->
  sat E (for_loop k i body) s (fun _ s' => I (i + Z.of_nat k) s').
Proof.
  revert i s. induction k as [|k IH]; intros i s Hi Hbody.
  - apply sat_ret. replace (i + Z.of_nat 0) with i by lia. exact Hi.
  - cbn [for_loop]. apply sat_bind.
    eapply sat_weaken; [apply Hbody; [lia | exact Hi]|].
    intros [] s1 H1. cbv beta.
    replace (i + Z.of_nat (S k)) with (i + 1 + Z.of_nat k) by lia.
    apply IH; [exact H1|].
    intros j s' Hj. apply Hbody. lia.
Qed.

(** ** Traces and monsters *)

Section Traces.
Context (E : error -> Prop).

Lemma sat_rd_placed (x y : Z) (g : Gen) (Q : Z -> Gen -> Prop) :
  placed g -> 0 <= x <= 63 -> 0 <= y <= 12 ->
  (forall c g', placed g' -> maze g' = maze g ->
                Maze.get_elem (maze g) x y = Some c -> Q c g') ->
  sat E (rd x y) g Q.
Proof.
  intros [Hinv Ht] Hx Hy HQ.
  apply sat_rd_ok; [eauto with gen | lia |].
  intros c Hc. apply HQ; [|reflexivity | exact Hc].
  split; [apply gen_inv_note; exact Hinv | exact Ht].
Qed.

Lemma sat_randn_placed (n : Z) (g : Gen) (Q : Z -> Gen -> Prop) :
  placed g -> 0 < n < 2^31 ->
  (forall v g', placed g' -> maze g' = maze g -> 0 <= v < n -> Q v g') ->
  sat E (randn n) g Q.
Proof.
  intros [Hinv Ht] Hn HQ.
  apply sat_randn_ok; [eauto with gen | exact Hn |].
  intros v r' Hr Hv. apply HQ; [|reflexivity | exact Hv].
  split; [apply gen_inv_rand; assumption | exact Ht].
Qed.

(** a write that neither removes nor adds a coin or a gem, and puts a
    wall where a wall was *)
Lemma sat_wr_placed (x y v c0 : Z) (g : Gen) (Q : unit -> Gen -> Prop) :
  placed g -> 0 <= x <= 63 -> 0 <= y <= 12 ->
  Maze.get_elem (maze g) x y = Some c0 ->
  is_coin c0 = false -> is_gem c0 = false ->
  is_coin v = false -> is_gem v = false ->
  is_wall v false = true \/ is_wall c0 false = false ->
  (forall g', placed g' -> Q tt g') ->
  sat E (wr x y v) g Q.
Proof.
  intros [Hinv Ht] Hx Hy Hget Hc1 Hc2 Hv1 Hv2 Hw HQ.
  apply sat_wr_ok; [eauto with gen | lia |].
  apply HQ. split.
  - apply gen_inv_write; [exact Hinv | lia | | reflexivity].
    destruct Hw as [Hw | Hw]; [left; exact Hw | right].
    apply (not_wall_interior (maze g) x y c0); eauto with gen.
  - unfold coins_tally, count_tiles in *.
    cbn [maze with_maze note_access Maze.walls Maze.with_walls Maze.coins].
    assert (Hlook := get_elem_lookup _ _ _ _ (inv_dims _ _ Hinv) Hget).
    rewrite (count_insert is_coin _ _ c0 v Hlook).
    rewrite (count_insert is_gem _ _ c0 v Hlook).
    rewrite Hc1, Hc2, Hv1, Hv2. unfold b2z. lia.
Qed.

Lemma monster_tile_plain (c : Z) :
  (c =? FLYING_MONSTER) || (c =? WALKING_MONSTER) || (c =? GROUND_MONSTER)
  = true ->
  is_coin c = false /\ is_gem c = false /\ is_wall c false = false.
Proof.
  intro H. apply orb_true_iff in H. destruct H as [H | H].
  - apply orb_true_iff in H.
    destruct H as [H | H]; apply Z.eqb_eq in H; subst c; repeat split.
  - apply Z.eqb_eq in H. subst c. repeat split.
Qed.

Lemma cliff_tile_plain (c : Z) :
  (c =? CLIFF_a) || (c =? CLIFF_b) = true ->
  is_coin c = false /\ is_gem c = false.
Proof.
  intro H. apply orb_true_iff in H.
  destruct H as [H | H]; apply Z.eqb_eq in H; subst c; repeat split.
Qed.

Lemma wall_tile_plain (c : Z) :
  is_wall c false = true -> is_coin c = false /\ is_gem c = false.
Proof.
  intro H. unfold is_coin, is_gem. split.
  - destruct (c =? COIN_OBJ1) eqn:Hc; [|reflexivity].
    apply Z.eqb_eq in Hc. subst c. discriminate.
  - destruct (c =? COIN_OBJ2) eqn:Hc; [|reflexivity].
    apply Z.eqb_eq in Hc. subst c. discriminate.
Qed.

Lemma placed_monsters (g : Gen) (ms : list Monster.t) :
  placed g -> placed (with_maze g (Maze.with_monsters (maze g) ms)).
Proof.
  intros [[H1 H2 H3 H4 H5] Ht]. split; [constructor; assumption | exact Ht].
Qed.

(** the reference [b], read and tested for a wall *)
Lemma wall_below_placed (x y : Z) (g : Gen) (Q : bool -> Gen -> Prop) :
  placed g -> 0 <= x <= 63 -> 0 <= y <= 12 ->
  (forall v g', placed g' -> maze g' = maze g ->
                Maze.get_elem (maze g) x y = Some v ->
                Q (is_wall v false) g') ->
  sat E (v <- rd x y ;; ret (is_wall v false)) g Q.
Proof.
  intros HJ Hx Hy HQ. apply sat_bind, sat_rd_placed; [exact HJ | lia | lia |].
  intros v g' HJ' Hm Hv. apply sat_ret. apply HQ; assumption.
Qed.

Lemma remove_traces_cell_ok (x y : Z) (g : Gen) :
  placed g -> 1 <= x <= 62 -> 1 <= y <= 12 ->
  sat E (remove_traces_cell x y) g (fun _ g' => placed g').
Proof.
  intros HJ Hx Hy. unfold remove_traces_cell. cbv zeta.
  apply sat_bind, sat_rd_placed; [exact HJ | lia | lia |].
  intros cl g1 HJ1 _ _.
  apply sat_bind, sat_rd_placed; [exact HJ1 | lia | lia |].
  intros cr g2 HJ2 _ _.
  apply sat_bind, sat_rd_placed; [exact HJ2 | lia | lia |].
  intros c1 g3 HJ3 Hm3 Hc1.
  (* a trace becomes a flying monster or empty space *)
  apply sat_bind. eapply (sat_weaken E _ _ (fun _ g' => placed g')).
  { destruct (c1 =? TRACE) eqn:Ht; [|apply sat_ret; exact HJ3].
    apply Z.eqb_eq in Ht. subst c1.
    apply sat_bind, sat_randn_placed; [exact HJ3 | lia |].
    intros v g4 HJ4 Hm4 Hv.
    apply sat_bind.
    eapply (sat_weaken E _ _ (fun _ g' => placed g' /\ maze g' = maze g4)).
    { destruct (v =? 0).
      - apply sat_bind, wall_below_placed; [exact HJ4 | lia | lia |].
        intros vb g5 HJ5 Hm5 _. apply sat_ret. split; assumption.
      - apply sat_ret. split; [exact HJ4 | reflexivity]. }
    intros fly g5 [HJ5 Hm5].
    assert (Hcell : Maze.get_elem (maze g5) x y = Some TRACE)
      by (rewrite Hm5, Hm4, Hm3; exact Hc1).
    destruct fly;
      (apply (sat_wr_placed x y _ TRACE);
       [ exact HJ5 | lia | lia | exact Hcell | reflexivity | reflexivity
       | reflexivity | reflexivity | right; reflexivity | auto ]). }
  intros [] g4 HJ4. cbv beta.
  apply sat_bind, sat_rd_placed; [exact HJ4 | lia | lia |].
  intros c2 g5 HJ5 Hm5 Hc2.
  (* a cliff on top of a wall becomes a wall *)
  apply sat_bind. eapply (sat_weaken E _ _ (fun _ g' => placed g')).
  { destruct ((c2 =? CLIFF_a) || (c2 =? CLIFF_b)) eqn:Hcliff;
      [|apply sat_ret; exact HJ5].
    destruct (cliff_tile_plain c2 Hcliff) as [Hn1 Hn2].
    apply sat_bind, wall_below_placed; [exact HJ5 | lia | lia |].
    intros vb g6 HJ6 Hm6 _.
    destruct (is_wall vb false); [|apply sat_ret; exact HJ6].
    apply (sat_wr_placed x y _ c2);
      [ exact HJ6 | lia | lia | rewrite Hm6, Hm5; exact Hc2 | exact Hn1
      | exact Hn2 | reflexivity | reflexivity | left; reflexivity | auto ]. }
  intros [] g6 HJ6. cbv beta.
  apply sat_bind, sat_rd_placed; [exact HJ6 | lia | lia |].
  intros c3 g7 HJ7 Hm7 Hc3.
  (* a wall below a wall is not a surface *)
  apply sat_bind. eapply (sat_weaken E _ _ (fun _ g' => placed g')).
  { destruct (is_wall c3 false); [|apply sat_ret; exact HJ7].
    apply sat_bind, wall_below_placed; [exact HJ7 | lia | lia |].
    intros vb g8 HJ8 Hm8 Hvb.
    destruct (is_wall vb false) eqn:Hwb; [|apply sat_ret; exact HJ8].
    destruct (wall_tile_plain vb Hwb) as [Hn1 Hn2].
    apply (sat_wr_placed x (y - 1) _ vb);
      [ exact HJ8 | lia | lia | rewrite Hm8; exact Hvb | exact Hn1
      | exact Hn2 | reflexivity | reflexivity | left; reflexivity | auto ]. }
  intros [] g8 HJ8. cbv beta.
  apply sat_bind, sat_rd_placed; [exact HJ8 | lia | lia |].
  intros c4 g9 HJ9 Hm9 Hc4.
  (* the marker of a monster becomes a monster *)
  destruct ((c4 =? FLYING_MONSTER) || (c4 =? WALKING_MONSTER)
            || (c4 =? GROUND_MONSTER)) eqn:Hmon;
    [|apply sat_ret; exact HJ9].
  destruct (monster_tile_plain c4 Hmon) as (Hn1 & Hn2 & Hn3).
  set (idxs := if c4 =? FLYING_MONSTER then flying_theme_idxs
               else if c4 =? WALKING_MONSTER then walking_theme_idxs
                    else ground_theme_idxs).
  assert (Hidxs : 0 < Z.of_nat (length idxs) < 2^31).
  { unfold idxs. destruct (c4 =? FLYING_MONSTER); [cbn; lia|].
    destruct (c4 =? WALKING_MONSTER); cbn; lia. }
  apply sat_bind, sat_randn_placed; [exact HJ9 | exact Hidxs |].
  intros chosen g10 HJ10 Hm10 Hch.
  replace (chosen <? 0) with false by (symmetry; apply Z.ltb_ge; lia).
  destruct (idxs !! Z.to_nat chosen) as [theme|] eqn:Hth.
  2:{ apply lookup_ge_None in Hth. lia. }
  apply sat_bind.
  apply (sat_wr_placed x y _ c4);
    [ exact HJ10 | lia | lia | rewrite Hm10, Hm9; exact Hc4 | exact Hn1
    | exact Hn2 | reflexivity | reflexivity | right; exact Hn3 |].
  intros g11 HJ11. cbv beta.
  apply sat_bind. eapply (sat_weaken E _ _ (fun _ g' => placed g')).
  { destruct (negb (c4 =? WALKING_MONSTER)); apply sat_ret; exact HJ11. }
  intros room g12 HJ12. cbv beta.
  apply sat_bind. eapply (sat_weaken E _ _ (fun _ g' => placed g')).
  { destruct (negb room); [apply sat_ret; exact HJ12|].
    destruct (c4 =? FLYING_MONSTER); [apply sat_ret; exact HJ12|].
    apply wall_below_placed; [exact HJ12 | lia | lia |].
    intros vb g13 HJ13 _ _. exact HJ13. }
  intros keep g13 HJ13. cbv beta.
  destruct keep; [|apply sat_ret; exact HJ13].
  unfold add_monster. apply sat_modify. apply placed_monsters. exact HJ13.
Qed.

End Traces.

Section Generate.
Context (E : error -> Prop).

Lemma remove_traces_add_monsters_ok (g : Gen) :
  placed g -> sat E remove_traces_add_monsters g (fun _ g' => placed g').
Proof.
  intros HJ. unfold remove_traces_add_monsters.
  apply sat_bind, sat_modify. apply sat_bind, sat_get. cbv zeta.
  cbn [maze with_maze Maze.w Maze.h Maze.with_monsters].
  destruct HJ as [Hinv Ht].
  destruct (inv_dims _ _ Hinv) as (Hw & Hh & _). rewrite Hw, Hh.
  assert (HJ : placed (with_maze g (Maze.with_monsters (maze g) [])))
    by (apply placed_monsters; split; assumption).
  eapply sat_weaken;
    [apply (sat_for_loop E (fun _ g' => placed g')); [exact HJ|] |].
  - intros y g1 Hy HJ1.
    eapply sat_weaken;
      [apply (sat_for_loop E (fun _ g' => placed g')); [exact HJ1|] |].
    + intros x g2 Hx HJ2. apply remove_traces_cell_ok; [exact HJ2 | lia | lia].
    + intros [] g2 HJ2. exact HJ2.
  - intros [] g1 HJ1. exact HJ1.
Qed.

Lemma push_anchors (k : nat) (i : Z) (g : Gen) :
  gen_inv platform_tile g -> 0 <= i -> i + Z.of_nat k <= 64 ->
  sat E (for_loop k i (fun x => push_rec {| rx := x; ry := 1 |})) g
      (fun _ g' => gen_inv platform_tile g'
                   /\ length (rec_stack g') = (length (rec_stack g) + k)%nat).
Proof.
  revert i g. induction k as [|k IH]; intros i g Hinv Hi Hk.
  - apply sat_ret. split; [exact Hinv | lia].
  - cbn [for_loop]. apply sat_bind, sat_push_rec.
    eapply sat_weaken; [apply IH; [|lia|lia]|].
    + apply gen_inv_stack; [exact Hinv|].
      apply Forall_app. split; [eauto with gen|].
      constructor; [|constructor]. split; cbn [rx ry]; lia.
    + intros [] g1 [Hinv1 Hlen1]. split; [exact Hinv1|].
      rewrite Hlen1. cbn [rec_stack with_rec_stack].
      rewrite length_app. cbn [length]. lia.
Qed.

Lemma gen_inv_spawnpos (A : Z -> bool) (g : Gen) (p : Z * Z) :
  gen_inv A g -> gen_inv A (with_maze g (Maze.with_spawnpos (maze g) p)).
Proof. intros [H1 H2 H3 H4 H5]. constructor; assumption. Qed.

Lemma generate_coins_on_platforms_ok (g : Gen) :
  arc_safe E -> gen_inv platform_tile g -> rec_stack g = [] ->
  sat E generate_coins_on_platforms g
      (fun pw g' => placed g' /\ loop_exit pw).
Proof.
  intros Hsafe Hinv Hst. unfold generate_coins_on_platforms.
  apply sat_bind, sat_get. cbv zeta.
  destruct (inv_dims _ _ Hinv) as (Hw & _ & _). rewrite Hw.
  apply sat_bind, sat_randn_ok; [eauto with gen | lia |].
  intros s r' Hr' Hs.
  apply sat_bind, sat_modify. apply sat_bind. unfold for_upto.
  eapply sat_weaken; [apply push_anchors; [|lia|cbn; lia]|].
  { apply gen_inv_spawnpos, gen_inv_rand; assumption. }
  intros [] g1 [Hinv1 Hlen1]. cbv beta.
  cbn [rec_stack with_maze with_rand_gen] in Hlen1. rewrite Hst in Hlen1.
  cbn [length Nat.add] in Hlen1.
  apply sat_bind.
  eapply sat_weaken;
    [apply platforms_loop_spec; [exact Hsafe | exact Hinv1 | lia | lia | |]|].
  { change (Z.to_nat (11 * 10)) with 110%nat. lia. }
  { change (Z.to_nat (11 * 10)) with 110%nat. rewrite Hlen1. cbn. lia. }
  intros pw g2 (Hinv2 & H1 & H2 & H3 & H4 & H5 & H6). cbv beta.
  change (Z.to_nat (11 * 10)) with 110%nat in H3, H6.
  rewrite Hlen1 in H6.
  apply sat_bind.
  eapply sat_weaken; [apply place_coins_ok; [exact Hinv2 | cbn in H6; lia]|].
  intros [] g3 HJ3. cbv beta.
  apply sat_bind.
  eapply sat_weaken; [apply remove_traces_add_monsters_ok; exact HJ3|].
  intros [] g4 HJ4. apply sat_ret.
  split; [exact HJ4|]. unfold loop_exit. lia.
Qed.

(** the whole generation, from a freshly allocated maze *)
Lemma generate_level_ok (cfg : Config) (u : Maze.uninit) (seed : Z) :
  arc_safe E ->
  sat E (generate_level cfg) (fresh_generator u seed)
      (fun pw g' => placed g' /\ loop_exit pw).
Proof.
  intros Hsafe. unfold generate_level. apply sat_bind.
  unfold sat at 1. unfold fresh_generator.
  rewrite initial_floor_and_walls_fresh.
  apply generate_coins_on_platforms_ok;
    [exact Hsafe | apply initial_gen_inv | reflexivity].
Qed.

End Generate.

(** ** Generation does not depend on what the memory held *)

(** [generate_coins_on_platforms] writes the spawn position before
    anything reads it *)
Lemma generate_coins_on_platforms_spawnpos (g : Gen) (p : Z * Z) :
  generate_coins_on_platforms (with_maze g (Maze.with_spawnpos (maze g) p))
  = generate_coins_on_platforms g.
Proof.
  unfold generate_coins_on_platforms, bind, get, modify, randn, on_rand.
  cbn [maze with_maze Maze.w Maze.with_spawnpos rand_gen].
  destruct (randint 0 (Maze.w (maze g) - 2) (rand_gen g)) as [[s r']|e];
    reflexivity.
Qed.

(** C3: level generation is a function of the seed alone: two runs with
    the same seed, on two freshly allocated mazes whose memory held
    different values, end in the same result, with the same tile grid, the
    same coin count, the same monsters and the same spawn position (or
    stop with the same error). *)
Theorem generate_deterministic (cfg : Config) (u1 u2 : Maze.uninit)
        (level_seed : Z) :
  generate cfg u1 level_seed = generate cfg u2 level_seed.
Proof.
  unfold generate, generate_level, fresh_generator, bind.
  rewrite !initial_floor_and_walls_fresh.
  change (initial_gen cfg u2 (RandGen_seed level_seed))
    with (with_maze (initial_gen cfg u1 (RandGen_seed level_seed))
            (Maze.with_spawnpos
               (maze (initial_gen cfg u1 (RandGen_seed level_seed)))
               (Maze.u_spawnpos u2))).
  rewrite generate_coins_on_platforms_spawnpos. reflexivity.
Qed.

(** ** The border of a generated level, and the reads beside it *)

Lemma generate_eq (cfg : Config) (u : Maze.uninit) (seed : Z) :
  generate cfg u seed = generate_level cfg (fresh_generator u seed).
Proof. reflexivity. Qed.

(** every level that generation returns has a solid border, and its coin
    counter is the number of its coin and gem tiles *)
Lemma generated_level (cfg : Config) (u : Maze.uninit) (seed : Z)
      (pw : Z * Z) (g : Gen) :
  generate cfg u seed = Ok (pw, g) ->
  dims_ok (maze g) /\ border_solid (maze g) /\ coins_tally (maze g).
Proof.
  intro Hgen.
  assert (Hsafe : arc_safe any_error) by (left; split; exact I).
  pose proof (generate_level_ok any_error cfg u seed Hsafe) as H.
  rewrite generate_eq in Hgen.
  destruct (sat_elim any_error (generate_level cfg) (fresh_generator u seed)
              (fun pw g' => placed g' /\ loop_exit pw) pw g H Hgen)
    as [[Hinv Ht] _].
  split; [exact (inv_dims _ _ Hinv)|].
  split; [exact (inv_border _ _ Hinv) | exact Ht].
Qed.

(** C9: the ladder branch of [jump_and_build_platform_somewhere] probes
    the cells left and right of the ladder without the guard that the arc
    branch has.  From an anchor in column 0 (the first anchor that
    [generate_coins_on_platforms] records) the loop calls
    [get_elem(-1, 2)]: the coordinates are outside the grid, the offset
    [w*2 - 1] is the last cell of row 1.  The generation of the level
    with seed 2 makes such a call. *)
Theorem ladder_probe_leaves_grid (cfg : Config) (u : Maze.uninit)
        (r : RandGen) :
  (exists g, ladder_loop 5 0 1 [] (initial_gen cfg u r) = Ok (None, g)
             /\ stray g = true)
  /\ (exists pw g, generate default_config u 2 = Ok (pw, g)
                   /\ stray g = true).
Proof.
  split.
  - eexists. split; [vm_compute; reflexivity | reflexivity].
  - eexists. eexists. split; [vm_compute; reflexivity | reflexivity].
Qed.

(** ** Rounding keeps the magnitude *)

Lemma digits2_size (m : positive) : digits2_pos m = Pos.size m.
Proof. induction m; cbn; congruence. Qed.

Lemma Zdigits2_log2 (m : positive) :
  Zdigits2 (Zpos m) = Z.log2 (Zpos m) + 1.
Proof.
  cbn [Zdigits2]. rewrite digits2_size.
  destruct m; cbn [Z.log2 Pos.size]; lia.
Qed.

Lemma log2_div_pow2 (z k : Z) :
  0 < z -> 0 <= k <= Z.log2 z -> Z.log2 (z / 2 ^ k) = Z.log2 z - k.
Proof.
  intros Hz Hk. rewrite <- Z.shiftr_div_pow2 by lia.
  rewrite Z.log2_shiftr by lia. lia.
Qed.

Lemma div_pow2_pos (z k : Z) :
  0 < z -> 0 <= k <= Z.log2 z -> 0 < z / 2 ^ k.
Proof.
  intros Hz Hk. apply Z.div_str_pos. split; [apply Z.pow_pos_nonneg; lia|].
  apply Z.le_trans with (2 ^ Z.log2 z);
    [apply Z.pow_le_mono_r; lia | apply Z.log2_spec; exact Hz].
Qed.

Lemma log2_succ_cases (z : Z) :
  0 < z -> Z.log2 z <= Z.log2 (z + 1) <= Z.log2 z + 1.
Proof.
  intro Hz. split; [apply Z.log2_le_mono; lia|].
  apply Z.log2_succ_le.
Qed.

Lemma shr_1_m (mrs : shr_record) :
  0 <= shr_m mrs -> shr_m (shr_1 mrs) = shr_m mrs / 2.
Proof.
  destruct mrs as [m r s]. cbn [shr_m shr_1]. intro Hm.
  destruct m as [|[p|p|]|p]; cbn [shr_m]; try lia.
  - reflexivity.
  - rewrite Pos2Z.inj_xI. apply (Z.div_unique_pos _ _ _ 1); lia.
  - rewrite Pos2Z.inj_xO. apply (Z.div_unique_pos _ _ _ 0); lia.
  - reflexivity.
Qed.

Lemma iter_shr_1_m (p : positive) (mrs : shr_record) :
  0 <= shr_m mrs ->
  shr_m (SpecFloat.iter_pos shr_1 p mrs) = shr_m mrs / 2 ^ Zpos p.
Proof.
  revert mrs. induction p as [p IH|p IH|]; intros mrs Hm; cbn [SpecFloat.iter_pos].
  - assert (H1 : 0 <= shr_m (shr_1 mrs))
      by (rewrite shr_1_m by lia; apply Z.div_pos; lia).
    assert (H2 : 0 <= shr_m (SpecFloat.iter_pos shr_1 p (shr_1 mrs)))
      by (rewrite IH by lia; apply Z.div_pos; [lia|apply Z.pow_pos_nonneg; lia]).
    rewrite IH, IH, shr_1_m by lia.
    rewrite !Z.div_div by (try apply Z.pow_pos_nonneg; lia).
    f_equal. rewrite (Pos2Z.inj_xI p).
    replace (2 * Zpos p + 1) with (1 + Zpos p + Zpos p) by lia.
    rewrite (Z.pow_add_r 2 (1 + Zpos p) (Zpos p)) by lia.
    rewrite (Z.pow_add_r 2 1 (Zpos p)) by lia. lia.
  - assert (H2 : 0 <= shr_m (SpecFloat.iter_pos shr_1 p mrs))
      by (rewrite IH by lia; apply Z.div_pos; [lia|apply Z.pow_pos_nonneg; lia]).
    rewrite IH, IH by lia.
    rewrite !Z.div_div by (try apply Z.pow_pos_nonneg; lia).
    f_equal. rewrite (Pos2Z.inj_xO p).
    replace (2 * Zpos p) with (Zpos p + Zpos p) by lia.
    rewrite (Z.pow_add_r 2 (Zpos p) (Zpos p)) by lia. lia.
  - rewrite shr_1_m by lia. reflexivity.
Qed.

Lemma shr_spec (mrs : shr_record) (e n : Z) :
  0 <= shr_m mrs ->
  shr_m (fst (shr mrs e n)) = shr_m mrs / 2 ^ Z.max 0 n
  /\ snd (shr mrs e n) = e + Z.max 0 n.
Proof.
  intro Hm. unfold shr. destruct n as [|p|p]; cbn [fst snd].
  - rewrite Z.div_1_r. lia.
  - rewrite iter_shr_1_m by lia.
    replace (Z.max 0 (Zpos p)) with (Zpos p) by lia. auto.
  - replace (Z.max 0 (Zneg p)) with 0 by lia. rewrite Z.div_1_r. lia.
Qed.

Lemma Zdigits2_log2_pos (z : Z) : 0 < z -> Zdigits2 z = Z.log2 z + 1.
Proof. destruct z; try lia. intros _. apply Zdigits2_log2. Qed.

Lemma round_nearest_even_cases (m : Z) (l : location) :
  round_nearest_even m l = m \/ round_nearest_even m l = m + 1.
Proof.
  destruct l as [|[| |]]; cbn; auto. destruct (Z.even m); auto.
Qed.

Lemma shr_record_of_loc_m (m : Z) (l : location) :
  shr_m (shr_record_of_loc m l) = m.
Proof. destruct l as [|[| |]]; reflexivity. Qed.

Section Round.
Variables prec emax : Z.
Hypothesis Hprec : 0 < prec.
Hypothesis Hemax : prec <= emax.

Lemma fexp_normal (k : Z) : 3 - emax <= k -> fexp prec emax k = k - prec.
Proof. unfold fexp, emin. lia. Qed.

(** rounding a positive number in the normal range gives a positive
    number of the same magnitude, or of the next one *)
Lemma binary_round_aux_mag (m : positive) (e : Z) (l : location) :
  3 - emax <= mag m e -> mag m e < prec -> e <= 0 ->
  pos_mag (mag m e) (mag m e + 1)
          (binary_round_aux prec emax false (Zpos m) e l).
Proof.
  unfold mag. intros Hlo Hhi He.
  unfold binary_round_aux, shr_fexp.
  rewrite Zdigits2_log2, fexp_normal by lia.
  set (L := Z.log2 (Zpos m)) in *.
  assert (HL : 0 <= L) by apply Z.log2_nonneg.
  destruct (shr_spec (shr_record_of_loc (Zpos m) l) e (L + 1 + e - prec - e))
    as [Hm1 He1]; [rewrite shr_record_of_loc_m; lia|].
  destruct (shr (shr_record_of_loc (Zpos m) l) e (L + 1 + e - prec - e))
    as [mrs' e'].
  cbn [fst snd] in Hm1, He1. rewrite shr_record_of_loc_m in Hm1.
  set (k := Z.max 0 (L + 1 + e - prec - e)) in *.
  assert (Hk : 0 <= k <= L) by lia.
  assert (Hpos' : 0 < shr_m mrs')
    by (rewrite Hm1; apply div_pow2_pos; [lia | exact Hk]).
  assert (HL' : Z.log2 (shr_m mrs') = L - k)
    by (rewrite Hm1; apply log2_div_pow2; [lia | exact Hk]).
  set (m1 := round_nearest_even (shr_m mrs') (loc_of_shr_record mrs')).
  assert (Hm1pos : 0 < m1 /\ L - k <= Z.log2 m1 <= L - k + 1).
  { pose proof (log2_succ_cases (shr_m mrs') Hpos').
    destruct (round_nearest_even_cases (shr_m mrs') (loc_of_shr_record mrs'))
      as [Hc | Hc]; unfold m1; rewrite Hc; lia. }
  destruct Hm1pos as [Hm1pos HL1].
  rewrite Zdigits2_log2_pos, fexp_normal by lia.
  set (L1 := Z.log2 m1) in *.
  destruct (shr_spec (shr_record_of_loc m1 loc_Exact) e'
                     (L1 + 1 + e' - prec - e'))
    as [Hm2 He2]; [cbn [shr_m shr_record_of_loc]; lia|].
  destruct (shr (shr_record_of_loc m1 loc_Exact) e' (L1 + 1 + e' - prec - e'))
    as [mrs'' e''].
  cbn [fst snd shr_m shr_record_of_loc] in Hm2, He2.
  set (k1 := Z.max 0 (L1 + 1 + e' - prec - e')) in *.
  assert (Hk1 : 0 <= k1 <= L1) by lia.
  assert (Hpos'' : 0 < shr_m mrs'')
    by (rewrite Hm2; apply div_pow2_pos; [lia | exact Hk1]).
  assert (HL'' : Z.log2 (shr_m mrs'') = L1 - k1)
    by (rewrite Hm2; apply log2_div_pow2; [lia | exact Hk1]).
  destruct (shr_m mrs'') as [|m2|m2] eqn:Hm2'; try lia.
  assert (He'' : e'' <= 0) by lia.
  replace (e'' <=? emax - prec) with true by (symmetry; apply Z.leb_le; lia).
  exists m2, e''. split; [reflexivity|]. split; [|exact He''].
  unfold mag. rewrite HL''. lia.
Qed.

Lemma iter_xO (m d : positive) :
  Zpos (Pos.iter xO m d) = Zpos m * 2 ^ Zpos d.
Proof.
  induction d as [|d IH] using Pos.peano_ind.
  - cbn [Pos.iter]. lia.
  - rewrite Pos.iter_succ, Pos2Z.inj_xO, IH, Pos2Z.inj_succ.
    rewrite Z.pow_succ_r by lia. lia.
Qed.

Lemma shl_align_mag (m : positive) (e e' : Z) :
  mag (fst (shl_align m e e')) (snd (shl_align m e e')) = mag m e
  /\ snd (shl_align m e e') = Z.min e e'.
Proof.
  unfold shl_align. destruct (e' - e) as [|d|d] eqn:Hd; cbn [fst snd].
  - split; [reflexivity | lia].
  - split; [reflexivity | lia].
  - split; [|lia]. unfold mag. rewrite iter_xO.
    rewrite Z.log2_mul_pow2 by lia. lia.
Qed.

Lemma binary_round_mag (m : positive) (e : Z) :
  3 - emax <= mag m e -> mag m e < prec -> e <= 0 ->
  pos_mag (mag m e) (mag m e + 1) (binary_round prec emax false m e).
Proof.
  intros Hlo Hhi He. unfold binary_round.
  destruct (shl_align_mag m e (fexp prec emax (Zpos (digits2_pos m) + e)))
    as [Hmag Hez].
  destruct (shl_align m e (fexp prec emax (Zpos (digits2_pos m) + e)))
    as [mz ez].
  cbn [fst snd] in Hmag, Hez. rewrite <- Hmag.
  apply binary_round_aux_mag; lia.
Qed.

(** a wider enclosure *)
Lemma pos_mag_weaken (lo hi lo' hi' : Z) (x : spec_float) :
  pos_mag lo hi x -> lo' <= lo -> hi <= hi' -> pos_mag lo' hi' x.
Proof.
  intros (m & e & Hx & Hm & He) Hlo Hhi. exists m, e.
  split; [exact Hx|]. split; [lia | exact He].
Qed.

Lemma round_of_mag (lo hi : Z) (m : positive) (e : Z) (l : location) :
  lo <= mag m e <= hi -> 3 - emax <= lo -> hi < prec -> e <= 0 ->
  pos_mag lo (hi + 1) (binary_round_aux prec emax false (Zpos m) e l).
Proof.
  intros Hm Hlo Hhi He.
  apply (pos_mag_weaken (mag m e) (mag m e + 1)); [|lia|lia].
  apply binary_round_aux_mag; lia.
Qed.

Lemma SFmul_mag (a b c d : Z) (x y : spec_float) :
  pos_mag a b x -> pos_mag c d y ->
  3 - emax <= a + c - 1 -> b + d < prec ->
  pos_mag (a + c - 1) (b + d + 1) (SFmul prec emax x y).
Proof.
  intros (m1 & e1 & -> & Hm1 & He1) (m2 & e2 & -> & Hm2 & He2) Hlo Hhi.
  cbn [SFmul xorb]. apply round_of_mag; [|lia|lia|lia].
  unfold mag in *. rewrite Pos2Z.inj_mul.
  pose proof (Z.log2_mul_below (Zpos m1) (Zpos m2)).
  pose proof (Z.log2_mul_above (Zpos m1) (Zpos m2)).
  lia.
Qed.

Lemma log2_add_bounds (a b : Z) :
  0 < a -> 0 < b ->
  Z.max (Z.log2 a) (Z.log2 b) <= Z.log2 (a + b)
  <= Z.max (Z.log2 a) (Z.log2 b) + 1.
Proof.
  intros Ha Hb. split.
  - apply Z.max_lub; apply Z.log2_le_mono; lia.
  - destruct (Z.le_ge_cases a b) as [Hab | Hab].
    + replace (Z.max (Z.log2 a) (Z.log2 b)) with (Z.log2 b)
        by (pose proof (Z.log2_le_mono a b Hab); lia).
      apply Z.le_trans with (Z.log2 (2 * b));
        [apply Z.log2_le_mono; lia | rewrite Z.log2_double by lia; lia].
    + replace (Z.max (Z.log2 a) (Z.log2 b)) with (Z.log2 a)
        by (pose proof (Z.log2_le_mono b a Hab); lia).
      apply Z.le_trans with (Z.log2 (2 * a));
        [apply Z.log2_le_mono; lia | rewrite Z.log2_double by lia; lia].
Qed.

Lemma SFadd_mag (a b c d : Z) (x y : spec_float) :
  pos_mag a b x -> pos_mag c d y ->
  3 - emax <= Z.max a c -> Z.max b d + 1 < prec ->
  pos_mag (Z.max a c) (Z.max b d + 2) (SFadd prec emax x y).
Proof.
  intros (m1 & e1 & -> & Hm1 & He1) (m2 & e2 & -> & Hm2 & He2) Hlo Hhi.
  cbn [SFadd cond_Zopp].
  destruct (shl_align_mag m1 e1 (Z.min e1 e2)) as [Hg1 Hz1].
  destruct (shl_align_mag m2 e2 (Z.min e1 e2)) as [Hg2 Hz2].
  destruct (shl_align m1 e1 (Z.min e1 e2)) as [n1 z1].
  destruct (shl_align m2 e2 (Z.min e1 e2)) as [n2 z2].
  cbn [fst snd] in *. cbn [Z.add binary_normalize].
  assert (Hsum : Z.max (mag m1 e1) (mag m2 e2)
                 <= mag (n1 + n2) (Z.min e1 e2)
                 <= Z.max (mag m1 e1) (mag m2 e2) + 1).
  { rewrite <- Hg1, <- Hg2. unfold mag. rewrite Pos2Z.inj_add.
    pose proof (log2_add_bounds (Zpos n1) (Zpos n2)). lia. }
  apply (pos_mag_weaken (mag (n1 + n2) (Z.min e1 e2))
                        (mag (n1 + n2) (Z.min e1 e2) + 1)); [|lia|lia].
  apply binary_round_mag; lia.
Qed.

(** a difference of two positive numbers, the second one at least two
    magnitudes below the first *)
Lemma SFsub_mag (a b c d : Z) (x y : spec_float) :
  pos_mag a b x -> pos_mag c d y -> d + 2 <= a ->
  3 - emax <= a - 1 -> b < prec ->
  pos_mag (a - 1) (b + 1) (SFsub prec emax x y).
Proof.
  intros (m1 & e1 & -> & Hm1 & He1) (m2 & e2 & -> & Hm2 & He2) Hgap Hlo Hhi.
  cbn [SFsub cond_Zopp].
  destruct (shl_align_mag m1 e1 (Z.min e1 e2)) as [Hg1 Hz1].
  destruct (shl_align_mag m2 e2 (Z.min e1 e2)) as [Hg2 Hz2].
  destruct (shl_align m1 e1 (Z.min e1 e2)) as [n1 z1].
  destruct (shl_align m2 e2 (Z.min e1 e2)) as [n2 z2].
  cbn [fst snd] in *. unfold mag in *.
  set (L1 := Z.log2 (Zpos n1)) in *. set (L2 := Z.log2 (Zpos n2)) in *.
  assert (HL1 : 0 <= L1) by apply Z.log2_nonneg.
  assert (HL2 : 0 <= L2) by apply Z.log2_nonneg.
  assert (H1 : 2 ^ L1 <= Zpos n1) by (apply Z.log2_spec; lia).
  assert (H2 : Zpos n2 < 2 ^ (L2 + 1))
    by (apply (Z.log2_spec (Zpos n2)); lia).
  assert (H3 : 2 ^ (L2 + 1) <= 2 ^ (L1 - 1))
    by (apply Z.pow_le_mono_r; lia).
  assert (H4 : 2 ^ L1 = 2 * 2 ^ (L1 - 1)).
  { replace L1 with (Z.succ (L1 - 1)) at 1 by lia.
    apply Z.pow_succ_r. lia. }
  assert (Hlow : 2 ^ (L1 - 1) <= Zpos n1 - Zpos n2) by lia.
  assert (Hp : 0 < 2 ^ (L1 - 1)) by (apply Z.pow_pos_nonneg; lia).
  destruct (Zpos n1 - Zpos n2) as [|p|p] eqn:Hdiff; try lia.
  cbn [binary_normalize].
  assert (Hlog : L1 - 1 <= Z.log2 (Zpos p) <= L1).
  { split.
    - rewrite <- (Z.log2_pow2 (L1 - 1)) by lia.
      apply Z.log2_le_mono. lia.
    - apply Z.log2_le_mono. lia. }
  clear H1 H2 H3 H4 Hlow Hp Hdiff. clearbody L1 L2.
  apply (pos_mag_weaken (mag p (Z.min e1 e2)) (mag p (Z.min e1 e2) + 1));
    unfold mag; [|lia|lia].
  apply binary_round_mag; unfold mag.
  - change (IntDef.Z.min e1 e2) with (Z.min e1 e2). lia.
  - change (IntDef.Z.min e1 e2) with (Z.min e1 e2). lia.
  - change (IntDef.Z.min e1 e2) with (Z.min e1 e2). lia.
Qed.

Lemma div_log2_bounds (a b q r : Z) :
  0 < b -> a = b * q + r -> 0 <= r < b -> Z.log2 b + 1 <= Z.log2 a ->
  0 < q /\ Z.log2 a - Z.log2 b - 1 <= Z.log2 q <= Z.log2 a - Z.log2 b.
Proof.
  intros Hb Ha Hr Hgap.
  assert (HLb : 0 <= Z.log2 b) by apply Z.log2_nonneg.
  assert (Hapos : 0 < a).
  { destruct (Z.lt_ge_cases 0 a) as [H | H]; [exact H|].
    rewrite (Z.log2_nonpos a H) in Hgap. lia. }
  destruct (Z.log2_spec a Hapos) as [Ha1 Ha2].
  destruct (Z.log2_spec b Hb) as [Hb1 Hb2].
  set (k := Z.log2 a - Z.log2 b - 1) in *.
  assert (Hk : 0 <= k) by lia.
  assert (Hsplit : 2 ^ Z.log2 a = 2 ^ k * 2 ^ Z.succ (Z.log2 b)).
  { rewrite <- Z.pow_add_r by lia. f_equal. lia. }
  assert (Hsplit2 : 2 ^ Z.succ (Z.log2 a)
                    = 2 ^ Z.log2 b * 2 ^ (k + 2)).
  { rewrite <- Z.pow_add_r by lia. f_equal. lia. }
  assert (HK : 0 < 2 ^ k) by (apply Z.pow_pos_nonneg; lia).
  assert (HB : 0 < 2 ^ Z.log2 b) by (apply Z.pow_pos_nonneg; lia).
  assert (Hq0 : 0 <= q) by nia.
  assert (Hlow : 2 ^ k <= q).
  { destruct (Z.lt_ge_cases q (2 ^ k)) as [H | H]; [exfalso; nia | exact H]. }
  assert (Hup : q < 2 ^ (k + 2)).
  { destruct (Z.lt_ge_cases q (2 ^ (k + 2))) as [H | H];
      [exact H | exfalso; nia]. }
  split; [lia|]. split.
  - apply Z.log2_le_pow2; lia.
  - assert (Z.log2 q < k + 2); [apply Z.log2_lt_pow2; lia | lia].
Qed.

Lemma SFdiv_mag (a b c d : Z) (x y : spec_float) :
  pos_mag a b x -> pos_mag c d y ->
  3 - emax <= a - d -> b - c + 1 < prec ->
  pos_mag (a - d) (b - c + 2) (SFdiv prec emax x y).
Proof.
  intros (m1 & e1 & -> & Hm1 & He1) (m2 & e2 & -> & Hm2 & He2) Hlo Hhi.
  cbn [SFdiv xorb]. unfold SFdiv_core_binary.
  rewrite !Zdigits2_log2. unfold mag in *.
  set (L1 := Z.log2 (Zpos m1)) in *. set (L2 := Z.log2 (Zpos m2)) in *.
  assert (HL1 : 0 <= L1) by apply Z.log2_nonneg.
  assert (HL2 : 0 <= L2) by apply Z.log2_nonneg.
  rewrite fexp_normal by lia.
  change (IntDef.Z.min (L1 + 1 + e1 - (L2 + 1 + e2) - prec) (e1 - e2))
    with (Z.min (L1 + 1 + e1 - (L2 + 1 + e2) - prec) (e1 - e2)).
  set (e' := Z.min (L1 + 1 + e1 - (L2 + 1 + e2) - prec) (e1 - e2)).
  set (s := e1 - e2 - e').
  assert (Hs : 0 <= s /\ prec - (L1 - L2) <= s) by lia.
  set (m' := match s with
             | 0 => Zpos m1
             | Zpos _ => Z.shiftl (Zpos m1) s
             | Zneg _ => 0
             end).
  assert (Hm' : m' = Zpos m1 * 2 ^ s).
  { unfold m'. destruct s as [|p|p] eqn:Hsp; try lia.
    apply Z.shiftl_mul_pow2. lia. }
  assert (HL' : Z.log2 m' = L1 + s).
  { rewrite Hm'. rewrite Z.log2_mul_pow2 by lia. unfold L1. lia. }
  pose proof (Z_div_mod m' (Zpos m2) ltac:(lia)) as Hdiv.
  destruct (Z.div_eucl m' (Zpos m2)) as [q r].
  destruct Hdiv as [Hq Hr].
  destruct (div_log2_bounds m' (Zpos m2) q r) as (Hqpos & Hqlog);
    [lia | exact Hq | exact Hr | fold L2; lia |].
  destruct q as [|p|p]; try lia.
  rewrite HL' in Hqlog. fold L2 in Hqlog.
  apply (pos_mag_weaken (mag p e') (mag p e' + 1)); unfold mag; [|lia|lia].
  apply binary_round_aux_mag; unfold mag; lia.
Qed.

End Round.

(** ** The conversions *)

Lemma to_int_mag (a b : Z) (x : spec_float) :
  pos_mag a b x -> 1 <= a -> b <= 31 ->
  2 ^ (a - 1) <= Fl.to_int x < 2 ^ b.
Proof.
  intros (m & e & -> & Hm & He) Ha Hb. unfold mag in Hm.
  unfold Fl.to_int.
  set (v := if 0 <=? e then Z.shiftl (Zpos m) e else Z.shiftr (Zpos m) (- e)).
  assert (Hv : v = Zpos m / 2 ^ (- e)).
  { unfold v. destruct (0 <=? e) eqn:H0.
    - apply Z.leb_le in H0. replace e with 0 by lia.
      rewrite Z.shiftl_0_r. cbn. rewrite Z.div_1_r. reflexivity.
    - apply Z.shiftr_div_pow2. lia. }
  assert (Hlog : Z.log2 v = Z.log2 (Zpos m) + e)
    by (rewrite Hv, log2_div_pow2 by lia; lia).
  assert (Hpos : 0 < v) by (rewrite Hv; apply div_pow2_pos; lia).
  destruct (Z.log2_spec v Hpos) as [H1 H2]. rewrite Hlog in H1, H2.
  assert (H3 : 2 ^ (a - 1) <= 2 ^ (Z.log2 (Zpos m) + e))
    by (apply Z.pow_le_mono_r; lia).
  assert (H4 : 2 ^ Z.succ (Z.log2 (Zpos m) + e) <= 2 ^ b)
    by (apply Z.pow_le_mono_r; lia).
  assert (H5 : 2 ^ b <= 2 ^ 31) by (apply Z.pow_le_mono_r; lia).
  assert (H6 : 0 < 2 ^ (a - 1)) by (apply Z.pow_pos_nonneg; lia).
  replace ((INT_MIN <=? v) && (v <? 2 ^ 31)) with true; [lia|].
  symmetry. apply andb_true_iff. split.
  - apply Z.leb_le. unfold INT_MIN. lia.
  - apply Z.ltb_lt. lia.
Qed.

Lemma f_of_d_mag (a b : Z) (x : spec_float) :
  pos_mag a b x -> -125 <= a -> b < 24 -> pos_mag a (b + 1) (Fl.f_of_d x).
Proof.
  intros (m & e & -> & Hm & He) Ha Hb. unfold Fl.f_of_d.
  apply (pos_mag_weaken (mag m e) (mag m e + 1)); [|lia|lia].
  apply binary_round_mag; lia.
Qed.

Lemma d_of_f_mag (a b : Z) (x : spec_float) :
  pos_mag a b x -> -1021 <= a -> b < 53 -> pos_mag a (b + 1) (Fl.d_of_f x).
Proof.
  intros (m & e & -> & Hm & He) Ha Hb. unfold Fl.d_of_f.
  apply (pos_mag_weaken (mag m e) (mag m e + 1)); [|lia|lia].
  apply binary_round_mag; lia.
Qed.

Lemma of_int_mag (prec emax n lo hi : Z) :
  0 < prec -> prec <= emax -> 0 <= lo -> hi + 1 < prec -> 4 <= emax ->
  2 ^ lo <= n < 2 ^ (hi + 1) ->
  pos_mag (lo + 1) (hi + 2) (binary_normalize prec emax n 0 false).
Proof.
  intros Hprec Hemax Hlo Hhi He Hn.
  assert (H0 : 0 < 2 ^ lo) by (apply Z.pow_pos_nonneg; lia).
  destruct n as [|p|p]; try lia. cbn [binary_normalize].
  assert (Hlog : lo <= Z.log2 (Zpos p) <= hi).
  { split; [apply Z.log2_le_pow2; lia|].
    assert (Z.log2 (Zpos p) < hi + 1); [apply Z.log2_lt_pow2; lia | lia]. }
  apply (pos_mag_weaken (mag p 0) (mag p 0 + 1)); unfold mag; [|lia|lia].
  apply binary_round_mag; unfold mag; lia.
Qed.

(** ** The launch velocity of a jump *)

Ltac concrete_mag :=
  eexists; eexists; split; [vm_compute; reflexivity|];
  split; [unfold mag; cbn; lia | lia].

Lemma two_tenths_mag : pos_mag (-2) (-2) (Fl.dlit 2 10).
Proof. concrete_mag. Qed.

Lemma eight_tenths_mag : pos_mag 0 0 (Fl.dlit 8 10).
Proof. concrete_mag. Qed.

Lemma max_jump_mag : pos_mag 0 0 (Fl.d_of_f MAX_JUMP).
Proof. concrete_mag. Qed.

Lemma gravity_mag : pos_mag (-3) (-3) GRAVITY.
Proof. concrete_mag. Qed.

Lemma two_pow_32_mag :
  pos_mag 33 33 (Fl.dadd (Fl.d_of_int (2^32 - 1)) (Fl.d_of_int 1)).
Proof. concrete_mag. Qed.

Lemma rand01_of_mag (x : Z) :
  0 < x < 2^32 -> pos_mag (-32) 3 (rand01_of x).
Proof.
  intro Hx. unfold rand01_of.
  apply (f_of_d_mag (-32) 2); [|lia|lia].
  apply (SFdiv_mag 53 1024 ltac:(lia) ltac:(lia) 1 33 33 33);
    [|exact two_pow_32_mag|lia|lia].
  apply (of_int_mag 53 1024 x 0 31); try lia.
Qed.

Lemma jump_vy_mag (b : Fl.float) :
  is_rand01 b -> pos_mag (-1) 7 (jump_vy b).
Proof.
  intros (x & Hx & ->).
  destruct (Z.eq_dec x 0) as [-> | Hnz]; [concrete_mag|].
  unfold jump_vy.
  apply (f_of_d_mag (-1) 6); [|lia|lia].
  apply (SFmul_mag 53 1024 ltac:(lia) ltac:(lia) 0 5 0 0);
    [|exact max_jump_mag|lia|lia].
  apply (SFadd_mag 53 1024 ltac:(lia) ltac:(lia) 0 0 (-35) 3);
    [exact eight_tenths_mag| |lia|lia].
  apply (SFmul_mag 53 1024 ltac:(lia) ltac:(lia) (-2) (-2) (-32) 4);
    [exact two_tenths_mag| |lia|lia].
  apply (d_of_f_mag (-32) 3); [|lia|lia].
  apply rand01_of_mag. lia.
Qed.

(** the launch velocity of every jump is fit for its arc *)
Lemma jump_vy_ok (b : Fl.float) : is_rand01 b -> vy_ok (jump_vy b).
Proof.
  intro Hb. pose proof (jump_vy_mag b Hb) as Hvy.
  set (vy := jump_vy b) in *. split.
  - unfold jump_top.
    assert (Hq : pos_mag 2 12 (Fl.fdiv vy GRAVITY)).
    { apply (SFdiv_mag 24 128 ltac:(lia) ltac:(lia) (-1) 7 (-3) (-3));
        [exact Hvy | exact gravity_mag | lia | lia]. }
    pose proof (to_int_mag 2 12 _ Hq ltac:(lia) ltac:(lia)) as Hi.
    change (2 ^ (2 - 1)) with 2 in Hi. change (2 ^ 12) with 4096 in Hi.
    change (2 ^ 20) with 1048576. lia.
  - intros k Hk.
    assert (Hs : pos_mag 2 10
                   (Fl.fadd (Fl.f_of_int k) (Fl.fsub vy GRAVITY))).
    { apply (SFadd_mag 24 128 ltac:(lia) ltac:(lia) 2 5 (-2) 8);
        [| |lia|lia].
      - apply (of_int_mag 24 128 k 1 3); lia.
      - apply (SFsub_mag 24 128 ltac:(lia) ltac:(lia) (-1) 7 (-3) (-3));
          [exact Hvy | exact gravity_mag | lia | lia | lia]. }
    pose proof (to_int_mag 2 10 _ Hs ltac:(lia) ltac:(lia)) as Hi.
    change (2 ^ (2 - 1)) with 2 in Hi. lia.
Qed.

(** no jump can leave the grid or divide by zero: the generator needs
    no error to be allowed *)
Lemma arc_safe_total : arc_safe no_error.
Proof. right. exact jump_vy_ok. Qed.

(** ** Generation always returns a level *)



(** ** What a computation keeps *)

Section Keeps.
Context (P : Sim -> Prop).

Lemma keeps_ret {A} (a : A) : keeps P (ret a).
Proof. intros s H. exact H. Qed.

Lemma keeps_bind {A B} (c : M Sim A) (k : A -> M Sim B) :
  keeps P c -> (forall a, keeps P (k a)) -> keeps P (bind c k).
Proof.
  intros Hc Hk s H. apply sat_bind.
  eapply sat_weaken; [apply Hc; exact H|].
  intros a s' H'. apply Hk. exact H'.
Qed.

Lemma keeps_get : keeps P get.
Proof. intros s H. exact H. Qed.

Lemma keeps_fail {A} (e : error) : keeps P (@fail Sim A e).
Proof. intros s H. exact I. Qed.

Lemma keeps_when (b : bool) (c : M Sim unit) :
  keeps P c -> keeps P (when b c).
Proof. intros Hc. destruct b; [exact Hc | apply keeps_ret]. Qed.

Lemma keeps_sim_get (x y : Z) : keeps P (sim_get x y).
Proof.
  intros s H. unfold sat, sim_get.
  destruct (Maze.get_elem (sim_maze s) x y); [exact H | exact I].
Qed.

Lemma keeps_vertical_space (x y : Fl.float) (b : bool) :
  keeps P (vertical_space x y b).
Proof.
  intros s H. unfold sat, vertical_space.
  destruct (Maze.has_vertical_space (sim_maze s) x y b); [exact H | exact I].
Qed.

Lemma keeps_the_agent : keeps P the_agent.
Proof. intros s H. exact H. Qed.

Lemma keeps_the_maze : keeps P the_maze.
Proof. intros s H. exact H. Qed.

Lemma keeps_modify (f : Sim -> Sim) :
  (forall s, P s -> P (f s)) -> keeps P (modify f).
Proof. intros Hf s H. apply Hf. exact H. Qed.

End Keeps.

(** ** Pickups in a level with a gem *)

Lemma set_elem_count (f : Z -> bool) (m : Maze.t) (x y v c : Z) (m' : Maze.t) :
  Maze.get_elem m x y = Some c -> Maze.set_elem m x y v = Some m' ->
  count_tiles f m' = count_tiles f m - b2z (f c) + b2z (f v)
  /\ Maze.coins m' = Maze.coins m.
Proof.
  unfold Maze.get_elem, Maze.set_elem, count_tiles.
  destruct (0 <=? Maze.offset m x y); [|discriminate].
  intros Hget Hset. cbn [andb] in Hset.
  destruct (Maze.offset m x y <? Z.of_nat (length (Maze.walls m)));
    [|discriminate].
  injection Hset as <-. cbn [Maze.walls Maze.with_walls Maze.coins].
  split; [|reflexivity]. apply count_insert. exact Hget.
Qed.

Lemma unfinished_on_agent (n : Z) (f : Agent.t -> Agent.t) :
  (forall a, Agent.finished_level_frame_cnt (f a)
             = Agent.finished_level_frame_cnt a) ->
  keeps (unfinished n) (on_agent f).
Proof.
  intros Hf s [Hd Hn]. split; [exact Hd|].
  cbn [sim_agent]. rewrite Hf. exact Hn.
Qed.

Lemma unfinished_terminated (n : Z) (b : bool) :
  keeps (unfinished n) (on_maze (fun m => Maze.with_is_terminated m b)).
Proof. intros s [Hd Hn]. split; [exact Hd | exact Hn]. Qed.

Lemma unfinished_add_reward (n : Z) (r : Fl.float) :
  keeps (unfinished n) (add_reward r).
Proof.
  unfold add_reward.
  apply keeps_bind; [|intros _]; apply unfinished_on_agent; reflexivity.
Qed.

Lemma unfinished_sub_reward (n : Z) (r : Fl.float) :
  keeps (unfinished n) (sub_reward r).
Proof.
  unfold sub_reward.
  apply keeps_bind; [|intros _]; apply unfinished_on_agent; reflexivity.
Qed.

Lemma gem_debt_coins (m : Maze.t) : gem_debt m -> 0 < Maze.coins m.
Proof. unfold gem_debt, count_tiles. lia. Qed.

(** [eat_coin] on a coin tile takes one from both the counter and the
    number of coin tiles; on a gem tile it changes neither *)
Lemma eat_coin_unfinished (n x y : Z) : keeps (unfinished n) (eat_coin x y).
Proof.
  intros s HP. unfold eat_coin. apply sat_bind.
  unfold sat at 1, sim_get.
  destruct (Maze.get_elem (sim_maze s) x y) as [obj|] eqn:Hget; [|exact I].
  set (Q := fun s' : Sim =>
              unfinished n s' /\ Maze.get_elem (sim_maze s') x y = Some obj).
  assert (HQ : Q s) by (split; assumption).
  apply sat_bind.
  apply (sat_weaken any_error _ _ (fun _ s' => Q s')).
  { destruct (is_lethal obj); [|exact HQ]. subst Q. cbn [when].
    unfold on_maze, on_agent.
    apply sat_bind, sat_modify. apply sat_bind, sat_modify. apply sat_modify.
    destruct HQ as [[Hd Hn] Hg].
    split; [split|]; [exact Hd | exact Hn | exact Hg]. }
  intros [] s1 HQ1. cbv beta.
  destruct (is_coin obj) eqn:Hcoin.
  - (* a coin *)
    assert (Hgem : is_gem obj = false).
    { unfold is_coin in Hcoin. apply Z.eqb_eq in Hcoin. subst obj.
      reflexivity. }
    rewrite Hgem. cbn [when].
    apply sat_bind.
    apply (sat_weaken any_error _ _ (fun _ s' => unfinished n s'));
      [|intros [] s2 H2; exact H2].
    subst Q. destruct HQ1 as [[Hd Hn] Hg].
    apply sat_bind. unfold sat at 1, sim_set.
    destruct (Maze.set_elem (sim_maze s1) x y SPACE) as [m'|] eqn:Hset;
      [|exact I].
    destruct (set_elem_count is_coin _ _ _ _ _ _ Hg Hset) as [Hc Hk].
    rewrite Hcoin in Hc. change (b2z (is_coin SPACE)) with 0 in Hc.
    change (b2z true) with 1 in Hc.
    apply sat_bind. unfold on_maze at 1. apply sat_modify. cbn [sim_agent sim_maze].
    set (m2 := Maze.with_coins m' (wrap32 (Maze.coins m' - 1))).
    assert (Hd2 : gem_debt m2).
    { unfold gem_debt in *. unfold m2.
      change (count_tiles is_coin (Maze.with_coins m' (wrap32 (Maze.coins m' - 1))))
        with (count_tiles is_coin m').
      cbn [Maze.coins Maze.with_coins].
      unfold count_tiles in *.
      rewrite wrap32_small by lia. lia. }
    assert (H2 : unfinished n {| sim_agent := sim_agent s1; sim_maze := m2 |})
      by (split; assumption).
    revert H2. generalize {| sim_agent := sim_agent s1; sim_maze := m2 |}.
    clear. intros s H.
    revert s H. change (keeps (unfinished n)
      (on_agent (fun a => Agent.with_collected_coin a true) ;;;
       s <- get ;;
       when (Agent.power_up_mode (sim_agent s))
         (on_agent (fun a => Agent.with_power_up_mode a false)) ;;;
       s <- get ;;
       if Maze.coins (sim_maze s) =? 0 then
         add_reward (Fl.f_of_int 10) ;;;
         on_maze (fun m => Maze.with_is_terminated m true) ;;;
         on_agent (fun a =>
           Agent.with_finished_level_frame_cnt a FINISHED_LEVEL_ANIM_LENGTH)
       else add_reward (Fl.f_of_int 1))).
    apply keeps_bind; [apply unfinished_on_agent; reflexivity | intros _].
    apply keeps_bind; [apply keeps_get | intros s0].
    apply keeps_bind;
      [apply keeps_when, unfinished_on_agent; reflexivity | intros _].
    intros s H. apply sat_bind, sat_get.
    pose proof (gem_debt_coins _ (proj1 H)) as Hpos.
    replace (Maze.coins (sim_maze s) =? 0) with false
      by (symmetry; apply Z.eqb_neq; lia).
    apply unfinished_add_reward. exact H.
  - (* not a coin *)
    cbn [when]. apply sat_bind, sat_ret.
    destruct (is_gem obj) eqn:Hgem; [|subst Q; exact (proj1 HQ1)].
    cbn [when]. subst Q. destruct HQ1 as [[Hd Hn] Hg].
    apply sat_bind. unfold sat at 1, sim_set.
    destruct (Maze.set_elem (sim_maze s1) x y SPACE) as [m'|] eqn:Hset;
      [|exact I].
    destruct (set_elem_count is_coin _ _ _ _ _ _ Hg Hset) as [Hc Hk].
    rewrite Hcoin in Hc. change (b2z (is_coin SPACE)) with 0 in Hc.
    change (b2z false) with 0 in Hc.
    assert (H2 : unfinished n {| sim_agent := sim_agent s1; sim_maze := m' |}).
    { split; [|exact Hn]. unfold gem_debt in *. cbn [sim_maze]. lia. }
    revert H2. generalize {| sim_agent := sim_agent s1; sim_maze := m' |}.
    clear. intros s H. revert s H.
    change (keeps (unfinished n)
      (add_reward (Fl.f_of_int 1) ;;;
       on_agent (fun a => Agent.with_power_up_mode a true) ;;;
       on_agent (fun a => Agent.with_collected_gem a true))).
    apply keeps_bind; [apply unfinished_add_reward | intros _].
    apply keeps_bind; [|intros _]; apply unfinished_on_agent; reflexivity.
Qed.

(** ** What a whole tick keeps

    A property of the simulation that no assignment to a member of the
    agent other than the level-finished countdown, the game-over flag
    and the age can break, that setting the terminated flag or the age
    does not break, and that [eat_coin] keeps, is kept by every tick. *)

Section Tick.
Context (P : Sim -> Prop).
Hypothesis P_agent :
  forall s a',
    Agent.finished_level_frame_cnt a'
    = Agent.finished_level_frame_cnt (sim_agent s)
    /\ Agent.game_over a' = Agent.game_over (sim_agent s)
    /\ Agent.time_alive a' = Agent.time_alive (sim_agent s) ->
    P s -> P {| sim_agent := a'; sim_maze := sim_maze s |}.
Hypothesis P_terminated :
  forall s,
    P s -> P {| sim_agent := sim_agent s;
                sim_maze := Maze.with_is_terminated (sim_maze s) true |}.
Hypothesis P_eat : forall x y, keeps P (eat_coin x y).
Hypothesis P_time :
  forall s n,
    P s -> P {| sim_agent := Agent.with_time_alive (sim_agent s) n;
                sim_maze := sim_maze s |}.

Lemma keeps_on_agent (f : Agent.t -> Agent.t) :
  (forall a, Agent.finished_level_frame_cnt (f a)
             = Agent.finished_level_frame_cnt a
             /\ Agent.game_over (f a) = Agent.game_over a
             /\ Agent.time_alive (f a) = Agent.time_alive a) ->
  keeps P (on_agent f).
Proof. intros Hf s H. apply (P_agent s (f (sim_agent s)) (Hf _) H). Qed.

Lemma keeps_terminated :
  keeps P (on_maze (fun m => Maze.with_is_terminated m true)).
Proof. intros s H. apply (P_terminated s H). Qed.

Lemma keeps_add_reward (r : Fl.float) : keeps P (add_reward r).
Proof.
  unfold add_reward.
  apply keeps_bind; [|intros _]; apply keeps_on_agent; intros ?;
    repeat split.
Qed.

Lemma keeps_sub_reward (r : Fl.float) : keeps P (sub_reward r).
Proof.
  unfold sub_reward.
  apply keeps_bind; [|intros _]; apply keeps_on_agent; intros ?;
    repeat split.
Qed.

Ltac keep1 :=
  lazymatch goal with
  | |- keeps _ (ret _) => apply keeps_ret
  | |- keeps _ (bind _ _) => apply keeps_bind; [|intro; cbv beta]
  | |- keeps _ get => apply keeps_get
  | |- keeps _ the_agent => apply keeps_the_agent
  | |- keeps _ the_maze => apply keeps_the_maze
  | |- keeps _ (sim_get _ _) => apply keeps_sim_get
  | |- keeps _ (vertical_space _ _ _) => apply keeps_vertical_space
  | |- keeps _ (fail _) => apply keeps_fail
  | |- keeps _ (eat_coin _ _) => apply P_eat
  | |- keeps _ (add_reward _) => apply keeps_add_reward
  | |- keeps _ (sub_reward _) => apply keeps_sub_reward
  | |- keeps _ (on_maze _) => apply keeps_terminated
  | |- keeps _ (on_agent _) =>
      apply keeps_on_agent; intros ?; repeat split
  | |- keeps _ (when _ _) => apply keeps_when
  | |- keeps _ (if ?b then _ else _) => destruct b
  | |- keeps _ (let _ := _ in _) => cbv zeta
  end.

Ltac keep := repeat keep1.

Lemma keeps_bump_loop (fuel : nat) : keeps P (bump_loop fuel).
Proof.
  induction fuel as [|fuel IH]; cbn [bump_loop]; keep. exact IH.
Qed.

Lemma keeps_sub_step_vertical (cfg : Config) (vy ny : Fl.float) :
  keeps P (sub_step_vertical cfg vy ny).
Proof. unfold sub_step_vertical. keep. apply keeps_bump_loop. Qed.

Lemma keeps_sub_step_horizontal (vx nx : Fl.float) (iy inx : Z) :
  keeps P (sub_step_horizontal vx nx iy inx).
Proof. unfold sub_step_horizontal. keep. Qed.

Lemma keeps_sub_step (cfg : Config) (vx vy : Fl.float) :
  keeps P (sub_step cfg vx vy).
Proof.
  unfold sub_step. keep.
  - apply keeps_sub_step_vertical.
  - apply keeps_sub_step_horizontal.
Qed.

Lemma keeps_sub_steps (cfg : Config) (k : nat) (pct : Fl.float) :
  keeps P (sub_steps cfg k pct).
Proof.
  induction k as [|k IH]; cbn [sub_steps]; keep.
  - apply keeps_sub_step.
  - exact IH.
Qed.

Lemma keeps_step_coinrun (cfg : Config) : keeps P (step_coinrun cfg).
Proof. unfold step_coinrun. keep. apply keeps_sub_steps. Qed.

Lemma keeps_agent_step (cfg : Config) : keeps P (agent_step cfg).
Proof.
  unfold agent_step. apply keeps_bind; [|intros _; cbv beta].
  - unfold on_agent. apply keeps_modify. intros s H. apply P_time. exact H.
  - keep. apply keeps_step_coinrun.
Qed.

Lemma keeps_play (cfg : Config) (acts : list (Z * Z)) :
  keeps P (play cfg acts).
Proof.
  induction acts as [|act acts IH]; cbn [play]; [apply keeps_ret|].
  apply keeps_bind; [|intros _; exact IH].
  unfold tick_with. keep. apply keeps_agent_step.
Qed.

End Tick.

(** ** The two properties of a tick *)

Lemma unfinished_agent (n : Z) (s : Sim) (a' : Agent.t) :
  Agent.finished_level_frame_cnt a'
  = Agent.finished_level_frame_cnt (sim_agent s) ->
  unfinished n s -> unfinished n {| sim_agent := a'; sim_maze := sim_maze s |}.
Proof. intros Ha [Hd Hn]. split; [exact Hd | cbn [sim_agent]; congruence]. Qed.

Lemma unfinished_flag (n : Z) (s : Sim) (b : bool) :
  unfinished n s ->
  unfinished n {| sim_agent := sim_agent s;
                  sim_maze := Maze.with_is_terminated (sim_maze s) b |}.
Proof. intros [Hd Hn]. split; [exact Hd | exact Hn]. Qed.

Lemma kept_walls (m0 : Maze.t) (s s' : Sim) :
  kept m0 s ->
  Maze.w (sim_maze s') = Maze.w (sim_maze s) ->
  Maze.h (sim_maze s') = Maze.h (sim_maze s) ->
  Maze.walls (sim_maze s') = Maze.walls (sim_maze s) ->
  kept m0 s'.
Proof.
  intros (H1 & H2 & H3 & H4) Hw Hh Hwalls. unfold kept.
  rewrite Hw, Hh, Hwalls. auto.
Qed.

(** taking a coin or a gem off the grid *)
Lemma kept_pickup (m0 : Maze.t) (s : Sim) (x y obj : Z) (m' : Maze.t)
      (a' : Agent.t) :
  kept m0 s ->
  Maze.get_elem (sim_maze s) x y = Some obj ->
  is_coin obj = true \/ is_gem obj = true ->
  Maze.set_elem (sim_maze s) x y SPACE = Some m' ->
  kept m0 {| sim_agent := a'; sim_maze := m' |}.
Proof.
  intros (H1 & H2 & H3 & H4) Hget Hobj Hset.
  unfold Maze.get_elem in Hget. unfold Maze.set_elem in Hset.
  destruct (0 <=? Maze.offset (sim_maze s) x y); [|discriminate].
  cbn [andb] in Hset.
  destruct (Maze.offset (sim_maze s) x y
            <? Z.of_nat (length (Maze.walls (sim_maze s)))); [|discriminate].
  injection Hset as <-.
  unfold kept. cbn [sim_maze Maze.w Maze.h Maze.walls Maze.with_walls].
  rewrite length_insert. repeat split; try assumption.
  intros i c Hi Hc Hg.
  destruct (decide (i = Z.to_nat (Maze.offset (sim_maze s) x y))) as [-> | Hne].
  - specialize (H4 _ _ Hi Hc Hg). rewrite H4 in Hget. injection Hget as <-.
    destruct Hobj; congruence.
  - rewrite list_lookup_insert_ne by congruence. apply (H4 _ _ Hi Hc Hg).
Qed.

Lemma eat_coin_kept (m0 : Maze.t) (x y : Z) : keeps (kept m0) (eat_coin x y).
Proof.
  intros s HP. unfold eat_coin. apply sat_bind.
  unfold sat at 1, sim_get.
  destruct (Maze.get_elem (sim_maze s) x y) as [obj|] eqn:Hget; [|exact I].
  set (Q := fun s' : Sim =>
              kept m0 s' /\ Maze.get_elem (sim_maze s') x y = Some obj).
  assert (HQ : Q s) by (split; assumption).
  apply sat_bind.
  apply (sat_weaken any_error _ _ (fun _ s' => Q s')).
  { destruct (is_lethal obj); [|exact HQ]. subst Q. cbn [when].
    unfold on_maze, on_agent.
    apply sat_bind, sat_modify. apply sat_bind, sat_modify. apply sat_modify.
    destruct HQ as [Hk Hg]. split; [|exact Hg].
    apply (kept_walls m0 s); [exact Hk | reflexivity..]. }
  intros [] s1 [Hk1 Hg1]. cbv beta.
  assert (Hrest : forall (c : M Sim unit) (s2 : Sim),
            kept m0 s2 ->
            (forall s3, c s2 = Ok (tt, s3) ->
               Maze.w (sim_maze s3) = Maze.w (sim_maze s2)
               /\ Maze.h (sim_maze s3) = Maze.h (sim_maze s2)
               /\ Maze.walls (sim_maze s3) = Maze.walls (sim_maze s2)) ->
            sat any_error c s2 (fun _ s' => kept m0 s')).
  { intros c s2 Hk2 Hc. unfold sat.
    destruct (c s2) as [[[] s3]|e] eqn:Hrun; [|exact I].
    destruct (Hc s3 eq_refl) as (Hw & Hh & Hwalls).
    apply (kept_walls m0 s2); assumption. }
  apply sat_bind.
  apply (sat_weaken any_error _ _ (fun _ s' =>
           kept m0 s' /\ (is_coin obj = false ->
                          Maze.get_elem (sim_maze s') x y = Some obj))).
  { destruct (is_coin obj) eqn:Hcoin; cbn [when];
      [|split; [exact Hk1 | intros _; exact Hg1]].
    apply sat_bind. unfold sat at 1, sim_set.
    destruct (Maze.set_elem (sim_maze s1) x y SPACE) as [m'|] eqn:Hset;
      [|exact I].
    pose proof (kept_pickup m0 s1 x y obj m' (sim_agent s1) Hk1 Hg1
                  (or_introl Hcoin) Hset) as Hk2.
    eapply sat_weaken; [apply Hrest; [exact Hk2|]|].
    - intros s3 Hrun. revert Hrun.
      unfold bind, on_maze, on_agent, modify, get, when, add_reward, ret.
      cbn [sim_agent sim_maze].
      destruct (Agent.power_up_mode _);
        destruct (Maze.coins _ =? 0);
        intro Hrun; injection Hrun as <-; repeat split.
    - intros [] s3 Hk3. split; [exact Hk3 | discriminate]. }
  intros [] s2 [Hk2 Hg2]. cbv beta.
  destruct (is_gem obj) eqn:Hgem; cbn [when]; [|exact Hk2].
  assert (Hcoin : is_coin obj = false).
  { unfold is_gem in Hgem. apply Z.eqb_eq in Hgem. subst obj. reflexivity. }
  specialize (Hg2 Hcoin).
  apply sat_bind. unfold sat at 1, sim_set.
  destruct (Maze.set_elem (sim_maze s2) x y SPACE) as [m'|] eqn:Hset;
    [|exact I].
  pose proof (kept_pickup m0 s2 x y obj m' (sim_agent s2) Hk2 Hg2
                (or_intror Hgem) Hset) as Hk3.
  apply Hrest; [exact Hk3|].
  intros s3 Hrun. revert Hrun.
  unfold bind, on_agent, modify, add_reward. cbn [sim_agent sim_maze].
  intro Hrun; injection Hrun as <-; repeat split.
Qed.

(** X1: whatever the actions, the ticks of the agent only ever turn coin
    and gem tiles into empty space: the width, the height and the number
    of cells of the grid stay, and every cell that held another tile (a
    wall, a ladder, a crate, lava) holds it afterwards. *)
Theorem play_keeps_tiles (cfg : Config) (acts : list (Z * Z)) (s s' : Sim) :
  play cfg acts s = Ok (tt, s') -> kept (sim_maze s) s'.
Proof.
  intro Hrun.
  assert (H0 : kept (sim_maze s) s) by (repeat split; auto).
  apply (sat_elim any_error (play cfg acts) s
           (fun _ s' => kept (sim_maze s) s') tt s'); [|exact Hrun].
  apply (keeps_play (kept (sim_maze s)));
    [| |apply eat_coin_kept| |exact H0].
  - intros s0 a' _ Hk. apply (kept_walls _ s0); [exact Hk | reflexivity..].
  - intros s0 Hk. apply (kept_walls _ s0); [exact Hk | reflexivity..].
  - intros s0 n Hk. apply (kept_walls _ s0); [exact Hk | reflexivity..].
Qed.

Lemma play_keeps_tiles_witness :
  exists s', play default_config walk_right walker = Ok (tt, s')
             /\ kept (sim_maze walker) s'.
Proof.
  eexists. split; [vm_compute; reflexivity|].
  apply (play_keeps_tiles default_config walk_right walker).
  vm_compute. reflexivity.
Defined.

(** X2: in a level whose coin counter is above the number of its coin
    tiles (as it is when a gem was placed, which [place_coins] counts and
    [eat_coin] does not take off), no sequence of ticks of the agent brings
    the counter to zero or starts the countdown of the finished level. *)
Theorem play_never_completes (cfg : Config) (acts : list (Z * Z))
        (s s' : Sim) :
  gem_debt (sim_maze s) ->
  play cfg acts s = Ok (tt, s') ->
  Maze.coins (sim_maze s') <> 0
  /\ Agent.finished_level_frame_cnt (sim_agent s')
     = Agent.finished_level_frame_cnt (sim_agent s).
Proof.
  intros Hd Hrun.
  set (n := Agent.finished_level_frame_cnt (sim_agent s)).
  assert (H0 : unfinished n s) by (split; [exact Hd | reflexivity]).
  assert (H1 : unfinished n s').
  { apply (sat_elim any_error (play cfg acts) s
             (fun _ s' => unfinished n s') tt s'); [|exact Hrun].
    apply (keeps_play (unfinished n));
      [intros s0 a' [Hc _]; apply unfinished_agent; exact Hc
      | intros s0; apply unfinished_flag
      | apply eat_coin_unfinished
      | intros s0 k; apply unfinished_agent; reflexivity
      | exact H0]. }
  destruct H1 as [Hd' Hn']. split; [|exact Hn'].
  pose proof (gem_debt_coins _ Hd'). lia.
Qed.

Lemma play_never_completes_witness :
  gem_debt (sim_maze walker)
  /\ exists s', play default_config walk_right walker = Ok (tt, s')
                /\ Maze.coins (sim_maze s') <> 0
                /\ Agent.finished_level_frame_cnt (sim_agent s')
                   = Agent.finished_level_frame_cnt (sim_agent walker).
Proof.
  assert (Hd : gem_debt (sim_maze walker))
    by (unfold gem_debt; vm_compute; split; reflexivity).
  split; [exact Hd|].
  eexists. split; [vm_compute; reflexivity|].
  apply (play_never_completes default_config walk_right walker); [exact Hd|].
  vm_compute. reflexivity.
Defined.

(** ** Every generated level *)

Lemma generate_placed (cfg : Config) (u : Maze.uninit) (seed : Z) :
  exists pw g, generate cfg u seed = Ok (pw, g) /\ placed g.
Proof.
  rewrite generate_eq.
  destruct (proj1 (sat_total _ _ _)
              (generate_level_ok no_error cfg u seed arc_safe_total))
    as (pw & g & Hgen & Hp & _).
  exists pw, g. split; [exact Hgen | exact Hp].
Qed.

Lemma count_tiles_le (f : Z -> bool) (m : Maze.t) :
  0 <= count_tiles f m <= Z.of_nat (length (Maze.walls m)).
Proof.
  unfold count_tiles. pose proof (List.filter_length_le f (Maze.walls m)). lia.
Qed.

(** X3: for every seed, whatever the fresh memory held, generation
    returns a grid of 64 x 13 cells whose outer border (column 0, column
    63, row 0, row 12) holds wall tiles only. *)
Theorem generated_border (cfg : Config) (u : Maze.uninit) (seed : Z) :
  exists pw g,
    generate cfg u seed = Ok (pw, g)
    /\ Maze.w (maze g) = 64 /\ Maze.h (maze g) = 13
    /\ length (Maze.walls (maze g)) = 832%nat
    /\ forall x y c,
         0 <= x <= 63 -> 0 <= y <= 12 ->
         x = 0 \/ x = 63 \/ y = 0 \/ y = 12 ->
         Maze.get_elem (maze g) x y = Some c -> is_wall c false = true.
Proof.
  destruct (generate_placed cfg u seed) as (pw & g & Hgen & Hinv & _).
  exists pw, g. split; [exact Hgen|].
  destruct (inv_dims _ _ Hinv) as (Hw & Hh & Hl).
  repeat split; try assumption.
  exact (inv_border _ _ Hinv).
Qed.

(** X4: for every seed the coin counter of the generated level is the
    number of its coin tiles plus the number of its gem tiles; so in a
    level with a gem the counter is above the number of coin tiles. *)
Theorem generated_coin_count (cfg : Config) (u : Maze.uninit) (seed : Z) :
  exists pw g,
    generate cfg u seed = Ok (pw, g)
    /\ Maze.coins (maze g)
       = count_tiles is_coin (maze g) + count_tiles is_gem (maze g)
    /\ (0 < count_tiles is_gem (maze g) -> gem_debt (maze g)).
Proof.
  destruct (generate_placed cfg u seed) as (pw & g & Hgen & Hinv & Ht).
  exists pw, g. split; [exact Hgen|].
  unfold coins_tally in Ht. split; [lia|].
  intro Hgem. unfold gem_debt.
  destruct (inv_dims _ _ Hinv) as (_ & _ & Hl).
  pose proof (count_tiles_le is_coin (maze g)).
  pose proof (count_tiles_le is_gem (maze g)).
  rewrite Hl in *. lia.
Qed.

(** ** No marker is left *)

Section Markers.
Context (E : error -> Prop).

Lemma sat_wr_placed_walls (x y v c0 : Z) (g : Gen) (Q : unit -> Gen -> Prop) :
  placed g -> 0 <= x <= 63 -> 0 <= y <= 12 ->
  Maze.get_elem (maze g) x y = Some c0 ->
  is_coin c0 = false -> is_gem c0 = false ->
  is_coin v = false -> is_gem v = false ->
  is_wall v false = true \/ is_wall c0 false = false ->
  (forall g', placed g' ->
              Maze.walls (maze g') = <[ cell x y := v ]> (Maze.walls (maze g)) ->
              Q tt g') ->
  sat E (wr x y v) g Q.
Proof.
  intros HJ Hx Hy Hget Hc1 Hc2 Hv1 Hv2 Hw HQ.
  pose proof (sat_wr_placed E x y v c0 g
                (fun _ g' => placed g') HJ Hx Hy Hget Hc1 Hc2 Hv1 Hv2 Hw
                (fun g' H => H)) as Hp.
  destruct HJ as [Hinv Ht].
  apply sat_wr_ok; [eauto with gen | lia |].
  apply HQ; [|reflexivity].
  unfold sat, wr in Hp.
  rewrite (set_elem_in (maze g) x y v) in Hp by (eauto with gen || lia).
  exact Hp.
Qed.

Lemma tidy_insert (k j : nat) (v : Z) (ws : list Z) :
  tidy k ws -> is_marker v = false \/ (k <= j)%nat ->
  tidy k (<[ j := v ]> ws).
Proof.
  intros Ht Hv i c Hi Hc.
  destruct (decide (i = j)) as [-> | Hne].
  - destruct Hv as [Hv | Hv]; [|lia].
    apply list_lookup_insert_Some in Hc.
    destruct Hc as [(_ & <- & _) | (Hne & _)]; [exact Hv | congruence].
  - rewrite list_lookup_insert_ne in Hc by congruence. apply (Ht i c Hi Hc).
Qed.

Lemma tidy_next (k : nat) (ws : list Z) (c : Z) :
  tidy k ws -> ws !! k = Some c -> is_marker c = false -> tidy (S k) ws.
Proof.
  intros Ht Hk Hc i c' Hi Hc'.
  destruct (decide (i = k)) as [-> | Hne]; [congruence|].
  apply (Ht i c'); [lia | exact Hc'].
Qed.

Lemma wall_not_marker (c : Z) : is_wall c false = true -> is_marker c = false.
Proof.
  intro H. unfold is_marker.
  destruct (c =? TRACE) eqn:H1;
    [apply Z.eqb_eq in H1; subst c; discriminate|].
  destruct (c =? FLYING_MONSTER) eqn:H2;
    [apply Z.eqb_eq in H2; subst c; discriminate|].
  destruct (c =? WALKING_MONSTER) eqn:H3;
    [apply Z.eqb_eq in H3; subst c; discriminate|].
  destruct (c =? GROUND_MONSTER) eqn:H4;
    [apply Z.eqb_eq in H4; subst c; discriminate|].
  reflexivity.
Qed.

Lemma remove_traces_cell_tidy (x y : Z) (g : Gen) :
  placed g -> 1 <= x <= 62 -> 1 <= y <= 12 ->
  tidy (cell x y) (Maze.walls (maze g)) ->
  sat E (remove_traces_cell x y) g
      (fun _ g' => placed g' /\ tidy (S (cell x y)) (Maze.walls (maze g'))).
Proof.
  intros HJ Hx Hy Ht. unfold remove_traces_cell. cbv zeta.
  set (k := cell x y) in *.
  set (B := fun g' : Gen =>
              placed g' /\ tidy k (Maze.walls (maze g'))
              /\ settled k (Maze.walls (maze g'))).
  assert (Hlook : forall g' c, placed g' ->
            Maze.get_elem (maze g') x y = Some c ->
            Maze.walls (maze g') !! k = Some c).
  { intros g' c [Hinv _] Hc.
    apply (get_elem_lookup (maze g') x y c (inv_dims _ _ Hinv) Hc). }
  apply sat_bind, sat_rd_placed; [exact HJ | lia | lia |].
  intros cl g1 HJ1 Hm1 _.
  apply sat_bind, sat_rd_placed; [exact HJ1 | lia | lia |].
  intros cr g2 HJ2 Hm2 _.
  apply sat_bind, sat_rd_placed; [exact HJ2 | lia | lia |].
  intros c1 g3 HJ3 Hm3 Hc1.
  assert (Ht3 : tidy k (Maze.walls (maze g3)))
    by (rewrite Hm3, Hm2, Hm1; exact Ht).
  (* a trace becomes a flying monster or empty space *)
  apply sat_bind. eapply (sat_weaken E _ _ (fun _ g' => B g')).
  { destruct (c1 =? TRACE) eqn:Htr.
    2:{ apply sat_ret. split; [exact HJ3|]. split; [exact Ht3|].
        exists c1. split; [|apply Z.eqb_neq; exact Htr].
        apply Hlook; [exact HJ3 | rewrite Hm3; exact Hc1]. }
    apply Z.eqb_eq in Htr. subst c1.
    apply sat_bind, sat_randn_placed; [exact HJ3 | lia |].
    intros v g4 HJ4 Hm4 Hv.
    apply sat_bind.
    eapply (sat_weaken E _ _ (fun _ g' => placed g' /\ maze g' = maze g4)).
    { destruct (v =? 0).
      - apply sat_bind, wall_below_placed; [exact HJ4 | lia | lia |].
        intros vb g5 HJ5 Hm5 _. apply sat_ret. split; assumption.
      - apply sat_ret. split; [exact HJ4 | reflexivity]. }
    intros fly g5 [HJ5 Hm5].
    assert (Hcell : Maze.get_elem (maze g5) x y = Some TRACE)
      by (rewrite Hm5, Hm4, Hm3; exact Hc1).
    assert (Ht5 : tidy k (Maze.walls (maze g5)))
      by (rewrite Hm5, Hm4; exact Ht3).
    assert (Hlen : (k < length (Maze.walls (maze g5)))%nat)
      by (apply lookup_lt_is_Some; eexists; apply (Hlook _ _ HJ5 Hcell)).
    destruct fly;
      (apply (sat_wr_placed_walls x y _ TRACE);
       [ exact HJ5 | lia | lia | exact Hcell | reflexivity | reflexivity
       | reflexivity | reflexivity | right; reflexivity |];
       intros g6 HJ6 Hw6; split; [exact HJ6|]; rewrite Hw6; fold k;
       split; [apply tidy_insert; [exact Ht5 | right; lia]|];
       eexists; split; [apply list_lookup_insert_eq; exact Hlen
                       | discriminate]). }
  intros [] g4 (HJ4 & Ht4 & Hs4). cbv beta.
  apply sat_bind, sat_rd_placed; [exact HJ4 | lia | lia |].
  intros c2 g5 HJ5 Hm5 Hc2.
  (* a cliff on top of a wall becomes a wall *)
  apply sat_bind. eapply (sat_weaken E _ _ (fun _ g' => B g')).
  { assert (HB5 : B g5) by (split; [exact HJ5 | rewrite Hm5; auto]).
    destruct ((c2 =? CLIFF_a) || (c2 =? CLIFF_b)) eqn:Hcliff;
      [|apply sat_ret; exact HB5].
    destruct (cliff_tile_plain c2 Hcliff) as [Hn1 Hn2].
    apply sat_bind, wall_below_placed; [exact HJ5 | lia | lia |].
    intros vb g6 HJ6 Hm6 _.
    assert (HB6 : B g6) by (split; [exact HJ6 | rewrite Hm6, Hm5; auto]).
    destruct (is_wall vb false); [|apply sat_ret; exact HB6].
    assert (Hcell : Maze.get_elem (maze g6) x y = Some c2)
      by (rewrite Hm6, Hm5; exact Hc2).
    assert (Hlen : (k < length (Maze.walls (maze g6)))%nat)
      by (apply lookup_lt_is_Some; eexists; apply (Hlook _ _ HJ6 Hcell)).
    apply (sat_wr_placed_walls x y _ c2);
      [ exact HJ6 | lia | lia | exact Hcell | exact Hn1 | exact Hn2
      | reflexivity | reflexivity | left; reflexivity |].
    intros g7 HJ7 Hw7. split; [exact HJ7|]. rewrite Hw7. fold k.
    split; [apply tidy_insert; [apply HB6 | left; reflexivity]|].
    eexists. split; [apply list_lookup_insert_eq; exact Hlen | discriminate]. }
  intros [] g6 (HJ6 & Ht6 & Hs6). cbv beta.
  apply sat_bind, sat_rd_placed; [exact HJ6 | lia | lia |].
  intros c3 g7 HJ7 Hm7 Hc3.
  (* a wall below a wall is not a surface *)
  apply sat_bind. eapply (sat_weaken E _ _ (fun _ g' => B g')).
  { assert (HB7 : B g7) by (split; [exact HJ7 | rewrite Hm7; auto]).
    destruct (is_wall c3 false); [|apply sat_ret; exact HB7].
    apply sat_bind, wall_below_placed; [exact HJ7 | lia | lia |].
    intros vb g8 HJ8 Hm8 Hvb.
    assert (HB8 : B g8) by (split; [exact HJ8 | rewrite Hm8, Hm7; auto]).
    destruct (is_wall vb false) eqn:Hwb; [|apply sat_ret; exact HB8].
    destruct (wall_tile_plain vb Hwb) as [Hn1 Hn2].
    apply (sat_wr_placed_walls x (y - 1) _ vb);
      [ exact HJ8 | lia | lia | rewrite Hm8; exact Hvb | exact Hn1
      | exact Hn2 | reflexivity | reflexivity | left; reflexivity |].
    intros g9 HJ9 Hw9. split; [exact HJ9|]. rewrite Hw9.
    split; [apply tidy_insert; [apply HB8 | left; reflexivity]|].
    destruct HB8 as (_ & _ & c & Hc & Hne).
    exists c. split; [|exact Hne].
    rewrite list_lookup_insert_ne; [exact Hc|]. unfold k, cell. lia. }
  intros [] g8 (HJ8 & Ht8 & Hs8). cbv beta.
  apply sat_bind, sat_rd_placed; [exact HJ8 | lia | lia |].
  intros c4 g9 HJ9 Hm9 Hc4.
  assert (Ht9 : tidy k (Maze.walls (maze g9))) by (rewrite Hm9; exact Ht8).
  assert (Hk9 : Maze.walls (maze g9) !! k = Some c4)
    by (apply Hlook; [exact HJ9 | rewrite Hm9; exact Hc4]).
  assert (Hne4 : c4 <> TRACE).
  { destruct Hs8 as (c & Hc & Hne). rewrite <- Hm9 in Hc. congruence. }
  (* the marker of a monster becomes a monster *)
  destruct ((c4 =? FLYING_MONSTER) || (c4 =? WALKING_MONSTER)
            || (c4 =? GROUND_MONSTER)) eqn:Hmon.
  2:{ apply sat_ret. split; [exact HJ9|].
      apply (tidy_next k _ c4 Ht9 Hk9). unfold is_marker.
      replace (c4 =? TRACE) with false
        by (symmetry; apply Z.eqb_neq; exact Hne4).
      exact Hmon. }
  destruct (monster_tile_plain c4 Hmon) as (Hn1 & Hn2 & Hn3).
  set (idxs := if c4 =? FLYING_MONSTER then flying_theme_idxs
               else if c4 =? WALKING_MONSTER then walking_theme_idxs
                    else ground_theme_idxs).
  assert (Hidxs : 0 < Z.of_nat (length idxs) < 2^31).
  { unfold idxs. destruct (c4 =? FLYING_MONSTER); [cbn; lia|].
    destruct (c4 =? WALKING_MONSTER); cbn; lia. }
  apply sat_bind, sat_randn_placed; [exact HJ9 | exact Hidxs |].
  intros chosen g10 HJ10 Hm10 Hch.
  replace (chosen <? 0) with false by (symmetry; apply Z.ltb_ge; lia).
  destruct (idxs !! Z.to_nat chosen) as [theme|] eqn:Hth.
  2:{ apply lookup_ge_None in Hth. lia. }
  assert (Hlen : (k < length (Maze.walls (maze g10)))%nat)
    by (rewrite Hm10; apply lookup_lt_is_Some; eexists; exact Hk9).
  apply sat_bind.
  apply (sat_wr_placed_walls x y _ c4);
    [ exact HJ10 | lia | lia | rewrite Hm10, Hm9; exact Hc4 | exact Hn1
    | exact Hn2 | reflexivity | reflexivity | right; exact Hn3 |].
  intros g11 HJ11 Hw11. cbv beta.
  assert (Ht11 : tidy (S k) (Maze.walls (maze g11))).
  { apply (tidy_next k _ SPACE); [| |reflexivity].
    - rewrite Hw11. fold k. apply tidy_insert; [|right; lia].
      rewrite Hm10. exact Ht9.
    - rewrite Hw11. fold k. apply list_lookup_insert_eq. exact Hlen. }
  apply sat_bind.
  eapply (sat_weaken E _ _ (fun _ g' =>
            placed g' /\ tidy (S k) (Maze.walls (maze g')))).
  { destruct (negb (c4 =? WALKING_MONSTER)); apply sat_ret; auto. }
  intros room g12 [HJ12 Ht12]. cbv beta.
  apply sat_bind.
  eapply (sat_weaken E _ _ (fun _ g' =>
            placed g' /\ tidy (S k) (Maze.walls (maze g')))).
  { destruct (negb room); [apply sat_ret; auto|].
    destruct (c4 =? FLYING_MONSTER); [apply sat_ret; auto|].
    apply wall_below_placed; [exact HJ12 | lia | lia |].
    intros vb g13 HJ13 Hm13 _. split; [exact HJ13 | rewrite Hm13; exact Ht12]. }
  intros keep g13 [HJ13 Ht13]. cbv beta.
  destruct keep; [|apply sat_ret; auto].
  unfold add_monster. apply sat_modify.
  split; [apply placed_monsters; exact HJ13 | exact Ht13].
Qed.

Lemma tidy_border_cell (g : Gen) (x y : Z) :
  placed g -> 0 <= x <= 63 -> 0 <= y <= 12 -> border_cell x y ->
  tidy (cell x y) (Maze.walls (maze g)) ->
  tidy (S (cell x y)) (Maze.walls (maze g)).
Proof.
  intros [Hinv _] Hx Hy Hb Ht.
  destruct (get_elem_in (maze g) x y (inv_dims _ _ Hinv)) as [c Hc]; [lia|].
  apply (tidy_next _ _ c Ht).
  - apply (get_elem_lookup _ _ _ _ (inv_dims _ _ Hinv) Hc).
  - apply wall_not_marker. apply (inv_border _ _ Hinv x y c Hx Hy Hb Hc).
Qed.

Lemma tidy_row0 (g : Gen) : placed g -> tidy 64 (Maze.walls (maze g)).
Proof.
  intros [Hinv Htal] i c Hi Hc.
  destruct (get_elem_in (maze g) (Z.of_nat i) 0 (inv_dims _ _ Hinv))
    as [c' Hc']; [lia|].
  pose proof (get_elem_lookup _ _ _ _ (inv_dims _ _ Hinv) Hc') as Hl.
  replace (Z.to_nat (64 * 0 + Z.of_nat i)) with i in Hl by lia.
  assert (c' = c) by congruence. subst c'.
  apply wall_not_marker.
  apply (inv_border _ _ Hinv (Z.of_nat i) 0 c); [lia | lia | | exact Hc'].
  right. right. left. reflexivity.
Qed.

Lemma remove_traces_add_monsters_tidy (g : Gen) :
  placed g ->
  sat E remove_traces_add_monsters g
      (fun _ g' => placed g' /\ tidy 832 (Maze.walls (maze g'))).
Proof.
  intros HJ. unfold remove_traces_add_monsters.
  apply sat_bind, sat_modify. apply sat_bind, sat_get. cbv zeta.
  cbn [maze with_maze Maze.w Maze.h Maze.with_monsters].
  destruct HJ as [Hinv Ht].
  destruct (inv_dims _ _ Hinv) as (Hw & Hh & _). rewrite Hw, Hh.
  assert (HJ : placed (with_maze g (Maze.with_monsters (maze g) [])))
    by (apply placed_monsters; split; assumption).
  eapply sat_weaken;
    [apply (sat_for_loop E
              (fun y g' => placed g'
                           /\ tidy (Z.to_nat (64 * y)) (Maze.walls (maze g'))));
     [split; [exact HJ | apply (tidy_row0 _ HJ)]|] |].
  - intros y g1 Hy [HJ1 Ht1].
    assert (Ht1' : tidy (cell 1 y) (Maze.walls (maze g1))).
    { replace (cell 1 y) with (S (cell 0 y)) by (unfold cell; lia).
      apply tidy_border_cell; [exact HJ1 | lia | lia | left; reflexivity|].
      replace (cell 0 y) with (Z.to_nat (64 * y)) by (unfold cell; lia).
      exact Ht1. }
    eapply sat_weaken;
      [apply (sat_for_loop E
                (fun x g' => placed g'
                             /\ tidy (cell x y) (Maze.walls (maze g'))));
       [split; [exact HJ1 | exact Ht1']|] |].
    + intros x g2 Hx [HJ2 Ht2].
      replace (cell (x + 1) y) with (S (cell x y)) by (unfold cell; lia).
      apply remove_traces_cell_tidy; [exact HJ2 | lia | lia | exact Ht2].
    + intros [] g2 [HJ2 Ht2]. split; [exact HJ2|].
      replace (Z.to_nat (64 * (y + 1))) with (S (cell 63 y))
        by (unfold cell; lia).
      apply tidy_border_cell;
        [exact HJ2 | lia | lia | right; left; reflexivity|].
      replace (cell 63 y) with (cell (1 + Z.of_nat (Z.to_nat (64 - 2))) y)
        by (unfold cell; lia).
      exact Ht2.
  - intros [] g1 [HJ1 Ht1]. split; [exact HJ1|].
    replace 832%nat with (Z.to_nat (64 * (1 + Z.of_nat (Z.to_nat (13 - 1)))))
      by lia.
    exact Ht1.
Qed.

Lemma generate_level_tidy (cfg : Config) (u : Maze.uninit) (seed : Z) :
  arc_safe E ->
  sat E (generate_level cfg) (fresh_generator u seed)
      (fun _ g' => placed g' /\ tidy 832 (Maze.walls (maze g'))).
Proof.
  intros Hsafe. unfold generate_level. apply sat_bind.
  unfold sat at 1. unfold fresh_generator.
  rewrite initial_floor_and_walls_fresh.
  pose proof (initial_gen_inv cfg u seed) as Hinv.
  set (g := initial_gen cfg u (RandGen_seed seed)) in *.
  assert (Hst : rec_stack g = []) by reflexivity. clearbody g.
  unfold generate_coins_on_platforms.
  apply sat_bind, sat_get. cbv zeta.
  destruct (inv_dims _ _ Hinv) as (Hw & _ & _). rewrite Hw.
  apply sat_bind, sat_randn_ok; [eauto with gen | lia |].
  intros s r' Hr' Hs.
  apply sat_bind, sat_modify. apply sat_bind. unfold for_upto.
  eapply sat_weaken; [apply push_anchors; [|lia|cbn; lia]|].
  { apply gen_inv_spawnpos, gen_inv_rand; assumption. }
  intros [] g1 [Hinv1 Hlen1]. cbv beta.
  cbn [rec_stack with_maze with_rand_gen] in Hlen1. rewrite Hst in Hlen1.
  cbn [length Nat.add] in Hlen1.
  apply sat_bind.
  eapply sat_weaken;
    [apply platforms_loop_spec; [exact Hsafe | exact Hinv1 | lia | lia | |]|].
  { change (Z.to_nat (11 * 10)) with 110%nat. lia. }
  { change (Z.to_nat (11 * 10)) with 110%nat. rewrite Hlen1. cbn. lia. }
  intros pw g2 (Hinv2 & H1 & H2 & H3 & H4 & H5 & H6). cbv beta.
  change (Z.to_nat (11 * 10)) with 110%nat in H3, H6.
  rewrite Hlen1 in H6.
  apply sat_bind.
  eapply sat_weaken; [apply place_coins_ok; [exact Hinv2 | cbn in H6; lia]|].
  intros [] g3 HJ3. cbv beta.
  apply sat_bind.
  eapply sat_weaken; [apply remove_traces_add_monsters_tidy; exact HJ3|].
  intros [] g4 HJ4. apply sat_ret. exact HJ4.
Qed.

End Markers.

(** X5: for every seed the generated grid holds no trace of a jump and
    no marker of a monster any more: [remove_traces_add_monsters] has
    turned every one of them into empty space (and the monster markers
    into monsters). *)
Theorem generated_no_marker (cfg : Config) (u : Maze.uninit) (seed : Z) :
  exists pw g,
    generate cfg u seed = Ok (pw, g)
    /\ forall x y c,
         Maze.get_elem (maze g) x y = Some c ->
         c <> TRACE /\ c <> FLYING_MONSTER /\ c <> WALKING_MONSTER
         /\ c <> GROUND_MONSTER.
Proof.
  rewrite generate_eq.
  destruct (proj1 (sat_total _ _ _)
              (generate_level_tidy no_error cfg u seed arc_safe_total))
    as (pw & g & Hgen & [Hinv _] & Ht).
  exists pw, g. split; [exact Hgen|].
  intros x y c Hc.
  pose proof (get_elem_lookup _ _ _ _ (inv_dims _ _ Hinv) Hc) as Hl.
  assert (Hlt : (Z.to_nat (64 * y + x) < 832)%nat).
  { destruct (inv_dims _ _ Hinv) as (_ & _ & Hlen). rewrite <- Hlen.
    apply lookup_lt_is_Some. eexists. exact Hl. }
  pose proof (Ht _ _ Hlt Hl) as Hm. unfold is_marker in Hm.
  apply orb_false_iff in Hm. destruct Hm as [Hm H4].
  apply orb_false_iff in Hm. destruct Hm as [Hm H3].
  apply orb_false_iff in Hm. destruct Hm as [H1 H2].
  apply Z.eqb_neq in H1, H2, H3, H4. auto.
Qed.

(** ** The random generator *)

Lemma wrap32_u32 (z : Z) : - 2^31 <= z < 2^31 -> wrap32 (u32 z) = z.
Proof.
  intro Hz. unfold wrap32, u32.
  rewrite Zplus_mod_idemp_l, Z.mod_small by lia. lia.
Qed.

Lemma randint_total (low high : Z) (r : RandGen) :
  is_seeded r = true ->
  - 2^31 <= low -> low < high -> high < 2^31 -> high - low < 2^31 ->
  exists v r', randint low high r = Ok (v, r')
               /\ low <= v < high /\ is_seeded r' = true.
Proof.
  intros Hs Hlow Hlt Hhigh Hdiff.
  destruct (draw_seeded r) as (x & r' & Hd & Hx & Hs').
  unfold randint, bind, get, assert. rewrite Hs. unfold ret.
  cbv beta iota. rewrite Hd. cbv beta iota.
  rewrite (u32_small (high - low)) by lia.
  replace (high - low =? 0) with false by (symmetry; apply Z.eqb_neq; lia).
  pose proof (Z.mod_pos_bound x (high - low) ltac:(lia)) as Hm.
  exists (wrap32 (u32 (low + x mod (high - low)))), r'.
  split; [reflexivity|]. rewrite wrap32_u32 by lia.
  split; [lia | congruence].
Qed.

(** X6: on a seeded generator [randint(low, high)] with [low < high]
    (both of them [int]s, as is their difference) returns a value [v]
    with [low <= v < high] and leaves the generator seeded. *)
Theorem randint_in_range (low high : Z) (r : RandGen) :
  is_seeded r = true ->
  - 2^31 <= low -> low < high -> high < 2^31 -> high - low < 2^31 ->
  exists v r', randint low high r = Ok (v, r')
               /\ low <= v < high /\ is_seeded r' = true.
Proof. apply randint_total. Qed.

Lemma randint_in_range_witness :
  exists v r', randint (-3) 4 (RandGen_seed 7) = Ok (v, r')
               /\ -3 <= v < 4 /\ is_seeded r' = true.
Proof.
  apply (randint_in_range (-3) 4 (RandGen_seed 7)); [reflexivity|lia..].
Defined.

(** X7: a generator that was never seeded refuses every draw (the
    assertion on [is_seeded] fails), and [randint(low, low)] on a seeded
    one divides by zero: the range of the remainder is empty. *)
Theorem randgen_errors (low high : Z) (e : MT.engine) :
  randint low high {| is_seeded := false; stdgen := e |}
  = Err AssertionFailed
  /\ rand01 {| is_seeded := false; stdgen := e |} = Err AssertionFailed
  /\ randint0 {| is_seeded := false; stdgen := e |} = Err AssertionFailed
  /\ randint low low {| is_seeded := true; stdgen := e |}
     = Err DivisionByZero.
Proof.
  do 3 (split; [reflexivity|]).
  destruct (draw_seeded {| is_seeded := true; stdgen := e |})
    as (x & r' & Hd & Hx & Hs').
  unfold randint, bind, get, assert. cbn [is_seeded]. unfold ret.
  cbv beta iota. rewrite Hd. cbv beta iota.
  rewrite Z.sub_diag. reflexivity.
Qed.

(** ** The grid *)

Lemma set_elem_frame (m : Maze.t) (x y v : Z) (m' : Maze.t) :
  Maze.set_elem m x y v = Some m' ->
  Maze.w m' = Maze.w m /\ Maze.h m' = Maze.h m
  /\ length (Maze.walls m') = length (Maze.walls m)
  /\ Maze.get_elem m' x y = Some v
  /\ forall x' y',
       Maze.offset m x' y' <> Maze.offset m x y ->
       Maze.get_elem m' x' y' = Maze.get_elem m x' y'.
Proof.
  unfold Maze.set_elem.
  destruct (0 <=? Maze.offset m x y) eqn:H0; [|discriminate].
  destruct (Maze.offset m x y <? Z.of_nat (length (Maze.walls m))) eqn:H1;
    [|discriminate].
  apply Z.leb_le in H0. apply Z.ltb_lt in H1.
  cbn [andb]. intro H. injection H as <-.
  cbn [Maze.w Maze.h Maze.walls Maze.with_walls].
  split; [reflexivity|]. split; [reflexivity|].
  split; [apply length_insert|].
  split; [apply get_elem_set_same; lia|].
  intros x' y' Hne. unfold Maze.get_elem.
  change (Maze.offset (Maze.with_walls m _) x' y') with (Maze.offset m x' y').
  cbn [Maze.walls Maze.with_walls].
  destruct (0 <=? Maze.offset m x' y') eqn:H2; [|reflexivity].
  apply Z.leb_le in H2. apply list_lookup_insert_ne. lia.
Qed.

(** X8: a write that succeeds is read back at the same offset and
    changes no other cell, nor the width, the height or the number of
    cells. *)
Theorem set_elem_get_elem (m : Maze.t) (x y v : Z) (m' : Maze.t) :
  Maze.set_elem m x y v = Some m' ->
  Maze.w m' = Maze.w m /\ Maze.h m' = Maze.h m
  /\ length (Maze.walls m') = length (Maze.walls m)
  /\ Maze.get_elem m' x y = Some v
  /\ forall x' y',
       Maze.offset m x' y' <> Maze.offset m x y ->
       Maze.get_elem m' x' y' = Maze.get_elem m x' y'.
Proof. apply set_elem_frame. Qed.

Lemma set_elem_get_elem_witness :
  exists m', Maze.set_elem gem_room 1 2 LADDER = Some m'
             /\ Maze.w m' = Maze.w gem_room /\ Maze.h m' = Maze.h gem_room
             /\ length (Maze.walls m') = length (Maze.walls gem_room)
             /\ Maze.get_elem m' 1 2 = Some LADDER
             /\ forall x' y',
                  Maze.offset gem_room x' y' <> Maze.offset gem_room 1 2 ->
                  Maze.get_elem m' x' y' = Maze.get_elem gem_room x' y'.
Proof.
  eexists. split; [vm_compute; reflexivity|].
  apply (set_elem_get_elem gem_room 1 2 LADDER). vm_compute. reflexivity.
Defined.

(** X9: [get_elem] and [set_elem] check the offset [w*y + x] against the
    array and nothing else: they fail exactly when it is outside, and
    coordinates beyond a row name a cell of a neighbouring row,
    [(x + w, y)] the cell [(x, y + 1)]. *)
Theorem grid_access_by_offset (m : Maze.t) (x y v : Z) :
  (Maze.get_elem m x y = None
   <-> ~ 0 <= Maze.w m * y + x < Z.of_nat (length (Maze.walls m)))
  /\ (Maze.set_elem m x y v = None
      <-> ~ 0 <= Maze.w m * y + x < Z.of_nat (length (Maze.walls m)))
  /\ Maze.get_elem m (x + Maze.w m) y = Maze.get_elem m x (y + 1)
  /\ Maze.set_elem m (x + Maze.w m) y v = Maze.set_elem m x (y + 1) v.
Proof.
  assert (Hoff : Maze.offset m (x + Maze.w m) y = Maze.offset m x (y + 1))
    by (unfold Maze.offset; lia).
  unfold Maze.get_elem, Maze.set_elem. rewrite Hoff.
  unfold Maze.offset.
  repeat split.
  - destruct (0 <=? Maze.w m * y + x) eqn:H0.
    + apply Z.leb_le in H0. intros Hn Hr.
      apply lookup_ge_None in Hn. lia.
    + apply Z.leb_gt in H0. intros _ Hr. lia.
  - intro Hr. destruct (0 <=? Maze.w m * y + x) eqn:H0; [|reflexivity].
    apply Z.leb_le in H0. apply lookup_ge_None. lia.
  - destruct (0 <=? Maze.w m * y + x) eqn:H0;
      destruct (Maze.w m * y + x <? Z.of_nat (length (Maze.walls m))) eqn:H1;
      cbn [andb]; try discriminate;
      try apply Z.leb_gt in H0; try apply Z.ltb_ge in H1; intros _ Hr; lia.
  - intro Hr.
    destruct (0 <=? Maze.w m * y + x) eqn:H0;
      destruct (Maze.w m * y + x <? Z.of_nat (length (Maze.walls m))) eqn:H1;
      cbn [andb]; try reflexivity.
    apply Z.leb_le in H0. apply Z.ltb_lt in H1. lia.
Qed.

(** *** [fill_elem] *)

Lemma offset_inj (W a b p q : Z) :
  0 <= a < W -> 0 <= b < W -> W * p + a = W * q + b -> p = q /\ a = b.
Proof.
  intros Ha Hb Heq.
  assert (p = q); [|subst; lia].
  destruct (Z.lt_trichotomy p q) as [H | [H | H]]; [|exact H|]; nia.
Qed.

Section Fill.
Context (g0 : Gen) (x y dx dy v : Z).
Hypothesis Hx : 0 <= x.
Hypothesis Hy : 0 <= y.
Hypothesis Hdx : x + dx <= Maze.w (maze g0).
Hypothesis Hdy :
  Maze.w (maze g0) * (y + dy) <= Z.of_nat (length (Maze.walls (maze g0))).

Lemma filled_ext (S S' : Z -> Z -> Prop) (g : Gen) :
  (forall x' y', S x' y' <-> S' x' y') -> filled g0 v S g -> filled g0 v S' g.
Proof.
  intros Heq (H1 & H2 & H3 & H4 & H5 & H6).
  unfold filled. do 5 (split; [assumption|]).
  intros x' y' Hx' Hy'. destruct (H6 x' y' Hx' Hy') as [Hin Hout]. split.
  - intro HS. apply Hin, Heq. exact HS.
  - intro HS. apply Hout. intro HS'. apply HS, Heq. exact HS'.
Qed.

Lemma filled_start : filled g0 v (fun _ _ => False) g0.
Proof.
  unfold filled. do 5 (split; [reflexivity|]).
  intros x' y' _ _. split; [intros [] | reflexivity].
Qed.

Lemma fill_one (S : Z -> Z -> Prop) (j k : Z) (g : Gen) :
  0 <= j < dx -> 0 <= k < dy -> filled g0 v S g ->
  sat no_error (wr (x + j) (y + k) v) g
      (fun _ g' => filled g0 v (fun x' y' => S x' y' \/ (x' = x + j /\ y' = y + k))
                          g').
Proof.
  intros Hj Hk (H1 & H2 & H3 & H4 & H5 & H6).
  assert (Hr : 0 <= Maze.offset (maze g) (x + j) (y + k)
               < Z.of_nat (length (Maze.walls (maze g)))).
  { unfold Maze.offset. rewrite H1, H3. nia. }
  unfold sat, wr. rewrite (set_elem_in_range _ _ _ _ Hr).
  pose proof (set_elem_frame (maze g) (x + j) (y + k) v _
                (set_elem_in_range _ _ _ _ Hr))
    as (F1 & F2 & F3 & F4 & F5).
  set (m' := Maze.with_walls (maze g) _) in *.
  unfold filled. cbn [maze with_maze note_access rec_stack rand_gen].
  split; [congruence|]. split; [congruence|]. split; [congruence|].
  split; [exact H4|]. split; [exact H5|].
  intros x' y' Hx' Hy'. destruct (H6 x' y' Hx' Hy') as [Hin Hout].
  destruct (Z.eq_dec (Maze.offset (maze g) x' y')
                     (Maze.offset (maze g) (x + j) (y + k))) as [Heq | Hne].
  - unfold Maze.offset in Heq. rewrite H1 in Heq.
    destruct (offset_inj _ x' (x + j) y' (y + k) Hx' ltac:(lia) Heq)
      as [-> ->].
    split; [intros _; exact F4|]. intro Hn. exfalso. apply Hn. right. auto.
  - rewrite (F5 x' y' Hne). split.
    + intros [HS | [-> ->]]; [apply Hin; exact HS | congruence].
    + intro Hn. apply Hout. intro HS. apply Hn. left. exact HS.
Qed.

Lemma fill_elem_filled :
  sat no_error (fill_elem x y dx dy v) g0
      (fun _ g' => filled g0 v (fun x' y' => x <= x' < x + dx /\ y <= y' < y + dy)
                          g').
Proof.
  unfold fill_elem, for_upto.
  destruct (Z.le_gt_cases dx 0) as [Hdx0 | Hdx0].
  { replace (Z.to_nat dx) with 0%nat by lia. apply sat_ret.
    eapply filled_ext; [|exact filled_start]. intros x' y'; cbv beta; lia. }
  destruct (Z.le_gt_cases dy 0) as [Hdy0 | Hdy0].
  { replace (Z.to_nat dy) with 0%nat by lia.
    eapply sat_weaken;
      [apply (sat_for_loop no_error
                (fun _ g' => filled g0 v (fun _ _ => False) g'))|].
    - exact filled_start.
    - intros j g1 _ H. apply sat_ret. exact H.
    - intros [] g1 H. apply (filled_ext (fun _ _ => False)); [|exact H].
      intros x' y'. lia. }
  eapply sat_weaken;
    [apply (sat_for_loop no_error
              (fun j g' =>
                 filled g0 v (fun x' y' => x <= x' < x + j /\ y <= y' < y + dy)
                        g'))|].
  - eapply filled_ext; [|exact filled_start]. intros x' y'; cbv beta; lia.
  - intros j g1 Hj H1.
    eapply sat_weaken;
      [apply (sat_for_loop no_error
                (fun k g' =>
                   filled g0 v (fun x' y' =>
                             (x <= x' < x + j /\ y <= y' < y + dy)
                             \/ (x' = x + j /\ y <= y' < y + k)) g'))|].
    + eapply filled_ext; [|exact H1]. intros x' y'; cbv beta; lia.
    + intros k g2 Hk H2.
      eapply sat_weaken; [apply fill_one; [lia | lia | exact H2]|].
      intros [] g3 H3. eapply filled_ext; [|exact H3]. intros x' y'; cbv beta; lia.
    + intros [] g2 H2. eapply filled_ext; [|exact H2]. intros x' y'; cbv beta; lia.
  - intros [] g1 H1. eapply filled_ext; [|exact H1]. intros x' y'; cbv beta; lia.
Qed.

End Fill.

(** X10: on a grid that contains the rectangle, [fill_elem] returns,
    writes the tile to the cells of the rectangle and leaves every other
    cell, the dimensions, the stack and the generator alone. *)
Theorem fill_elem_rectangle (g : Gen) (x y dx dy v : Z) :
  0 <= x -> 0 <= y -> x + dx <= Maze.w (maze g) ->
  Maze.w (maze g) * (y + dy) <= Z.of_nat (length (Maze.walls (maze g))) ->
  exists g',
    fill_elem x y dx dy v g = Ok (tt, g')
    /\ Maze.w (maze g') = Maze.w (maze g)
    /\ Maze.h (maze g') = Maze.h (maze g)
    /\ length (Maze.walls (maze g')) = length (Maze.walls (maze g))
    /\ rec_stack g' = rec_stack g /\ rand_gen g' = rand_gen g
    /\ forall x' y',
         0 <= x' < Maze.w (maze g) -> 0 <= y' ->
         Maze.get_elem (maze g') x' y'
         = if (x <=? x') && (x' <? x + dx) && (y <=? y') && (y' <? y + dy)
           then Some v else Maze.get_elem (maze g) x' y'.
Proof.
  intros Hx Hy Hdx Hdy.
  destruct (proj1 (sat_total _ _ _)
                  (fill_elem_filled g x y dx dy v Hx Hy Hdx Hdy))
    as ([] & g' & Heq & H1 & H2 & H3 & H4 & H5 & H6).
  exists g'. do 6 (split; [assumption|]).
  intros x' y' Hx' Hy'. destruct (H6 x' y' Hx' Hy') as [Hin Hout].
  destruct ((x <=? x') && (x' <? x + dx) && (y <=? y') && (y' <? y + dy))
    eqn:Hb.
  - apply Hin. lia.
  - apply Hout. lia.
Qed.

Lemma fill_elem_rectangle_witness :
  exists g',
    fill_elem 2 3 4 2 WALL_MIDDLE (fresh_generator zero_memory 0)
    = Ok (tt, g')
    /\ Maze.w (maze g') = 64 /\ Maze.h (maze g') = 13
    /\ Maze.get_elem (maze g') 5 4 = Some WALL_MIDDLE
    /\ Maze.get_elem (maze g') 6 4 = Some 0.
Proof.
  destruct (fill_elem_rectangle (fresh_generator zero_memory 0) 2 3 4 2
              WALL_MIDDLE)
    as (g' & Heq & Hw & Hh & _ & _ & _ & Hc);
    [lia | lia | simpl; lia | vm_compute; discriminate |].
  exists g'. split; [exact Heq|]. split; [exact Hw|]. split; [exact Hh|].
  split.
  - apply (Hc 5 4); simpl; lia.
  - apply (Hc 6 4); simpl; lia.
Defined.

(** *** [initial_floor_and_walls] *)

Lemma fill_grid (W H : Z) (t : Z -> Z -> Z) (g : Gen) (a b da db v : Z) :
  0 <= W -> grid_is W H t g ->
  0 <= a -> 0 <= b -> a + da <= W -> b + db <= H ->
  sat no_error (fill_elem a b da db v) g
      (fun _ g' =>
         grid_is W H
           (fun x y => if (a <=? x) && (x <? a + da)
                          && (b <=? y) && (y <? b + db)
                       then v else t x y) g'
         /\ rec_stack g' = rec_stack g /\ rand_gen g' = rand_gen g).
Proof.
  intros HW (Hw & Hh & Hlen & Hc) Ha Hb Hda Hdb.
  eapply sat_weaken.
  - apply (fill_elem_filled g a b da db v Ha Hb); [lia | nia].
  - intros [] g' (H1 & H2 & H3 & H4 & H5 & H6). cbv beta.
    split; [|split; assumption].
    unfold grid_is. split; [congruence|]. split; [congruence|].
    split; [rewrite H3; exact Hlen|].
    intros x y Hx Hy.
    destruct (H6 x y ltac:(lia) ltac:(lia)) as [Hin Hout].
    destruct ((a <=? x) && (x <? a + da) && (b <=? y) && (y <? b + db))
      eqn:Hr.
    + apply Hin. lia.
    + rewrite Hout by lia. apply Hc; assumption.
Qed.

Lemma grid_is_any (g : Gen) :
  0 <= Maze.w (maze g) ->
  Z.of_nat (length (Maze.walls (maze g))) = Maze.w (maze g) * Maze.h (maze g) ->
  grid_is (Maze.w (maze g)) (Maze.h (maze g))
          (fun x y => default 0 (Maze.get_elem (maze g) x y)) g.
Proof.
  intros HW Hlen. unfold grid_is. do 3 (split; [auto|]).
  intros x y Hx Hy.
  destruct (Maze.get_elem (maze g) x y) as [c|] eqn:Hg; [reflexivity|].
  exfalso. unfold Maze.get_elem in Hg.
  assert (Ho : 0 <= Maze.offset (maze g) x y
               < Z.of_nat (length (Maze.walls (maze g))))
    by (unfold Maze.offset; nia).
  destruct (0 <=? Maze.offset (maze g) x y) eqn:H0; [|lia].
  destruct (lookup_lt_is_Some_2 (Maze.walls (maze g))
              (Z.to_nat (Maze.offset (maze g) x y)) ltac:(lia)) as [c Hc].
  congruence.
Qed.

(** X11: on any grid with at least one row and one column,
    [initial_floor_and_walls] returns and leaves wall on the last row
    ([h - 1]) and on the first and the last column, floor on the rest of
    row 0 and space everywhere else, whatever the grid held before. *)
Theorem initial_floor_and_walls_grid (cfg : Config) (g : Gen) :
  1 <= Maze.w (maze g) -> 1 <= Maze.h (maze g) ->
  Z.of_nat (length (Maze.walls (maze g))) = Maze.w (maze g) * Maze.h (maze g) ->
  exists g',
    initial_floor_and_walls cfg g = Ok (tt, g')
    /\ Maze.w (maze g') = Maze.w (maze g)
    /\ Maze.h (maze g') = Maze.h (maze g)
    /\ rec_stack g' = rec_stack g /\ rand_gen g' = rand_gen g
    /\ Maze.air_control (maze g') = AIR_CONTROL cfg
    /\ forall x y,
         0 <= x < Maze.w (maze g) -> 0 <= y < Maze.h (maze g) ->
         Maze.get_elem (maze g') x y
         = Some (if (y =? Maze.h (maze g) - 1) || (x =? 0)
                    || (x =? Maze.w (maze g) - 1)
                 then WALL_MIDDLE
                 else if y =? 0 then WALL_SURFACE else SPACE).
Proof.
  intros HW HH Hlen.
  enough (Hs : sat no_error (initial_floor_and_walls cfg) g
                 (fun _ g' =>
                    Maze.w (maze g') = Maze.w (maze g)
                    /\ Maze.h (maze g') = Maze.h (maze g)
                    /\ rec_stack g' = rec_stack g
                    /\ rand_gen g' = rand_gen g
                                    /\ Maze.air_control (maze g') = AIR_CONTROL cfg
                    /\ forall x y,
                         0 <= x < Maze.w (maze g) ->
                         0 <= y < Maze.h (maze g) ->
                         Maze.get_elem (maze g') x y
                         = Some (if (y =? Maze.h (maze g) - 1) || (x =? 0)
                                    || (x =? Maze.w (maze g) - 1)
                                 then WALL_MIDDLE
                                 else if y =? 0 then WALL_SURFACE
                                      else SPACE))).
  { destruct (proj1 (sat_total _ _ _) Hs) as ([] & g' & Heq & Hq).
    exists g'. split; [exact Heq | exact Hq]. }
  unfold initial_floor_and_walls.
  apply sat_bind, sat_get. cbv zeta.
  set (W := Maze.w (maze g)) in *. set (H := Maze.h (maze g)) in *.
  pose proof (grid_is_any g ltac:(fold W; lia) Hlen) as G0. fold W H in G0.
  apply sat_bind.
  eapply sat_weaken;
    [apply (fill_grid W H _ g 0 0 W H SPACE ltac:(lia) G0); lia|].
  intros [] g1 (G1 & S1 & R1). cbv beta.
  apply sat_bind.
  eapply sat_weaken;
    [apply (fill_grid W H _ g1 0 0 W 1 WALL_SURFACE ltac:(lia) G1); lia|].
  intros [] g2 (G2 & S2 & R2). cbv beta.
  apply sat_bind.
  eapply sat_weaken;
    [apply (fill_grid W H _ g2 0 0 1 H WALL_MIDDLE ltac:(lia) G2); lia|].
  intros [] g3 (G3 & S3 & R3). cbv beta.
  apply sat_bind.
  eapply sat_weaken;
    [apply (fill_grid W H _ g3 (W - 1) 0 1 H WALL_MIDDLE ltac:(lia) G3); lia|].
  intros [] g4 (G4 & S4 & R4). cbv beta.
  apply sat_bind.
  eapply sat_weaken;
    [apply (fill_grid W H _ g4 0 (H - 1) W 1 WALL_MIDDLE ltac:(lia) G4); lia|].
  intros [] g5 ((Hw5 & Hh5 & Hl5 & Hc5) & S5 & R5). cbv beta.
  apply sat_modify. cbn [maze with_maze rec_stack rand_gen].
  split; [exact Hw5|]. split; [exact Hh5|].
  split; [congruence|]. split; [congruence|]. split; [reflexivity|].
  intros x y Hx Hy.
  change (Maze.get_elem (Maze.init_physics (AIR_CONTROL cfg) (maze g5)) x y)
    with (Maze.get_elem (maze g5) x y).
  rewrite (Hc5 x y Hx Hy). f_equal.
  destruct (Z.eq_dec x 0), (Z.eq_dec x (W - 1)), (Z.eq_dec y 0),
    (Z.eq_dec y (H - 1));
    repeat match goal with
           | |- context [?a <=? ?b] =>
               first [rewrite (proj2 (Z.leb_le a b)) by lia
                     | rewrite (proj2 (Z.leb_gt a b)) by lia]
           | |- context [?a <? ?b] =>
               first [rewrite (proj2 (Z.ltb_lt a b)) by lia
                     | rewrite (proj2 (Z.ltb_ge a b)) by lia]
           | |- context [?a =? ?b] =>
               first [rewrite (proj2 (Z.eqb_eq a b)) by lia
                     | rewrite (proj2 (Z.eqb_neq a b)) by lia]
           end; reflexivity.
Qed.

Lemma initial_floor_and_walls_grid_witness :
  exists g',
    initial_floor_and_walls default_config (fresh_generator zero_memory 0)
    = Ok (tt, g')
    /\ Maze.get_elem (maze g') 0 0 = Some WALL_MIDDLE
    /\ Maze.get_elem (maze g') 5 0 = Some WALL_SURFACE
    /\ Maze.get_elem (maze g') 5 5 = Some SPACE
    /\ Maze.get_elem (maze g') 5 12 = Some WALL_MIDDLE.
Proof.
  destruct (initial_floor_and_walls_grid default_config
              (fresh_generator zero_memory 0))
    as (g' & Heq & _ & _ & _ & _ & _ & Hc);
    [simpl; lia | simpl; lia | vm_compute; reflexivity |].
  exists g'. split; [exact Heq|].
  split; [apply (Hc 0 0); simpl; lia|].
  split; [apply (Hc 5 0); simpl; lia|].
  split; [apply (Hc 5 5); simpl; lia | apply (Hc 5 12); simpl; lia].
Defined.

(** ** What generation leaves alone *)

Section GKeeps.
Context (Q : Maze.t -> Prop).
Hypothesis Q_walls : forall m l, Q m -> Q (Maze.with_walls m l).
Hypothesis Q_coins : forall m c, Q m -> Q (Maze.with_coins m c).
Hypothesis Q_monsters : forall m ms, Q m -> Q (Maze.with_monsters m ms).

Lemma gkeeps_ret {A} (a : A) : gkeeps Q (ret a).
Proof. intros g H. exact H. Qed.

Lemma gkeeps_bind {A B} (c : M Gen A) (k : A -> M Gen B) :
  gkeeps Q c -> (forall a, gkeeps Q (k a)) -> gkeeps Q (bind c k).
Proof.
  intros Hc Hk g H. apply sat_bind.
  eapply sat_weaken; [apply Hc; exact H|].
  intros a g' H'. apply Hk. exact H'.
Qed.

Lemma gkeeps_get : gkeeps Q get.
Proof. intros g H. exact H. Qed.

Lemma gkeeps_fail {A} (e : error) : gkeeps Q (@fail Gen A e).
Proof. intros g H. exact I. Qed.

Lemma gkeeps_assert (b : bool) : gkeeps Q (assert b).
Proof. intros g H. destruct b; [exact H | exact I]. Qed.

Lemma gkeeps_rd (x y : Z) : gkeeps Q (rd x y).
Proof.
  intros g H. unfold sat, rd.
  destruct (Maze.get_elem (maze g) x y); [exact H | exact I].
Qed.

Lemma gkeeps_wr (x y v : Z) : gkeeps Q (wr x y v).
Proof.
  intros g H. unfold sat, wr, Maze.set_elem.
  destruct ((0 <=? Maze.offset (maze g) x y)
            && (Maze.offset (maze g) x y
                <? Z.of_nat (length (Maze.walls (maze g)))));
    [|exact I].
  cbn [maze with_maze]. apply Q_walls. exact H.
Qed.

Lemma gkeeps_on_rand {A} (c : M RandGen A) : gkeeps Q (on_rand c).
Proof.
  intros g H. unfold sat, on_rand.
  destruct (c (rand_gen g)) as [[a r]|e]; [exact H | exact I].
Qed.

Lemma gkeeps_push_rec (r : Rec) : gkeeps Q (push_rec r).
Proof. intros g H. exact H. Qed.

Lemma gkeeps_erase_at (n : Z) : gkeeps Q (erase_at n).
Proof. intros g H. exact H. Qed.

Lemma gkeeps_pop_rec : gkeeps Q pop_rec.
Proof.
  intros g H. unfold sat, pop_rec.
  destruct (reverse (rec_stack g)); exact H.
Qed.

Lemma gkeeps_add_monster (m : Monster.t) : gkeeps Q (add_monster m).
Proof. intros g H. apply Q_monsters. exact H. Qed.

Lemma gkeeps_for_loop (k : nat) (i : Z) (body : Z -> M Gen unit) :
  (forall j, gkeeps Q (body j)) -> gkeeps Q (for_loop k i body).
Proof.
  intro Hb. revert i. induction k as [|k IH]; intro i; cbn [for_loop].
  - apply gkeeps_ret.
  - apply gkeeps_bind; [apply Hb | intros _; apply IH].
Qed.

Ltac gk1 :=
  lazymatch goal with
  | |- gkeeps _ (ret _) => apply gkeeps_ret
  | |- gkeeps _ (bind _ _) => apply gkeeps_bind; [|intro; cbv beta]
  | |- gkeeps _ get => apply gkeeps_get
  | |- gkeeps _ (fail _) => apply gkeeps_fail
  | |- gkeeps _ (assert _) => apply gkeeps_assert
  | |- gkeeps _ (rd _ _) => apply gkeeps_rd
  | |- gkeeps _ (wr _ _ _) => apply gkeeps_wr
  | |- gkeeps _ (randn _) => apply gkeeps_on_rand
  | |- gkeeps _ gen_rand01 => apply gkeeps_on_rand
  | |- gkeeps _ (push_rec _) => apply gkeeps_push_rec
  | |- gkeeps _ (erase_at _) => apply gkeeps_erase_at
  | |- gkeeps _ pop_rec => apply gkeeps_pop_rec
  | |- gkeeps _ (add_monster _) => apply gkeeps_add_monster
  | |- gkeeps _ (for_loop _ _ _) => apply gkeeps_for_loop; intro
  | |- gkeeps _ (match ?b with _ => _ end) => destruct b
  | |- gkeeps _ (let _ := _ in _) => cbv zeta
  end.

Ltac gk := repeat gk1.

Lemma gkeeps_stack_at (n : Z) : gkeeps Q (stack_at n).
Proof. unfold stack_at. gk. Qed.

Lemma gkeeps_arc_loop (k : nat) (vx : Fl.float) (a : arc) :
  gkeeps Q (arc_loop k vx a).
Proof.
  revert a. induction k as [|k IH]; intro a; cbn [arc_loop]; gk; apply IH.
Qed.

Lemma gkeeps_ladder_loop (k : nat) (ix iy : Z) (fl : list Rec) :
  gkeeps Q (ladder_loop k ix iy fl).
Proof.
  revert iy fl. induction k as [|k IH]; intros iy fl; cbn [ladder_loop]; gk.
  apply IH.
Qed.

Lemma gkeeps_write_all (cells : list Rec) (v : Z) :
  gkeeps Q (write_all cells v).
Proof. induction cells as [|f rest IH]; cbn [write_all]; gk. exact IH. Qed.

Lemma gkeeps_platform_loop (k : nat) (platform len : Z) (right : bool)
      (shift ix iy : Z) (crates cands : list Rec) :
  gkeeps Q (platform_loop k platform len right shift ix iy crates cands).
Proof.
  revert platform ix crates cands.
  induction k as [|k IH]; intros platform ix crates cands;
    cbn [platform_loop]; gk; apply IH.
Qed.

Lemma gkeeps_crates_pass (crates : list Rec) : gkeeps Q (crates_pass crates).
Proof.
  induction crates as [|c rest IH]; cbn [crates_pass]; gk; exact IH.
Qed.

Lemma gkeeps_crates_loop (fuel : nat) (crates : list Rec) :
  gkeeps Q (crates_loop fuel crates).
Proof.
  revert crates. induction fuel as [|fuel IH]; intros [|c rest];
    cbn [crates_loop]; gk.
  - apply gkeeps_crates_pass.
  - apply IH.
Qed.

Lemma gkeeps_build_platform (vx : Fl.float) (ix iy : Z) :
  gkeeps Q (build_platform vx ix iy).
Proof.
  unfold build_platform. gk;
    first [apply gkeeps_platform_loop | apply gkeeps_crates_loop].
Qed.

Lemma gkeeps_jump : gkeeps Q jump_and_build_platform_somewhere.
Proof.
  unfold jump_and_build_platform_somewhere. gk;
    first [apply gkeeps_stack_at | apply gkeeps_arc_loop
          | apply gkeeps_build_platform | apply gkeeps_ladder_loop
          | apply gkeeps_write_all].
Qed.

Lemma gkeeps_platforms_loop (fuel : nat) (p want : Z) :
  gkeeps Q (platforms_loop fuel p want).
Proof.
  revert p want. induction fuel as [|fuel IH]; intros p want;
    cbn [platforms_loop]; gk; first [apply gkeeps_jump | apply IH].
Qed.

Lemma gkeeps_good_place (r : Rec) : gkeeps Q (good_place r).
Proof. unfold good_place, open_at, solid_at. gk. Qed.

Lemma gkeeps_place_coin_at (r : Rec) (coins : Z) :
  gkeeps Q (place_coin_at r coins).
Proof. unfold place_coin_at. gk. apply gkeeps_good_place. Qed.

Lemma gkeeps_place_coins_loop (k : nat) (coins : Z) :
  gkeeps Q (place_coins_loop k coins).
Proof.
  revert coins. induction k as [|k IH]; intro coins;
    cbn [place_coins_loop]; gk; first [apply gkeeps_place_coin_at | apply IH].
Qed.

Lemma gkeeps_place_coins : gkeeps Q place_coins.
Proof.
  unfold place_coins. gk; [apply gkeeps_place_coins_loop|].
  intros g H. apply Q_coins. exact H.
Qed.

Lemma gkeeps_remove_traces_cell (x y : Z) : gkeeps Q (remove_traces_cell x y).
Proof. unfold remove_traces_cell. gk. Qed.

Lemma gkeeps_remove_traces_add_monsters :
  gkeeps Q remove_traces_add_monsters.
Proof.
  unfold remove_traces_add_monsters. gk.
  - intros g H. apply Q_monsters. exact H.
  - apply gkeeps_remove_traces_cell.
Qed.

Lemma gkeeps_after_spawn (w : Z) (fuel : nat) (want : Z) :
  gkeeps Q (for_upto w (fun x => push_rec {| rx := x; ry := 1 |}) ;;;
            pw <- platforms_loop fuel 0 want ;;
            place_coins ;;;
            remove_traces_add_monsters ;;;
            ret pw).
Proof.
  unfold for_upto. gk.
  - apply gkeeps_platforms_loop.
  - apply gkeeps_place_coins.
  - apply gkeeps_remove_traces_add_monsters.
Qed.

End GKeeps.

Lemma members_of_refl (m : Maze.t) : members_of m m.
Proof. repeat split. Qed.

(** what [generate_level] leaves in the members of a fresh maze *)
Lemma generate_level_members (cfg : Config) (u : Maze.uninit) (seed : Z) :
  sat any_error (generate_level cfg) (fresh_generator u seed)
      (fun _ g =>
         exists s, 0 <= s < 62
           /\ members_of
                (Maze.with_spawnpos
                   (Maze.init_physics (AIR_CONTROL cfg) (Maze.new u 64 13))
                   (1 + s, 1))
                (maze g)).
Proof.
  unfold generate_level. apply sat_bind.
  unfold sat at 1. unfold fresh_generator.
  rewrite initial_floor_and_walls_fresh.
  unfold generate_coins_on_platforms. apply sat_bind, sat_get. cbv zeta.
  change (Maze.w (maze (initial_gen cfg u (RandGen_seed seed)))) with 64.
  apply sat_bind, sat_randn_ok; [reflexivity | lia |].
  intros s r' Hr' Hs. apply sat_bind, sat_modify.
  eapply sat_weaken.
  - apply (gkeeps_after_spawn
             (members_of
                (Maze.with_spawnpos
                   (Maze.init_physics (AIR_CONTROL cfg) (Maze.new u 64 13))
                   (1 + s, 1)))).
    + intros m l H. exact H.
    + intros m c H. exact H.
    + intros m ms H. exact H.
    + repeat split.
  - intros pw g H. exists s. split; [lia | exact H].
Qed.

(** X12: for every seed the generated level has its spawn position in
    row 1, in one of the columns 1 to 62, is marked as a new level and as
    not terminated, and has the physics of [init_physics]. *)
Theorem generated_members (cfg : Config) (u : Maze.uninit) (seed : Z) :
  exists pw g,
    generate cfg u seed = Ok (pw, g)
    /\ 1 <= fst (Maze.spawnpos (maze g)) <= 62
    /\ snd (Maze.spawnpos (maze g)) = 1
    /\ Maze.is_new_level (maze g) = true
    /\ Maze.is_terminated (maze g) = false
    /\ Maze.gravity (maze g) = GRAVITY
    /\ Maze.max_jump (maze g) = MAX_JUMP
    /\ Maze.max_speed (maze g) = MAX_SPEED
    /\ Maze.air_control (maze g) = AIR_CONTROL cfg
    /\ Maze.default_zoom (maze g) = Fl.flit 55 10.
Proof.
  destruct (generate_placed cfg u seed) as (pw & g & Hgen & _).
  exists pw, g. split; [exact Hgen|].
  rewrite generate_eq in Hgen.
  destruct (sat_elim any_error (generate_level cfg) (fresh_generator u seed)
              _ pw g (generate_level_members cfg u seed) Hgen)
    as (s & Hs & Hp & _ & _ & Ht & Hn & Hg & Hj & Ha & _ & _ & Hz & Hv & _).
  rewrite Hp, Ht, Hn, Hg, Hj, Ha, Hz, Hv.
  cbn [Maze.spawnpos Maze.with_spawnpos fst snd].
  split; [lia|]. repeat split.
Qed.

(** ** [state_reset] *)

Lemma randint0_total (r : RandGen) :
  is_seeded r = true ->
  exists v r', randint0 r = Ok (v, r') /\ is_seeded r' = true.
Proof.
  intro Hs. destruct (draw_seeded r) as (x & r' & Hd & Hx & Hs').
  unfold randint0, bind, get, assert. rewrite Hs. unfold ret.
  cbv beta iota. rewrite Hd. cbv beta iota.
  exists (wrap32 x), r'. split; [reflexivity | congruence].
Qed.

Lemma pick_level_seed_total (cfg : Config) (r : RandGen) :
  is_seeded r = true ->
  NUM_LEVELS cfg < 2^31 ->
  (USE_LEVEL_SET cfg = true ->
   0 < NUM_LEVELS cfg <= Z.of_nat (length (LEVEL_SEEDS cfg))) ->
  exists seed r', pick_level_seed cfg r = Ok (seed, r')
                  /\ is_seeded r' = true.
Proof.
  intros Hs Hn Hset. unfold pick_level_seed.
  destruct (USE_LEVEL_SET cfg).
  - destruct (Hset eq_refl) as [H0 Hlen].
    destruct (randint_total 0 (NUM_LEVELS cfg) r Hs)
      as (v & r' & Hr & Hv & Hs'); [lia..|].
    unfold bind. rewrite Hr.
    replace (v <? 0) with false by (symmetry; apply Z.ltb_ge; lia).
    destruct (lookup_lt_is_Some_2 (LEVEL_SEEDS cfg) (Z.to_nat v)
                ltac:(lia)) as [seed Hseed].
    rewrite Hseed. exists seed, r'. split; [reflexivity | exact Hs'].
  - destruct (0 <? NUM_LEVELS cfg) eqn:Hpos.
    + apply Z.ltb_lt in Hpos.
      destruct (randint_total 0 (NUM_LEVELS cfg) r Hs)
        as (v & r' & Hr & Hv & Hs'); [lia..|].
      exists v, r'. split; [exact Hr | exact Hs'].
    + apply randint0_total. exact Hs.
Qed.

(** a draw of the level generator keeps what has been placed, whatever
    its bound *)
Lemma sat_randn_placed_any (n : Z) (g : Gen) (Q : Z -> Gen -> Prop) :
  placed g -> (forall v g', placed g' -> Q v g') ->
  sat any_error (randn n) g Q.
Proof.
  intros [Hinv Ht] HQ.
  apply sat_randn_any; [eauto with gen | intros _; exact I |].
  intros v r' Hr _. apply HQ.
  split; [apply gen_inv_rand; assumption | exact Ht].
Qed.

(** the level and the two themes of a reset, when they come about *)
Lemma level_and_themes_inv (cfg : Config) (u : Maze.uninit) (seed : Z)
      (pn gn : Z) :
  sat any_error
      (generate_level cfg ;;;
       agent_theme <- randn pn ;;
       world_theme <- randn gn ;;
       ret (agent_theme, world_theme)) (fresh_generator u seed)
      (fun _ g =>
         placed g
         /\ exists s, 0 <= s < 62
              /\ members_of
                   (Maze.with_spawnpos
                      (Maze.init_physics (AIR_CONTROL cfg)
                                         (Maze.new u 64 13))
                      (1 + s, 1))
                   (maze g)).
Proof.
  apply sat_conj.
  - apply sat_bind.
    eapply sat_weaken;
      [apply (generate_level_ok any_error cfg u seed); left; split; exact I|].
    intros pw g1 [Hp _]. cbv beta.
    apply sat_bind, sat_randn_placed_any; [exact Hp|].
    intros v1 g2 Hp2.
    apply sat_bind, sat_randn_placed_any; [exact Hp2|].
    intros v2 g3 Hp3. apply sat_ret. exact Hp3.
  - apply sat_bind.
    eapply sat_weaken; [apply generate_level_members|].
    intros pw g1 (s & Hs & Hm). cbv beta.
    eapply sat_weaken.
    + apply (gkeeps_bind
               (members_of
                  (Maze.with_spawnpos
                     (Maze.init_physics (AIR_CONTROL cfg)
                                        (Maze.new u 64 13))
                     (1 + s, 1)))); [apply gkeeps_on_rand | | exact Hm].
      intro v1. apply gkeeps_bind; [apply gkeeps_on_rand|].
      intro v2. apply gkeeps_ret.
    + intros a g2 Hm2. exists s. split; [exact Hs | exact Hm2].
Qed.

(** they do come about when the two theme tables are not empty *)
Lemma level_and_themes_total (cfg : Config) (u : Maze.uninit) (seed : Z)
      (pn gn : Z) :
  0 < pn < 2^31 -> 0 < gn < 2^31 ->
  exists a g,
    (generate_level cfg ;;;
     agent_theme <- randn pn ;;
     world_theme <- randn gn ;;
     ret (agent_theme, world_theme)) (fresh_generator u seed) = Ok (a, g).
Proof.
  intros Hpn Hgn.
  assert (H : sat no_error
                (generate_level cfg ;;;
                 agent_theme <- randn pn ;;
                 world_theme <- randn gn ;;
                 ret (agent_theme, world_theme)) (fresh_generator u seed)
                (fun _ _ => True)).
  { apply sat_bind.
    eapply sat_weaken;
      [apply (generate_level_ok no_error cfg u seed arc_safe_total)|].
    intros pw g1 [Hp _]. cbv beta.
    apply sat_bind, sat_randn_placed; [exact Hp | exact Hpn |].
    intros v1 g2 Hp2 _ _.
    apply sat_bind, sat_randn_placed; [exact Hp2 | exact Hgn |].
    intros v2 g3 _ _ _. apply sat_ret. exact I. }
  destruct (proj1 (sat_total _ _ _) H) as (a & g & Hrun & _).
  exists a, g. exact Hrun.
Qed.

Lemma assert_then {St A} (b : bool) (k : M St A) (s : St) :
  (assert b ;;; k) s = if b then k s else Err AssertionFailed.
Proof. destruct b; reflexivity. Qed.

(** without a player theme -- [init] has not loaded the images -- a reset
    stops at its first statement *)
Lemma state_reset_needs_init (cfg : Config) (u : Maze.uninit) (s : State.t)
      (r : RandGen) :
  player_themesl cfg = [] -> state_reset cfg u s r = Err AssertionFailed.
Proof.
  intro H. unfold state_reset. rewrite assert_then, H. reflexivity.
Qed.

Lemma state_reset_inv (cfg : Config) (u : Maze.uninit) (s s' : State.t)
      (r r' : RandGen) :
  state_reset cfg u s r = Ok (s', r') -> reset_from s s'.
Proof.
  unfold state_reset. rewrite assert_then.
  destruct (0 <? Z.of_nat (length (player_themesl cfg)));
    [|intro H; discriminate H].
  unfold bind at 1.
  destruct (pick_level_seed cfg r) as [[seed r1]|e]; [|discriminate].
  lazymatch goal with
  | |- match ?t with _ => _ end = _ -> _ =>
      destruct t as [[[at_ wt] g]|e] eqn:Hrun; [|discriminate]
  end.
  destruct (sat_elim any_error _ _ _ _ _
              (level_and_themes_inv cfg u seed
                 (Z.of_nat (length (player_themesl cfg)))
                 (Z.of_nat (length (ground_themes cfg)))) Hrun)
    as ([Hinv Ht] & s0 & Hs0 & Hm).
  destruct Hm as (Hp & _ & _ & Hterm & Hnew & _ & _ & _ & _ & _ & Hz & _).
  cbn [Maze.spawnpos Maze.with_spawnpos Maze.is_terminated Maze.is_new_level
       Maze.default_zoom Maze.init_physics Maze.new] in Hp, Hterm, Hnew, Hz.
  intro H. injection H as <- <-.
  unfold reset_from. cbn. rewrite Hp, Hz. cbn [fst snd].
  destruct Hinv as [Hd Hb _ _ _].
  destruct Hd as (Hw & Hh & Hl).
  repeat split; try assumption; try reflexivity; try lia.
Qed.

Lemma state_reset_spec (cfg : Config) (u : Maze.uninit) (s : State.t)
      (r : RandGen) :
  themes_loaded cfg ->
  is_seeded r = true ->
  NUM_LEVELS cfg < 2^31 ->
  (USE_LEVEL_SET cfg = true ->
   0 < NUM_LEVELS cfg <= Z.of_nat (length (LEVEL_SEEDS cfg))) ->
  exists s' r',
    state_reset cfg u s r = Ok (s', r') /\ is_seeded r' = true
    /\ reset_from s s'.
Proof.
  intros [Hpn Hgn] Hs Hn Hset.
  destruct (pick_level_seed_total cfg r Hs Hn Hset)
    as (seed & r' & Hpick & Hs').
  destruct (level_and_themes_total cfg u seed _ _ Hpn Hgn)
    as ([at_ wt] & g & Hrun).
  assert (Hex : exists s', state_reset cfg u s r = Ok (s', r')).
  { eexists. unfold state_reset. rewrite assert_then.
    rewrite (proj2 (Z.ltb_lt _ _) (proj1 Hpn)).
    unfold bind at 1. rewrite Hpick. rewrite Hrun. reflexivity. }
  destruct Hex as [s' Hreset]. exists s', r'.
  split; [exact Hreset|]. split; [exact Hs'|].
  apply (state_reset_inv cfg u s s' r r' Hreset).
Qed.

(** X13: in a process whose theme tables [init] has loaded, with a seeded
    global generator and a level count that is an int (and, when a level
    set is in use, a positive one with at least that many seeds in the
    set), [state_reset] returns: the state holds a new 64 x 13 level with a
    solid border whose coin counter matches its tiles, marked as new and
    not terminated; the agent stands still at the spawn position, in
    row 1, with its death and end-of-level countdowns cleared; and the
    reward and the game-over flag that have not been collected yet are
    still there. *)
Theorem state_reset_ok (cfg : Config) (u : Maze.uninit) (s : State.t)
        (r : RandGen) :
  themes_loaded cfg ->
  is_seeded r = true ->
  NUM_LEVELS cfg < 2^31 ->
  (USE_LEVEL_SET cfg = true ->
   0 < NUM_LEVELS cfg <= Z.of_nat (length (LEVEL_SEEDS cfg))) ->
  exists s' r',
    state_reset cfg u s r = Ok (s', r') /\ is_seeded r' = true
    /\ reset_from s s'.
Proof. apply state_reset_spec. Qed.

Lemma state_reset_ok_witness :
  exists s' r',
    state_reset loaded_config zero_memory (example_state 0 1 true)
                (RandGen_seed 0) = Ok (s', r')
    /\ State.game_id s' = 1
    /\ Maze.is_new_level (State.maze s') = true
    /\ Agent.reward (State.agent s') = Fl.f_of_int 1
    /\ Agent.game_over (State.agent s') = true.
Proof.
  destruct (state_reset_ok loaded_config zero_memory (example_state 0 1 true)
              (RandGen_seed 0))
    as (s' & r' & Hrun & _ & Hid & _ & _ & _ & _ & _ & _ & _ & _ & Hnew & _
        & _ & _ & _ & _ & _ & _ & _ & _ & _ & Hrew & Hover);
    [unfold themes_loaded; simpl; lia | reflexivity | vm_compute; reflexivity
    | intro H; discriminate H |].
  exists s', r'. split; [exact Hrun|]. split; [exact Hid|].
  split; [exact Hnew|]. split; [exact Hrew | exact Hover].
Defined.

(** ** [vec_create] and [vec_close] *)

Section Create.
Context (cfg : Config) (junk : Z -> State.t) (u : Z -> Maze.uninit)
        (h : Z) (collect_data : bool) (zoom : Fl.float).

(** what a call that returns has done *)
Lemma create_one_inv (n : Z) (e : Engine) (a : nat) (e' : Engine) :
  create_one cfg (junk n) (u n) h n collect_data zoom e = Ok (a, e') ->
  a = next_addr e
  /\ exists s r',
       e' = with_heap
              (with_global_rand_gen (with_next_addr e (S (next_addr e))) r')
              (<[ next_addr e := s ]> (heap e))
       /\ created h n collect_data zoom s.
Proof.
  unfold create_one, bind, get, modify, on_global, store, ret.
  cbn [global_rand_gen with_next_addr].
  destruct (state_reset cfg (u n)
              (State.with_state_n (new_State (junk n) h) n)
              (global_rand_gen e)) as [[s1 r1]|err] eqn:Hrun;
    [|intro H; discriminate H].
  intro H. injection H as <- <-. split; [reflexivity|].
  destruct (state_reset_inv _ _ _ _ _ _ Hrun)
    as (Hid & Htime & Hready & Hprog & Hsn & Hbt
        & (Hw & Hh & Hl) & _ & Ht
        & Hnew & Hterm & _ & _ & _ & _ & _ & Hk & _ & _ & _ & Hrew & Hover).
  eexists. exists r1. split; [reflexivity|].
  unfold created. cbn. cbn in Hid, Hready, Hprog, Hrew, Hover, Hsn, Hbt.
  repeat split; try assumption; try reflexivity.
Qed.

Lemma create_all_inv (k : nat) (n : Z) (e : Engine) (addrs : list nat)
      (e' : Engine) :
  create_all cfg junk u h k n collect_data zoom e = Ok (addrs, e') ->
  addrs = seq (next_addr e) k
  /\ h2s e' = h2s e /\ workers_todo e' = workers_todo e
  /\ handle_seq e' = handle_seq e
  /\ shutdown_flag e' = shutdown_flag e
  /\ all_threads e' = all_threads e
  /\ (forall a, (a < next_addr e)%nat -> heap e' !! a = heap e !! a)
  /\ forall j, (j < k)%nat ->
       exists s, heap e' !! (next_addr e + j)%nat = Some s
                 /\ created h (n + Z.of_nat j) collect_data zoom s.
Proof.
  revert n e addrs e'. induction k as [|k IH]; intros n e addrs e'.
  - intro H. injection H as <- <-. repeat split. intros j Hj. lia.
  - cbn [create_all]. unfold bind at 1.
    destruct (create_one cfg (junk n) (u n) h n collect_data zoom e)
      as [[a e1]|err] eqn:Hone; [|intro H; discriminate H].
    unfold bind at 1.
    destruct (create_all cfg junk u h k (n + 1) collect_data zoom e1)
      as [[rest e2]|err] eqn:Hall; [|intro H; discriminate H].
    intro H. injection H as <- <-.
    destruct (create_one_inv n e a e1 Hone) as (-> & s & r' & -> & Hc).
    set (e1 := with_heap _ _) in Hall.
    destruct (IH (n + 1) e1 rest e2 Hall)
      as (-> & H1 & H2 & H3 & H4 & H5 & Hold & Hnew).
    split; [reflexivity|].
    do 5 (split; [assumption|]). split.
    + intros a Ha. rewrite Hold by (cbn; lia).
      cbn [e1 heap with_heap]. apply lookup_insert_ne. lia.
    + intros [|j] Hj.
      * exists s. split.
        -- rewrite Nat.add_0_r, Hold by (cbn; lia).
           cbn [e1 heap with_heap]. apply lookup_insert_eq.
        -- replace (n + Z.of_nat 0) with n by lia. exact Hc.
      * destruct (Hnew j ltac:(lia)) as (s2 & Hs2 & Hc2).
        exists s2. split.
        -- replace (next_addr e + S j)%nat with (next_addr e1 + j)%nat
             by (cbn; lia). exact Hs2.
        -- replace (n + Z.of_nat (S j)) with (n + 1 + Z.of_nat j) by lia.
           exact Hc2.
Qed.

(** when the calls return *)
Hypothesis Hloaded : themes_loaded cfg.
Hypothesis Hn : NUM_LEVELS cfg < 2^31.
Hypothesis Hset :
  USE_LEVEL_SET cfg = true ->
  0 < NUM_LEVELS cfg <= Z.of_nat (length (LEVEL_SEEDS cfg)).

Lemma create_one_total (n : Z) (e : Engine) :
  is_seeded (global_rand_gen e) = true ->
  exists a e',
    create_one cfg (junk n) (u n) h n collect_data zoom e = Ok (a, e')
    /\ is_seeded (global_rand_gen e') = true.
Proof.
  intro Hs.
  destruct (state_reset_spec cfg (u n)
              (State.with_state_n (new_State (junk n) h) n)
              (global_rand_gen e) Hloaded Hs Hn Hset)
    as (s' & r' & Hrun & Hs' & _).
  eexists. eexists. split.
  { unfold create_one, bind, get, modify, on_global, store, ret.
    cbn [global_rand_gen with_next_addr]. rewrite Hrun. reflexivity. }
  exact Hs'.
Qed.

Lemma create_all_total (k : nat) (n : Z) (e : Engine) :
  is_seeded (global_rand_gen e) = true ->
  exists addrs e',
    create_all cfg junk u h k n collect_data zoom e = Ok (addrs, e')
    /\ is_seeded (global_rand_gen e') = true.
Proof.
  revert n e. induction k as [|k IH]; intros n e Hs.
  - exists [], e. split; [reflexivity | exact Hs].
  - destruct (create_one_total n e Hs) as (a & e1 & Hone & Hs1).
    destruct (IH (n + 1) e1 Hs1) as (rest & e2 & Hall & Hs2).
    exists (a :: rest), e2. split; [|exact Hs2].
    cbn [create_all]. unfold bind at 1. rewrite Hone.
    unfold bind at 1. rewrite Hall. reflexivity.
Qed.

End Create.

(** the group that a call of [vec_create] that returns has made *)
Lemma vec_create_inv (cfg : Config) (junk : Z -> State.t)
        (u : Z -> Maze.uninit) (n : Z) (collect_data : bool)
        (zoom : Fl.float) (e : Engine) (h : Z) (e' : Engine) :
  0 <= n ->
  vec_create cfg junk u n collect_data zoom e = Ok (h, e') ->
  h = handle_seq e
  /\ exists v,
       h2s e' = <[ handle_seq e := v ]> (h2s e)
       /\ handle_seq e' = wrap32 (handle_seq e + 1)
       /\ nenvs v = n /\ handle v = handle_seq e
       /\ states v = seq (next_addr e) (Z.to_nat n)
       /\ group_ok e' v
       /\ workers_todo e' = workers_todo e
       /\ (forall a, (a < next_addr e)%nat -> heap e' !! a = heap e !! a)
       /\ forall j a,
            states v !! j = Some a ->
            exists s, heap e' !! a = Some s
                      /\ created (handle_seq e) (Z.of_nat j) collect_data
                                 zoom s.
Proof.
  intros Hn0. unfold vec_create. unfold bind at 1. unfold get.
  unfold bind at 1.
  destruct (create_all cfg junk u (handle_seq e) (Z.to_nat n) 0
              collect_data zoom e) as [[addrs e1]|err] eqn:Hall;
    [|intro H; discriminate H].
  destruct (create_all_inv cfg junk u (handle_seq e) collect_data zoom
              (Z.to_nat n) 0 e addrs e1 Hall)
    as (-> & H1 & H2 & H3 & H4 & H5 & Hold & Hnew).
  cbn. intro H. injection H as <- <-. split; [reflexivity|].
  eexists. cbn.
  split; [rewrite H1; reflexivity|]. split; [reflexivity|].
  split; [reflexivity|]. split; [reflexivity|]. split; [reflexivity|].
  assert (Hin : forall j a,
             seq (next_addr e) (Z.to_nat n) !! j = Some a ->
             exists s, heap e1 !! a = Some s
                       /\ created (handle_seq e) (Z.of_nat j) collect_data
                                  zoom s).
  { intros j a Ha. apply lookup_seq in Ha as [-> Hj].
    destruct (Hnew j Hj) as (s & Hs1 & Hc). exists s. split; [exact Hs1|].
    rewrite Z.add_0_l in Hc. exact Hc. }
  split; [|split; [exact H2|split; [exact Hold | exact Hin]]].
  unfold group_ok. cbn. split; [rewrite length_seq; lia|].
  split; [apply NoDup_seq|].
  intros a Ha. apply list_elem_of_lookup in Ha as [j Hj].
  destruct (Hin j a Hj) as (s & Hs1 & _). exists s. exact Hs1.
Qed.

Lemma vec_create_spec (cfg : Config) (junk : Z -> State.t)
        (u : Z -> Maze.uninit) (n : Z) (collect_data : bool)
        (zoom : Fl.float) (e : Engine) :
  themes_loaded cfg ->
  is_seeded (global_rand_gen e) = true ->
  NUM_LEVELS cfg < 2^31 ->
  (USE_LEVEL_SET cfg = true ->
   0 < NUM_LEVELS cfg <= Z.of_nat (length (LEVEL_SEEDS cfg))) ->
  0 <= n ->
  exists e' v,
    vec_create cfg junk u n collect_data zoom e = Ok (handle_seq e, e')
    /\ h2s e' = <[ handle_seq e := v ]> (h2s e)
    /\ handle_seq e' = wrap32 (handle_seq e + 1)
    /\ nenvs v = n /\ handle v = handle_seq e
    /\ states v = seq (next_addr e) (Z.to_nat n)
    /\ group_ok e' v
    /\ workers_todo e' = workers_todo e
    /\ (forall a, (a < next_addr e)%nat -> heap e' !! a = heap e !! a)
    /\ forall j a,
         states v !! j = Some a ->
         exists s, heap e' !! a = Some s
                   /\ created (handle_seq e) (Z.of_nat j) collect_data zoom s.
Proof.
  intros Hloaded Hs Hn Hset Hn0.
  destruct (create_all_total cfg junk u (handle_seq e) collect_data zoom
              Hloaded Hn Hset (Z.to_nat n) 0 e Hs)
    as (addrs & e1 & Hall & _).
  assert (Hex : exists h e',
             vec_create cfg junk u n collect_data zoom e = Ok (h, e')).
  { eexists. eexists. unfold vec_create. unfold bind at 1. unfold get.
    unfold bind at 1. rewrite Hall. reflexivity. }
  destruct Hex as (h & e' & Hrun).
  destruct (vec_create_inv cfg junk u n collect_data zoom e h e' Hn0 Hrun)
    as (-> & v & Hv).
  exists e', v. split; [exact Hrun | exact Hv].
Qed.

(** X14: in a process whose theme tables [init] has loaded, with a seeded
    global generator and a level count that is an int (and, when a level
    set is in use, a positive one with at least that many seeds in the
    set), [vec_create] with [nenvs >= 0] returns the current value of the
    handle counter and registers, under that handle, a group of [nenvs]
    new instances: they are numbered from 0, not ready, not in
    progress, in game 0 of a new level, with the zoom and the data
    collection flag of the call; the instances that existed before, the
    other groups and the work queue are as they were. *)
Theorem vec_create_ok (cfg : Config) (junk : Z -> State.t)
        (u : Z -> Maze.uninit) (n : Z) (collect_data : bool)
        (zoom : Fl.float) (e : Engine) :
  themes_loaded cfg ->
  is_seeded (global_rand_gen e) = true ->
  NUM_LEVELS cfg < 2^31 ->
  (USE_LEVEL_SET cfg = true ->
   0 < NUM_LEVELS cfg <= Z.of_nat (length (LEVEL_SEEDS cfg))) ->
  0 <= n ->
  exists e' v,
    vec_create cfg junk u n collect_data zoom e = Ok (handle_seq e, e')
    /\ h2s e' = <[ handle_seq e := v ]> (h2s e)
    /\ handle_seq e' = wrap32 (handle_seq e + 1)
    /\ nenvs v = n /\ handle v = handle_seq e
    /\ states v = seq (next_addr e) (Z.to_nat n)
    /\ group_ok e' v
    /\ workers_todo e' = workers_todo e
    /\ (forall a, (a < next_addr e)%nat -> heap e' !! a = heap e !! a)
    /\ forall j a,
         states v !! j = Some a ->
         exists s, heap e' !! a = Some s
                   /\ created (handle_seq e) (Z.of_nat j) collect_data zoom s.
Proof. apply vec_create_spec. Qed.

Lemma vec_create_ok_witness :
  exists e' v,
    vec_create loaded_config (fun _ => example_state 0 1 false)
               (fun _ => zero_memory) 3 false (Fl.f_of_int 1) example_engine
    = Ok (101, e')
    /\ h2s e' !! 101 = Some v /\ nenvs v = 3 /\ states v = [2; 3; 4]%nat
    /\ group_ok e' v.
Proof.
  destruct (vec_create_ok loaded_config (fun _ => example_state 0 1 false)
              (fun _ => zero_memory) 3 false (Fl.f_of_int 1) example_engine)
    as (e' & v & Hrun & Hh & _ & Hn & _ & Hst & Hok & _);
    [unfold themes_loaded; simpl; lia | reflexivity | vm_compute; reflexivity
    | intro H; discriminate H | lia |].
  exists e', v. split; [exact Hrun|].
  split; [rewrite Hh; apply lookup_insert_eq|]. split; [exact Hn|].
  split; [exact Hst | exact Hok].
Defined.

(** X15: closing a registered group (its handle is not 0) removes exactly
    that handle: the other groups, the instances and the work queue stay,
    and every later call with the handle -- another close, a submit, a
    wait -- runs into the assertion of [vstate_find]. *)
Theorem vec_close_forgets (e : Engine) (h : Z) (v : VectorOfStates)
        (b : buffers) (actions : list Z) :
  h <> 0 -> h2s e !! h = Some v ->
  exists e',
    vec_close h e = Ok (tt, e')
    /\ h2s e' !! h = None
    /\ (forall h', h' <> h -> h2s e' !! h' = h2s e !! h')
    /\ heap e' = heap e /\ workers_todo e' = workers_todo e
    /\ handle_seq e' = handle_seq e
    /\ vec_close h e' = Err AssertionFailed
    /\ vec_step_async_discrete h actions e' = Err AssertionFailed
    /\ vec_wait h b e' = Err AssertionFailed.
Proof.
  intros Hh Hv. eexists. split.
  { unfold vec_close. rewrite (proj2 (Z.eqb_neq h 0) Hh).
    unfold vstate_find, bind, get. rewrite Hv. reflexivity. }
  cbn [h2s with_h2s heap workers_todo handle_seq].
  split; [apply lookup_delete_eq|].
  split; [intros h' Hne; apply lookup_delete_ne; congruence|].
  do 3 (split; [reflexivity|]).
  unfold vec_close, vec_step_async_discrete, vec_wait.
  rewrite (proj2 (Z.eqb_neq h 0) Hh).
  unfold vstate_find, bind, get. cbn [h2s with_h2s].
  rewrite lookup_delete_eq. repeat split.
Qed.

Lemma vec_close_forgets_witness :
  exists e',
    vec_close 100 example_engine = Ok (tt, e')
    /\ h2s e' !! 100 = None
    /\ vec_close 100 e' = Err AssertionFailed
    /\ vec_wait 100 example_buffers e' = Err AssertionFailed.
Proof.
  destruct (vec_close_forgets example_engine 100 example_group
              example_buffers [1; 1])
    as (e' & Hrun & Hnone & _ & _ & _ & _ & Hc & _ & Hw);
    [lia | reflexivity |].
  exists e'. split; [exact Hrun|]. split; [exact Hnone|].
  split; [exact Hc | exact Hw].
Defined.

(** X16: [vec_close(0)] returns at once and changes nothing, whether or
    not a group is registered under 0; with any other handle that is not
    registered, [vec_close], [vec_step_async_discrete] and [vec_wait] all
    run into the assertion of [vstate_find]. *)
Theorem unknown_handle (e : Engine) (h : Z) (b : buffers)
        (actions : list Z) :
  h <> 0 -> h2s e !! h = None ->
  vec_close 0 e = Ok (tt, e)
  /\ vec_close h e = Err AssertionFailed
  /\ vec_step_async_discrete h actions e = Err AssertionFailed
  /\ vec_wait h b e = Err AssertionFailed.
Proof.
  intros Hh Hnone. split; [reflexivity|].
  unfold vec_close, vec_step_async_discrete, vec_wait, vstate_find, bind, get.
  rewrite (proj2 (Z.eqb_neq h 0) Hh). cbv beta. rewrite Hnone.
  repeat split.
Qed.

Lemma unknown_handle_witness :
  vec_close 0 example_engine = Ok (tt, example_engine)
  /\ vec_close 7 example_engine = Err AssertionFailed
  /\ vec_step_async_discrete 7 [1; 1] example_engine = Err AssertionFailed
  /\ vec_wait 7 example_buffers example_engine = Err AssertionFailed.
Proof.
  apply (unknown_handle example_engine 7 example_buffers [1; 1]);
    [lia | reflexivity].
Defined.

(** ** The tick that follows the end of an episode *)

Lemma keeps_sim_set (P : Sim -> Prop) (x y v : Z) :
  (forall s m', P s -> P {| sim_agent := sim_agent s; sim_maze := m' |}) ->
  keeps P (sim_set x y v).
Proof.
  intros HP s H. unfold sat, sim_set.
  destruct (Maze.set_elem (sim_maze s) x y v); [apply HP; exact H | exact I].
Qed.

Ltac eat1 :=
  lazymatch goal with
  | |- keeps _ (bind _ _) => apply keeps_bind; [|intro; cbv beta]
  | |- keeps _ (sim_get _ _) => apply keeps_sim_get
  | |- keeps _ (sim_set _ _ _) =>
      apply keeps_sim_set; intros ? ? ?; assumption
  | |- keeps _ (when _ _) => apply keeps_when
  | |- keeps _ get => apply keeps_get
  | |- keeps _ (on_maze _) =>
      unfold on_maze; apply keeps_modify; intros ? ?; assumption
  | |- keeps _ (on_agent _) =>
      unfold on_agent; apply keeps_modify; intros ? ?; assumption
  | |- keeps _ (add_reward _) => unfold add_reward
  | |- keeps _ (if ?b then _ else _) => destruct b
  end.

Lemma eat_coin_game_over (b : bool) (x y : Z) :
  keeps (fun s => Agent.game_over (sim_agent s) = b) (eat_coin x y).
Proof. unfold eat_coin. repeat eat1. Qed.

Lemma agent_step_game_over (cfg : Config) (b : bool) :
  keeps (fun s => Agent.game_over (sim_agent s) = b) (agent_step cfg).
Proof.
  apply keeps_agent_step.
  - intros s a' (_ & Hg & _) H. cbn [sim_agent]. congruence.
  - intros s H. exact H.
  - apply eat_coin_game_over.
  - intros s n H. exact H.
Qed.

(** X17: a tick on an instance whose maze was terminated (and that is
    not playing out an animation for the data collection), when it
    returns, has reset the instance: the state is in the next game, on a
    new level that is marked as such, with the agent at its spawn
    position, and the game-over flag is set for the caller to collect. *)
Theorem tick_after_termination (cfg : Config) (u : Maze.uninit)
        (s s' : State.t) (r r' : RandGen) :
  Maze.is_terminated (State.maze s) = true ->
  Agent.collect_data (State.agent s)
  && ((1 <? Agent.killed_animation_frame_cnt (State.agent s))
      || (1 <? Agent.finished_level_frame_cnt (State.agent s))) = false ->
  state_tick cfg u s r = Ok (s', r') ->
  Agent.game_over (State.agent s') = true
  /\ State.game_id s' = wrap32 (State.game_id s + 1)
  /\ State.time s' = 0
  /\ State.agent_ready s' = State.agent_ready s
  /\ State.step_in_progress s' = State.step_in_progress s
  /\ dims_ok (State.maze s')
  /\ Maze.is_new_level (State.maze s') = true
  /\ Maze.is_terminated (State.maze s') = false
  /\ Agent.x (State.agent s')
     = Fl.f_of_int (fst (Maze.spawnpos (State.maze s')))
  /\ Agent.y (State.agent s') = Fl.f_of_int 1
  /\ Agent.is_killed (State.agent s') = false
  /\ Agent.collected_coin (State.agent s') = false
  /\ Agent.killed_monster (State.agent s') = false.
Proof.
  intros Hterm Hcond. unfold state_tick. rewrite Hcond. cbv zeta.
  change (Maze.is_terminated
            (State.maze (State.with_time s (wrap32 (State.time s + 1)))))
    with (Maze.is_terminated (State.maze s)).
  rewrite Hterm.
  destruct (step_monsters cfg _ _ r) as [[[ms x] r1]|e]; [|discriminate].
  set (s1 := State.with_agent _ _).
  assert (H1 : Agent.game_over (State.agent s1) = true) by reflexivity.
  assert (G1 : State.game_id s1 = State.game_id s) by reflexivity.
  assert (R1 : State.agent_ready s1 = State.agent_ready s) by reflexivity.
  assert (P1 : State.step_in_progress s1 = State.step_in_progress s)
    by reflexivity.
  clearbody s1.
  assert (Hstep : forall s2,
             (if Agent.is_killed (State.agent s1) then Ok (tt, s1)
              else on_sim (agent_step cfg) s1) = Ok (tt, s2) ->
             Agent.game_over (State.agent s2) = true
             /\ State.game_id s2 = State.game_id s
             /\ State.agent_ready s2 = State.agent_ready s
             /\ State.step_in_progress s2 = State.step_in_progress s).
  { intros s2. destruct (Agent.is_killed (State.agent s1)).
    - intro H. injection H as <-. auto.
    - unfold on_sim.
      pose proof (agent_step_game_over cfg true (State.sim s1) H1) as Hk.
      unfold sat in Hk.
      destruct (agent_step cfg (State.sim s1)) as [[[] x2]|e];
        [|discriminate].
      intro H. injection H as <-. cbn. auto. }
  destruct (if Agent.is_killed (State.agent s1) then Ok (tt, s1)
            else on_sim (agent_step cfg) s1) as [[[] s2]|e];
    [|discriminate].
  destruct (Hstep s2 eq_refl) as (H2 & G2 & R2 & P2).
  destruct (state_reset cfg u s2 r1) as [[s3 r2]|e] eqn:Hreset;
    [|discriminate].
  intro H. injection H as <- <-.
  destruct (state_reset_inv cfg u s2 s3 r1 r2 Hreset)
    as (Hid & Htime & Hready & Hprog & _ & _ & (Hw & Hh & Hl) & _ & _ & Hnew
        & Hterm3 & _ & Hx & Hy & _ & _ & Hk & _ & _ & _ & _ & Hover).
  cbn. repeat split; try assumption; try congruence.
Qed.

Lemma tick_after_termination_witness :
  exists s' r',
    state_tick loaded_config zero_memory
      (State.with_maze (example_state 0 1 false)
         (Maze.with_is_terminated corridor true))
      (RandGen_seed 0) = Ok (s', r')
    /\ Agent.game_over (State.agent s') = true
    /\ State.game_id s' = 1
    /\ Maze.is_new_level (State.maze s') = true.
Proof.
  destruct (state_tick loaded_config zero_memory
              (State.with_maze (example_state 0 1 false)
                 (Maze.with_is_terminated corridor true))
              (RandGen_seed 0)) as [[s' r']|e] eqn:Hrun;
    [|vm_compute in Hrun; discriminate Hrun].
  exists s', r'. split; [reflexivity|].
  destruct (tick_after_termination loaded_config zero_memory
              (State.with_maze (example_state 0 1 false)
                 (Maze.with_is_terminated corridor true))
              s' (RandGen_seed 0) r' eq_refl eq_refl Hrun)
    as (Hover & Hid & _ & _ & _ & _ & Hnew & _).
  split; [exact Hover|]. split; [exact Hid | exact Hnew].
Defined.

(** ** Tiles *)

(** X18: the classes of tiles do not overlap: a tile is at most one of
    wall, crate, lethal, coin and gem (a crate counts as a wall only where
    the caller asks for it), and none of them is the empty space. *)
Theorem tile_classes_disjoint (c : Z) :
  (is_wall c false = true ->
   is_crat c = false /\ is_lethal c = false /\ is_coin c = false
   /\ is_gem c = false /\ c <> SPACE)
  /\ (is_crat c = true ->
      is_wall c true = true /\ is_lethal c = false /\ is_coin c = false
      /\ is_gem c = false /\ c <> SPACE)
  /\ (is_lethal c = true ->
      is_wall c true = false /\ is_coin c = false /\ is_gem c = false
      /\ c <> SPACE)
  /\ (is_coin c = true ->
      is_wall c true = false /\ is_gem c = false /\ c <> SPACE)
  /\ (is_gem c = true -> is_wall c true = false /\ c <> SPACE).
Proof.
  unfold is_wall, is_crat, is_lethal, is_coin, is_gem.
  repeat match goal with
         | |- _ /\ _ => split
         | |- _ -> _ => intro
         end;
    repeat match goal with
           | H : _ || _ = true |- _ => apply orb_true_iff in H as [H | H]
           | H : (_ =? _) = true |- _ => apply Z.eqb_eq in H
           end; subst c; try reflexivity; try discriminate.
Qed.

(** ** [clip_abs] *)

Lemma not_below_opp (y : Fl.float) :
  Fl.lt y Fl.fzero = false -> Fl.lt y (Fl.fneg y) = false.
Proof.
  unfold Fl.lt, Fl.fneg, Fl.fzero, SFltb.
  destruct y as [[|]|[|]| |[|] m e]; cbn; try reflexivity; try discriminate.
  all: intros _.
  all: rewrite Z.compare_refl, Pos.compare_cont_refl; reflexivity.
Qed.

Lemma lt_irrefl (x : Fl.float) : Fl.lt x x = false.
Proof.
  unfold Fl.lt, SFltb.
  destruct x as [[|]|[|]| |[|] m e]; cbn; try reflexivity.
  all: rewrite Z.compare_refl, Pos.compare_cont_refl; reflexivity.
Qed.

Lemma clip_abs_within (x y : Fl.float) :
  Fl.lt y Fl.fzero = false ->
  Fl.gt (Fl.clip_abs x y) y = false
  /\ Fl.lt (Fl.clip_abs x y) (Fl.fneg y) = false.
Proof.
  intro Hy. unfold Fl.clip_abs.
  destruct (Fl.gt x y) eqn:H1.
  - split; [apply lt_irrefl | apply not_below_opp; exact Hy].
  - destruct (Fl.lt x (Fl.fneg y)) eqn:H2.
    + split; [apply not_below_opp; exact Hy | apply lt_irrefl].
    + split; assumption.
Qed.

(** ** [Monster::step] *)

Lemma sat_any {St A} (c : M St A) (s : St) :
  sat any_error c s (fun _ _ => True).
Proof. unfold sat. destruct (c s) as [[a s']|e]; exact I. Qed.

Lemma theme_speed_nonneg (n : Z) (th : EnemyTheme) :
  theme_of n = Some th -> Fl.lt (monster_max_speed th) Fl.fzero = false.
Proof.
  unfold theme_of. destruct (n <? 0); [discriminate|]. intro H.
  apply list_elem_of_lookup_2 in H. revert th H. apply Forall_forall.
  unfold enemy_themel.
  repeat (constructor; [vm_compute; reflexivity|]). constructor.
Qed.

(** the jump of a jumping monster leaves its horizontal speed and its
    theme alone *)
Lemma monster_jump_frame (maze : Maze.t) (th : EnemyTheme) (m0 : Monster.t)
      (r : RandGen) :
  sat any_error
    (if is_jumping_monster th then
       let m :=
         if Fl.eq (Monster.vy m0) Fl.fzero && (Monster.pause m0 =? 0) then
           Monster.with_vy m0 (max_jump_height th)
         else if Monster.pause m0 =? 0 then
           Monster.with_vy m0
             (Fl.f_of_d (Fl.dsub (Fl.d_of_f (Monster.vy m0))
                                 (Fl.dmul (Fl.dlit 8 10)
                                          (Fl.d_of_f (Maze.gravity maze)))))
         else m0 in
       let ny := Fl.fadd (Monster.y m) (Monster.vy m) in
       landed <- (if Fl.lt (Monster.vy m) Fl.fzero then
                    v <- lift_opt (Maze.has_vertical_space maze
                                     (Monster.x m) ny false) ;;
                    ret (negb v)
                  else ret false) ;;
       if landed then
         p <- randint 0 (max_pause_time th) ;;
         ret (Monster.with_pause
                (Monster.with_vy
                   (Monster.with_y m (Fl.f_of_int (Fl.to_int ny + 1)))
                   Fl.fzero)
                p)
       else ret m
     else ret m0) r
    (fun m1 _ => Monster.vx m1 = Monster.vx m0
                 /\ Monster.theme_n m1 = Monster.theme_n m0).
Proof.
  destruct (is_jumping_monster th); [|apply sat_ret; split; reflexivity].
  cbv zeta.
  set (m := if Fl.eq (Monster.vy m0) Fl.fzero && (Monster.pause m0 =? 0)
            then _ else _).
  assert (Hm : Monster.vx m = Monster.vx m0
               /\ Monster.theme_n m = Monster.theme_n m0).
  { subst m. destruct (Fl.eq _ _ && _); [split; reflexivity|].
    destruct (Monster.pause m0 =? 0); split; reflexivity. }
  clearbody m. apply sat_bind.
  eapply sat_weaken; [apply sat_any|]. intros landed r1 _. cbv beta.
  destruct landed; [|apply sat_ret; exact Hm].
  apply sat_bind. eapply sat_weaken; [apply sat_any|].
  intros p r2 _. apply sat_ret. exact Hm.
Qed.

(** X19: [clip_abs(x, y)] with a limit [y] that is not negative is never
    above [y] and never below [-y]; so after a step that returns, the
    horizontal speed of a flying or walking monster is within the
    [monster_max_speed] of its theme, in both directions, whatever its
    speed was before. *)
Theorem monster_speed_limit (maze : Maze.t) (m m' : Monster.t)
        (r r' : RandGen) :
  Monster.is_flying m || Monster.is_walking m = true ->
  monster_step maze m r = Ok (m', r') ->
  exists th,
    theme_of (Monster.theme_n m) = Some th
    /\ Monster.theme_n m' = Monster.theme_n m
    /\ Fl.gt (Monster.vx m') (monster_max_speed th) = false
    /\ Fl.lt (Monster.vx m') (Fl.fneg (monster_max_speed th)) = false.
Proof.
  intros Hkind Hrun.
  apply (sat_elim any_error (monster_step maze m) r
           (fun m' _ =>
              exists th,
                theme_of (Monster.theme_n m) = Some th
                /\ Monster.theme_n m' = Monster.theme_n m
                /\ Fl.gt (Monster.vx m') (monster_max_speed th) = false
                /\ Fl.lt (Monster.vx m') (Fl.fneg (monster_max_speed th))
                   = false) m' r'); [|exact Hrun].
  unfold monster_step.
  replace (negb (Monster.is_flying m) && negb (Monster.is_walking m))
    with false by (destruct (Monster.is_flying m), (Monster.is_walking m);
                   (reflexivity || discriminate)).
  cbv zeta.
  apply sat_bind, sat_lift_opt; [intros ll _ | intros _; exact I].
  apply sat_bind, sat_lift_opt; [intros lr _ | intros _; exact I].
  apply sat_bind. eapply sat_weaken; [apply sat_any|].
  intros control r1 _. cbv beta.
  apply sat_bind, sat_lift_opt; [intros th Hth | intros _; exact I].
  apply sat_bind.
  eapply sat_weaken; [apply monster_jump_frame|].
  intros m1 r2 [Hvx Hn]. cbv beta. apply sat_ret.
  exists th. split; [exact Hth|].
  destruct (clip_abs_within
              (Fl.fadd (Fl.fmul MONSTER_MIXRATE control)
                       (Fl.fmul (Fl.fsub (Fl.f_of_int 1) MONSTER_MIXRATE)
                                (Monster.vx m)))
              (monster_max_speed th) (theme_speed_nonneg _ _ Hth))
    as [Hup Hdown].
  assert (Hv : Monster.vx
                 (if 0 <? Monster.pause m1
                  then Monster.with_pause m1 (Monster.pause m1 - 1)
                  else Monster.with_y
                         (Monster.with_x m1
                            (Fl.fadd (Monster.x m1) (Monster.vx m1)))
                         (Fl.fadd (Monster.y m1) (Monster.vy m1)))
               = Monster.vx m1
               /\ Monster.theme_n
                    (if 0 <? Monster.pause m1
                     then Monster.with_pause m1 (Monster.pause m1 - 1)
                     else Monster.with_y
                            (Monster.with_x m1
                               (Fl.fadd (Monster.x m1) (Monster.vx m1)))
                            (Fl.fadd (Monster.y m1) (Monster.vy m1)))
                  = Monster.theme_n m1).
  { destruct (0 <? Monster.pause m1); split; reflexivity. }
  destruct Hv as [Hv1 Hv2].
  cbn [Monster.vx Monster.theme_n Monster.with_prev_x Monster.with_prev_y].
  rewrite Hv1, Hv2, Hvx, Hn.
  cbn [Monster.vx Monster.theme_n Monster.with_vx].
  split; [reflexivity|]. split; [exact Hup | exact Hdown].
Qed.

Lemma monster_speed_limit_witness :
  exists m' r' th,
    monster_step corridor mouse (RandGen_seed 0) = Ok (m', r')
    /\ theme_of 4 = Some th
    /\ Fl.gt (Monster.vx m') (monster_max_speed th) = false
    /\ Fl.lt (Monster.vx m') (Fl.fneg (monster_max_speed th)) = false.
Proof.
  destruct (monster_step corridor mouse (RandGen_seed 0))
    as [[m' r']|e] eqn:Hrun; [|vm_compute in Hrun; discriminate Hrun].
  destruct (monster_speed_limit corridor mouse m' (RandGen_seed 0) r'
              eq_refl Hrun) as (th & Hth & _ & Hup & Hdown).
  exists m', r', th. split; [reflexivity|]. split; [exact Hth|].
  split; [exact Hup | exact Hdown].
Defined.

(** ** The age of the agent and the timeout *)

Lemma eat_coin_time_alive (n : Z) (x y : Z) :
  keeps (fun s => Agent.time_alive (sim_agent s) = n) (eat_coin x y).
Proof. unfold eat_coin. repeat eat1. Qed.

Lemma eat_coin_terminated (x y : Z) :
  keeps (fun s => Maze.is_terminated (sim_maze s) = true) (eat_coin x y).
Proof.
  unfold eat_coin.
  repeat lazymatch goal with
    | |- keeps _ (sim_set _ _ _) =>
        intros s H; unfold sat, sim_set, Maze.set_elem;
        destruct (_ && _); [exact H | exact I]
    | |- keeps _ (on_maze _) =>
        unfold on_maze; apply keeps_modify; intros ? ?;
        first [assumption | reflexivity]
    | _ => eat1
    end.
Qed.

(** X20: a tick of the agent that returns has made the agent one tick
    older; if its age is then above [LEVEL_TIMEOUT] the maze is
    terminated; and a maze that was terminated before the tick is still
    terminated after it. *)
Theorem agent_step_timeout (cfg : Config) (s s' : Sim) :
  agent_step cfg s = Ok (tt, s') ->
  Agent.time_alive (sim_agent s')
  = wrap32 (Agent.time_alive (sim_agent s) + 1)
  /\ (LEVEL_TIMEOUT cfg < Agent.time_alive (sim_agent s') ->
      Maze.is_terminated (sim_maze s') = true)
  /\ (Maze.is_terminated (sim_maze s) = true ->
      Maze.is_terminated (sim_maze s') = true).
Proof.
  intro Hrun.
  set (n := wrap32 (Agent.time_alive (sim_agent s) + 1)).
  assert (H12 : Agent.time_alive (sim_agent s') = n
                /\ (LEVEL_TIMEOUT cfg < n ->
                    Maze.is_terminated (sim_maze s') = true)).
  { apply (sat_elim any_error (agent_step cfg) s
             (fun _ s' => Agent.time_alive (sim_agent s') = n
                          /\ (LEVEL_TIMEOUT cfg < n ->
                              Maze.is_terminated (sim_maze s') = true))
             tt s'); [|exact Hrun].
    unfold agent_step. apply sat_bind. unfold on_agent. apply sat_modify.
    cbv zeta. apply sat_bind.
    eapply sat_weaken.
    - apply (keeps_step_coinrun
               (fun s0 => Agent.time_alive (sim_agent s0) = n)).
      + intros s0 a' (_ & _ & Ht) H. cbn [sim_agent]. congruence.
      + apply eat_coin_time_alive.
      + reflexivity.
    - intros [] s2 H2. cbv beta.
      apply sat_bind. unfold the_agent. apply sat_bind, sat_get, sat_ret.
      rewrite H2. apply sat_when.
      + intros _. unfold on_maze. apply sat_modify.
        split; [exact H2 | intros _; reflexivity].
      + intro Hge. apply Z.ltb_ge in Hge. split; [exact H2 | lia]. }
  destruct H12 as [H1 H2]. split; [exact H1|]. split.
  - rewrite H1. exact H2.
  - intro Hterm.
    apply (sat_elim any_error (agent_step cfg) s
             (fun _ s' => Maze.is_terminated (sim_maze s') = true) tt s');
      [|exact Hrun].
    apply (keeps_agent_step
             (fun s0 => Maze.is_terminated (sim_maze s0) = true)).
    + intros s0 a' _ H. exact H.
    + intros s0 H. reflexivity.
    + apply eat_coin_terminated.
    + intros s0 k H. exact H.
    + exact Hterm.
Qed.

Lemma agent_step_timeout_witness :
  exists s',
    agent_step default_config walker = Ok (tt, s')
    /\ Agent.time_alive (sim_agent s') = 1.
Proof.
  destruct (agent_step default_config walker) as [[[] s']|e] eqn:Hrun;
    [|vm_compute in Hrun; discriminate Hrun].
  exists s'. split; [reflexivity|].
  apply (agent_step_timeout default_config walker s' Hrun).
Defined.

(** ** One instance through a worker *)

Lemma on_sim_flags {A} (c : M Sim A) (s s' : State.t) (a : A) :
  on_sim c s = Ok (a, s') ->
  State.agent_ready s' = State.agent_ready s
  /\ State.step_in_progress s' = State.step_in_progress s
  /\ State.belongs_to s' = State.belongs_to s
  /\ State.state_n s' = State.state_n s
  /\ State.game_id s' = State.game_id s.
Proof.
  unfold on_sim. destruct (c (State.sim s)) as [[a' x]|e]; [|discriminate].
  intro H. injection H as _ <-. repeat split.
Qed.

(** a tick leaves the two flags of the protocol, the owner and the
    number of the instance alone *)
Lemma state_tick_flags (cfg : Config) (u : Maze.uninit) (s s' : State.t)
      (r r' : RandGen) :
  state_tick cfg u s r = Ok (s', r') ->
  State.agent_ready s' = State.agent_ready s
  /\ State.step_in_progress s' = State.step_in_progress s
  /\ State.belongs_to s' = State.belongs_to s
  /\ State.state_n s' = State.state_n s.
Proof.
  unfold state_tick.
  destruct (Agent.collect_data (State.agent s) && _).
  - cbv zeta. destruct (1 <? _).
    + set (s0 := State.with_agent s _).
      destruct (on_sim (agent_step cfg) s0) as [[[] s1]|e] eqn:Hs;
        [|discriminate].
      intro H. injection H as <- <-.
      destruct (on_sim_flags _ _ _ _ Hs) as (H1 & H2 & H3 & H4 & _).
      repeat split; assumption.
    + intro H. injection H as <- <-. repeat split.
  - cbv zeta.
    destruct (step_monsters cfg _ _ r) as [[[ms x] r1]|e]; [|discriminate].
    set (s1 := State.with_agent _ _).
    assert (F1 : State.agent_ready s1 = State.agent_ready s
                 /\ State.step_in_progress s1 = State.step_in_progress s
                 /\ State.belongs_to s1 = State.belongs_to s
                 /\ State.state_n s1 = State.state_n s)
      by (repeat split).
    clearbody s1.
    assert (Hstep : forall s2,
               (if Agent.is_killed (State.agent s1) then Ok (tt, s1)
                else on_sim (agent_step cfg) s1) = Ok (tt, s2) ->
               State.agent_ready s2 = State.agent_ready s
               /\ State.step_in_progress s2 = State.step_in_progress s
               /\ State.belongs_to s2 = State.belongs_to s
               /\ State.state_n s2 = State.state_n s).
    { intros s2. destruct (Agent.is_killed (State.agent s1)).
      - intro H. injection H as <-. exact F1.
      - intro Hs. destruct (on_sim_flags _ _ _ _ Hs) as (H1 & H2 & H3 & H4 & _).
        destruct F1 as (G1 & G2 & G3 & G4).
        repeat split; congruence. }
    destruct (if Agent.is_killed (State.agent s1) then Ok (tt, s1)
              else on_sim (agent_step cfg) s1) as [[[] s2]|e];
      [|discriminate].
    destruct (Hstep s2 eq_refl) as (G1 & G2 & G3 & G4).
    destruct (Maze.is_terminated _).
    + destruct (state_reset cfg u s2 r1) as [[s3 r2]|e] eqn:Hreset;
        [|discriminate].
      intro H. injection H as <- <-.
      destruct (state_reset_inv cfg u s2 s3 r1 r2 Hreset)
        as (_ & _ & R1 & R2 & R3 & R4 & _).
      cbn. repeat split; congruence.
    + intro H. injection H as <- <-. cbn. repeat split; assumption.
Qed.

Section Worker.
Context (cfg : Config) (i : nat) (addr : nat).

Lemma worker_takes (u : Maze.uninit) (e : Engine) (rest : list nat) :
  all_threads e !! i = Some Waiting ->
  shutdown_flag e = false ->
  workers_todo e = addr :: rest ->
  worker_step cfg u i e
  = Ok (tt, with_all_threads (with_workers_todo e rest)
              (<[ i := Taken addr ]> (all_threads e))).
Proof.
  intros Hw Hs Hq. unfold worker_step, bind, get. rewrite Hw, Hs, Hq.
  reflexivity.
Qed.

Lemma worker_marks (u : Maze.uninit) (e : Engine) (s : State.t) :
  all_threads e !! i = Some (Taken addr) ->
  heap e !! addr = Some s ->
  State.agent_ready s = true ->
  worker_step cfg u i e
  = Ok (tt, with_all_threads
              (with_heap e (<[ addr := State.with_step_in_progress s true ]>
                              (heap e)))
              (<[ i := Marked addr ]> (all_threads e))).
Proof.
  intros Hw Hs Hr. unfold worker_step, bind, get. rewrite Hw.
  rewrite (load_some _ _ _ Hs). unfold assert. rewrite Hr. reflexivity.
Qed.

Lemma worker_ticks (u : Maze.uninit) (e : Engine) (s s' : State.t)
      (v : VectorOfStates) (r' : RandGen) :
  all_threads e !! i = Some (Marked addr) ->
  heap e !! addr = Some s ->
  h2s e !! State.belongs_to s = Some v ->
  state_tick cfg u s (global_rand_gen e) = Ok (s', r') ->
  worker_step cfg u i e
  = Ok (tt, with_all_threads
              (with_heap (with_global_rand_gen e r')
                         (<[ addr := s' ]> (heap e)))
              (<[ i := Stepped addr ]> (all_threads e))).
Proof.
  intros Hw Hs Hv Ht. unfold worker_step, bind, get. rewrite Hw.
  rewrite (load_some _ _ _ Hs). rewrite Hv.
  unfold on_global. rewrite Ht. reflexivity.
Qed.

Lemma worker_drops (u : Maze.uninit) (e : Engine) (s : State.t) :
  all_threads e !! i = Some (Marked addr) ->
  heap e !! addr = Some s ->
  h2s e !! State.belongs_to s = None ->
  worker_step cfg u i e
  = Ok (tt, with_all_threads e (<[ i := Waiting ]> (all_threads e))).
Proof.
  intros Hw Hs Hv. unfold worker_step, bind, get. rewrite Hw.
  rewrite (load_some _ _ _ Hs). rewrite Hv. reflexivity.
Qed.

Lemma worker_finishes (u : Maze.uninit) (e : Engine) (s : State.t) :
  all_threads e !! i = Some (Stepped addr) ->
  heap e !! addr = Some s ->
  State.agent_ready s = true -> State.step_in_progress s = true ->
  worker_step cfg u i e
  = Ok (tt, with_all_threads
              (with_heap e
                 (<[ addr := State.with_step_in_progress
                               (State.with_agent_ready s false) false ]>
                    (heap e)))
              (<[ i := Waiting ]> (all_threads e))).
Proof.
  intros Hw Hs Hr Hp. unfold worker_step, bind, get. rewrite Hw.
  rewrite (load_some _ _ _ Hs). unfold assert. rewrite Hr, Hp. reflexivity.
Qed.

End Worker.

Lemma insert_then_lookup {A} (l : list A) (i : nat) (x y : A) :
  l !! i = Some x -> <[ i := y ]> l !! i = Some y.
Proof.
  intro H. apply list_lookup_insert_eq. apply (lookup_lt_Some _ _ _ H).
Qed.

(** X21: a waiting worker takes the instance at the head of the work
    queue and, in four steps, marks it as in progress, runs one tick on
    it and clears its ready and in-progress flags; nothing else in the
    queue, in the other instances or in the other workers changes, and
    the worker waits again. *)
Theorem worker_cycle (cfg : Config) (u0 u1 u u3 : Maze.uninit) (i addr : nat)
        (e : Engine) (rest : list nat) (s s' : State.t)
        (v : VectorOfStates) (r' : RandGen) :
  all_threads e !! i = Some Waiting ->
  shutdown_flag e = false ->
  workers_todo e = addr :: rest ->
  heap e !! addr = Some s ->
  State.agent_ready s = true ->
  h2s e !! State.belongs_to s = Some v ->
  state_tick cfg u (State.with_step_in_progress s true) (global_rand_gen e)
  = Ok (s', r') ->
  exists e',
    run cfg [Work i u0; Work i u1; Work i u; Work i u3] e = Ok (tt, e')
    /\ all_threads e' = all_threads e
    /\ workers_todo e' = rest
    /\ heap e'
       = <[ addr := State.with_step_in_progress
                      (State.with_agent_ready s' false) false ]> (heap e)
    /\ global_rand_gen e' = r'
    /\ h2s e' = h2s e /\ handle_seq e' = handle_seq e
    /\ shutdown_flag e' = false.
Proof.
  intros Hw Hs Hq Hh Hr Hv Ht.
  destruct (state_tick_flags _ _ _ _ _ _ Ht) as (F1 & F2 & _).
  cbn in F1, F2.
  pose proof (worker_takes cfg i addr u0 e rest Hw Hs Hq) as S1.
  set (e1 := with_all_threads _ _) in S1.
  pose proof (worker_marks cfg i addr u1 e1 s
                (insert_then_lookup _ _ _ _ Hw) Hh Hr) as S2.
  set (e2 := with_all_threads _ _) in S2.
  pose proof (worker_ticks cfg i addr u e2
                (State.with_step_in_progress s true) s' v r'
                (insert_then_lookup _ _ _ _ (insert_then_lookup _ _ _ _ Hw))
                (lookup_insert_eq _ _ _) Hv Ht) as S3.
  set (e3 := with_all_threads _ _) in S3.
  pose proof (worker_finishes cfg i addr u3 e3 s'
                (insert_then_lookup _ _ _ _
                   (insert_then_lookup _ _ _ _
                      (insert_then_lookup _ _ _ _ Hw)))
                (lookup_insert_eq _ _ _) ltac:(congruence) ltac:(congruence))
    as S4.
  set (e4 := with_all_threads _ _) in S4.
  exists e4. split.
  { cbn [run do_event]. unfold bind. rewrite S1, S2, S3, S4. reflexivity. }
  subst e4 e3 e2 e1.
  cbn [all_threads with_all_threads workers_todo with_workers_todo heap
       with_heap global_rand_gen with_global_rand_gen h2s handle_seq
       shutdown_flag].
  split.
  { rewrite !list_insert_insert_eq. apply list_insert_id. exact Hw. }
  split; [reflexivity|]. split; [rewrite !insert_insert_eq; reflexivity|].
  split; [reflexivity|]. split; [reflexivity|]. split; [reflexivity|].
  exact Hs.
Qed.

Lemma worker_cycle_witness :
  exists e',
    run default_config
        [Work 0 no_junk; Work 0 no_junk; Work 0 no_junk; Work 0 no_junk]
        queued_engine = Ok (tt, e')
    /\ workers_todo e' = [1%nat] /\ all_threads e' = [Waiting].
Proof.
  destruct (state_tick default_config no_junk
              (State.with_step_in_progress
                 (submitted 1 (example_state 0 1 false)) true)
              (RandGen_seed 0)) as [[s' r']|err] eqn:Ht;
    [|vm_compute in Ht; discriminate Ht].
  destruct (worker_cycle default_config no_junk no_junk no_junk no_junk
              0 0 queued_engine [1%nat]
              (submitted 1 (example_state 0 1 false)) s' example_group r')
    as (e' & Hrun & Hth & Hq & _);
    [reflexivity | reflexivity | reflexivity | vm_compute; reflexivity
    | reflexivity | reflexivity | exact Ht |].
  exists e'. split; [exact Hrun|]. split; [exact Hq | exact Hth].
Defined.

(** X22: an instance whose group was closed while it was queued is taken
    off the queue and marked as in progress, but the worker then drops it
    without a tick and waits again: the instance keeps its ready and
    in-progress flags, and the random generator is not used. *)
Theorem worker_drops_closed_group (cfg : Config) (u0 u1 u2 : Maze.uninit)
        (i addr : nat) (e : Engine) (rest : list nat) (s : State.t) :
  all_threads e !! i = Some Waiting ->
  shutdown_flag e = false ->
  workers_todo e = addr :: rest ->
  heap e !! addr = Some s ->
  State.agent_ready s = true ->
  h2s e !! State.belongs_to s = None ->
  exists e',
    run cfg [Work i u0; Work i u1; Work i u2] e = Ok (tt, e')
    /\ all_threads e' = all_threads e
    /\ workers_todo e' = rest
    /\ heap e' = <[ addr := State.with_step_in_progress s true ]> (heap e)
    /\ global_rand_gen e' = global_rand_gen e
    /\ h2s e' = h2s e.
Proof.
  intros Hw Hs Hq Hh Hr Hv.
  pose proof (worker_takes cfg i addr u0 e rest Hw Hs Hq) as S1.
  set (e1 := with_all_threads _ _) in S1.
  pose proof (worker_marks cfg i addr u1 e1 s
                (insert_then_lookup _ _ _ _ Hw) Hh Hr) as S2.
  set (e2 := with_all_threads _ _) in S2.
  pose proof (worker_drops cfg i addr u2 e2
                (State.with_step_in_progress s true)
                (insert_then_lookup _ _ _ _ (insert_then_lookup _ _ _ _ Hw))
                (lookup_insert_eq _ _ _) Hv) as S3.
  set (e3 := with_all_threads _ _) in S3.
  exists e3. split.
  { cbn [run do_event]. unfold bind. rewrite S1, S2, S3. reflexivity. }
  subst e3 e2 e1.
  cbn [all_threads with_all_threads workers_todo with_workers_todo heap
       with_heap global_rand_gen h2s].
  split.
  { rewrite !list_insert_insert_eq. apply list_insert_id. exact Hw. }
  repeat split.
Qed.

Lemma worker_drops_closed_group_witness :
  exists e' s,
    run default_config [Work 0 no_junk; Work 0 no_junk; Work 0 no_junk]
        closed_engine = Ok (tt, e')
    /\ workers_todo e' = [1%nat]
    /\ heap e' !! 0%nat = Some s
    /\ State.agent_ready s = true /\ State.step_in_progress s = true
    /\ State.time s = 7.
Proof.
  destruct (worker_drops_closed_group default_config no_junk no_junk no_junk
              0 0 closed_engine [1%nat]
              (submitted 1 (example_state 0 1 false)))
    as (e' & Hrun & _ & Hq & Hheap & _);
    [reflexivity | reflexivity | reflexivity | vm_compute; reflexivity
    | reflexivity | reflexivity |].
  exists e'. eexists. split; [exact Hrun|]. split; [exact Hq|].
  split; [rewrite Hheap; apply lookup_insert_eq|].
  repeat split.
Defined.

(** ** The first wait on a new group *)

(** X23: the first [vec_wait] on a group that [vec_create] has just
    made (the buffers have room for its [nenvs >= 0] instances) does not
    wait: it returns at once and reports, for every instance, the reward
    0, no end of an episode and a new level.  And [vec_create] does make
    the group, under the current value of the handle counter, in a process
    whose theme tables [init] has loaded, with a seeded global generator
    and a level count that is an int (and, when a level set is in use, a
    positive one with at least that many seeds in the set). *)
Theorem first_wait_after_create (cfg : Config) (junk : Z -> State.t)
        (u : Z -> Maze.uninit) (n : Z) (collect_data : bool)
        (zoom : Fl.float) (e : Engine) (b : buffers) :
  0 <= n ->
  room_for (Z.to_nat n) b ->
  (forall h e1,
     vec_create cfg junk u n collect_data zoom e = Ok (h, e1) ->
     h = handle_seq e
     /\ exists e2 b',
          vec_wait h b e1 = Ok (Some b', e2)
          /\ forall j, (j < Z.to_nat n)%nat ->
               rew b' !! j = Some Fl.fzero
               /\ done b' !! j = Some false
               /\ new_level b' !! j = Some true)
  /\ (themes_loaded cfg ->
      is_seeded (global_rand_gen e) = true ->
      NUM_LEVELS cfg < 2^31 ->
      (USE_LEVEL_SET cfg = true ->
       0 < NUM_LEVELS cfg <= Z.of_nat (length (LEVEL_SEEDS cfg))) ->
      exists e1,
        vec_create cfg junk u n collect_data zoom e = Ok (handle_seq e, e1)).
Proof.
  intros Hn0 Hroom. split.
  2: { intros Hloaded Hs Hn Hset.
       destruct (vec_create_spec cfg junk u n collect_data zoom e
                   Hloaded Hs Hn Hset Hn0) as (e1 & v & Hcreate & _).
       exists e1. exact Hcreate. }
  intros h e1 Hcreate.
  destruct (vec_create_inv cfg junk u n collect_data zoom e h e1 Hn0 Hcreate)
    as (-> & v & Hh & _ & Hnenvs & _ & Hst & (_ & Hnd & Hlive) & _
        & _ & Hnew).
  split; [reflexivity|].
  assert (Hlen : length (states v) = Z.to_nat n)
    by (rewrite Hst; apply length_seq).
  assert (Hk : Z.to_nat (nenvs v) = length (states v)) by lia.
  assert (Hfind : h2s e1 !! handle_seq e = Some v)
    by (rewrite Hh; apply lookup_insert_eq).
  destruct (all_steps_completed_spec (length (states v)) 0 v e1
              ltac:(lia) Hlive) as (c & Hc & Hiff).
  assert (Hidle : c = true).
  { apply Hiff. intros j a s _ Ha Hsa.
    destruct (Hnew j a Ha) as (s0 & Hs0 & Hcr).
    rewrite Hsa in Hs0. injection Hs0 as <-.
    destruct Hcr as (_ & _ & Hready & _). exact Hready. }
  subst c.
  destruct (copy_out_spec (length (states v)) 0 v b e1
              ltac:(lia) Hnd Hlive ltac:(rewrite Hlen; exact Hroom))
    as (b' & e2 & Hrun & _ & _ & _ & _ & Hin & _ & _).
  exists e2, b'. split.
  { unfold vec_wait, vstate_find, bind, get. rewrite Hfind. unfold ret.
    rewrite Hk. change 0 with (Z.of_nat 0). rewrite Hc.
    cbn [negb]. rewrite Hrun. reflexivity. }
  intros j Hj.
  destruct (lookup_lt_is_Some_2 (states v) j ltac:(lia)) as [a Ha].
  destruct (Hnew j a Ha) as (s & Hsa & Hcr).
  destruct (Hin j a s ltac:(lia) Ha Hsa) as (H1 & H2 & H3 & _).
  destruct Hcr as (_ & _ & _ & _ & _ & _ & _ & _ & Hnl & _ & _ & _ & Hrew
                   & Hover & _).
  rewrite H1, H2, H3, Hnl, Hrew, Hover. repeat split.
Qed.

Lemma first_wait_after_create_witness :
  exists e1 e2 b',
    vec_create loaded_config (fun _ => example_state 0 1 false)
               (fun _ => zero_memory) 2 false (Fl.f_of_int 1) example_engine
    = Ok (101, e1)
    /\ vec_wait 101 example_buffers e1 = Ok (Some b', e2)
    /\ new_level b' !! 1%nat = Some true.
Proof.
  destruct (first_wait_after_create loaded_config
              (fun _ => example_state 0 1 false) (fun _ => zero_memory) 2
              false (Fl.f_of_int 1) example_engine example_buffers)
    as (Hwait & Hmade); [lia | repeat split; simpl; lia |].
  destruct Hmade as (e1 & Hc);
    [unfold themes_loaded; simpl; lia | reflexivity | vm_compute; reflexivity
    | intro H; discriminate H |].
  destruct (Hwait _ e1 Hc) as (_ & e2 & b' & Hw & Hb).
  exists e1, e2, b'. split; [exact Hc|]. split; [exact Hw|].
  apply (Hb 1%nat). simpl. lia.
Defined.

(** ** The monsters of a level *)








(** ** The audio labels of a frame *)

Lemma clear_labels_nine (z0 z1 z2 z3 z4 z5 z6 z7 z8 : Z) :
  clear_labels (Z.to_nat AUDIO_MAP_SIZE) 0 [z0; z1; z2; z3; z4; z5; z6; z7; z8]
  = Some [0; 0; 0; 0; 0; 0; 0; 0; 0].
Proof. reflexivity. Qed.

Lemma clear_labels_short (k : nat) (i : Z) (buf : list Z) :
  0 <= i -> (Z.to_nat i <= length buf < Z.to_nat i + k)%nat ->
  clear_labels k i buf = None.
Proof.
  revert i buf. induction k as [|k IH]; intros i buf Hi Hlen; [lia|].
  cbn [clear_labels]. unfold poke.
  destruct ((0 <=? i) && (i <? Z.of_nat (length buf))) eqn:Hin;
    [|reflexivity].
  apply andb_true_iff in Hin as [_ Hin]. apply Z.ltb_lt in Hin.
  cbn [mbind option_bind]. apply IH; [lia|]. rewrite length_insert. lia.
Qed.

Lemma label_power_up_mode (b : bool) (z0 z1 z2 z3 z4 z5 z6 z7 z8 : Z) :
  (if b then set_label "power_up_mode" [z0; z1; z2; z3; z4; z5; z6; z7; z8] else Some [z0; z1; z2; z3; z4; z5; z6; z7; z8])
  = Some [z0; z1; z2; z3; z4; z5; z6; z7; if b then 1 else z8].
Proof. destruct b; reflexivity. Qed.

Lemma label_gem (b : bool) (z0 z1 z2 z3 z4 z5 z6 z7 z8 : Z) :
  (if b then set_label "gem" [z0; z1; z2; z3; z4; z5; z6; z7; z8] else Some [z0; z1; z2; z3; z4; z5; z6; z7; z8])
  = Some [z0; z1; z2; z3; z4; z5; z6; if b then 1 else z7; z8].
Proof. destruct b; reflexivity. Qed.

Lemma label_killed (b : bool) (z0 z1 z2 z3 z4 z5 z6 z7 z8 : Z) :
  (if b then set_label "killed" [z0; z1; z2; z3; z4; z5; z6; z7; z8] else Some [z0; z1; z2; z3; z4; z5; z6; z7; z8])
  = Some [z0; z1; z2; z3; if b then 1 else z4; z5; z6; z7; z8].
Proof. destruct b; reflexivity. Qed.

Lemma label_killed_monster (b : bool) (z0 z1 z2 z3 z4 z5 z6 z7 z8 : Z) :
  (if b then set_label "killed_monster" [z0; z1; z2; z3; z4; z5; z6; z7; z8] else Some [z0; z1; z2; z3; z4; z5; z6; z7; z8])
  = Some [z0; z1; z2; z3; z4; z5; if b then 1 else z6; z7; z8].
Proof. destruct b; reflexivity. Qed.

Lemma label_bumped_head (b : bool) (z0 z1 z2 z3 z4 z5 z6 z7 z8 : Z) :
  (if b then set_label "bumped_head" [z0; z1; z2; z3; z4; z5; z6; z7; z8] else Some [z0; z1; z2; z3; z4; z5; z6; z7; z8])
  = Some [z0; z1; z2; if b then 1 else z3; z4; z5; z6; z7; z8].
Proof. destruct b; reflexivity. Qed.

Lemma label_coin (b : bool) (z0 z1 z2 z3 z4 z5 z6 z7 z8 : Z) :
  (if b then set_label "coin" [z0; z1; z2; z3; z4; z5; z6; z7; z8] else Some [z0; z1; z2; z3; z4; z5; z6; z7; z8])
  = Some [z0; z1; z2; z3; z4; if b then 1 else z5; z6; z7; z8].
Proof. destruct b; reflexivity. Qed.

Lemma movement_labels (A B C : bool) (z3 z4 z5 z6 z7 z8 : Z) :
  (if A then set_label "ladder_climbing" [0; 0; 0; z3; z4; z5; z6; z7; z8]
   else if B then set_label "jump" [0; 0; 0; z3; z4; z5; z6; z7; z8]
   else if C then set_label "walk" [0; 0; 0; z3; z4; z5; z6; z7; z8]
   else Some [0; 0; 0; z3; z4; z5; z6; z7; z8])
  = Some [b2z A; b2z (negb A && B); b2z (negb A && negb B && C);
          z3; z4; z5; z6; z7; z8].
Proof. destruct A, B, C; reflexivity. Qed.

Lemma paint_audio_nine (z0 z1 z2 z3 z4 z5 z6 z7 z8 : Z) (state : State.t) :
  paint_audio_seg_map_buf [z0; z1; z2; z3; z4; z5; z6; z7; z8] state
  = Some
      (let a := State.agent state in
       let A := Agent.ladder_mode a && (Z.rem (Agent.time_alive a) 5 =? 0) in
       let B := Fl.eq (Agent.vy a) (Maze.max_jump (State.maze state)) in
       let C := Fl.ne (Agent.vx a) Fl.fzero && Fl.eq (Agent.vy a) Fl.fzero
                && Fl.eq (Agent.spring a) Fl.fzero
                && (Z.rem (Agent.time_alive a) 5 =? 0) in
       [b2z A; b2z (negb A && B); b2z (negb A && negb B && C);
        b2z (Agent.bumped_head a);
        b2z (Agent.is_killed a
             && (Agent.killed_animation_frame_cnt a =? DEATH_ANIM_LENGTH));
        b2z (Agent.collected_coin a); b2z (Agent.killed_monster a);
        b2z (Agent.collected_gem a); b2z (Agent.power_up_mode a)]).
Proof.
  unfold paint_audio_seg_map_buf. cbv zeta.
  rewrite clear_labels_nine.
  cbn [mbind option_bind].
  rewrite label_power_up_mode. cbn [mbind option_bind].
  rewrite label_gem. cbn [mbind option_bind].
  rewrite label_killed. cbn [mbind option_bind].
  rewrite label_killed_monster. cbn [mbind option_bind].
  rewrite label_bumped_head. cbn [mbind option_bind].
  rewrite label_coin. cbn [mbind option_bind].
  rewrite movement_labels. reflexivity.
Qed.

Lemma b2z_01 (b : bool) : b2z b = 0 \/ b2z b = 1.
Proof. destruct b; [right | left]; reflexivity. Qed.

Lemma b2z_one (b : bool) : Some (b2z b) = Some 1 <-> b = true.
Proof. destruct b; split; intro H; (reflexivity || discriminate H). Qed.

(** X25: on a buffer of [AUDIO_MAP_SIZE] entries the audio map of a frame
    is always produced; it has 9 entries, each 0 or 1, and does not depend
    on what the buffer held; the entries 3 to 8 are the events of the
    tick (bumped head, killed, coin, killed monster, gem, power-up), and
    of the three movement sounds (ladder, jump, walk: entries 0 to 2) at
    most one is set.  A shorter buffer is overrun. *)
Theorem audio_map_labels (buf buf2 : list Z) (state : State.t) :
  length buf = 9%nat -> length buf2 = 9%nat ->
  (exists out,
    paint_audio_seg_map_buf buf state = Some out
    /\ paint_audio_seg_map_buf buf2 state = Some out
    /\ length out = 9%nat
    /\ Forall (fun v => v = 0 \/ v = 1) out
    /\ (out !! 3%nat = Some 1 <-> Agent.bumped_head (State.agent state) = true)
    /\ (out !! 4%nat = Some 1 <->
        Agent.is_killed (State.agent state) = true
        /\ Agent.killed_animation_frame_cnt (State.agent state)
           = DEATH_ANIM_LENGTH)
    /\ (out !! 5%nat = Some 1 <->
        Agent.collected_coin (State.agent state) = true)
    /\ (out !! 6%nat = Some 1 <->
        Agent.killed_monster (State.agent state) = true)
    /\ (out !! 7%nat = Some 1 <->
        Agent.collected_gem (State.agent state) = true)
    /\ (out !! 8%nat = Some 1 <->
        Agent.power_up_mode (State.agent state) = true)
    /\ (forall i j, (i < 3)%nat -> (j < 3)%nat ->
                    out !! i = Some 1 -> out !! j = Some 1 -> i = j))
  /\ forall short, (length short < 9)%nat ->
                   paint_audio_seg_map_buf short state = None.
Proof.
  intros H1 H2. split.
  - do 10 (destruct buf as [|? buf]; try discriminate H1).
    do 10 (destruct buf2 as [|? buf2]; try discriminate H2).
    rewrite !paint_audio_nine. cbv zeta.
    set (A := Agent.ladder_mode _ && _).
    set (B := Fl.eq _ (Maze.max_jump _)).
    set (C := Fl.ne _ _ && _ && _ && _).
    eexists. split; [reflexivity|]. split; [reflexivity|].
    split; [reflexivity|].
    split; [repeat (constructor; [apply b2z_01|]); constructor|].
    cbn [lookup list_lookup].
    split; [apply b2z_one|]. split.
    { rewrite b2z_one, andb_true_iff, Z.eqb_eq. reflexivity. }
    do 4 (split; [apply b2z_one|]).
    intros i j Hi Hj.
    destruct i as [|[|[|i]]]; [| | |lia];
      (destruct j as [|[|[|j]]]; [| | |lia]);
      cbn [lookup list_lookup]; rewrite !b2z_one;
      destruct A, B, C; cbn; intros; congruence.
  - intros short Hshort. unfold paint_audio_seg_map_buf. cbv zeta.
    rewrite (clear_labels_short _ 0 short); [reflexivity | lia |].
    change (Z.to_nat 0) with 0%nat.
    change (Z.to_nat AUDIO_MAP_SIZE) with 9%nat. lia.
Qed.

Lemma audio_map_labels_witness :
  exists out,
    paint_audio_seg_map_buf [7; 7; 7; 7; 7; 7; 7; 7; 7]
      (State.with_agent (example_state 0 1 false)
         (Agent.with_collected_coin
            (State.agent (example_state 0 1 false)) true))
    = Some out
    /\ out !! 5%nat = Some 1 /\ length out = 9%nat.
Proof.
  destruct (audio_map_labels [7; 7; 7; 7; 7; 7; 7; 7; 7]
              [0; 0; 0; 0; 0; 0; 0; 0; 0]
              (State.with_agent (example_state 0 1 false)
                 (Agent.with_collected_coin
                    (State.agent (example_state 0 1 false)) true))
              eq_refl eq_refl)
    as [(out & Hrun & _ & Hlen & _ & _ & _ & Hcoin & _) _].
  exists out. split; [exact Hrun|]. split; [|exact Hlen].
  apply Hcoin. reflexivity.
Defined.

(** ** [initialize_args] *)

Lemma draw_level_seeds_total (k : nat) (r : RandGen) :
  is_seeded r = true ->
  exists seeds r', draw_level_seeds k r = Ok (seeds, r')
                   /\ length seeds = k /\ is_seeded r' = true.
Proof.
  revert r. induction k as [|k IH]; intros r Hs.
  - exists [], r. repeat split. exact Hs.
  - destruct (randint0_total r Hs) as (x & r1 & Hx & Hs1).
    destruct (IH r1 Hs1) as (rest & r2 & Hrest & Hlen & Hs2).
    exists (x :: rest), r2. split.
    + cbn [draw_level_seeds]. unfold bind at 1. rewrite Hx.
      unfold bind at 1. rewrite Hrest. reflexivity.
    + split; [cbn; lia | exact Hs2].
Qed.

Lemma initialize_args_run (num_levels a1 a2 tss rand_seed timeout : Z)
      (more : list Z) (f0 f1 f2 f3 f4 f5 f6 : Fl.float)
      (fmore : list Fl.float) (cfg : Config) (r : RandGen) :
  exists seeds,
    initialize_args
      (num_levels :: a1 :: a2 :: tss :: rand_seed :: timeout :: more)
      (f0 :: f1 :: f2 :: f3 :: f4 :: f5 :: f6 :: fmore) cfg r
    = Ok ({| AIR_CONTROL := f0; BUMP_HEAD_PENALTY := f1; DIE_PENALTY := f2;
             KILL_MONSTER_REWARD := f3; JUMP_PENALTY := f4;
             SQUAT_PENALTY := f5; JITTER_SQUAT_PENALTY := f6;
             LEVEL_TIMEOUT := timeout; NUM_LEVELS := num_levels;
             USE_LEVEL_SET :=
               (0 <? num_levels) && negb (tss =? -1) || USE_LEVEL_SET cfg;
             LEVEL_SEEDS :=
               if (0 <? num_levels) && negb (tss =? -1) then seeds
               else LEVEL_SEEDS cfg;
             PAINT_VEL_INFO := a1 =? 1;
             USE_DATA_AUGMENTATION := a2 =? 1;
             ground_themes := ground_themes cfg;
             player_themesl := player_themesl cfg |},
          RandGen_seed (if tss =? -1 then rand_seed else tss))
    /\ length seeds = Z.to_nat num_levels.
Proof.
  destruct (draw_level_seeds_total (Z.to_nat num_levels) (RandGen_seed tss)
              eq_refl) as (seeds & r1 & Hdraw & Hlen & _).
  exists seeds. split; [|exact Hlen].
  unfold initialize_args.
  change (at_index (num_levels :: a1 :: a2 :: tss :: rand_seed :: timeout
                      :: more) 0) with (@ret RandGen Z num_levels).
  change (at_index (num_levels :: a1 :: a2 :: tss :: rand_seed :: timeout
                      :: more) 1) with (@ret RandGen Z a1).
  change (at_index (num_levels :: a1 :: a2 :: tss :: rand_seed :: timeout
                      :: more) 2) with (@ret RandGen Z a2).
  change (at_index (num_levels :: a1 :: a2 :: tss :: rand_seed :: timeout
                      :: more) 5) with (@ret RandGen Z timeout).
  change (at_index (num_levels :: a1 :: a2 :: tss :: rand_seed :: timeout
                      :: more) 3) with (@ret RandGen Z tss).
  change (at_index (num_levels :: a1 :: a2 :: tss :: rand_seed :: timeout
                      :: more) 4) with (@ret RandGen Z rand_seed).
  change (at_index (f0 :: f1 :: f2 :: f3 :: f4 :: f5 :: f6 :: fmore) 0)
    with (@ret RandGen Fl.float f0).
  change (at_index (f0 :: f1 :: f2 :: f3 :: f4 :: f5 :: f6 :: fmore) 1)
    with (@ret RandGen Fl.float f1).
  change (at_index (f0 :: f1 :: f2 :: f3 :: f4 :: f5 :: f6 :: fmore) 2)
    with (@ret RandGen Fl.float f2).
  change (at_index (f0 :: f1 :: f2 :: f3 :: f4 :: f5 :: f6 :: fmore) 3)
    with (@ret RandGen Fl.float f3).
  change (at_index (f0 :: f1 :: f2 :: f3 :: f4 :: f5 :: f6 :: fmore) 4)
    with (@ret RandGen Fl.float f4).
  change (at_index (f0 :: f1 :: f2 :: f3 :: f4 :: f5 :: f6 :: fmore) 5)
    with (@ret RandGen Fl.float f5).
  change (at_index (f0 :: f1 :: f2 :: f3 :: f4 :: f5 :: f6 :: fmore) 6)
    with (@ret RandGen Fl.float f6).
  unfold bind, ret.
  destruct ((0 <? num_levels) && negb (tss =? -1)) eqn:Hset.
  - unfold reseed at 1. rewrite Hdraw.
    destruct (tss =? -1); [rewrite andb_false_r in Hset; discriminate|].
    reflexivity.
  - destruct (tss =? -1); reflexivity.
Qed.

(** X26: in a process that has no level set yet, and with a level count
    that is an [int], [initialize_args] returns: it stores the arguments
    in the globals, uses a level set exactly when the level count is
    positive and the seed of the training set is not -1 -- the set then
    has that many seeds --, leaves the theme tables alone, and leaves the
    global generator freshly seeded with the seed of the training set, or
    with [rand_seed] when that is -1, whatever state the generator was in.
    After it every [state_reset] succeeds when [init] has loaded the
    theme tables, and stops at its assertion when no player theme is
    loaded. *)
Theorem initialize_args_then_reset
        (num_levels a1 a2 tss rand_seed timeout : Z) (more : list Z)
        (f0 f1 f2 f3 f4 f5 f6 : Fl.float) (fmore : list Fl.float)
        (cfg : Config) (r : RandGen) :
  USE_LEVEL_SET cfg = false -> num_levels < 2^31 ->
  exists cfg' r',
    initialize_args
      (num_levels :: a1 :: a2 :: tss :: rand_seed :: timeout :: more)
      (f0 :: f1 :: f2 :: f3 :: f4 :: f5 :: f6 :: fmore) cfg r
    = Ok (cfg', r')
    /\ r' = RandGen_seed (if tss =? -1 then rand_seed else tss)
    /\ NUM_LEVELS cfg' = num_levels
    /\ PAINT_VEL_INFO cfg' = (a1 =? 1)
    /\ USE_DATA_AUGMENTATION cfg' = (a2 =? 1)
    /\ LEVEL_TIMEOUT cfg' = timeout
    /\ AIR_CONTROL cfg' = f0 /\ BUMP_HEAD_PENALTY cfg' = f1
    /\ DIE_PENALTY cfg' = f2 /\ KILL_MONSTER_REWARD cfg' = f3
    /\ JUMP_PENALTY cfg' = f4 /\ SQUAT_PENALTY cfg' = f5
    /\ JITTER_SQUAT_PENALTY cfg' = f6
    /\ USE_LEVEL_SET cfg' = (0 <? num_levels) && negb (tss =? -1)
    /\ (USE_LEVEL_SET cfg' = true ->
        length (LEVEL_SEEDS cfg') = Z.to_nat num_levels)
    /\ player_themesl cfg' = player_themesl cfg
    /\ ground_themes cfg' = ground_themes cfg
    /\ (themes_loaded cfg ->
        forall u s, exists s' r'',
          state_reset cfg' u s r' = Ok (s', r'') /\ reset_from s s')
    /\ (player_themesl cfg = [] ->
        forall u s, state_reset cfg' u s r' = Err AssertionFailed).
Proof.
  intros Hfresh Hn.
  destruct (initialize_args_run num_levels a1 a2 tss rand_seed timeout more
              f0 f1 f2 f3 f4 f5 f6 fmore cfg r) as (seeds & Hrun & Hlen).
  eexists. eexists. split; [exact Hrun|].
  cbn [NUM_LEVELS LEVEL_TIMEOUT AIR_CONTROL BUMP_HEAD_PENALTY DIE_PENALTY
       KILL_MONSTER_REWARD JUMP_PENALTY SQUAT_PENALTY JITTER_SQUAT_PENALTY
       USE_LEVEL_SET LEVEL_SEEDS PAINT_VEL_INFO USE_DATA_AUGMENTATION
       player_themesl ground_themes].
  rewrite Hfresh, orb_false_r.
  do 13 (split; [reflexivity|]).
  split; [intros ->; exact Hlen|].
  do 2 (split; [reflexivity|]).
  split.
  - intros Hloaded u s.
    match goal with
    | |- exists s' r'', state_reset ?c u s ?g = _ /\ _ =>
        destruct (state_reset_spec c u s g) as (s' & r'' & Hreset & _ & Hfrom)
    end.
    + exact Hloaded.
    + reflexivity.
    + exact Hn.
    + cbn [NUM_LEVELS USE_LEVEL_SET LEVEL_SEEDS].
      intros Hset. rewrite Hset.
      apply andb_true_iff in Hset as [Hpos _]. apply Z.ltb_lt in Hpos. lia.
    + exists s', r''. split; [exact Hreset | exact Hfrom].
  - intros Hnone u s. apply state_reset_needs_init. exact Hnone.
Qed.

Lemma initialize_args_then_reset_witness :
  exists cfg' r',
    initialize_args [3; 0; 0; 17; 5; 600]
      [Fl.flit 15 100; Fl.fzero; Fl.fzero; Fl.f_of_int 5; Fl.fzero; Fl.fzero;
       Fl.fzero] loaded_config RandGen_new
    = Ok (cfg', r')
    /\ r' = RandGen_seed 17 /\ USE_LEVEL_SET cfg' = true
    /\ length (LEVEL_SEEDS cfg') = 3%nat
    /\ exists s' r'',
         state_reset cfg' zero_memory (example_state 0 1 false) r'
         = Ok (s', r'').
Proof.
  destruct (initialize_args_then_reset 3 0 0 17 5 600 []
              (Fl.flit 15 100) Fl.fzero Fl.fzero (Fl.f_of_int 5) Fl.fzero
              Fl.fzero Fl.fzero [] loaded_config RandGen_new)
    as (cfg' & r' & Hrun & Hr & _ & _ & _ & _ & _ & _ & _ & _ & _ & _ & _
        & Hset & Hlen & _ & _ & Hreset & _);
    [reflexivity | lia |].
  exists cfg', r'. split; [exact Hrun|]. split; [exact Hr|].
  split; [exact Hset|]. split; [apply Hlen; exact Hset|].
  destruct (Hreset ltac:(unfold themes_loaded; simpl; lia) zero_memory
                   (example_state 0 1 false)) as (s' & r'' & Hok & _).
  exists s', r''. exact Hok.
Defined.

Lemma randint_empty_range (low : Z) (r : RandGen) :
  is_seeded r = true -> randint low low r = Err DivisionByZero.
Proof.
  intro Hs. destruct (draw_seeded r) as (x & r' & Hd & _ & _).
  unfold randint, bind, get, assert. rewrite Hs. unfold ret.
  cbv beta iota. rewrite Hd. cbv beta iota.
  rewrite Z.sub_diag. reflexivity.
Qed.

(** X27: [USE_LEVEL_SET] is set but never cleared: when a call of
    [initialize_args] that made a level set is followed by a call with
    the level count 0, the level set stays in use with no level in it,
    and every [state_reset] then divides by zero in
    [randint(0, NUM_LEVELS)] (in a process without a player theme, where
    [init] has not loaded the images, it stops before that, at its
    assertion). *)
Theorem reinitialize_keeps_level_set
        (n1 a1 a2 tss1 rs1 t1 : Z) (more1 : list Z)
        (b1 b2 tss2 rs2 t2 : Z) (more2 : list Z)
        (f0 f1 f2 f3 f4 f5 f6 : Fl.float) (fmore : list Fl.float)
        (cfg : Config) (r : RandGen) :
  0 < n1 -> tss1 <> -1 ->
  exists cfg1 r1 cfg2 r2,
    initialize_args (n1 :: a1 :: a2 :: tss1 :: rs1 :: t1 :: more1)
      (f0 :: f1 :: f2 :: f3 :: f4 :: f5 :: f6 :: fmore) cfg r
    = Ok (cfg1, r1)
    /\ initialize_args (0 :: b1 :: b2 :: tss2 :: rs2 :: t2 :: more2)
         (f0 :: f1 :: f2 :: f3 :: f4 :: f5 :: f6 :: fmore) cfg1 r1
       = Ok (cfg2, r2)
    /\ USE_LEVEL_SET cfg2 = true /\ NUM_LEVELS cfg2 = 0
    /\ forall u s,
         state_reset cfg2 u s r2
         = Err match player_themesl cfg with
               | [] => AssertionFailed
               | _ :: _ => DivisionByZero
               end.
Proof.
  intros Hpos Htss.
  destruct (initialize_args_run n1 a1 a2 tss1 rs1 t1 more1
              f0 f1 f2 f3 f4 f5 f6 fmore cfg r) as (seeds1 & Hrun1 & _).
  match type of Hrun1 with
  | _ = Ok (?c, ?g) => set (cfg1 := c) in *; set (r1 := g) in *
  end.
  destruct (initialize_args_run 0 b1 b2 tss2 rs2 t2 more2
              f0 f1 f2 f3 f4 f5 f6 fmore cfg1 r1) as (seeds2 & Hrun2 & _).
  match type of Hrun2 with
  | _ = Ok (?c, ?g) => set (cfg2 := c) in *; set (r2 := g) in *
  end.
  exists cfg1, r1, cfg2, r2. split; [exact Hrun1|]. split; [exact Hrun2|].
  assert (Hset : USE_LEVEL_SET cfg2 = true).
  { subst cfg2 cfg1. cbn [USE_LEVEL_SET].
    replace (0 <? n1) with true by (symmetry; apply Z.ltb_lt; lia).
    replace (tss1 =? -1) with false by (symmetry; apply Z.eqb_neq; lia).
    reflexivity. }
  split; [exact Hset|]. split; [reflexivity|].
  intros u s.
  assert (Hsame : player_themesl cfg2 = player_themesl cfg) by reflexivity.
  destruct (player_themesl cfg) as [|p ps].
  { apply state_reset_needs_init. exact Hsame. }
  unfold state_reset. rewrite assert_then, Hsame.
  change (0 <? Z.of_nat (length (p :: ps))) with true. cbv iota.
  unfold bind at 1.
  unfold pick_level_seed. rewrite Hset.
  change (NUM_LEVELS cfg2) with 0. unfold bind at 1.
  rewrite randint_empty_range; [reflexivity|].
  subst r2. reflexivity.
Qed.

Lemma reinitialize_keeps_level_set_witness :
  exists cfg1 r1 cfg2 r2,
    initialize_args [3; 0; 0; 17; 5; 600]
      [Fl.flit 15 100; Fl.fzero; Fl.fzero; Fl.f_of_int 5; Fl.fzero; Fl.fzero;
       Fl.fzero] loaded_config RandGen_new
    = Ok (cfg1, r1)
    /\ initialize_args [0; 0; 0; -1; 5; 600]
         [Fl.flit 15 100; Fl.fzero; Fl.fzero; Fl.f_of_int 5; Fl.fzero;
          Fl.fzero; Fl.fzero] cfg1 r1
       = Ok (cfg2, r2)
    /\ state_reset cfg2 zero_memory (example_state 0 1 false) r2
       = Err DivisionByZero.
Proof.
  destruct (reinitialize_keeps_level_set 3 0 0 17 5 600 [] 0 0 (-1) 5 600 []
              (Fl.flit 15 100) Fl.fzero Fl.fzero (Fl.f_of_int 5) Fl.fzero
              Fl.fzero Fl.fzero [] loaded_config RandGen_new)
    as (cfg1 & r1 & cfg2 & r2 & H1 & H2 & _ & _ & Hfail); [lia | lia |].
  exists cfg1, r1, cfg2, r2. split; [exact H1|]. split; [exact H2|].
  apply Hfail.
Defined.
